(** * Translation of TensorFlow graphs to nGraph functions (ovtf_builder.cc)

    A shallow embedding of the builder of openvino_tensorflow: the static
    value resolver, the constant materializer, the operator registry with
    the unary, binary, identity, bias-add and fused handlers, and the
    driver [TranslateGraph], followed by the properties of the
    specification that concern them. *)

From Stdlib Require Import ZArith List Ascii String Lia Permutation DecimalString.
From Stdlib Require Import Sorted OrderedTypeEx.
From stdpp Require Import base tactics option list gmap strings sorting.

Local Open Scope string_scope.
Local Open Scope list_scope.
Local Open Scope Z_scope.

(** ** Status values and outcomes of a call *)

(** The error codes of [tensorflow::Status] that the builder produces. *)
Inductive Code : Type :=
| INVALID_ARGUMENT
| NOT_FOUND
| UNIMPLEMENTED
| INTERNAL.

#[global] Instance Code_eq_dec : EqDecision Code.
Proof. solve_decision. Defined.

(** What a call of the builder can do: return a value with an OK status,
    return a non-OK status, leave by a C++ exception, or stop the process
    (a failed CHECK, or behaviour that C++ leaves undefined such as an
    unchecked [operator[]] out of range). *)
Inductive Outcome (A : Type) : Type :=
| Ok (a : A)
| Err (code : Code) (msg : string)
| Throws (what : string)
| Crash (why : string).
Arguments Ok {A} a.
Arguments Err {A} code msg.
Arguments Throws {A} what.
Arguments Crash {A} why.

Definition obind {A B} (x : Outcome A) (f : A -> Outcome B) : Outcome B :=
  match x with
  | Ok a => f a
  | Err c m => Err c m
  | Throws w => Throws w
  | Crash w => Crash w
  end.

Declare Scope outcome_scope.
Delimit Scope outcome_scope with outcome.
Notation "x <-? e ;; k" := (obind e (fun x => k))
  (at level 100, e at next level, right associativity) : outcome_scope.
Local Open Scope outcome_scope.

Definition is_ok {A} (x : Outcome A) : bool :=
  match x with Ok _ => true | _ => false end.

(** [==] on [std::string]. *)
Infix "==s" := String.eqb (at level 70, no associativity).

(** [std::to_string] on integers. *)
Definition to_string (z : Z) : string := NilZero.string_of_int (Z.to_int z).

(** ** TensorFlow element types *)

Inductive DataType : Type :=
| DT_INVALID | DT_FLOAT | DT_DOUBLE | DT_INT32 | DT_UINT8 | DT_INT16 | DT_INT8
| DT_STRING | DT_COMPLEX64 | DT_INT64 | DT_BOOL | DT_QINT8 | DT_QUINT8
| DT_QINT32 | DT_BFLOAT16 | DT_QINT16 | DT_QUINT16 | DT_UINT16
| DT_COMPLEX128 | DT_HALF | DT_RESOURCE | DT_VARIANT | DT_UINT32 | DT_UINT64.

#[global] Instance DataType_eq_dec : EqDecision DataType.
Proof. solve_decision. Defined.

(** The number of an enumerator, as [operator<<] prints it. *)
Definition DataType_number (dt : DataType) : Z :=
  match dt with
  | DT_INVALID => 0 | DT_FLOAT => 1 | DT_DOUBLE => 2 | DT_INT32 => 3
  | DT_UINT8 => 4 | DT_INT16 => 5 | DT_INT8 => 6 | DT_STRING => 7
  | DT_COMPLEX64 => 8 | DT_INT64 => 9 | DT_BOOL => 10 | DT_QINT8 => 11
  | DT_QUINT8 => 12 | DT_QINT32 => 13 | DT_BFLOAT16 => 14 | DT_QINT16 => 15
  | DT_QUINT16 => 16 | DT_UINT16 => 17 | DT_COMPLEX128 => 18 | DT_HALF => 19
  | DT_RESOURCE => 20 | DT_VARIANT => 21 | DT_UINT32 => 22 | DT_UINT64 => 23
  end.

Definition DataType_Name (dt : DataType) : string :=
  match dt with
  | DT_INVALID => "DT_INVALID" | DT_FLOAT => "DT_FLOAT"
  | DT_DOUBLE => "DT_DOUBLE" | DT_INT32 => "DT_INT32"
  | DT_UINT8 => "DT_UINT8" | DT_INT16 => "DT_INT16" | DT_INT8 => "DT_INT8"
  | DT_STRING => "DT_STRING" | DT_COMPLEX64 => "DT_COMPLEX64"
  | DT_INT64 => "DT_INT64" | DT_BOOL => "DT_BOOL" | DT_QINT8 => "DT_QINT8"
  | DT_QUINT8 => "DT_QUINT8" | DT_QINT32 => "DT_QINT32"
  | DT_BFLOAT16 => "DT_BFLOAT16" | DT_QINT16 => "DT_QINT16"
  | DT_QUINT16 => "DT_QUINT16" | DT_UINT16 => "DT_UINT16"
  | DT_COMPLEX128 => "DT_COMPLEX128" | DT_HALF => "DT_HALF"
  | DT_RESOURCE => "DT_RESOURCE" | DT_VARIANT => "DT_VARIANT"
  | DT_UINT32 => "DT_UINT32" | DT_UINT64 => "DT_UINT64"
  end.

(** The C++ element types the templates of the builder are instantiated at.
    A value of any of them is kept as an integer: the number itself for the
    integer types, 0 or 1 for [bool], and the IEEE bit pattern for [float]
    and [double] (the code modelled here copies such values and never
    computes with them). *)
Inductive CType : Type :=
| c_float | c_double | c_int8 | c_int16 | c_qint8 | c_quint8 | c_quint16
| c_int32 | c_int64 | c_uint8 | c_uint16 | c_uint32 | c_uint64 | c_bool.

#[global] Instance CType_eq_dec : EqDecision CType.
Proof. solve_decision. Defined.

(** [DataTypeToEnum<T>::value]. *)
Definition DataTypeToEnum (T : CType) : DataType :=
  match T with
  | c_float => DT_FLOAT | c_double => DT_DOUBLE | c_int8 => DT_INT8
  | c_int16 => DT_INT16 | c_qint8 => DT_QINT8 | c_quint8 => DT_QUINT8
  | c_quint16 => DT_QUINT16 | c_int32 => DT_INT32 | c_int64 => DT_INT64
  | c_uint8 => DT_UINT8 | c_uint16 => DT_UINT16 | c_uint32 => DT_UINT32
  | c_uint64 => DT_UINT64 | c_bool => DT_BOOL
  end.

(** [sizeof(VecT)], where [VecT] is [T] but for [bool], stored as [char]. *)
Definition sizeof (T : CType) : Z :=
  match T with
  | c_float => 4 | c_double => 8 | c_int8 => 1 | c_int16 => 2 | c_qint8 => 1
  | c_quint8 => 1 | c_quint16 => 2 | c_int32 => 4 | c_int64 => 8
  | c_uint8 => 1 | c_uint16 => 2 | c_uint32 => 4 | c_uint64 => 8
  | c_bool => 1
  end.

Definition wrap_unsigned (bits z : Z) : Z := z mod 2 ^ bits.

Definition wrap_signed (bits z : Z) : Z :=
  (z + 2 ^ (bits - 1)) mod 2 ^ bits - 2 ^ (bits - 1).

(** Conversion of an integer value to the element type [T] (for the two
    floating types the value is already a bit pattern of that type). A
    [bool] destination is the [char] the vector stores. *)
Definition cast_to (T : CType) (z : Z) : Z :=
  match T with
  | c_float => wrap_unsigned 32 z
  | c_double => wrap_unsigned 64 z
  | c_int8 | c_qint8 | c_bool => wrap_signed 8 z
  | c_int16 => wrap_signed 16 z
  | c_int32 => wrap_signed 32 z
  | c_int64 => wrap_signed 64 z
  | c_uint8 | c_quint8 => wrap_unsigned 8 z
  | c_uint16 | c_quint16 => wrap_unsigned 16 z
  | c_uint32 => wrap_unsigned 32 z
  | c_uint64 => wrap_unsigned 64 z
  end.

(** The values an element of type [T] can hold. *)
Definition representable (T : CType) (z : Z) : Prop := cast_to T z = z.

#[global] Instance representable_dec T z : Decision (representable T z).
Proof. unfold representable. apply _. Defined.

(** ** Tensor protos, tensors, attributes and nodes of the source graph *)

Record TensorProto : Type := {
  tp_dtype : DataType;
  has_tensor_shape : bool;
  tensor_shape : list Z;           (* tensor_shape().dim(i).size() *)
  tensor_content : list Byte.byte;
  float_val : list Z;
  double_val : list Z;
  int_val : list Z;
  int64_val : list Z;
  bool_val : list bool
}.

(** The default instance protobuf hands out for an unset message field. *)
Definition default_TensorProto : TensorProto :=
  {| tp_dtype := DT_INVALID; has_tensor_shape := false; tensor_shape := [];
     tensor_content := []; float_val := []; double_val := [];
     int_val := []; int64_val := []; bool_val := [] |}.

(** A runtime tensor: element type, shape and the flat data. *)
Record Tensor : Type := {
  t_dtype : DataType;
  t_shape : list Z;
  t_data : list Z
}.

Inductive AttrValue : Type :=
| AttrInt (i : Z)
| AttrFloat (bits : Z)
| AttrBool (b : bool)
| AttrString (s : string)
| AttrType (t : DataType)
| AttrTensor (t : TensorProto)
| AttrStringList (l : list string)
| AttrIntList (l : list Z).

(** A node of the source graph. [in_edges] lists the data inputs in input
    order, each as the name of the producing node and the index of the
    output it reads. *)
Record Node : Type := {
  name : string;
  type_string : string;
  attrs : gmap string AttrValue;
  in_edges : list (string * nat)
}.

Definition num_inputs (op : Node) : Z := Z.of_nat (length (in_edges op)).

(** Node classes of TensorFlow's [Node]. *)
Definition IsSource (n : Node) : bool := name n ==s "_SOURCE".
Definition IsSink (n : Node) : bool := name n ==s "_SINK".
Definition IsArg (n : Node) : bool :=
  (type_string n ==s "_Arg") || (type_string n ==s "_DeviceArg").
Definition IsRetval (n : Node) : bool :=
  (type_string n ==s "_Retval") || (type_string n ==s "_DeviceRetval").
Definition IsControlFlow (n : Node) : bool :=
  existsb (String.eqb (type_string n))
    ["Switch"; "_SwitchN"; "RefSwitch"; "Merge"; "RefMerge"; "Enter";
     "RefEnter"; "Exit"; "RefExit"; "NextIteration"; "RefNextIteration"].

(** [GetNodeAttr] at the attribute types the builder reads. A missing
    attribute is NotFound, one of another kind InvalidArgument. *)
Definition attr_missing {A} (key : string) : Outcome A :=
  Err NOT_FOUND ("No attr named '" +:+ key +:+ "' in NodeDef").
Definition attr_mismatch {A} (key : string) : Outcome A :=
  Err INVALID_ARGUMENT ("AttrValue had unexpected kind for attr '" +:+ key +:+ "'").

Definition INT_MAX : Z := 2147483647.
Definition INT_MIN : Z := -2147483648.

Definition GetNodeAttr_int (op : Node) (key : string) : Outcome Z :=
  match attrs op !! key with
  | None => attr_missing key
  | Some (AttrInt i) =>
      if (INT_MIN <=? i) && (i <=? INT_MAX) then Ok i
      else Err INVALID_ARGUMENT
             ("Attr " +:+ key +:+ " has value " +:+ to_string i +:+
              " out of range for an int32")
  | Some _ => attr_mismatch key
  end.

Definition GetNodeAttr_type (op : Node) (key : string) : Outcome DataType :=
  match attrs op !! key with
  | None => attr_missing key
  | Some (AttrType t) => Ok t
  | Some _ => attr_mismatch key
  end.

Definition GetNodeAttr_string (op : Node) (key : string) : Outcome string :=
  match attrs op !! key with
  | None => attr_missing key
  | Some (AttrString s) => Ok s
  | Some _ => attr_mismatch key
  end.

Definition GetNodeAttr_bool (op : Node) (key : string) : Outcome bool :=
  match attrs op !! key with
  | None => attr_missing key
  | Some (AttrBool b) => Ok b
  | Some _ => attr_mismatch key
  end.

Definition GetNodeAttr_float (op : Node) (key : string) : Outcome Z :=
  match attrs op !! key with
  | None => attr_missing key
  | Some (AttrFloat f) => Ok f
  | Some _ => attr_mismatch key
  end.

Definition GetNodeAttr_strings (op : Node) (key : string) : Outcome (list string) :=
  match attrs op !! key with
  | None => attr_missing key
  | Some (AttrStringList l) => Ok l
  | Some _ => attr_mismatch key
  end.

Definition GetNodeAttr_ints (op : Node) (key : string) : Outcome (list Z) :=
  match attrs op !! key with
  | None => attr_missing key
  | Some (AttrIntList l) =>
      if forallb (fun i => (INT_MIN <=? i) && (i <=? INT_MAX)) l then Ok l
      else Err INVALID_ARGUMENT
             ("Attr " +:+ key +:+ " has a value out of range for an int32")
  | Some _ => attr_mismatch key
  end.

(** [node.attr().at(key)] on the protobuf map of a NodeDef: a missing key
    fails a CHECK. The accessors [type()] and [tensor()] of an attribute
    value of another kind give the default. *)
Definition attr_at (op : Node) (key : string) : Outcome AttrValue :=
  match attrs op !! key with
  | Some a => Ok a
  | None => Crash ("key not found: " +:+ key)
  end.

Definition attr_type (a : AttrValue) : DataType :=
  match a with AttrType t => t | _ => DT_INVALID end.

Definition attr_tensor (a : AttrValue) : TensorProto :=
  match a with AttrTensor t => t | _ => default_TensorProto end.

(** The source graph is the list of its nodes, in the order in which they
    were added. A node reaches the nodes that feed it through its edges;
    here the producing node is found by its (unique) name. *)
Definition index_of_graph (g : list Node) : gmap string Node :=
  list_to_map (map (fun n => (name n, n)) g).

(** [Node::input_node]. *)
Definition input_node (g : gmap string Node) (op : Node) (idx : Z) : Outcome Node :=
  if (idx <? 0) || (num_inputs op <=? idx) then
    Err INVALID_ARGUMENT
      ("Invalid input_index: " +:+ to_string idx +:+ ". Number of inputs: " +:+
       to_string (num_inputs op))
  else
    match in_edges op !! Z.to_nat idx with
    | Some (src, _) =>
        match g !! src with
        | Some n => Ok n
        | None =>
            Err NOT_FOUND
              ("Could not find input edge " +:+ to_string idx +:+ " for " +:+ name op)
        end
    | None =>
        Err NOT_FOUND
          ("Could not find input edge " +:+ to_string idx +:+ " for " +:+ name op)
    end.

(** ** Decoding the payload of a constant *)

(** What the build and the machine fix: the version macros of TensorFlow,
    and what a read of a repeated field past its end finds there. *)
Record Platform : Type := {
  TF_MAJOR_VERSION : Z;
  TF_MINOR_VERSION : Z;
  past_the_end : Z -> Z
}.

(** [RepeatedField::operator[]]: no bounds check in a release build. *)
Definition RepeatedField_get (pf : Platform) (field : list Z) (i : Z) : Z :=
  match field !! Z.to_nat i with
  | Some v => v
  | None => past_the_end pf i
  end.

(** [checkpoint::MutableTensorProtoData<T>]: the repeated field that holds
    the values of element type [T] (TensorFlow's SaveTypeTraits; the two
    wide unsigned types have no specialization and are never asked for). *)
Definition MutableTensorProtoData (T : CType) (tensor : TensorProto) : list Z :=
  match T with
  | c_float => float_val tensor
  | c_double => double_val tensor
  | c_int64 => int64_val tensor
  | c_bool => map Z.b2z (bool_val tensor)
  | _ => int_val tensor
  end.

(** The value of a group of bytes read as a little-endian number. *)
Definition le_value (bs : list Byte.byte) : Z :=
  fold_right (fun b acc => Z.of_N (Byte.to_N b) + 256 * acc) 0 bs.

Fixpoint chunks {A} (fuel size : nat) (l : list A) : list (list A) :=
  match fuel, l with
  | O, _ | _, [] => []
  | S fuel', _ => take size l :: chunks fuel' size (drop size l)
  end.

(** [port::CopyToArray] into a vector of [VecT]: each group of
    [sizeof(VecT)] bytes is one element. *)
Definition CopyToArray (T : CType) (content : list Byte.byte) : list Z :=
  map (fun c => cast_to T (le_value c))
      (chunks (length content) (Z.to_nat (sizeof T)) content).

(** [ngraph::shape_size]: the number of elements of a shape. *)
Definition shape_size (sh : list Z) : Z := fold_right Z.mul 1 sh.

(** The loop that multiplies the dimensions into [n_elements] (an int64). *)
Fixpoint count_elements (dims : list Z) (n_elements : Z) : Outcome Z :=
  match dims with
  | [] => Ok n_elements
  | d :: rest =>
      if d <? 0 then
        Err INVALID_ARGUMENT "Const node has empty tensor and an unknown dimension size"
      else count_elements rest (wrap_signed 64 (n_elements * d))
  end.

(** The field the switch on [dt] selects when the byte buffer is empty. *)
Definition typed_val (dt : DataType) (tensor : TensorProto) : option (list Z) :=
  match dt with
  | DT_INT32 => Some (int_val tensor)
  | DT_INT64 => Some (int64_val tensor)
  | DT_FLOAT => Some (float_val tensor)
  | DT_BOOL => Some (map Z.b2z (bool_val tensor))
  | DT_DOUBLE => Some (double_val tensor)
  | _ => None
  end.

(** The loop over [i] of [ValuesFromConstNode]; [fuel] is the number of
    iterations left, [i] the counter (an [int]). *)
Fixpoint fill_loop (pf : Platform) (T : CType) (dt : DataType) (tensor : TensorProto)
    (fuel : nat) (i : Z) (values : list Z) (val_lastsaved : Z) : Outcome (list Z) :=
  match fuel with
  | O => Ok values
  | S fuel' =>
      match typed_val dt tensor with
      | None =>
          Err UNIMPLEMENTED
            ("Encountered unknown element type " +:+ DataType_Name dt +:+
             " on an empty tensor")
      | Some field =>
          let val_size := Z.of_nat (length field) in
          let val_i :=
            if 0 <? val_size then cast_to T (RepeatedField_get pf field i) else 0 in
          let next values' last' :=
            if i =? INT_MAX then Crash "signed overflow of the loop counter"
            else fill_loop pf T dt tensor fuel' (i + 1) values' last' in
          if val_size =? 0 then
            if (1 <? TF_MAJOR_VERSION pf) && (7 <=? TF_MINOR_VERSION pf)
            then next values val_lastsaved
            else Err INVALID_ARGUMENT "Empty values vector"
          else if i <? val_size then next (<[Z.to_nat i := val_i]> values) val_i
          else next (<[Z.to_nat i := val_lastsaved]> values) val_lastsaved
      end
  end.

(** [ValuesFromConstNode<T, VecT>], called on an empty [values]; it gives
    the shape proto and the values. *)
Definition ValuesFromConstNode (pf : Platform) (T : CType) (node : Node)
    : Outcome (list Z * list Z) :=
  if negb (type_string node ==s "Const") then
    Err INVALID_ARGUMENT "Node not a Const"
  else
    a <-? attr_at node "dtype";;
    if negb (bool_decide (attr_type a = DataTypeToEnum T)) then
      Err INVALID_ARGUMENT
        ("Invalid data type defined for Const. Defined: " +:+
         to_string (DataType_number (attr_type a)))
    else
      v <-? attr_at node "value";;
      let tensor := attr_tensor v in
      let tensor_values := MutableTensorProtoData T tensor in
      let shape := tensor_shape tensor in
      if negb (bool_decide (tensor_values = [])) && has_tensor_shape tensor &&
         bool_decide (length shape = 1%nat) &&
         (hd 0 shape =? Z.of_nat (length tensor_values))
      then Ok (shape, map (cast_to T) tensor_values)
      else
        let tensor_content_size := Z.of_nat (length (tensor_content tensor)) in
        if negb (tensor_content_size mod sizeof T =? 0) then
          Crash "tensor_content_size is not a multiple of sizeof(VecT)"
        else if tensor_content_size =? 0 then
          n_elements <-? count_elements shape 1;;
          if n_elements <? 0 then Throws "std::length_error"
          else
            values <-? fill_loop pf T (attr_type a) tensor (Z.to_nat n_elements) 0
                         (replicate (Z.to_nat n_elements) 0) 0;;
            Ok (shape, values)
        else Ok (shape, CopyToArray T (tensor_content tensor)).

(** ** The static value resolver *)

(** Modelled from the spec: [Tensor::FromProto], which is TensorFlow's and
    not part of the sources. Section 4.4 (b) sends a constant-kind producer
    to the decoding of section 4.5: a raw byte buffer whose length must be
    an exact multiple of the element size (a mismatch is fatal), or a value
    list whose length matches the element count of the declared shape, and
    otherwise the per-type fields with their last value repeated over the
    unspecified trailing elements. *)
Definition elem_size (dt : DataType) : option Z :=
  match dt with
  | DT_FLOAT | DT_INT32 | DT_UINT32 => Some 4
  | DT_DOUBLE | DT_INT64 | DT_UINT64 => Some 8
  | DT_INT16 | DT_UINT16 | DT_QUINT16 => Some 2
  | DT_INT8 | DT_UINT8 | DT_QINT8 | DT_QUINT8 | DT_BOOL => Some 1
  | _ => None
  end.

Definition proto_field (p : TensorProto) : list Z :=
  match tp_dtype p with
  | DT_FLOAT => float_val p
  | DT_DOUBLE => double_val p
  | DT_INT64 => int64_val p
  | DT_BOOL => map Z.b2z (bool_val p)
  | _ => int_val p
  end.

Definition fill_forward (n : nat) (field : list Z) : list Z :=
  take n field ++ replicate (n - length field) (default 0 (last field)).

Definition FromProto (p : TensorProto) : option Tensor :=
  match elem_size (tp_dtype p) with
  | None => None
  | Some size =>
      if existsb (fun d => d <? 0) (tensor_shape p) then None
      else
        let n := Z.to_nat (fold_right Z.mul 1 (tensor_shape p)) in
        match tensor_content p with
        | [] =>
            Some {| t_dtype := tp_dtype p; t_shape := tensor_shape p;
                    t_data := fill_forward n (proto_field p) |}
        | _ :: _ =>
            if Z.of_nat (length (tensor_content p)) mod size =? 0 then
              Some {| t_dtype := tp_dtype p; t_shape := tensor_shape p;
                      t_data := map le_value
                                  (chunks (length (tensor_content p)) (Z.to_nat size)
                                     (tensor_content p)) |}
            else None
        end
  end.

(** [GetStaticNodeTensor]. The static input map is a vector of pointers,
    a null pointer being an absent value; [operator[]] does not check the
    index. *)
Definition GetStaticNodeTensor (node : Node) (static_input_map : list (option Tensor))
    : Outcome Tensor :=
  if IsArg node then
    arg_index <-? GetNodeAttr_int node "index";;
    if arg_index <? 0 then Crash "static_input_map[arg_index] out of range"
    else
      match static_input_map !! Z.to_nat arg_index with
      | None => Crash "static_input_map[arg_index] out of range"
      | Some None =>
          Err INTERNAL
            "GetStaticNodeTensor called on _Arg but input tensor is missing from static input map"
      | Some (Some source_tensor) => Ok source_tensor
      end
  else if type_string node ==s "Const" then
    v <-? attr_at node "value";;
    match FromProto (attr_tensor v) with
    | None => Err INTERNAL "GetStaticNodeTensor: Const tensor proto parsing failed"
    | Some result => Ok result
    end
  else
    Err INTERNAL
      ("GetStaticNodeTensor called on node with type " +:+ type_string node +:+
       "; _Arg or Const expected").

Definition NumElements (tensor : Tensor) : Z := Z.of_nat (length (t_data tensor)).

(** The element types [TensorDataToVector] knows how to convert from. *)
Definition convertible_from (dt : DataType) : option CType :=
  match dt with
  | DT_FLOAT => Some c_float | DT_DOUBLE => Some c_double
  | DT_INT8 => Some c_int8 | DT_INT16 => Some c_int16
  | DT_INT32 => Some c_int32 | DT_INT64 => Some c_int64
  | DT_UINT8 => Some c_uint8 | DT_UINT16 => Some c_uint16
  | DT_UINT32 => Some c_uint32 | DT_UINT64 => Some c_uint64
  | DT_BOOL => Some c_bool
  | _ => None
  end.

Section Resolver.

(** The C++ conversion [Tvector(x)] of a value of one element type to
    another one (it rounds floating values; it is the compiler's). *)
Variable convert : CType -> CType -> Z -> Z.

(** [ConvertTensorDataToVector<Ttensor, Tvector>]. *)
Definition ConvertTensorDataToVector (Ttensor Tvector : CType) (tensor : Tensor)
    : list Z :=
  map (convert Ttensor Tvector) (t_data tensor).

(** [TensorDataToVector<T>]. *)
Definition TensorDataToVector (T : CType) (tensor : Tensor) : Outcome (list Z) :=
  let dt := t_dtype tensor in
  if bool_decide (dt = DataTypeToEnum T) then Ok (t_data tensor)
  else
    match convertible_from dt with
    | Some Ttensor => Ok (ConvertTensorDataToVector Ttensor T tensor)
    | None =>
        Err INTERNAL
          ("TensorDataToVector: tensor has element type " +:+ DataType_Name dt +:+
           ", vector has type " +:+ DataType_Name (DataTypeToEnum T) +:+
           "; don't know how to convert")
    end.

(** [GetStaticInputVector<T>]. *)
Definition GetStaticInputVector (g : gmap string Node) (T : CType) (op : Node)
    (input_index : Z) (static_input_map : list (option Tensor)) : Outcome (list Z) :=
  input <-? input_node g op input_index;;
  input_tensor <-? GetStaticNodeTensor input static_input_map;;
  TensorDataToVector T input_tensor.

End Resolver.

(** ** The target graph under construction *)

Inductive ElementType : Type :=
| et_undefined | et_dynamic | et_boolean | et_bf16 | et_f16 | et_f32 | et_f64
| et_i8 | et_i16 | et_i32 | et_i64 | et_u1 | et_u8 | et_u16 | et_u32 | et_u64.

#[global] Instance ElementType_eq_dec : EqDecision ElementType.
Proof. solve_decision. Defined.

(** A dimension of a partial shape is known or not; a partial shape has a
    known rank ([Some]) or not ([None]). *)
Inductive Dimension : Type :=
| DimStatic (n : Z)
| DimDynamic.

Abbreviation PartialShape := (option (list Dimension)).

Definition static_dim (d : Dimension) : option Z :=
  match d with DimStatic n => Some n | DimDynamic => None end.

(** The shape of a fully static partial shape. *)
Definition to_shape (ps : PartialShape) : option (list Z) :=
  match ps with
  | None => None
  | Some ds => mapM static_dim ds
  end.

Definition of_shape (sh : list Z) : PartialShape := Some (map DimStatic sh).

(** An output of a target node: the node (its position in the heap) and
    the index of the output. *)
Abbreviation Output := (nat * nat)%type.

Definition Output_eqb (a b : Output) : bool :=
  (a.1 =? b.1)%nat && (a.2 =? b.2)%nat.

(** What a constructor of a target node is given besides its inputs. *)
Inductive NgArg : Type :=
| ArgZ (z : Z)
| ArgBool (b : bool)
| ArgFloat (bits : Z)
| ArgString (s : string)
| ArgEt (et : ElementType)
| ArgShape (sh : list Z)
| ArgValues (vs : list Z)
| ArgStrings (vs : list string).

(** A node of the target graph. [ng_type] is the class of the opset
    ("Constant", "Add", ...); the unique name of a node is its class and
    its instance number. *)
Record NgNode : Type := {
  ng_type : string;
  ng_args : list NgArg;
  ng_inputs : list Output;
  ng_outputs : list (ElementType * PartialShape);
  friendly_name : option string;
  provenance_tags : gset string;
  needs_default_layout : bool
}.

Definition get_name (id : nat) (node : NgNode) : string :=
  ng_type node +:+ "_" +:+ to_string (Z.of_nat id).

(** A node as its constructor leaves it: no friendly name, no tag. *)
Definition new_node (ty : string) (args : list NgArg) (ins : list Output)
    (outs : list (ElementType * PartialShape)) : NgNode :=
  {| ng_type := ty; ng_args := args; ng_inputs := ins; ng_outputs := outs;
     friendly_name := None; provenance_tags := ∅; needs_default_layout := false |}.

(** What [SetTracingInfo] does to a node: [set_friendly_name] and
    [add_provenance_tag]. *)
Definition with_tracing_info (op_name : string) (id : nat) (node : NgNode) : NgNode :=
  {| ng_type := ng_type node; ng_args := ng_args node; ng_inputs := ng_inputs node;
     ng_outputs := ng_outputs node;
     friendly_name := Some (op_name +:+ "/" +:+ get_name id node);
     provenance_tags := {[op_name]} ∪ provenance_tags node;
     needs_default_layout := needs_default_layout node |}.

(** The state of one translation: the target nodes built so far, shared
    by reference among all that mention them, and the op map from the names
    of source nodes to the outputs built for them. *)
Record State : Type := {
  heap : list NgNode;
  ng_op_map : gmap string (list Output)
}.

Definition M (A : Type) : Type := State -> Outcome (A * State).

Definition ret {A} (a : A) : M A := fun s => Ok (a, s).

Definition bind {A B} (m : M A) (f : A -> M B) : M B :=
  fun s =>
    match m s with
    | Ok (a, s') => f a s'
    | Err c msg => Err c msg
    | Throws w => Throws w
    | Crash w => Crash w
    end.

Definition lift {A} (x : Outcome A) : M A :=
  fun s =>
    match x with
    | Ok a => Ok (a, s)
    | Err c msg => Err c msg
    | Throws w => Throws w
    | Crash w => Crash w
    end.

Definition fail {A} (c : Code) (msg : string) : M A := fun _ => Err c msg.

Definition crash {A} (why : string) : M A := fun _ => Crash why.

Declare Scope build_scope.
Delimit Scope build_scope with build.
Notation "x <- e ;; k" := (bind e (fun x => k))
  (at level 100, e at next level, right associativity) : build_scope.
Notation "e ;; k" := (bind e (fun _ => k))
  (at level 100, right associativity) : build_scope.
Local Open Scope build_scope.

Definition output_info (h : list NgNode) (o : Output)
    : option (ElementType * PartialShape) :=
  node ← h !! o.1; ng_outputs node !! o.2.

(** [Output::get_shape]: it throws on a shape that is not static. *)
Definition get_shape (o : Output) : M (list Z) :=
  fun s =>
    match output_info (heap s) o with
    | None => Crash "output of no node"
    | Some (_, ps) =>
        match to_shape ps with
        | Some sh => Ok (sh, s)
        | None => Throws "get_shape was called on a descriptor::Tensor with dynamic shape"
        end
    end.

Definition get_element_type (o : Output) : M ElementType :=
  fun s =>
    match output_info (heap s) o with
    | None => Crash "output of no node"
    | Some (et, _) => Ok (et, s)
    end.

(** A function of the target graph: its results and parameters (nodes of
    the heap), in order, and its name. *)
Record Function : Type := {
  f_results : list nat;
  f_parameters : list nat;
  f_name : string
}.

(** ** What the builder takes from outside this file *)

(** The utilities of the bridge that live in other files (ovtf_utils,
    layout_conversions), the environment, and nGraph itself: the validation
    and type inference a constructor runs (no answer when it throws), the
    check of a new function, and the passes. The layout helpers return
    nothing in C++ and act on the heap alone. *)
Record Externals : Type := {
  platform : Platform;
  convert : CType -> CType -> Z -> Z;
  TFDataTypeToNGraphElementType : DataType -> Outcome ElementType;
  TFTensorShapeToNGraphShape : list Z -> Outcome (list Z);
  GetEnv : string -> string;
  DebugString : Node -> string;
  validate_and_infer_types :
    list NgNode -> string -> list NgArg -> list Output ->
    option (list (ElementType * PartialShape));
  Function_validate : list NgNode -> Function -> option string;
  run_passes : bool -> bool -> list NgNode -> Function -> option (list NgNode * Function);
  NHWCtoHW : bool -> list Z -> option (list Z);
  NHWCtoNCHW : string -> bool -> Output -> list NgNode -> option (Output * list NgNode);
  NCHWtoNHWC : string -> bool -> Output -> list NgNode -> option (Output * list NgNode);
  Transpose_3_2_0_1 : Output -> list NgNode -> option (Output * list NgNode);
  MakePadding :
    string -> list Z -> list Z -> list Z -> list Z -> option (list Z * list Z);
  other_handlers :
    string -> gmap string Node -> Node -> list (option Tensor) -> M unit
}.

Definition quote : string := String "034"%char "".
Definition newline : string := String "010"%char "".

Definition ValidateInputCount (op : Node) (count : Z) : Outcome unit :=
  if negb (num_inputs op =? count) then
    Err INVALID_ARGUMENT
      (quote +:+ name op +:+ quote +:+ " requires " +:+ to_string count +:+
       " input(s), got " +:+ to_string (num_inputs op) +:+ " instead")
  else Ok tt.

(** [SaveNgOp]: [ng_op_map[op_name].push_back(output_node)]. *)
Definition SaveNgOp (op_name : string) (output_node : Output) : M unit :=
  fun s =>
    Ok (tt, {| heap := heap s;
               ng_op_map :=
                 <[op_name := default [] (ng_op_map s !! op_name) ++ [output_node]]>
                   (ng_op_map s) |}).

(** [GetInputNode]. An edge of TensorFlow carries its source node, of which
    only the name is used. *)
Definition GetInputNode (op : Node) (input_idx : nat) : M Output :=
  fun s =>
    match in_edges op !! input_idx with
    | None => Err NOT_FOUND "Edge not found"
    | Some (tf_input, src_output_idx) =>
        match ng_op_map s !! tf_input with
        | None => Err NOT_FOUND ("Ngraph op not found for " +:+ tf_input)
        | Some ng_op =>
            match ng_op !! src_output_idx with
            | None =>
                Err NOT_FOUND
                  ("Input node not found at index " +:+
                   to_string (Z.of_nat src_output_idx))
            | Some result => Ok (result, s)
            end
        end
    end.

(** [GetInputNodes] at the numbers of arguments it is called with. *)
Definition GetInputNodes1 (op : Node) : M Output :=
  lift (ValidateInputCount op 1);;
  GetInputNode op 0.

Definition GetInputNodes2 (op : Node) : M (Output * Output) :=
  lift (ValidateInputCount op 2);;
  a <- GetInputNode op 0;;
  b <- GetInputNode op 1;;
  ret (a, b).

Definition GetInputNodes3 (op : Node) : M (Output * Output * Output) :=
  lift (ValidateInputCount op 3);;
  a <- GetInputNode op 0;;
  b <- GetInputNode op 1;;
  c <- GetInputNode op 2;;
  ret (a, b, c).

Definition GetInputNodes4 (op : Node) : M (Output * Output * Output * Output) :=
  lift (ValidateInputCount op 4);;
  a <- GetInputNode op 0;;
  b <- GetInputNode op 1;;
  c <- GetInputNode op 2;;
  d <- GetInputNode op 3;;
  ret (a, b, c, d).

Definition GetInputNodes6 (op : Node)
    : M (Output * Output * Output * Output * Output * Output) :=
  lift (ValidateInputCount op 6);;
  a <- GetInputNode op 0;;
  b <- GetInputNode op 1;;
  c <- GetInputNode op 2;;
  d <- GetInputNode op 3;;
  e <- GetInputNode op 4;;
  f <- GetInputNode op 5;;
  ret (a, b, c, d, e, f).

(** The uniform signature of a handler: the graph (for the producers of
    the node), the node and the static input map; it acts on the op map
    and the heap. *)
Abbreviation Handler := (gmap string Node -> Node -> list (option Tensor) -> M unit).

Section Builder.

Variable ext : Externals.

(** [std::make_shared<TOpType>(args...)]: the constructor validates its
    inputs and infers the types of its outputs, and the new node joins
    the heap, untagged. *)
Definition make_shared (ty : string) (args : list NgArg) (ins : list Output)
    : M Output :=
  fun s =>
    match validate_and_infer_types ext (heap s) ty args ins with
    | None => Throws "NodeValidationFailure"
    | Some outs =>
        Ok ((length (heap s), 0%nat),
            {| heap := heap s ++ [new_node ty args ins outs];
               ng_op_map := ng_op_map s |})
    end.

(** [Builder::SetTracingInfo]. *)
Definition SetTracingInfo (op_name : string) (ng_node : Output) : M unit :=
  fun s =>
    match heap s !! ng_node.1 with
    | None => Crash "null node"
    | Some node =>
        Ok (tt,
            {| heap := <[ng_node.1 := with_tracing_info op_name ng_node.1 node]> (heap s);
               ng_op_map := ng_op_map s |})
    end.

(** [ConstructNgNode<TOpType>(op_name, args...)]. *)
Definition ConstructNgNode (op_name ty : string) (args : list NgArg)
    (ins : list Output) : M Output :=
  ng_node <- make_shared ty args ins;;
  SetTracingInfo op_name ng_node;;
  ret ng_node.

(** The layout helpers, which leave by an exception or not at all. *)
Definition on_heap {A} (f : list NgNode -> option (A * list NgNode)) : M A :=
  fun s =>
    match f (heap s) with
    | None => Throws "layout helper"
    | Some (a, h) => Ok (a, {| heap := h; ng_op_map := ng_op_map s |})
    end.

Definition pure_helper {A} (x : option A) : M A :=
  fun s => match x with None => Throws "layout helper" | Some a => Ok (a, s) end.

(** *** Unary, binary and identity handlers *)

Definition TranslateUnaryOp (op : Node) (create_unary_op : Output -> M Output)
    : M unit :=
  ng_input <- GetInputNodes1 op;;
  ng_node <- create_unary_op ng_input;;
  (if negb (Output_eqb ng_node ng_input)
   then SetTracingInfo (name op) ng_node else ret tt);;
  SaveNgOp (name op) ng_node.

(** [TranslateUnaryOp<T>]. *)
Definition TranslateUnaryOpT (T : string) (op : Node) : M unit :=
  TranslateUnaryOp op (fun n => ConstructNgNode (name op) T [] [n]).

Definition TranslateBinaryOp (op : Node)
    (create_binary_op : Output -> Output -> M Output) : M unit :=
  inputs <- GetInputNodes2 op;;
  let '(ng_lhs, ng_rhs) := inputs in
  ng_node <- create_binary_op ng_lhs ng_rhs;;
  (if negb (Output_eqb ng_node ng_lhs) && negb (Output_eqb ng_node ng_rhs)
   then SetTracingInfo (name op) ng_node else ret tt);;
  SaveNgOp (name op) ng_node.

(** [TranslateBinaryOp<T>]. *)
Definition TranslateBinaryOpT (T : string) (op : Node) : M unit :=
  TranslateBinaryOp op
    (fun ng_lhs ng_rhs => ConstructNgNode (name op) T [] [ng_lhs; ng_rhs]).

Definition TranslateIdentityOp (op : Node) : M unit :=
  ng_arg <- GetInputNodes1 op;;
  SaveNgOp (name op) ng_arg.

(** *** Constants *)

(** [MakeConstOp<T, VecT>]. The [TensorShape] built from the proto fails
    a CHECK on a negative dimension. *)
Definition MakeConstOp (T : CType) (et : ElementType) (op : Node) : M Output :=
  decoded <- lift (ValuesFromConstNode (platform ext) T op);;
  let '(shape_proto, const_values) := decoded in
  if existsb (fun d => d <? 0) shape_proto then crash "invalid TensorShapeProto"
  else
    ng_shape <- lift (TFTensorShapeToNGraphShape ext shape_proto);;
    ConstructNgNode (name op) "Constant"
      [ArgEt et; ArgShape ng_shape; ArgValues const_values] [].

(** [Builder::TF_NGRAPH_CONST_MAP]. *)
Definition TF_NGRAPH_CONST_MAP (dt : DataType) : option (CType * ElementType) :=
  match dt with
  | DT_FLOAT => Some (c_float, et_f32)
  | DT_DOUBLE => Some (c_double, et_f64)
  | DT_INT8 => Some (c_int8, et_i8)
  | DT_INT16 => Some (c_int16, et_i16)
  | DT_QINT8 => Some (c_qint8, et_i8)
  | DT_QUINT8 => Some (c_quint8, et_u8)
  | DT_QUINT16 => Some (c_quint16, et_u16)
  | DT_INT32 => Some (c_int32, et_i32)
  | DT_INT64 => Some (c_int64, et_i64)
  | DT_UINT8 => Some (c_uint8, et_u8)
  | DT_UINT16 => Some (c_uint16, et_u16)
  | DT_BOOL => Some (c_bool, et_boolean)
  | _ => None
  end.

Definition TranslateConstOp (op : Node) : M unit :=
  dtype <- lift (GetNodeAttr_type op "dtype");;
  match TF_NGRAPH_CONST_MAP dtype with
  | None =>
      fail UNIMPLEMENTED
        ("Failed to translate Constant with TF type:" +:+ DataType_Name dtype)
  | Some (T, et) =>
      ng_node <- MakeConstOp T et op;;
      SaveNgOp (name op) ng_node
  end.

(** [MakeConstOpForParam<T>]: the status of the conversion is dropped,
    and the vector stays empty when it fails. *)
Definition MakeConstOpForParam (T : CType) (tensor : Tensor) (prov_tag : string)
    (ng_et : ElementType) (ng_shape : list Z) : M Output :=
  let const_values :=
    match TensorDataToVector (convert ext) T tensor with
    | Ok v => v
    | _ => []
    end in
  ConstructNgNode prov_tag "Constant"
    [ArgEt ng_et; ArgShape ng_shape; ArgValues const_values] [].

(** *** BiasAdd, Where, ZerosLike *)

Definition TranslateBiasAddOp (op : Node) : M unit :=
  inputs <- GetInputNodes2 op;;
  let '(ng_input, ng_bias) := inputs in
  let tf_data_format :=
    match GetNodeAttr_string op "data_format" with
    | Ok f => f
    | _ => "NHWC"
    end in
  if negb (tf_data_format ==s "NHWC") && negb (tf_data_format ==s "NCHW") then
    fail INVALID_ARGUMENT "BiasAdd data format is neither NHWC nor NCHW"
  else
    ng_input_shape <- get_shape ng_input;;
    ng_bias_shape <- get_shape ng_bias;;
    if negb (length ng_bias_shape =? 1)%nat then
      fail INVALID_ARGUMENT "Bias argument to BiasAdd does not have one dimension"
    else
      ng_bias_reshaped <-
        (if tf_data_format ==s "NCHW" then
           match ng_input_shape !! 1%nat with
           | None => crash "ng_input_shape[1] out of range"
           | Some channel_dim =>
               let target_shape :=
                 imap (fun i _ => if (i =? 1)%nat then channel_dim else 1)
                      ng_input_shape in
               target_shape_node <-
                 make_shared "Constant"
                   [ArgEt et_i64;
                    ArgShape [Z.of_nat (length ng_input_shape)];
                    ArgValues target_shape] [];;
               ConstructNgNode (name op) "Reshape" [ArgBool false]
                 [ng_bias; target_shape_node]
           end
         else ret ng_bias);;
      ng_add <- ConstructNgNode (name op) "Add" [] [ng_input; ng_bias_reshaped];;
      SaveNgOp (name op) ng_add.

Definition TranslateWhereOp (op : Node) : M unit :=
  ng_cond <- GetInputNodes1 op;;
  non_zero <- ConstructNgNode (name op) "NonZero" [] [ng_cond];;
  transpose_order <-
    ConstructNgNode (name op) "Constant"
      [ArgEt et_i64; ArgShape [2]; ArgValues [1; 0]] [];;
  ng_transpose <-
    ConstructNgNode (name op) "Transpose" [] [non_zero; transpose_order];;
  SaveNgOp (name op) ng_transpose.

Definition TranslateZerosLikeOp (op : Node) : M unit :=
  ng_input <- GetInputNodes1 op;;
  input_shape <- get_shape ng_input;;
  et <- get_element_type ng_input;;
  ng_result <-
    ConstructNgNode (name op) "Constant"
      [ArgEt et; ArgShape input_shape;
       ArgStrings (replicate (Z.to_nat (shape_size input_shape)) "0")] [];;
  SaveNgOp (name op) ng_result.

(** *** Fused operators *)

Definition VecStrCmp (a b : list string) : bool := bool_decide (a = b).

Definition TranslateFusedMatMulOp (op : Node) : M unit :=
  num_args <- lift (GetNodeAttr_int op "num_args");;
  fused_ops <- lift (GetNodeAttr_strings op "fused_ops");;
  transpose_a <- lift (GetNodeAttr_bool op "transpose_a");;
  transpose_b <- lift (GetNodeAttr_bool op "transpose_b");;
  inputs <- GetInputNodes3 op;;
  let '(ng_lhs, ng_rhs, ng_bias) := inputs in
  ng_matmul <-
    ConstructNgNode (name op) "MatMul" [ArgBool transpose_a; ArgBool transpose_b]
      [ng_lhs; ng_rhs];;
  ng_matmul_shape <- get_shape ng_matmul;;
  ng_bias_shape <- get_shape ng_bias;;
  if negb (length ng_bias_shape =? 1)%nat then
    fail INVALID_ARGUMENT "Bias argument to BiasAdd does not have one dimension"
  else
    ng_add <- ConstructNgNode (name op) "Add" [] [ng_matmul; ng_bias];;
    if (length fused_ops =? 1)%nat then SaveNgOp (name op) ng_add
    else if (length fused_ops =? 2)%nat then
      let activation := nth 1 fused_ops "" in
      if activation ==s "Relu" then
        ng_relu <- ConstructNgNode (name op) "Relu" [] [ng_add];;
        SaveNgOp (name op) ng_relu
      else if activation ==s "Relu6" then
        ng_clamp <- ConstructNgNode (name op) "Clamp" [ArgZ 0; ArgZ 6] [ng_add];;
        SaveNgOp (name op) ng_clamp
      else
        fail INTERNAL
          ("Expected activation to be Relu or Relu6 but got " +:+ activation)
    else fail INTERNAL "Unsupported combination".

(** [absl::StrJoin(fused_ops, ",")]. *)
Definition StrJoin (l : list string) (sep : string) : string := String.concat sep l.

(** The lambda [CreateNgConv] of [TranslateFusedConv2DOp]; it gives the
    convolution ([ng_input] and [ng_filter], which it changes, are not
    read again by the caller). The second stride is read only when the
    first one is 1, and neither index is checked. *)
Definition CreateNgConv (op : Node) (tf_data_format : string) (is_nhwc : bool)
    (ng_input ng_filter : Output) : M Output :=
  tf_strides <- lift (GetNodeAttr_ints op "strides");;
  tf_dilations <- lift (GetNodeAttr_ints op "dilations");;
  tf_padding_type <- lift (GetNodeAttr_string op "padding");;
  if negb (tf_data_format ==s "NHWC") && negb (tf_data_format ==s "NCHW") then
    fail INVALID_ARGUMENT "Conv2D data format is neither NHWC nor NCHW"
  else
    unsupported_strides <-
      match tf_strides !! 0%nat with
      | None => crash "tf_strides[0] out of range"
      | Some s0 =>
          if negb (s0 =? 1) then ret true
          else
            match tf_strides !! (if is_nhwc then 3%nat else 1%nat) with
            | None => crash "tf_strides index out of range"
            | Some s1 => ret (negb (s1 =? 1))
            end
      end;;
    if unsupported_strides : bool then
      fail INVALID_ARGUMENT
        ("Strides in batch and depth dimensions is not supported: " +:+
         type_string op)
    else
      ng_strides <- pure_helper (NHWCtoHW ext is_nhwc tf_strides);;
      ng_input_shape <- get_shape ng_input;;
      ng_image_shape <- pure_helper (NHWCtoHW ext is_nhwc ng_input_shape);;
      ng_dilations <- pure_helper (NHWCtoHW ext is_nhwc tf_dilations);;
      ng_input <- on_heap (NHWCtoNCHW ext (name op) is_nhwc ng_input);;
      ng_filter_shape <- get_shape ng_filter;;
      match ng_filter_shape !! 0%nat, ng_filter_shape !! 1%nat with
      | Some k0, Some k1 =>
          ng_filter <- on_heap (Transpose_3_2_0_1 ext ng_filter);;
          SetTracingInfo (name op) ng_filter;;
          padding <-
            pure_helper
              (MakePadding ext tf_padding_type ng_image_shape [k0; k1]
                 ng_strides ng_dilations);;
          ConstructNgNode (name op +:+ "_FusedConv2D_Conv") "Convolution"
            [ArgShape ng_strides; ArgShape padding.1; ArgShape padding.2;
             ArgShape ng_dilations]
            [ng_input; ng_filter]
      | _, _ => crash "ng_filter_shape index out of range"
      end.

(** The bias reshaped to broadcast against the channel axis, then added:
    the part shared by the bias branches of the fused convolutions. *)
Definition reshape_bias_and_add (op : Node) (add_name : string)
    (ng_conv ng_bias : Output) : M Output :=
  ng_conv_shape <- get_shape ng_conv;;
  ng_bias_shape <- get_shape ng_bias;;
  if negb (length ng_bias_shape =? 1)%nat then
    fail INVALID_ARGUMENT "Bias argument to BiasAdd does not have one dimension"
  else
    if (length ng_conv_shape <=? 1)%nat then
      crash "reshape_pattern_values[1] out of range"
    else
      let reshape_pattern_values :=
        <[1%nat := hd 0 ng_bias_shape]> (replicate (length ng_conv_shape) 1) in
      reshape_pattern <-
        make_shared "Constant"
          [ArgEt et_u64; ArgShape [Z.of_nat (length reshape_pattern_values)];
           ArgValues reshape_pattern_values] [];;
      ng_bias_reshaped <-
        ConstructNgNode (name op) "Reshape" [ArgBool false]
          [ng_bias; reshape_pattern];;
      ConstructNgNode add_name "Add" [] [ng_conv; ng_bias_reshaped].

(** [x * alpha] and the maximum with [x]: the leaky ReLU of the fused
    convolutions. *)
Definition leaky_relu (op : Node) (max_name : string) (x : Output) : M Output :=
  tf_leakyrelu_alpha <- lift (GetNodeAttr_float op "leakyrelu_alpha");;
  ng_leakyrelu_alpha <-
    ConstructNgNode (name op) "Constant"
      [ArgEt et_f32; ArgShape []; ArgValues [tf_leakyrelu_alpha]] [];;
  ng_alphax <- ConstructNgNode (name op) "Multiply" [] [ng_leakyrelu_alpha; x];;
  ConstructNgNode max_name "Maximum" [] [ng_alphax; x].

Definition with_input2 {A} (ng_input2 : option Output) (k : Output -> M A) : M A :=
  match ng_input2 with
  | Some o => k o
  | None => crash "null output"
  end.

Definition TranslateFusedConv2DOp (op : Node) : M unit :=
  num_args <- lift (GetNodeAttr_int op "num_args");;
  fused_ops <- lift (GetNodeAttr_strings op "fused_ops");;
  tf_data_format <- lift (GetNodeAttr_string op "data_format");;
  let is_nhwc := tf_data_format ==s "NHWC" in
  let to_nhwc_and_save (o : Output) : M unit :=
    o' <- on_heap (NCHWtoNHWC ext (name op) is_nhwc o);;
    SaveNgOp (name op) o' in
  if VecStrCmp fused_ops ["BiasAdd"] ||
     VecStrCmp fused_ops ["BiasAdd"; "Relu"] ||
     VecStrCmp fused_ops ["BiasAdd"; "Relu6"] ||
     VecStrCmp fused_ops ["BiasAdd"; "LeakyRelu"] ||
     VecStrCmp fused_ops ["BiasAdd"; "Elu"] ||
     VecStrCmp fused_ops ["BiasAdd"; "Add"; "Relu"] ||
     VecStrCmp fused_ops ["BiasAdd"; "Add"] ||
     VecStrCmp fused_ops ["BiasAdd"; "Add"; "LeakyRelu"]
  then
    inputs <-
      (if VecStrCmp fused_ops ["BiasAdd"; "Add"; "Relu"] ||
          VecStrCmp fused_ops ["BiasAdd"; "Add"] ||
          VecStrCmp fused_ops ["BiasAdd"; "Add"; "LeakyRelu"]
       then
         if negb (num_args =? 2) then
           fail INVALID_ARGUMENT "FusedConv2DBiasAdd has incompatible num_args"
         else
           i <- GetInputNodes4 op;;
           let '(ng_input, ng_filter, ng_bias, ng_input2) := i in
           ret (ng_input, ng_filter, ng_bias, Some ng_input2)
       else
         if negb (num_args =? 1) then
           fail INVALID_ARGUMENT "FusedConv2DBiasAdd has incompatible num_args"
         else
           i <- GetInputNodes3 op;;
           let '(ng_input, ng_filter, ng_bias) := i in
           ret (ng_input, ng_filter, ng_bias, None));;
    let '(ng_input, ng_filter, ng_bias, ng_input2) := inputs in
    ng_conv <- CreateNgConv op tf_data_format is_nhwc ng_input ng_filter;;
    ng_add <-
      reshape_bias_and_add op (name op +:+ "_FusedConv2D_BiasAdd") ng_conv ng_bias;;
    if VecStrCmp fused_ops ["BiasAdd"; "Relu"] then
      ng_relu <- ConstructNgNode (name op +:+ "_FusedConv2D_Relu") "Relu" [] [ng_add];;
      to_nhwc_and_save ng_relu
    else if VecStrCmp fused_ops ["BiasAdd"; "Relu6"] then
      ng_relu6 <-
        ConstructNgNode (name op +:+ "_FusedConv2D_Relu6") "Clamp"
          [ArgZ 0; ArgZ 6] [ng_add];;
      to_nhwc_and_save ng_relu6
    else if VecStrCmp fused_ops ["BiasAdd"; "LeakyRelu"] then
      ng_lrelu <- leaky_relu op (name op +:+ "_FusedConv2D_LeakyRelu") ng_add;;
      to_nhwc_and_save ng_lrelu
    else if VecStrCmp fused_ops ["BiasAdd"; "Elu"] then
      tf_elu_alpha <- lift (GetNodeAttr_float op "leakyrelu_alpha");;
      ng_elu <-
        ConstructNgNode (name op +:+ "_FusedConv2D_Elu") "Elu"
          [ArgFloat tf_elu_alpha] [ng_add];;
      to_nhwc_and_save ng_elu
    else if VecStrCmp fused_ops ["BiasAdd"; "Add"; "Relu"] then
      with_input2 ng_input2 (fun ng_input2 =>
        ng_input2 <- on_heap (NHWCtoNCHW ext (name op) is_nhwc ng_input2);;
        ng_add2 <-
          ConstructNgNode (name op +:+ "_FusedConv2D_Add") "Add" []
            [ng_add; ng_input2];;
        ng_relu <-
          ConstructNgNode (name op +:+ "_FusedConv2D_Relu") "Relu" [] [ng_add2];;
        to_nhwc_and_save ng_relu)
    else if VecStrCmp fused_ops ["BiasAdd"; "Add"] then
      with_input2 ng_input2 (fun ng_input2 =>
        ng_add <- on_heap (NCHWtoNHWC ext (name op) is_nhwc ng_add);;
        ng_out <-
          ConstructNgNode (name op +:+ "_FusedConv2D_BiasAdd_Add") "Add" []
            [ng_add; ng_input2];;
        SaveNgOp (name op) ng_out)
    else if VecStrCmp fused_ops ["BiasAdd"; "Add"; "LeakyRelu"] then
      with_input2 ng_input2 (fun ng_input2 =>
        ng_input2 <- on_heap (NHWCtoNCHW ext (name op) is_nhwc ng_input2);;
        ng_add2 <-
          ConstructNgNode (name op +:+ "_FusedConv2D_Add") "Add" []
            [ng_add; ng_input2];;
        ng_alrelu <-
          leaky_relu op (name op +:+ "_FusedConv2D_Add_LeakyRelu") ng_add2;;
        to_nhwc_and_save ng_alrelu)
    else to_nhwc_and_save ng_add
  else if VecStrCmp fused_ops ["FusedBatchNorm"] ||
          VecStrCmp fused_ops ["FusedBatchNorm"; "Relu"] ||
          VecStrCmp fused_ops ["FusedBatchNorm"; "Relu6"] ||
          VecStrCmp fused_ops ["FusedBatchNorm"; "LeakyRelu"]
  then
    if negb (num_args =? 4) then
      fail INVALID_ARGUMENT "FusedConv2D with FusedBatchNorm has incompatible num_args"
    else
      inputs <- GetInputNodes6 op;;
      let '(ng_input, ng_filter, ng_scale, ng_offset, ng_mean, ng_variance) :=
        inputs in
      ng_conv <- CreateNgConv op tf_data_format is_nhwc ng_input ng_filter;;
      tf_epsilon <- lift (GetNodeAttr_float op "epsilon");;
      ng_batch_norm <-
        ConstructNgNode (name op +:+ "_FusedConv2D_BatchNorm") "BatchNormInference"
          [ArgFloat tf_epsilon]
          [ng_conv; ng_scale; ng_offset; ng_mean; ng_variance];;
      if VecStrCmp fused_ops ["FusedBatchNorm"; "Relu"] then
        ng_relu <-
          ConstructNgNode (name op +:+ "_FusedConv2D_BatchNormRelu") "Relu" []
            [ng_batch_norm];;
        to_nhwc_and_save ng_relu
      else if VecStrCmp fused_ops ["FusedBatchNorm"; "Relu6"] then
        ng_relu6 <-
          ConstructNgNode (name op +:+ "_FusedConv2D_BatchNormRelu") "Clamp"
            [ArgZ 0; ArgZ 6] [ng_batch_norm];;
        to_nhwc_and_save ng_relu6
      else if VecStrCmp fused_ops ["FusedBatchNorm"; "LeakyRelu"] then
        ng_lrelu <-
          leaky_relu op (name op +:+ "_FusedConv2D_BatchNormLeakyRelu")
            ng_batch_norm;;
        to_nhwc_and_save ng_lrelu
      else to_nhwc_and_save ng_batch_norm
  else
    fail UNIMPLEMENTED ("Unsupported _FusedConv2D " +:+ StrJoin fused_ops ",").

(** The lambda [CreateNgDepthwiseConv] of
    [TranslateFusedDepthwiseConv2dNativeOp]. *)
Definition CreateNgDepthwiseConv (op : Node) (ng_input ng_filter : Output)
    : M Output :=
  tf_strides <- lift (GetNodeAttr_ints op "strides");;
  tf_dilations <- lift (GetNodeAttr_ints op "dilations");;
  tf_padding_type <- lift (GetNodeAttr_string op "padding");;
  tf_data_format <- lift (GetNodeAttr_string op "data_format");;
  if negb (tf_data_format ==s "NHWC") && negb (tf_data_format ==s "NCHW") then
    fail INVALID_ARGUMENT "DepthwiseConv2D data format is neither NHWC nor NCHW"
  else
    let is_nhwc := tf_data_format ==s "NHWC" in
    ng_input_shape <- get_shape ng_input;;
    ng_image_shape <- pure_helper (NHWCtoHW ext is_nhwc ng_input_shape);;
    ng_strides <- pure_helper (NHWCtoHW ext is_nhwc tf_strides);;
    ng_dilations <- pure_helper (NHWCtoHW ext is_nhwc tf_dilations);;
    ng_input <- on_heap (NHWCtoNCHW ext (name op) is_nhwc ng_input);;
    ng_filter_shape <- get_shape ng_filter;;
    match ng_filter_shape with
    | f0 :: f1 :: f2 :: f3 :: _ =>
        padding <-
          pure_helper
            (MakePadding ext tf_padding_type ng_image_shape [f0; f1]
               ng_strides ng_dilations);;
        filter_shape <-
          ConstructNgNode (name op) "Constant"
            [ArgEt et_u64; ArgShape [5]; ArgValues [f0; f1; f2; 1; f3]] [];;
        reshaped_filter <-
          ConstructNgNode (name op) "Reshape" [ArgBool false]
            [ng_filter; filter_shape];;
        order <-
          ConstructNgNode (name op) "Constant"
            [ArgEt et_i64; ArgShape [5]; ArgValues [2; 4; 3; 0; 1]] [];;
        transposed_filter <-
          ConstructNgNode (name op) "Transpose" [] [reshaped_filter; order];;
        ConstructNgNode (name op) "GroupConvolution"
          [ArgShape ng_strides; ArgShape padding.1; ArgShape padding.2;
           ArgShape ng_dilations]
          [ng_input; transposed_filter]
    | _ => crash "ng_filter_shape index out of range"
    end.

Definition TranslateFusedDepthwiseConv2dNativeOp (op : Node) : M unit :=
  num_args <- lift (GetNodeAttr_int op "num_args");;
  fused_ops <- lift (GetNodeAttr_strings op "fused_ops");;
  tf_data_format <- lift (GetNodeAttr_string op "data_format");;
  let is_nhwc := tf_data_format ==s "NHWC" in
  if VecStrCmp fused_ops ["BiasAdd"] || VecStrCmp fused_ops ["BiasAdd"; "Relu6"]
  then
    if negb (num_args =? 1) then
      fail INVALID_ARGUMENT
        "FusedDepthwiseConv2dNativeBiasAdd has incompatible num_args"
    else
      inputs <- GetInputNodes3 op;;
      let '(ng_input, ng_filter, ng_bias) := inputs in
      ng_conv <- CreateNgDepthwiseConv op ng_input ng_filter;;
      ng_add <-
        reshape_bias_and_add op
          (name op +:+ "_FusedDepthwiseConv2dNative_BiasAdd") ng_conv ng_bias;;
      if VecStrCmp fused_ops ["BiasAdd"; "Relu6"] then
        ng_relu6 <-
          ConstructNgNode (name op +:+ "_FusedDepthwiseConv2dNative_Relu6")
            "Clamp" [ArgZ 0; ArgZ 6] [ng_add];;
        ng_relu6 <- on_heap (NCHWtoNHWC ext (name op) is_nhwc ng_relu6);;
        SaveNgOp (name op) ng_relu6
      else
        ng_add <- on_heap (NCHWtoNHWC ext (name op) is_nhwc ng_add);;
        SaveNgOp (name op) ng_add
  else
    fail UNIMPLEMENTED
      ("Unsupported _FusedDepthwiseConv2dNative " +:+ StrJoin fused_ops ",").

(** *** The operator registry *)

Definition on_node (f : Node -> M unit) : Handler := fun _ op _ => f op.

Definition unary (T : string) : Handler := on_node (TranslateUnaryOpT T).
Definition binary (T : string) : Handler := on_node (TranslateBinaryOpT T).
Definition other (kind : string) : Handler := other_handlers ext kind.

(** [TRANSLATE_OP_MAP]. The handlers that this file does not embed are
    taken from [other_handlers], under the key of their entry. *)
Definition TRANSLATE_OP_MAP : gmap string Handler :=
  list_to_map
    [("Abs", unary "Abs"); ("Acos", unary "Acos"); ("Acosh", unary "Acosh");
     ("Add", binary "Add"); ("AddN", other "AddN"); ("AddV2", binary "Add");
     ("Any", other "Any"); ("All", other "All"); ("ArgMax", other "ArgMax");
     ("ArgMin", other "ArgMin"); ("Asin", unary "Asin");
     ("Asinh", unary "Asinh"); ("Atan", unary "Atan");
     ("Atanh", unary "Atanh"); ("AvgPool", other "AvgPool");
     ("AvgPool3D", other "AvgPool3D");
     ("BatchToSpaceND", other "BatchToSpaceND");
     ("BiasAdd", on_node TranslateBiasAddOp); ("Cast", other "Cast");
     ("Ceil", unary "Ceiling"); ("ConcatV2", other "ConcatV2");
     ("Const", on_node TranslateConstOp); ("Conv2D", other "Conv2D");
     ("Conv2DBackpropInput", other "Conv2DBackpropInput");
     ("Conv3D", other "Conv3D");
     ("Conv3DBackpropInputV2", other "Conv3DBackpropInputV2");
     ("Cos", unary "Cos"); ("Cosh", unary "Cosh");
     ("CropAndResize", other "CropAndResize"); ("Cumsum", other "Cumsum");
     ("DepthToSpace", other "DepthToSpace");
     ("DepthwiseConv2dNative", other "DepthwiseConv2dNative");
     ("Elu", other "Elu"); ("Equal", binary "Equal"); ("Exp", unary "Exp");
     ("ExpandDims", other "ExpandDims");
     ("FakeQuantWithMinMaxVars", other "FakeQuantWithMinMaxVars");
     ("Fill", other "Fill"); ("Floor", unary "Floor");
     ("FloorDiv", other "FloorDiv"); ("FloorMod", binary "FloorMod");
     ("FusedBatchNorm", other "FusedBatchNorm");
     ("FusedBatchNormV2", other "FusedBatchNormV2");
     ("FusedBatchNormV3", other "FusedBatchNormV3");
     ("Gather", other "Gather"); ("GatherV2", other "GatherV2");
     ("GatherNd", other "GatherNd");
     ("_FusedBatchNormEx", other "_FusedBatchNormEx");
     ("_FusedConv2D", on_node TranslateFusedConv2DOp);
     ("_FusedDepthwiseConv2dNative",
      on_node TranslateFusedDepthwiseConv2dNativeOp);
     ("_FusedMatMul", on_node TranslateFusedMatMulOp);
     ("Greater", binary "Greater"); ("GreaterEqual", binary "GreaterEqual");
     ("Identity", on_node TranslateIdentityOp); ("IsFinite", other "IsFinite");
     ("L2Loss", other "L2Loss"); ("LogSoftmax", other "LogSoftmax");
     ("LeakyRelu", other "LeakyRelu"); ("Less", binary "Less");
     ("LessEqual", binary "LessEqual"); ("Log", unary "Log");
     ("Log1p", other "Log1p"); ("LogicalAnd", binary "LogicalAnd");
     ("LogicalNot", unary "LogicalNot"); ("LogicalOr", binary "LogicalOr");
     ("LRN", other "LRN"); ("MatMul", other "MatMul"); ("Max", other "Max");
     ("Maximum", binary "Maximum"); ("MaxPool", other "MaxPool");
     ("MaxPool3D", other "MaxPool3D");
     ("NonMaxSuppressionV2", other "NonMaxSuppressionV2");
     ("NonMaxSuppressionV3", other "NonMaxSuppressionV3");
     ("Mean", other "Mean"); ("Min", other "Min");
     ("Minimum", binary "Minimum"); ("MirrorPad", other "MirrorPad");
     ("Mul", binary "Multiply"); ("Mod", binary "Mod");
     ("Neg", unary "Negative"); ("NotEqual", binary "NotEqual");
     ("NoOp", fun _ _ _ => ret tt);
     ("OneHot", other "OneHot"); ("Pack", other "Pack"); ("Pad", other "Pad");
     ("PadV2", other "PadV2"); ("Pow", binary "Power");
     ("PreventGradient", on_node TranslateIdentityOp); ("Prod", other "Prod");
     ("Range", other "Range"); ("Rank", other "Rank");
     ("RealDiv", binary "Divide"); ("Reciprocal", other "Reciprocal");
     ("Relu", unary "Relu"); ("Relu6", other "Relu6");
     ("Reshape", other "Reshape"); ("Round", other "Round");
     ("ResizeBilinear", other "ResizeBilinear");
     ("ResizeNearestNeighbor", other "ResizeNearestNeighbor");
     ("Reverse", other "Reverse"); ("ReverseV2", other "ReverseV2");
     ("Rsqrt", other "Rsqrt"); ("ScatterNd", other "ScatterNd");
     ("Select", other "Select"); ("SelectV2", other "SelectV2");
     ("Shape", other "Shape"); ("Sigmoid", unary "Sigmoid");
     ("Sin", unary "Sin"); ("Sinh", unary "Sinh"); ("Size", other "Size");
     ("Sign", unary "Sign"); ("Slice", other "Slice");
     ("Snapshot", on_node TranslateIdentityOp); ("Softmax", other "Softmax");
     ("Softplus", other "Softplus");
     ("SpaceToBatchND", other "SpaceToBatchND");
     ("SpaceToDepth", other "SpaceToDepth"); ("Split", other "Split");
     ("SplitV", other "SplitV"); ("Sqrt", unary "Sqrt");
     ("Square", other "Square");
     ("SquaredDifference", binary "SquaredDifference");
     ("Squeeze", other "Squeeze"); ("StridedSlice", other "StridedSlice");
     ("Sub", binary "Subtract"); ("Sum", other "Sum"); ("Tan", unary "Tan");
     ("Tanh", unary "Tanh"); ("Tile", other "Tile"); ("TopKV2", other "TopKV2");
     ("Transpose", other "Transpose"); ("Unpack", other "Unpack");
     ("Where", on_node TranslateWhereOp); ("Xdivy", other "Xdivy");
     ("ZerosLike", on_node TranslateZerosLikeOp)].

End Builder.

(** ** The order of visit *)

(** Modelled from the spec: [GetReversePostOrder] with [NodeComparatorName],
    which is TensorFlow's and not part of the sources. Section 4.1 (1): the
    nodes are sorted topologically, ties being broken by node name. Among
    the nodes whose producers have all been emitted, the one with the
    least name comes next; the nodes are first put in the order of their
    names, so that the first ready node of the list is that one. A node
    that never gets ready (it is on a cycle or behind one, or one of its
    producers is not in the graph) is not part of the order. *)
Fixpoint insert_by_name (n : Node) (l : list Node) : list Node :=
  match l with
  | [] => [n]
  | m :: l' =>
      if String.leb (name n) (name m) then n :: l
      else m :: insert_by_name n l'
  end.

Definition sort_by_name (l : list Node) : list Node :=
  fold_right insert_by_name [] l.

Definition ready (emitted : list string) (n : Node) : bool :=
  forallb (fun e => existsb (String.eqb e.1) emitted) (in_edges n).

Fixpoint take_ready (emitted : list string) (pending : list Node)
    : option (Node * list Node) :=
  match pending with
  | [] => None
  | n :: rest =>
      if ready emitted n then Some (n, rest)
      else
        match take_ready emitted rest with
        | Some (m, rest') => Some (m, n :: rest')
        | None => None
        end
  end.

Fixpoint topological (fuel : nat) (emitted : list string) (pending : list Node)
    : list Node :=
  match fuel with
  | O => []
  | S fuel' =>
      match take_ready emitted pending with
      | None => []
      | Some (n, rest) => n :: topological fuel' (name n :: emitted) rest
      end
  end.

Definition GetReversePostOrder (g : list Node) : list Node :=
  topological (length g) [] (sort_by_name g).

(** ** The driver *)

Fixpoint for_each {A} (f : A -> M unit) (l : list A) : M unit :=
  match l with
  | [] => ret tt
  | x :: rest => f x;; for_each f rest
  end.

Fixpoint fold_each {A B} (f : A -> B -> M B) (l : list A) (b : B) : M B :=
  match l with
  | [] => ret b
  | x :: rest => b' <- f x b;; fold_each f rest b'
  end.

(** [v[index] = x] on a vector of pointers; the index is not checked. *)
Definition store_at (v : list (option nat)) (index : Z) (x : nat)
    : M (list (option nat)) :=
  if (index <? 0) || (Z.of_nat (length v) <=? index) then
    crash "vector index out of range"
  else ret (<[Z.to_nat index := Some x]> v).

(** The lambda [ng_shape_check] of the parameter loop. *)
Definition ng_shape_check (ng_shape : list Z) : bool :=
  (0 <? length ng_shape)%nat && existsb (fun val => val =? 0) ng_shape.

(** The lambdas [param_dim_check] and [result_dim_check]. *)
Definition dim_check (shape_list : list Z) : bool :=
  existsb (fun dim => dim =? 0) shape_list.

(** [node->get_shape()] and [node->is_dynamic()] on a node with one
    output. *)
Definition node_get_shape (h : list NgNode) (id : nat) : Outcome (list Z) :=
  match output_info h (id, 0%nat) with
  | None => Crash "output of no node"
  | Some (_, ps) =>
      match to_shape ps with
      | Some sh => Ok sh
      | None => Throws "get_shape was called on a descriptor::Tensor with dynamic shape"
      end
  end.

Definition node_is_dynamic (h : list NgNode) (id : nat) : Outcome bool :=
  match output_info h (id, 0%nat) with
  | None => Crash "output of no node"
  | Some (_, ps) => Ok (negb (bool_decide (is_Some (to_shape ps))))
  end.

(** The loop that fills [ng_func_parameter_list]; a slot of the vector
    that was never assigned holds a null pointer. *)
Fixpoint filter_parameters (h : list NgNode) (ng_parameter_list : list (option nat))
    : Outcome (list nat) :=
  match ng_parameter_list with
  | [] => Ok []
  | None :: _ => Crash "null pointer"
  | Some p :: rest =>
      sh <-? node_get_shape h p;;
      let keep := negb ((0 <? length sh)%nat && dim_check sh) in
      kept <-? filter_parameters h rest;;
      Ok (if keep then p :: kept else kept)
  end.

(** Whether the loop that fills [ng_func_result_list] keeps a result. *)
Definition keeps_result (h : list NgNode) (r : nat) : Outcome bool :=
  dynamic <-? node_is_dynamic h r;;
  if dynamic then Ok true
  else
    sh <-? node_get_shape h r;;
    Ok (negb ((0 <? length sh)%nat && dim_check sh)).

(** The loop that fills [ng_func_result_list]. *)
Fixpoint filter_results (h : list NgNode) (ng_result_list : list (option nat))
    : Outcome (list nat) :=
  match ng_result_list with
  | [] => Ok []
  | None :: _ => Crash "null pointer"
  | Some r :: rest =>
      keep <-? keeps_result h r;;
      kept <-? filter_results h rest;;
      Ok (if keep then r :: kept else kept)
  end.

(** [result->set_needs_default_layout(true)]. *)
Definition set_needs_default_layout (h : list NgNode) (id : nat) : list NgNode :=
  match h !! id with
  | None => h
  | Some node =>
      <[id := {| ng_type := ng_type node; ng_args := ng_args node;
                 ng_inputs := ng_inputs node; ng_outputs := ng_outputs node;
                 friendly_name := friendly_name node;
                 provenance_tags := provenance_tags node;
                 needs_default_layout := true |}]> h
  end.

Definition empty_state : State := {| heap := []; ng_op_map := ∅ |}.

Section Driver.

Variable ext : Externals.

(** The loop that splits the ordered nodes into parameters, return
    values and all the others. *)
Fixpoint split_ops (ordered tf_params tf_ret_vals tf_ops : list Node)
    : Outcome (list Node * list Node * list Node) :=
  match ordered with
  | [] => Ok (tf_params, tf_ret_vals, tf_ops)
  | n :: rest =>
      if IsSink n || IsSource n then split_ops rest tf_params tf_ret_vals tf_ops
      else if IsControlFlow n then
        Err UNIMPLEMENTED
          ("Encountered a control flow op in the openvino_tensorflow: " +:+
           DebugString ext n)
      else if IsArg n then split_ops rest (tf_params ++ [n]) tf_ret_vals tf_ops
      else if IsRetval n then split_ops rest tf_params (tf_ret_vals ++ [n]) tf_ops
      else split_ops rest tf_params tf_ret_vals (tf_ops ++ [n])
  end.

(** One turn of the loop over [tf_params]. *)
Definition translate_param (inputs : list (list Z)) (tf_input_tensors : list Tensor)
    (parm : Node) (ng_parameter_list : list (option nat))
    : M (list (option nat)) :=
  match GetNodeAttr_type parm "T" with
  | Ok dtype =>
      match GetNodeAttr_int parm "index" with
      | Ok index =>
          ng_et <- lift (TFDataTypeToNGraphElementType ext dtype);;
          match (if index <? 0 then None else inputs !! Z.to_nat index) with
          | None => crash "inputs[index] out of range"
          | Some tf_shape =>
              ng_shape <- lift (TFTensorShapeToNGraphShape ext tf_shape);;
              let prov_tag :=
                match GetNodeAttr_string parm "_prov_tag" with
                | Ok t => t
                | _ => ""
                end in
              ng_param <-
                ConstructNgNode ext prov_tag "Parameter"
                  [ArgEt ng_et; ArgShape ng_shape] [];;
              let is_variable :=
                if negb (GetEnv ext "OPENVINO_TF_CONVERT_VARIABLES_TO_CONSTANTS"
                           ==s "0")
                   && negb (bool_decide (tf_input_tensors = []))
                then
                  match GetNodeAttr_bool parm "_is_variable" with
                  | Ok b => b
                  | _ => false
                  end
                else false in
              (if ng_shape_check ng_shape then
                 ng_const_input <-
                   ConstructNgNode ext prov_tag "Constant"
                     [ArgEt ng_et; ArgShape ng_shape;
                      ArgStrings (replicate (Z.to_nat (shape_size ng_shape)) "0")]
                     [];;
                 SaveNgOp (name parm) ng_const_input
               else if is_variable then
                 match tf_input_tensors !! Z.to_nat index with
                 | None => crash "tf_input_tensors[index] out of range"
                 | Some input_tensor =>
                     match convertible_from dtype with
                     | Some T =>
                         ng_const_input <-
                           MakeConstOpForParam ext T input_tensor prov_tag ng_et
                             ng_shape;;
                         SaveNgOp (name parm) ng_const_input
                     | None =>
                         fail INTERNAL
                           ("Tensor has element type " +:+ DataType_Name dtype +:+
                            "; don't know how to convert")
                     end
                 end
               else SaveNgOp (name parm) ng_param);;
              store_at ng_parameter_list index ng_param.1
          end
      | _ => fail INVALID_ARGUMENT "No index defined for _Arg"
      end
  | _ => fail INVALID_ARGUMENT "No data type defined for _Arg"
  end.

Definition no_handler_message (op : Node) : string :=
  "No translation handler registered for op: " +:+ name op +:+ " (" +:+
  type_string op +:+ ")" +:+ newline +:+ DebugString ext op.

(** The try block around the call of a handler: an exception is caught
    and reported as an Internal error. *)
Definition catch_exception (op : Node) (call : M unit) : M unit :=
  fun s =>
    match call s with
    | Throws what =>
        Err INTERNAL
          ("Unhandled exception in op handler: " +:+ name op +:+ " (" +:+
           type_string op +:+ ")" +:+ newline +:+ DebugString ext op +:+
           newline +:+ "what(): " +:+ what)
    | r => r
    end.

(** One turn of the loop over [tf_ops]. *)
Definition translate_op (g : gmap string Node)
    (static_input_map : list (option Tensor)) (op : Node) : M unit :=
  match TRANSLATE_OP_MAP ext !! type_string op with
  | None => fail INVALID_ARGUMENT (no_handler_message op)
  | Some op_fun => catch_exception op (op_fun g op static_input_map)
  end.

(** One turn of the loop over [tf_ret_vals]. *)
Definition translate_retval (n : Node) (ng_result_list : list (option nat))
    : M (list (option nat)) :=
  if negb (num_inputs n =? 1) then
    fail INVALID_ARGUMENT
      ("_Retval has " +:+ to_string (num_inputs n) +:+ " inputs, should have 1")
  else
    match GetNodeAttr_int n "index" with
    | Ok index =>
        result <- GetInputNode n 0;;
        ng_result <- ConstructNgNode ext (name n) "Result" [] [result];;
        store_at ng_result_list index ng_result.1
    | _ => fail INVALID_ARGUMENT "No index defined for _Retval"
    end.

(** The three loops that build the target nodes. *)
Definition build_nodes (inputs : list (list Z))
    (static_input_map : list (option Tensor)) (g : gmap string Node)
    (tf_input_tensors : list Tensor) (tf_params tf_ret_vals tf_ops : list Node)
    : M (list (option nat) * list (option nat)) :=
  ng_parameter_list <-
    fold_each (translate_param inputs tf_input_tensors) tf_params
      (replicate (length tf_params) None);;
  for_each (translate_op g static_input_map) tf_ops;;
  ng_result_list <-
    fold_each translate_retval tf_ret_vals (replicate (length tf_ret_vals) None);;
  ret (ng_parameter_list, ng_result_list).

(** The function as assembled, the passes, and the layout request. *)
Definition finish_function (nm : string) (h : list NgNode)
    (ng_func_result_list ng_func_parameter_list : list nat)
    : Outcome (Function * list NgNode) :=
  let f := {| f_results := ng_func_result_list;
              f_parameters := ng_func_parameter_list; f_name := nm |} in
  match Function_validate ext h f with
  | Some what =>
      Err INTERNAL ("Failed to create nGraph Function for " +:+ nm +:+ ": " +:+ what)
  | None =>
      match run_passes ext
              (GetEnv ext "OPENVINO_TF_CONSTANT_FOLDING" ==s "1")
              (negb (GetEnv ext "OPENVINO_TF_TRANSPOSE_SINKING" ==s "0")) h f with
      | None => Throws "pass"
      | Some (h', f') => Ok (f', fold_left set_needs_default_layout (f_results f') h')
      end
  end.

(** What a successful [TranslateGraph] hands back: the function, the
    result list of the caller, and the target nodes. *)
Record Translation : Type := {
  ng_function : Function;
  ng_result_list : list (option nat);
  ng_nodes : list NgNode
}.

(** [Builder::TranslateGraph] with the result list and the input
    tensors. *)
Definition TranslateGraph (inputs : list (list Z))
    (static_input_map : list (option Tensor)) (input_graph : list Node)
    (nm : string) (tf_input_tensors : list Tensor) : Outcome Translation :=
  let ordered := GetReversePostOrder input_graph in
  parts <-? split_ops ordered [] [] [];;
  let '(tf_params, tf_ret_vals, tf_ops) := parts in
  built <-?
    build_nodes inputs static_input_map (index_of_graph input_graph)
      tf_input_tensors tf_params tf_ret_vals tf_ops empty_state;;
  let '((ng_parameter_list, ng_result_list), s) := built in
  ng_func_parameter_list <-? filter_parameters (heap s) ng_parameter_list;;
  ng_func_result_list <-? filter_results (heap s) ng_result_list;;
  done <-? finish_function nm (heap s) ng_func_result_list ng_func_parameter_list;;
  Ok {| ng_function := done.1; ng_result_list := ng_result_list;
        ng_nodes := done.2 |}.

(** [Builder::TranslateGraph] without them: the status of the inner call
    is dropped. It gives the function, when the inner call made one. *)
Definition TranslateGraph5 (inputs : list (list Z))
    (static_input_map : list (option Tensor)) (input_graph : list Node)
    (nm : string) : Outcome (option Translation) :=
  match TranslateGraph inputs static_input_map input_graph nm [] with
  | Ok t => Ok (Some t)
  | Err _ _ => Ok None
  | Throws what => Throws what
  | Crash why => Crash why
  end.

End Driver.

(** ** A reference instance of the externals

    Enough of nGraph and of the utilities of the bridge to run the builder
    on examples: the conversions of the compiler between the element
    types, the element types and shapes of the utilities, type
    inference for the target operators the examples build (static shapes,
    and the dynamic result of NonZero), the parameter check of a new
    function, the layout helpers, and passes that change nothing. *)

Definition ref_platform : Platform :=
  {| TF_MAJOR_VERSION := 2; TF_MINOR_VERSION := 5;
     past_the_end := fun i => 1000 + i |}.

Definition ref_TFDataTypeToNGraphElementType (dt : DataType) : Outcome ElementType :=
  match dt with
  | DT_FLOAT => Ok et_f32 | DT_DOUBLE => Ok et_f64 | DT_INT32 => Ok et_i32
  | DT_UINT8 => Ok et_u8 | DT_INT8 => Ok et_i8 | DT_UINT16 => Ok et_u16
  | DT_INT64 => Ok et_i64 | DT_UINT32 => Ok et_u32 | DT_UINT64 => Ok et_u64
  | DT_BOOL => Ok et_boolean | DT_QINT8 => Ok et_i8 | DT_QUINT8 => Ok et_u8
  | DT_QINT32 => Ok et_i32 | DT_BFLOAT16 => Ok et_bf16 | DT_HALF => Ok et_f16
  | _ => Err UNIMPLEMENTED ("Unsupported TensorFlow data type: " +:+ DataType_Name dt)
  end.

Definition ref_TFTensorShapeToNGraphShape (tf_shape : list Z) : Outcome (list Z) :=
  if existsb (fun d => d <? 0) tf_shape then
    Err INVALID_ARGUMENT "TensorFlow shape has a negative dimension size"
  else Ok tf_shape.

(** The conversions of C++ between the element types, on the stored
    values. A binary floating format is given by its precision [p] (24
    for [float], 53 for [double]) and the width [w] of its exponent field
    (8 and 11); a floating value is [m * 2^e], signed, an infinity, or a
    NaN. *)
Inductive FloatValue : Type :=
| Finite (negative : bool) (m e : Z)
| Infinite (negative : bool)
| NotANumber.

Definition float_format (T : CType) : option (Z * Z) :=
  match T with
  | c_float => Some (24, 8)
  | c_double => Some (53, 11)
  | _ => None
  end.

Definition ieee_decode (p w bits : Z) : FloatValue :=
  let negative := Z.testbit bits (p - 1 + w) in
  let field := (bits / 2 ^ (p - 1)) mod 2 ^ w in
  let fraction := bits mod 2 ^ (p - 1) in
  let bias := 2 ^ (w - 1) - 1 in
  if field =? 2 ^ w - 1 then
    if fraction =? 0 then Infinite negative else NotANumber
  else if field =? 0 then Finite negative fraction (2 - bias - p)
  else Finite negative (fraction + 2 ^ (p - 1)) (field - bias - (p - 1)).

(** [m / 2^s] rounded to the nearest integer, a tie going to the even
    one. *)
Definition round_half_even (m s : Z) : Z :=
  let q := m / 2 ^ s in
  let r := m mod 2 ^ s in
  if 2 * r <? 2 ^ s then q
  else if 2 ^ s <? 2 * r then q + 1
  else if Z.even q then q else q + 1.

(** The bit pattern of the floating value nearest to [v]; a NaN is given
    as the quiet NaN without payload. *)
Definition ieee_encode (p w : Z) (v : FloatValue) : Z :=
  let sign (negative : bool) := if negative then 2 ^ (p - 1 + w) else 0 in
  let infinity := (2 ^ w - 1) * 2 ^ (p - 1) in
  match v with
  | NotANumber => infinity + 2 ^ (p - 2)
  | Infinite negative => sign negative + infinity
  | Finite negative m e =>
      if m =? 0 then sign negative
      else
        let bias := 2 ^ (w - 1) - 1 in
        let q := Z.max (Z.log2 m + e - (p - 1)) (2 - bias - p) in
        let m' := if e <? q then round_half_even m (q - e) else m * 2 ^ (e - q) in
        let magnitude := (q + (p - 1) + bias - 1) * 2 ^ (p - 1) + m' in
        sign negative + Z.min magnitude infinity
  end.

(** The integer part of a floating value (of an infinity or of a NaN the
    conversion is undefined; it is given as 0). *)
Definition truncate (v : FloatValue) : Z :=
  match v with
  | Finite negative m e =>
      let t := if e <? 0 then m / 2 ^ (- e) else m * 2 ^ e in
      if negative then - t else t
  | _ => 0
  end.

Definition is_zero (v : FloatValue) : bool :=
  match v with Finite _ m _ => m =? 0 | _ => false end.

(** [Tvector(x)] for [x] of type [Ttensor]. Between integer types it is
    the conversion modulo 2^n; a floating value is truncated to an
    integer (the conversion is undefined when the integer part does not
    fit; the integer part is then converted modulo 2^n); an integer is
    rounded to the nearest floating value; [bool] is reached through
    [!= 0]. *)
Definition ref_convert (Ttensor Tvector : CType) (x : Z) : Z :=
  let value :=
    match float_format Ttensor with
    | Some (p, w) => ieee_decode p w x
    | None => Finite (x <? 0) (Z.abs x) 0
    end in
  match Tvector with
  | c_bool => if is_zero value then 0 else 1
  | _ =>
      match float_format Tvector with
      | Some (p, w) => ieee_encode p w value
      | None => cast_to Tvector (truncate value)
      end
  end.

Fixpoint broadcast_rev (a b : list Z) : option (list Z) :=
  match a with
  | [] => Some b
  | x :: a' =>
      match b with
      | [] => Some a
      | y :: b' =>
          rest ← broadcast_rev a' b';
          if x =? y then Some (x :: rest)
          else if x =? 1 then Some (y :: rest)
          else if y =? 1 then Some (x :: rest)
          else None
      end
  end.

Definition broadcast (a b : list Z) : option (list Z) :=
  reverse <$> broadcast_rev (reverse a) (reverse b).

Definition constant_values (h : list NgNode) (o : Output) : option (list Z) :=
  node ← h !! o.1;
  if ng_type node ==s "Constant" then
    match ng_args node with
    | [_; _; ArgValues vs] => Some vs
    | _ => None
    end
  else None.

Definition elementwise_unary : list string :=
  ["Result"; "Abs"; "Acos"; "Acosh"; "Asin"; "Asinh"; "Atan"; "Atanh"; "Ceiling";
   "Cos"; "Cosh"; "Exp"; "Floor"; "Log"; "LogicalNot"; "Negative"; "Relu";
   "Sigmoid"; "Sin"; "Sinh"; "Sign"; "Sqrt"; "Tan"; "Tanh"; "Clamp"; "Elu"].

Definition elementwise_binary : list string :=
  ["Add"; "Subtract"; "Multiply"; "Divide"; "Maximum"; "Minimum"; "Power"; "Mod";
   "FloorMod"; "SquaredDifference"; "LogicalAnd"; "LogicalOr"].

Definition comparison : list string :=
  ["Equal"; "NotEqual"; "Greater"; "GreaterEqual"; "Less"; "LessEqual"].

Definition member (x : string) (l : list string) : bool := existsb (String.eqb x) l.

(** The size of a spatial axis after a convolution. *)
Definition conv_out (i k s d pb pa : Z) : Z :=
  (i + pb + pa - ((k - 1) * d + 1)) / s + 1.

Definition ref_infer (h : list NgNode) (ty : string) (args : list NgArg)
    (ins : list Output) : option (list (ElementType * PartialShape)) :=
  if ty ==s "Parameter" then
    match args with
    | [ArgEt et; ArgShape sh] => Some [(et, of_shape sh)]
    | _ => None
    end
  else if ty ==s "Constant" then
    match args with
    | [ArgEt et; ArgShape sh; ArgValues vs] =>
        if Z.of_nat (length vs) =? shape_size sh then Some [(et, of_shape sh)]
        else None
    | [ArgEt et; ArgShape sh; ArgStrings vs] =>
        if Z.of_nat (length vs) =? shape_size sh then Some [(et, of_shape sh)]
        else None
    | _ => None
    end
  else if member ty elementwise_unary then
    match ins with
    | [x] => i ← output_info h x; Some [i]
    | _ => None
    end
  else if member ty elementwise_binary || member ty comparison then
    match ins with
    | [a; b] =>
        ia ← output_info h a; ib ← output_info h b;
        sa ← to_shape ia.2; sb ← to_shape ib.2;
        sh ← broadcast sa sb;
        if bool_decide (ia.1 = ib.1) then
          Some [(if member ty comparison then et_boolean else ia.1, of_shape sh)]
        else None
    | _ => None
    end
  else if ty ==s "MatMul" then
    match args, ins with
    | [ArgBool ta; ArgBool tb], [a; b] =>
        ia ← output_info h a; ib ← output_info h b;
        sa ← to_shape ia.2; sb ← to_shape ib.2;
        match (if ta then rev sa else sa), (if tb then rev sb else sb) with
        | [m; k], [k'; n] =>
            if (k =? k') && bool_decide (ia.1 = ib.1)
            then Some [(ia.1, of_shape [m; n])] else None
        | _, _ => None
        end
    | _, _ => None
    end
  else if ty ==s "NonZero" then
    match ins with
    | [x] =>
        i ← output_info h x; ds ← i.2;
        Some [(et_i64, Some [DimStatic (Z.of_nat (length ds)); DimDynamic])]
    | _ => None
    end
  else if ty ==s "Transpose" then
    match ins with
    | [x; order] =>
        i ← output_info h x; ds ← i.2; perm ← constant_values h order;
        out ← mapM (fun k => ds !! Z.to_nat k) perm;
        if (length perm =? length ds)%nat then Some [(i.1, Some out)] else None
    | _ => None
    end
  else if ty ==s "Reshape" then
    match ins with
    | [x; pattern] =>
        i ← output_info h x; sx ← to_shape i.2; vs ← constant_values h pattern;
        if shape_size vs =? shape_size sx then Some [(i.1, of_shape vs)] else None
    | _ => None
    end
  else if ty ==s "Convolution" then
    match args, ins with
    | [ArgShape [s0; s1]; ArgShape [pb0; pb1]; ArgShape [pa0; pa1]; ArgShape [d0; d1]],
      [x; f] =>
        ix ← output_info h x; jf ← output_info h f;
        sx ← to_shape ix.2; sf ← to_shape jf.2;
        match sx, sf with
        | [n; c; ih; iw], [co; ci; kh; kw] =>
            if c =? ci then
              Some [(ix.1, of_shape [n; co; conv_out ih kh s0 d0 pb0 pa0;
                                     conv_out iw kw s1 d1 pb1 pa1])]
            else None
        | _, _ => None
        end
    | _, _ => None
    end
  else if ty ==s "GroupConvolution" then
    match args, ins with
    | [ArgShape [s0; s1]; ArgShape [pb0; pb1]; ArgShape [pa0; pa1]; ArgShape [d0; d1]],
      [x; f] =>
        ix ← output_info h x; jf ← output_info h f;
        sx ← to_shape ix.2; sf ← to_shape jf.2;
        match sx, sf with
        | [n; c; ih; iw], [groups; co; ci; kh; kw] =>
            if c =? groups * ci then
              Some [(ix.1, of_shape [n; groups * co; conv_out ih kh s0 d0 pb0 pa0;
                                     conv_out iw kw s1 d1 pb1 pa1])]
            else None
        | _, _ => None
        end
    | _, _ => None
    end
  else if ty ==s "BatchNormInference" then
    match ins with
    | x :: _ => i ← output_info h x; Some [i]
    | _ => None
    end
  else None.

(** The parameters a function reaches from its results must all be among
    its formal parameters. Inputs point to older nodes, so one sweep from
    the newest node down marks all that is reached. *)
Fixpoint sweep (h : list NgNode) (id : nat) (marked : list nat) : list nat :=
  match id with
  | O => marked
  | S id' =>
      let marked' :=
        if existsb (Nat.eqb id') marked then
          match h !! id' with
          | Some node => map fst (ng_inputs node) ++ marked
          | None => marked
          end
        else marked in
      sweep h id' marked'
  end.

Definition ref_Function_validate (h : list NgNode) (f : Function) : option string :=
  let reached := sweep h (length h) (f_results f) in
  if forallb
       (fun id =>
          match h !! id with
          | Some node =>
              negb (ng_type node ==s "Parameter") ||
              existsb (Nat.eqb id) (f_parameters f)
          | None => false
          end) reached
  then None
  else Some "Function references undeclared parameter".

(** The layout helpers as the sources outside this file have them: a
    transposition when the data format is channels-last. *)
Definition ref_NHWCtoHW (is_nhwc : bool) (src : list Z) : option (list Z) :=
  if is_nhwc then a ← src !! 1%nat; b ← src !! 2%nat; Some [a; b]
  else a ← src !! 2%nat; b ← src !! 3%nat; Some [a; b].

Definition alloc (h : list NgNode) (ty : string) (args : list NgArg)
    (ins : list Output) (tags : gset string) (fname : option string)
    : option (Output * list NgNode) :=
  outs ← ref_infer h ty args ins;
  Some ((length h, 0%nat),
        h ++ [{| ng_type := ty; ng_args := args; ng_inputs := ins;
                 ng_outputs := outs; friendly_name := fname;
                 provenance_tags := tags; needs_default_layout := false |}]).

Definition ref_transpose (order : list Z) (tag : option string) (node : Output)
    (h : list NgNode) : option (Output * list NgNode) :=
  c ← alloc h "Constant"
        [ArgEt et_u64; ArgShape [Z.of_nat (length order)]; ArgValues order] [] ∅ None;
  alloc c.2 "Transpose" [] [node; c.1]
    (from_option (fun t => {[t]}) ∅ tag)
    ((fun t => t +:+ "/Transpose_" +:+ to_string (Z.of_nat (length c.2))) <$> tag).

Definition ref_NHWCtoNCHW (op_name : string) (is_nhwc : bool) (node : Output)
    (h : list NgNode) : option (Output * list NgNode) :=
  if is_nhwc then ref_transpose [0; 3; 1; 2] (Some op_name) node h
  else Some (node, h).

Definition ref_NCHWtoNHWC (op_name : string) (is_nhwc : bool) (node : Output)
    (h : list NgNode) : option (Output * list NgNode) :=
  if is_nhwc then ref_transpose [0; 2; 3; 1] (Some op_name) node h
  else Some (node, h).

(** Modelled from the spec: [Builder::MakePadding], declared in the header
    of the builder, which is not part of the sources. Section 4.6: for the
    "same" policy the output size is the image size divided by the stride,
    rounded up, the kernel size counted dilated, and the extra pixel of an
    odd padding goes to the trailing side; for the "valid" policy the
    padding is zero on both sides. *)
Definition same_padding (image kernel stride dilation : Z) : Z * Z :=
  let out := (image + stride - 1) / stride in
  let total := Z.max 0 ((out - 1) * stride + ((kernel - 1) * dilation + 1) - image) in
  (total / 2, total - total / 2).

Definition ref_MakePadding (policy : string) (image kernel strides dilations : list Z)
    : option (list Z * list Z) :=
  if policy ==s "SAME" then
    let pads :=
      map (fun x => same_padding x.1.1.1 x.1.1.2 x.1.2 x.2)
          (zip (zip (zip image kernel) strides) dilations) in
    Some (map fst pads, map snd pads)
  else if policy ==s "VALID" then
    Some (map (fun _ => 0) image, map (fun _ => 0) image)
  else None.

Definition ref_ext : Externals :=
  {| platform := ref_platform;
     convert := ref_convert;
     TFDataTypeToNGraphElementType := ref_TFDataTypeToNGraphElementType;
     TFTensorShapeToNGraphShape := ref_TFTensorShapeToNGraphShape;
     GetEnv := fun _ => "";
     DebugString := fun n => "{{node " +:+ name n +:+ "}} = " +:+ type_string n;
     validate_and_infer_types := ref_infer;
     Function_validate := ref_Function_validate;
     run_passes := fun _ _ h f => Some (h, f);
     NHWCtoHW := ref_NHWCtoHW;
     NHWCtoNCHW := ref_NHWCtoNCHW;
     NCHWtoNHWC := ref_NCHWtoNHWC;
     Transpose_3_2_0_1 := ref_transpose [3; 2; 0; 1] None;
     MakePadding := ref_MakePadding;
     other_handlers := fun kind _ _ _ _ => Throws ("no handler here for " +:+ kind) |}.


(** ** The three classes of visited nodes *)

(** What the first loop of [TranslateGraph] makes of a node that is not a
    control-flow node: it skips the source and the sink of the graph, and
    files a formal-input marker, a formal-output marker, or an interior
    operator. *)
Definition is_param (n : Node) : bool :=
  negb (IsSink n || IsSource n) && IsArg n.

Definition is_retval (n : Node) : bool :=
  negb (IsSink n || IsSource n) && negb (IsArg n) && IsRetval n.

Definition is_interior (n : Node) : bool :=
  negb (IsSink n || IsSource n) && negb (IsArg n) && negb (IsRetval n).

(** ** Shapes that a formal list does not take *)

(** A shape is zero-dimensional when it is static, of rank at least one,
    and has a dimension of size zero; it is dynamic when it is not
    static. *)
Definition zero_dimensional (ps : PartialShape) : bool :=
  match to_shape ps with
  | Some sh => (0 <? length sh)%nat && existsb (fun d => d =? 0) sh
  | None => false
  end.

Definition dynamically_shaped (ps : PartialShape) : bool :=
  negb (bool_decide (is_Some (to_shape ps))).

(** The partial shape of the only output of a node of the heap. *)
Definition shape_of (h : list NgNode) (id : nat) : option PartialShape :=
  snd <$> output_info h (id, 0%nat).

(** ** The allow-lists of the fused handlers *)

(** The sequences that the chains of [VecStrCmp] of the two fused
    convolution handlers accept. *)
Definition FusedConv2D_allow_list : list (list string) :=
  [["BiasAdd"]; ["BiasAdd"; "Relu"]; ["BiasAdd"; "Relu6"];
   ["BiasAdd"; "LeakyRelu"]; ["BiasAdd"; "Elu"]; ["BiasAdd"; "Add"; "Relu"];
   ["BiasAdd"; "Add"]; ["BiasAdd"; "Add"; "LeakyRelu"];
   ["FusedBatchNorm"]; ["FusedBatchNorm"; "Relu"]; ["FusedBatchNorm"; "Relu6"];
   ["FusedBatchNorm"; "LeakyRelu"]].

Definition FusedDepthwiseConv2dNative_allow_list : list (list string) :=
  [["BiasAdd"]; ["BiasAdd"; "Relu6"]].

(** The error statuses a computation can return are among [codes]. *)
Definition status_within {A} (codes : list Code) (x : Outcome A) : Prop :=
  forall c msg, x = Err c msg -> c ∈ codes.

Definition errors_within {A} (codes : list Code) (m : M A) : Prop :=
  forall s c msg, m s = Err c msg -> c ∈ codes.

(** ** Notions used in the statements *)

(** What the loop leaves at index [j]: the [j]-th value of the field, or
    its last one past the end. *)
Definition filled (T : CType) (field : list Z) (j : nat) : Z :=
  cast_to T (default 0 (field !! Nat.min j (length field - 1))).

(** The order of the names, on nodes. *)
Definition name_le (a b : Node) : Prop := String.leb (name a) (name b) = true.

(** What a handler that saves [ng_node] for [op] leaves in the op map. *)
Definition saved (op : Node) (ng_node : Output) (before after : State) : Prop :=
  ng_op_map after =
    <[name op := default [] (ng_op_map before !! name op) ++ [ng_node]]>
      (ng_op_map before).

(** ** Constant nodes built from a value list, and example inputs *)

(** The values an element of type [T] can be given in a proto: those of
    the type, a [bool] being 0 or 1. *)
Definition holds (T : CType) (z : Z) : Prop :=
  match T with
  | c_bool => z = 0 \/ z = 1
  | _ => representable T z
  end.

(** The proto of a rank-1 tensor of element type [T] that lists the values
    [vs] in the repeated field of that type, and the constant node that
    carries it. *)
Definition proto_of_values (T : CType) (vs : list Z) : TensorProto :=
  {| tp_dtype := DataTypeToEnum T;
     has_tensor_shape := true;
     tensor_shape := [Z.of_nat (length vs)];
     tensor_content := [];
     float_val := match T with c_float => vs | _ => [] end;
     double_val := match T with c_double => vs | _ => [] end;
     int_val :=
       match T with
       | c_float | c_double | c_int64 | c_bool => []
       | _ => vs
       end;
     int64_val := match T with c_int64 => vs | _ => [] end;
     bool_val := match T with c_bool => map (fun z => negb (z =? 0)) vs | _ => [] end |}.

Definition const_node_of_values (nm : string) (T : CType) (vs : list Z) : Node :=
  {| name := nm; type_string := "Const";
     attrs := {[ "dtype" := AttrType (DataTypeToEnum T);
                 "value" := AttrTensor (proto_of_values T vs) ]};
     in_edges := [] |}.

Definition mk_node (nm ty : string) (a : list (string * AttrValue))
    (e : list (string * nat)) : Node :=
  {| name := nm; type_string := ty; attrs := list_to_map a; in_edges := e |}.

(** An int8 constant of shape [3] that lists one value. *)
Definition short_int8_const : Node :=
  mk_node "c" "Const"
    [("dtype", AttrType DT_INT8);
     ("value",
      AttrTensor
        {| tp_dtype := DT_INT8; has_tensor_shape := true; tensor_shape := [3];
           tensor_content := []; float_val := []; double_val := [];
           int_val := [7]; int64_val := []; bool_val := [] |})] [].

(** An int32 constant of shape [2, 2] that lists two values. *)
Definition short_int32_proto : TensorProto :=
  {| tp_dtype := DT_INT32; has_tensor_shape := true; tensor_shape := [2; 2];
     tensor_content := []; float_val := []; double_val := [];
     int_val := [5; 9]; int64_val := []; bool_val := [] |}.

Definition short_int32_const : Node :=
  mk_node "c" "Const"
    [("dtype", AttrType DT_INT32); ("value", AttrTensor short_int32_proto)] [].

(** A reduction whose axis comes from the formal input of index 0. *)
Definition axis_arg : Node := mk_node "axis" "_Arg" [("index", AttrInt 0)] [].

Definition sum_node : Node := mk_node "sum" "Sum" [] [("x", 0%nat); ("axis", 0%nat)].

Definition axis_tensor : Tensor :=
  {| t_dtype := DT_INT32; t_shape := [1]; t_data := [3] |}.

(** A consumer that reads a constant of three int8 values. *)
Definition three_int8 : Node := const_node_of_values "k" c_int8 [1; -2; 3].

Definition fill_node : Node := mk_node "fill" "Fill" [] [("k", 0%nat); ("v", 0%nat)].

(** A graph with an operator the registry does not know: x -> foo -> r. *)
Definition foo_graph : list Node :=
  [mk_node "r" "_Retval" [("index", AttrInt 0)] [("foo", 0%nat)];
   mk_node "foo" "Foo" [] [("x", 0%nat)];
   mk_node "x" "_Arg" [("T", AttrType DT_FLOAT); ("index", AttrInt 0)] []].

(** The positions where a float input is not zero: x -> w -> r. The shape
    of the result depends on the values of x. *)
Definition where_graph : list Node :=
  [mk_node "r" "_Retval" [("index", AttrInt 0)] [("w", 0%nat)];
   mk_node "w" "Where" [] [("x", 0%nat)];
   mk_node "x" "_Arg" [("T", AttrType DT_FLOAT); ("index", AttrInt 0)] []].

(** A formal input of shape [0, 3] passed through an identity: x -> i -> r. *)
Definition zero_dim_graph : list Node :=
  [mk_node "r" "_Retval" [("index", AttrInt 0)] [("i", 0%nat)];
   mk_node "i" "Identity" [] [("x", 0%nat)];
   mk_node "x" "_Arg" [("T", AttrType DT_FLOAT); ("index", AttrInt 0)] []].

Definition zero_dim_x : Node :=
  mk_node "x" "_Arg" [("T", AttrType DT_FLOAT); ("index", AttrInt 0)] [].

Definition identity_i : Node := mk_node "i" "Identity" [] [("x", 0%nat)].

(** A bias added to a channels-first input: x, b -> ba -> r. *)
Definition bias_add_graph : list Node :=
  [mk_node "x" "_Arg" [("T", AttrType DT_FLOAT); ("index", AttrInt 0)] [];
   mk_node "b" "_Arg" [("T", AttrType DT_FLOAT); ("index", AttrInt 1)] [];
   mk_node "ba" "BiasAdd" [("data_format", AttrString "NCHW")]
     [("x", 0%nat); ("b", 0%nat)];
   mk_node "r" "_Retval" [("index", AttrInt 0)] [("ba", 0%nat)]].

(** The absolute value of a formal input, and the state in which its
    handler runs: the parameter is node 0 of the heap. *)
Definition abs_node : Node := mk_node "a" "Abs" [] [("x", 0%nat)].

Definition state_with_x : State :=
  {| heap := [with_tracing_info "" 0
                (new_node "Parameter" [ArgEt et_f32; ArgShape [2; 3]] []
                   [(et_f32, of_shape [2; 3])])];
     ng_op_map := {[ "x" := [(0%nat, 0%nat)] ]} |}.

(** Two unrelated operators on the same input, then their sum:
    x -> a, x -> b, (a, b) -> s -> r; and the same graph with the two
    siblings in the other order. *)
Definition siblings_graph : list Node :=
  [mk_node "x" "_Arg" [("T", AttrType DT_FLOAT); ("index", AttrInt 0)] [];
   mk_node "a" "Abs" [] [("x", 0%nat)];
   mk_node "b" "Neg" [] [("x", 0%nat)];
   mk_node "s" "Add" [] [("a", 0%nat); ("b", 0%nat)];
   mk_node "r" "_Retval" [("index", AttrInt 0)] [("s", 0%nat)]].

Definition siblings_graph_swapped : list Node :=
  [mk_node "x" "_Arg" [("T", AttrType DT_FLOAT); ("index", AttrInt 0)] [];
   mk_node "b" "Neg" [] [("x", 0%nat)];
   mk_node "a" "Abs" [] [("x", 0%nat)];
   mk_node "s" "Add" [] [("a", 0%nat); ("b", 0%nat)];
   mk_node "r" "_Retval" [("index", AttrInt 0)] [("s", 0%nat)]].

(** A fused matrix product (2x3 by 3x4, bias of 4) whose [fused_ops] is
    given: a, b, c -> mm -> r; and the state in which its handler runs,
    the three parameters being nodes 0, 1 and 2 of the heap. *)
Definition float_arg (nm : string) (i : Z) : Node :=
  mk_node nm "_Arg" [("T", AttrType DT_FLOAT); ("index", AttrInt i)] [].

Definition fused_matmul (fused_ops : list string) : Node :=
  mk_node "mm" "_FusedMatMul"
    [("num_args", AttrInt 1); ("fused_ops", AttrStringList fused_ops);
     ("transpose_a", AttrBool false); ("transpose_b", AttrBool false)]
    [("a", 0%nat); ("b", 0%nat); ("c", 0%nat)].

Definition fused_matmul_graph (fused_ops : list string) : list Node :=
  [float_arg "a" 0; float_arg "b" 1; float_arg "c" 2; fused_matmul fused_ops;
   mk_node "r" "_Retval" [("index", AttrInt 0)] [("mm", 0%nat)]].

Definition parameter_node (id : nat) (sh : list Z) : NgNode :=
  with_tracing_info "" id
    (new_node "Parameter" [ArgEt et_f32; ArgShape sh] [] [(et_f32, of_shape sh)]).

Definition matmul_state : State :=
  {| heap := [parameter_node 0 [2; 3]; parameter_node 1 [3; 4]; parameter_node 2 [4]];
     ng_op_map := {[ "a" := [(0%nat, 0%nat)]; "b" := [(1%nat, 0%nat)];
                     "c" := [(2%nat, 0%nat)] ]} |}.

(** A fused convolution on a channels-last 4x4 image with 2 channels, a
    3x3 kernel to 5 channels, and the further inputs its [fused_ops] asks
    for: p0, p1, ... -> cv -> r. *)
Definition fused_conv_attrs (fused_ops : list string) (num_args : Z)
    : list (string * AttrValue) :=
  [("num_args", AttrInt num_args); ("fused_ops", AttrStringList fused_ops);
   ("data_format", AttrString "NHWC"); ("strides", AttrIntList [1; 1; 1; 1]);
   ("dilations", AttrIntList [1; 1; 1; 1]); ("padding", AttrString "SAME");
   ("epsilon", AttrFloat 981668463); ("leakyrelu_alpha", AttrFloat 1045220557)].

Definition further_inputs (fused_ops : list string) : list string :=
  match fused_ops with
  | "FusedBatchNorm" :: _ => ["p2"; "p3"; "p4"; "p5"]
  | "BiasAdd" :: "Add" :: _ => ["p2"; "p3"]
  | _ => ["p2"]
  end.

Definition fused_conv (kind : string) (fused_ops : list string) : Node :=
  mk_node "cv" kind
    (fused_conv_attrs fused_ops (Z.of_nat (length (further_inputs fused_ops))))
    (map (fun n => (n, 0%nat)) ("p0" :: "p1" :: further_inputs fused_ops)).

Definition fused_conv_graph (kind : string) (fused_ops : list string) : list Node :=
  [float_arg "p0" 0; float_arg "p1" 1; float_arg "p2" 2; float_arg "p3" 3;
   float_arg "p4" 4; float_arg "p5" 5; fused_conv kind fused_ops;
   mk_node "r" "_Retval" [("index", AttrInt 0)] [("cv", 0%nat)]].

Definition fused_conv_shapes (kernel : list Z) (channels : Z)
    (fused_ops : list string) : list (list Z) :=
  match fused_ops with
  | "BiasAdd" :: "Add" :: _ =>
      [[1; 4; 4; 2]; kernel; [channels]; [1; 4; 4; channels]; [channels]; [channels]]
  | _ => [[1; 4; 4; 2]; kernel; [channels]; [channels]; [channels]; [channels]]
  end.

(** A fused convolution with a listed sequence and a wrong [num_args]. *)
Definition fused_conv_two_args : Node :=
  mk_node "cv" "_FusedConv2D" (fused_conv_attrs ["BiasAdd"] 2)
    [("p0", 0%nat); ("p1", 0%nat); ("p2", 0%nat)].
(** ** More helpers and handlers of the builder *)

(** [ValidateInputCountMin]. *)
Definition ValidateInputCountMin (op : Node) (count : Z) : Outcome unit :=
  if num_inputs op <? count then
    Err INVALID_ARGUMENT
      (quote +:+ name op +:+ quote +:+ " requires at least " +:+ to_string count +:+
       " input(s), got " +:+ to_string (num_inputs op) +:+ " instead")
  else Ok tt.

(** [CheckAxisDimInRange]. The rank is a [size_t]; the two bounds are its
    opposite and itself, converted to [int]. *)
Fixpoint CheckAxisDimInRange (axes : list Z) (rank : Z) : Outcome unit :=
  match axes with
  | [] => Ok tt
  | i :: rest =>
      if (i <? wrap_signed 32 (- rank)) || (wrap_signed 32 rank <=? i) then
        Err INVALID_ARGUMENT
          ("Axis Dimension is out of range. Got " +:+ to_string i +:+
           ", should be in range [-" +:+ to_string rank +:+ ", " +:+
           to_string rank +:+ ")")
      else CheckAxisDimInRange rest rank
  end.

(** [get_partial_shape().rank().get_length()]: the length of a dynamic
    rank cannot be taken. *)
Definition get_rank (o : Output) : M Z :=
  fun s =>
    match output_info (heap s) o with
    | None => Crash "output of no node"
    | Some (_, None) => Throws "Cannot get length of dynamic dimension"
    | Some (_, Some ds) => Ok (Z.of_nat (length ds), s)
    end.

(** [node->output(i)]. *)
Definition node_output (node : Output) (i : nat) : M Output :=
  fun s =>
    match heap s !! node.1 with
    | None => Crash "null node"
    | Some n =>
        if (i <? length (ng_outputs n))%nat then Ok ((node.1, i), s)
        else Throws "node output index is out of range"
    end.

(** A loop that fetches the inputs of the given indices, in order. *)
Fixpoint input_loop (op : Node) (indices : list nat) : M (list Output) :=
  match indices with
  | [] => ret []
  | i :: rest =>
      ng_arg <- GetInputNode op i;;
      ng_args <- input_loop op rest;;
      ret (ng_arg :: ng_args)
  end.

(** [std::accumulate] with an operation that builds nodes. *)
Fixpoint accumulate {A B} (f : B -> A -> M B) (l : list A) (init : B) : M B :=
  match l with
  | [] => ret init
  | x :: rest => b <- f init x;; accumulate f rest b
  end.

Definition GetInputNodes5 (op : Node)
    : M (Output * Output * Output * Output * Output) :=
  lift (ValidateInputCount op 5);;
  a <- GetInputNode op 0;;
  b <- GetInputNode op 1;;
  c <- GetInputNode op 2;;
  d <- GetInputNode op 3;;
  e <- GetInputNode op 4;;
  ret (a, b, c, d, e).

(** The classes of nGraph that derive from [ArithmeticReduction] and from
    [LogicalReduction]. *)
Definition is_arithmetic_reduction (T : string) : bool :=
  member T ["ReduceSum"; "ReduceProd"; "ReduceMax"; "ReduceMin"; "ReduceMean";
            "ReduceL1"; "ReduceL2"].

Definition is_logical_reduction (T : string) : bool :=
  member T ["ReduceLogicalAnd"; "ReduceLogicalOr"].

(** The lambda of [TranslateReduceOp] that makes an axis positive: it
    takes an [int], and its result is stored in a vector of [size_t]. *)
Definition reduction_axis (input_rank : Z) (idx : Z) : Z :=
  let idx := wrap_signed 32 idx in
  wrap_unsigned 64
    (wrap_signed 32 (idx + (if idx <? 0 then wrap_signed 32 input_rank else 0))).

(** The lambda [mask_to_vec] of [TranslateStridedSliceOp]; [mask] is an
    [int32], and [sizeof(mask) * CHAR_BIT] is 32. *)
Definition mask_to_vec (mask : Z) : list Z :=
  if mask =? 0 then replicate 32 0
  else
    map (fun i => if Z.land (Z.shiftr mask (Z.of_nat i)) 1 =? 1 then 1 else 0)
        (seq 0 32).

(** The two vectors [pad_begin] and [pad_end] that the loop of
    [TranslatePadOp] fills from [paddings]. *)
Definition pad_begin (paddings : list Z) : list Z :=
  map (fun i => nth (2 * i)%nat paddings 0) (seq 0 (length paddings / 2)%nat).

Definition pad_end (paddings : list Z) : list Z :=
  map (fun i => nth (2 * i + 1)%nat paddings 0) (seq 0 (length paddings / 2)%nat).

(** The range of an [int64]. *)
Definition in_int64 (z : Z) : bool := (- 2 ^ 63 <=? z) && (z <? 2 ^ 63).

(** The loop of [TranslateSliceOp] over the positions [i], [i + 1], ...
    of [size_vec]: it gives [end_vec] from there on. The shape is indexed
    without a check, and a sum that leaves the [int64] is undefined. *)
Fixpoint slice_ends (i : nat) (total : nat) (begin_vec size_vec ng_input_shape : list Z)
    : Outcome (list Z) :=
  match begin_vec, size_vec with
  | b :: begin_rest, sz :: size_rest =>
      match ng_input_shape !! i with
      | None => Crash "ng_input_shape[i] out of range"
      | Some dim =>
          if negb (sz =? -1) && negb (in_int64 (b + sz)) then
            Crash "signed overflow of begin_vec[i] + size_vec[i]"
          else
            let e := if negb (sz =? -1) then b + sz else wrap_signed 64 dim in
            let err_msg :=
              (if 0 >? b then
                 "lower < 0: " +:+ to_string b +:+ ". It should have been positive." +:+
                 newline
               else "") +:+
              (if b >? e then
                 "upper < lower: upper = " +:+ to_string e +:+ ", lower = " +:+
                 to_string b +:+ newline
               else "") +:+
              (if wrap_unsigned 64 b >? dim then
                 "dim < upper: dim = " +:+ to_string dim +:+ ", upper = " +:+
                 to_string e +:+ newline
               else "") in
            if negb (err_msg ==s "") then
              Err INVALID_ARGUMENT
                ("Cannot translate slice op at position " +:+ to_string (Z.of_nat i) +:+
                 " of " +:+ to_string (Z.of_nat total) +:+ ". The reasons are:" +:+
                 newline +:+ err_msg)
            else
              ends <-? slice_ends (S i) total begin_rest size_rest ng_input_shape;;
              Ok (e :: ends)
      end
  | _, _ => Ok []
  end.

(** The loop of [TranslateSplitVOp] that totals the split lengths and finds
    the position of a -1: it gives [length], [idx] and [has_one_neg]. The
    total is an [int], and a sum that leaves it is undefined. *)
Fixpoint split_total (split_lengths_vec : list Z) (i : Z) (len : Z) (idx : Z)
    (has_one_neg : bool) : Outcome (Z * Z * bool) :=
  match split_lengths_vec with
  | [] => Ok (len, idx, has_one_neg)
  | l :: rest =>
      if negb (l =? -1) then
        if (INT_MIN <=? len + l) && (len + l <=? INT_MAX)
        then split_total rest (i + 1) (len + l) idx has_one_neg
        else Crash "signed overflow of length"
      else if has_one_neg then
        Err INVALID_ARGUMENT "size_splits can only have one -1"
      else split_total rest (i + 1) len i true
  end.

(** What [TranslateSplitVOp] makes of [split_lengths_vec], given the size
    [shape[split_dim]] of the axis that is split (a [size_t]; nothing when
    the index is out of range): the lengths with the -1 replaced, when it
    is not the first one. *)
Definition size_splits (split_lengths_vec : list Z) (shape_at_split_dim : option Z)
    : Outcome (list Z) :=
  let dim : Outcome Z :=
    match shape_at_split_dim with
    | Some d => Ok d
    | None => Crash "shape[split_dim] out of range"
    end in
  r <-? split_total split_lengths_vec 0 0 (-1) false;;
  let '(len, idx, has_one_neg) := r in
  split_lengths_vec <-?
    (if 0 <? idx then
       d <-? dim;;
       Ok (<[Z.to_nat idx := wrap_signed 32 (d - len)]> split_lengths_vec)
     else Ok split_lengths_vec);;
  mismatch <-?
    (if negb has_one_neg then
       d <-? dim;; Ok (negb (wrap_unsigned 64 len =? d))
     else Ok (nth (Z.to_nat idx) split_lengths_vec 0 <? 0));;
  if mismatch : bool then
    Err INVALID_ARGUMENT
      "The length of size_splits must sum to the value of the dimension along split_dim"
  else Ok split_lengths_vec.

Section Handlers.

Variable ext : Externals.

(** [GetStaticInputNode]. *)
Definition GetStaticInputNode (g : gmap string Node) (op : Node) (input_index : Z)
    (static_input_map : list (option Tensor)) (dt : DataType) : M Output :=
  type <- lift (TFDataTypeToNGraphElementType ext dt);;
  let scalar (T : CType) : M Output :=
    vec <- lift (GetStaticInputVector (convert ext) g T op input_index static_input_map);;
    match vec with
    | [] => crash "vec[0] out of range"
    | v :: _ =>
        ConstructNgNode ext (name op) "Constant"
          [ArgEt type; ArgShape []; ArgValues [v]] []
    end in
  match dt with
  | DT_FLOAT => scalar c_float
  | DT_DOUBLE => scalar c_double
  | DT_INT32 => scalar c_int32
  | DT_INT64 => scalar c_int64
  | _ =>
      fail INTERNAL
        ("GetStaticInputNode: TF data type " +:+ DataType_Name dt +:+ " not supported.")
  end.

(** [TranslateAddNOp]. Of a vector without elements, [at(0)] throws. *)
Definition TranslateAddNOp (op : Node) : M unit :=
  ng_arg_vec <- input_loop op (seq 0 (length (in_edges op)));;
  match ng_arg_vec with
  | [] => fun _ => Throws "vector::_M_range_check"
  | first :: rest =>
      ng_addn <-
        accumulate (fun a b => ConstructNgNode ext (name op) "Add" [] [a; b]) rest first;;
      SaveNgOp (name op) ng_addn
  end.

(** [TranslateConcatV2Op]. *)
Definition TranslateConcatV2Op : Handler := fun g op static_input_map =>
  lift (ValidateInputCountMin op 2);;
  tf_concat_axis_vec <-
    lift (GetStaticInputVector (convert ext) g c_int64 op (num_inputs op - 1)
            static_input_map);;
  match tf_concat_axis_vec with
  | [] => crash "tf_concat_axis_vec[0] out of range"
  | concat_axis :: _ =>
      concat_axis <-
        (if concat_axis <? 0 then
           ng_first_arg <- GetInputNode op 0;;
           ng_first_arg_shape <- get_shape ng_first_arg;;
           ret (concat_axis + Z.of_nat (length ng_first_arg_shape))
         else ret concat_axis);;
      ng_args <- input_loop op (seq 0 (length (in_edges op) - 1));;
      ng_concat <-
        ConstructNgNode ext (name op) "Concat" [ArgZ (wrap_unsigned 64 concat_axis)]
          ng_args;;
      SaveNgOp (name op) ng_concat
  end.

(** [TranslateFusedBatchNormOp]; 953267991 is the [float] 0.0001. *)
Definition TranslateFusedBatchNormOp (op : Node) : M unit :=
  let is_v3 := type_string op ==s "FusedBatchNormV3" in
  let is_Ex := type_string op ==s "_FusedBatchNormEx" in
  inputs <- GetInputNodes5 op;;
  let '(ng_input, ng_scale, ng_offset, ng_mean, ng_variance) := inputs in
  tf_data_format <- lift (GetNodeAttr_string op "data_format");;
  if negb (tf_data_format ==s "NHWC") && negb (tf_data_format ==s "NCHW") then
    fail INVALID_ARGUMENT "Conv2D data format is neither NHWC nor NCHW"
  else
    let is_nhwc := tf_data_format ==s "NHWC" in
    let tf_epsilon :=
      match GetNodeAttr_float op "epsilon" with
      | Ok e => e
      | _ => 953267991
      end in
    ng_input <- on_heap (NHWCtoNCHW ext (name op) is_nhwc ng_input);;
    ng_batch_norm <-
      ConstructNgNode ext (name op) "BatchNormInference" [ArgFloat tf_epsilon]
        [ng_input; ng_scale; ng_offset; ng_mean; ng_variance];;
    ng_batch_norm <- on_heap (NCHWtoNHWC ext (name op) is_nhwc ng_batch_norm);;
    if is_Ex then
      activation_mode <- lift (GetNodeAttr_string op "activation_mode");;
      if activation_mode ==s "Relu" then
        relu_op <- ConstructNgNode ext (name op) "Relu" [] [ng_batch_norm];;
        SaveNgOp (name op) relu_op
      else
        fail UNIMPLEMENTED
          ("Unsupported _FusedBatchNormEx activation mode in " +:+ name op)
    else
      SaveNgOp (name op) ng_batch_norm;;
      SaveNgOp (name op) ng_mean;;
      SaveNgOp (name op) ng_variance;;
      SaveNgOp (name op) ng_mean;;
      SaveNgOp (name op) ng_variance;;
      if is_v3 then SaveNgOp (name op) ng_mean else ret tt.

(** [TranslateGatherV2Op]. The axis is an [int]; it is compared with the
    rank, a [size_t]. *)
Definition TranslateGatherV2Op : Handler := fun g op static_input_map =>
  inputs <- GetInputNodes3 op;;
  let '(ng_input, ng_input_coords, ng_unused) := inputs in
  tf_axis <- lift (GetStaticInputVector (convert ext) g c_int64 op 2 static_input_map);;
  if (1 <? length tf_axis)%nat then
    fail INTERNAL
      ("Found axis in GatherV2 op (" +:+ name op +:+
       ") translation to be non scalar, of size " +:+
       to_string (Z.of_nat (length tf_axis)))
  else
    ng_input_rank <- get_rank ng_input;;
    match tf_axis with
    | [] => crash "tf_axis[0] out of range"
    | tf_axis_0 :: _ =>
        let axis :=
          if 0 <=? tf_axis_0 then wrap_signed 32 tf_axis_0
          else wrap_signed 32 (tf_axis_0 + ng_input_rank) in
        if (axis <? 0) || (ng_input_rank <=? axis) then
          fail INVALID_ARGUMENT
            ("Expected axis in the range [-" +:+ to_string ng_input_rank +:+ ", " +:+
             to_string ng_input_rank +:+ "), but got " +:+ to_string tf_axis_0)
        else
          ng_axis <-
            ConstructNgNode ext (name op) "Constant"
              [ArgEt et_i64; ArgShape [Z.of_nat (length tf_axis)]; ArgValues tf_axis] [];;
          gather_op <-
            ConstructNgNode ext (name op) "Gather" [] [ng_input; ng_input_coords; ng_axis];;
          SaveNgOp (name op) gather_op
    end.

(** [TranslateReduceOp]. *)
Definition TranslateReduceOp (g : gmap string Node) (op : Node)
    (static_input_map : list (option Tensor))
    (create_ng_node : Output -> Output -> bool -> M Output) : M unit :=
  ng_input <- GetInputNode op 0;;
  let tf_keep_dims :=
    match GetNodeAttr_bool op "keep_dims" with
    | Ok b => b
    | _ => false
    end in
  axes <- lift (GetStaticInputVector (convert ext) g c_int64 op 1 static_input_map);;
  input_rank <- get_rank ng_input;;
  lift (CheckAxisDimInRange axes input_rank);;
  let ng_reduction_axes_vect := map (reduction_axis input_rank) axes in
  ng_reduction_axes <-
    ConstructNgNode ext (name op) "Constant"
      [ArgEt et_i64; ArgShape [Z.of_nat (length ng_reduction_axes_vect)];
       ArgValues ng_reduction_axes_vect] [];;
  ng_node <- create_ng_node ng_input ng_reduction_axes tf_keep_dims;;
  SaveNgOp (name op) ng_node.

(** [TranslateDirectReduceOp<T>]. *)
Definition TranslateDirectReduceOp (T : string) : Handler := fun g op static_input_map =>
  if negb (is_arithmetic_reduction T || is_logical_reduction T) then
    fail INVALID_ARGUMENT
      "Expected node to be either a valid logical or arithmetic reduction type"
  else
    TranslateReduceOp g op static_input_map
      (fun ng_input ng_reduction_axes keep_dims =>
         ConstructNgNode ext (name op) T [ArgBool keep_dims]
           [ng_input; ng_reduction_axes]).

(** [TranslatePadOp], the handler of Pad, PadV2 and MirrorPad. *)
Definition TranslatePadOp : Handler := fun g op static_input_map =>
  inputs <-
    (if (type_string op ==s "Pad") || (type_string op ==s "MirrorPad") then
       i <- GetInputNodes2 op;;
       let '(ng_input, ng_paddings_op) := i in
       et <- get_element_type ng_input;;
       pad_val_op <-
         ConstructNgNode ext (name op) "Constant"
           [ArgEt et; ArgShape []; ArgValues [0]] [];;
       ret (ng_input, ng_paddings_op, pad_val_op)
     else if type_string op ==s "PadV2" then GetInputNodes3 op
     else fail INVALID_ARGUMENT ("Incorrect TF Pad OpType: " +:+ type_string op));;
  let '(ng_input, ng_paddings_op, pad_val_op) := inputs in
  pad_mode <-
    (if type_string op ==s "MirrorPad" then
       pad_mode_str <- lift (GetNodeAttr_string op "mode");;
       if pad_mode_str ==s "REFLECT" then ret "REFLECT"
       else if pad_mode_str ==s "SYMMETRIC" then ret "SYMMETRIC"
       else fail INVALID_ARGUMENT (pad_mode_str +:+ " is not an allowed padding mode.")
     else ret "CONSTANT");;
  paddings <-
    lift (GetStaticInputVector (convert ext) g c_int64 op 1 static_input_map);;
  if negb (length paddings mod 2 =? 0)%nat then
    fail INVALID_ARGUMENT
      "Constant node for paddings does not have an even number of elements"
  else
    pads_begin_node <-
      ConstructNgNode ext (name op) "Constant"
        [ArgEt et_i64; ArgShape [Z.of_nat (length (pad_begin paddings))];
         ArgValues (pad_begin paddings)] [];;
    pads_end_node <-
      ConstructNgNode ext (name op) "Constant"
        [ArgEt et_i64; ArgShape [Z.of_nat (length (pad_end paddings))];
         ArgValues (pad_end paddings)] [];;
    result_pad_op <-
      ConstructNgNode ext (name op) "Pad" [ArgString pad_mode]
        [ng_input; pads_begin_node; pads_end_node; pad_val_op];;
    SaveNgOp (name op) result_pad_op.

(** [TranslateSliceOp]. *)
Definition TranslateSliceOp : Handler := fun g op static_input_map =>
  inputs <- GetInputNodes3 op;;
  let '(ng_input, ng_begin, ng_size) := inputs in
  begin_vec <-
    lift (GetStaticInputVector (convert ext) g c_int64 op 1 static_input_map);;
  size_vec <-
    lift (GetStaticInputVector (convert ext) g c_int64 op 2 static_input_map);;
  if negb (length begin_vec =? length size_vec)%nat then
    fail INVALID_ARGUMENT
      ("Cannot translate slice op: size of begin = " +:+
       to_string (Z.of_nat (length begin_vec)) +:+ ", size of size_vec = " +:+
       to_string (Z.of_nat (length size_vec)) +:+ ". Expected them to match.")
  else
    ng_input_shape <- get_shape ng_input;;
    end_vec <-
      lift (slice_ends 0 (length size_vec) begin_vec size_vec ng_input_shape);;
    begin <-
      ConstructNgNode ext (name op) "Constant"
        [ArgEt et_i64; ArgShape [Z.of_nat (length begin_vec)]; ArgValues begin_vec] [];;
    end_ <-
      ConstructNgNode ext (name op) "Constant"
        [ArgEt et_i64; ArgShape [Z.of_nat (length end_vec)]; ArgValues end_vec] [];;
    ng_slice <-
      ConstructNgNode ext (name op) "StridedSlice" [ArgValues []; ArgValues []]
        [ng_input; begin; end_];;
    SaveNgOp (name op) ng_slice.

(** [TranslateSoftmaxOp]. *)
Definition TranslateSoftmaxOp (op : Node) : M unit :=
  ng_input <- GetInputNodes1 op;;
  rank <- get_rank ng_input;;
  if rank <? 1 then fail INVALID_ARGUMENT "TF Softmax logits must be >=1 dimension"
  else
    ng_softmax <- ConstructNgNode ext (name op) "Softmax" [ArgZ (rank - 1)] [ng_input];;
    SaveNgOp (name op) ng_softmax.

(** [TranslateSplitVOp]. The rank is kept in an [int], and so is the axis
    once it is made positive. *)
Definition TranslateSplitVOp : Handler := fun g op static_input_map =>
  ng_input <- GetInputNode op 0;;
  shape <- get_shape ng_input;;
  let rank := wrap_signed 32 (Z.of_nat (length shape)) in
  split_dim_vec <-
    lift (GetStaticInputVector (convert ext) g c_int64 op 2 static_input_map);;
  if negb (length split_dim_vec =? 1)%nat then
    fail INVALID_ARGUMENT "split_dim_tensor must have exactly one element."
  else
    lift (CheckAxisDimInRange split_dim_vec (wrap_unsigned 64 rank));;
    let split_dim_0 := hd 0 split_dim_vec in
    let split_dim :=
      wrap_signed 32 (split_dim_0 + (if split_dim_0 <? 0 then rank else 0)) in
    ng_split_dim <-
      ConstructNgNode ext (name op) "Constant"
        [ArgEt et_i32; ArgShape []; ArgValues [split_dim]] [];;
    split_lengths_vec <-
      lift (GetStaticInputVector (convert ext) g c_int32 op 1 static_input_map);;
    split_lengths_vec <-
      lift (size_splits split_lengths_vec
              (if split_dim <? 0 then None else shape !! Z.to_nat split_dim));;
    ng_split_length <-
      ConstructNgNode ext (name op) "Constant"
        [ArgEt et_i32; ArgShape [Z.of_nat (length split_lengths_vec)];
         ArgValues split_lengths_vec] [];;
    if negb (length split_lengths_vec =? 1)%nat then
      ng_split <-
        make_shared ext "VariadicSplit" [] [ng_input; ng_split_dim; ng_split_length];;
      for_each
        (fun i =>
           out <- node_output ng_split i;;
           SetTracingInfo (name op) out;;
           SaveNgOp (name op) out)
        (seq 0 (length split_lengths_vec))
    else SaveNgOp (name op) ng_input.

(** [TranslateSqueezeOp]. *)
Definition TranslateSqueezeOp (op : Node) : M unit :=
  ng_input <- GetInputNodes1 op;;
  ng_input_shape <- get_shape ng_input;;
  let input_dims := Z.of_nat (length ng_input_shape) in
  tf_axis <- lift (GetNodeAttr_ints op "squeeze_dims");;
  let tf_axis :=
    map (fun a => if a <? 0 then wrap_signed 32 (wrap_signed 32 input_dims + a) else a)
        tf_axis in
  if (0 <? input_dims) && (hd 0 ng_input_shape =? 0) then
    et <- get_element_type ng_input;;
    ng_const <-
      ConstructNgNode ext (name op) "Constant" [ArgEt et; ArgShape [0]; ArgValues [0]] [];;
    SaveNgOp (name op) ng_const
  else
    ng_const <-
      ConstructNgNode ext (name op) "Constant"
        [ArgEt et_i32; ArgShape [Z.of_nat (length tf_axis)]; ArgValues tf_axis] [];;
    ng_squeeze <- ConstructNgNode ext (name op) "Squeeze" [] [ng_input; ng_const];;
    SaveNgOp (name op) ng_squeeze.

(** [TranslateStridedSliceOp]. *)
Definition TranslateStridedSliceOp : Handler := fun g op static_input_map =>
  ng_input <- GetInputNode op 0;;
  begin_mask <- lift (GetNodeAttr_int op "begin_mask");;
  end_mask <- lift (GetNodeAttr_int op "end_mask");;
  new_axis_mask <- lift (GetNodeAttr_int op "new_axis_mask");;
  shrink_axis_mask <- lift (GetNodeAttr_int op "shrink_axis_mask");;
  ellipsis_mask <- lift (GetNodeAttr_int op "ellipsis_mask");;
  begin_vec <-
    lift (GetStaticInputVector (convert ext) g c_int64 op 1 static_input_map);;
  end_vec <-
    lift (GetStaticInputVector (convert ext) g c_int64 op 2 static_input_map);;
  stride_vec <-
    lift (GetStaticInputVector (convert ext) g c_int64 op 3 static_input_map);;
  begin <-
    ConstructNgNode ext (name op) "Constant"
      [ArgEt et_i64; ArgShape [Z.of_nat (length begin_vec)]; ArgValues begin_vec] [];;
  end_ <-
    ConstructNgNode ext (name op) "Constant"
      [ArgEt et_i64; ArgShape [Z.of_nat (length end_vec)]; ArgValues end_vec] [];;
  strides <-
    ConstructNgNode ext (name op) "Constant"
      [ArgEt et_i64; ArgShape [Z.of_nat (length stride_vec)]; ArgValues stride_vec] [];;
  ng_slice <-
    ConstructNgNode ext (name op) "StridedSlice"
      [ArgValues (mask_to_vec begin_mask); ArgValues (mask_to_vec end_mask);
       ArgValues (mask_to_vec new_axis_mask); ArgValues (mask_to_vec shrink_axis_mask);
       ArgValues (mask_to_vec ellipsis_mask)]
      [ng_input; begin; end_; strides];;
  SaveNgOp (name op) ng_slice.

(** One turn of the loop of [TranslateUnpackOp]; the vectors are indexed
    by [tf_axis] without a check. *)
Definition unpack_output (op : Node) (ng_input : Output) (rank tf_axis : Z) (i : Z)
    : M unit :=
  if (tf_axis <? 0) || (rank <=? tf_axis) then crash "begin[tf_axis] out of range"
  else
    let at_axis (v : Z) (fill : Z) : list Z :=
      <[Z.to_nat tf_axis := v]> (replicate (Z.to_nat rank) fill) in
    ng_begin <-
      ConstructNgNode ext (name op) "Constant"
        [ArgEt et_i64; ArgShape [rank]; ArgValues (at_axis i 0)] [];;
    ng_end <-
      ConstructNgNode ext (name op) "Constant"
        [ArgEt et_i64; ArgShape [rank]; ArgValues (at_axis (i + 1) 0)] [];;
    slice <-
      ConstructNgNode ext (name op) "StridedSlice"
        [ArgValues (at_axis 0 1); ArgValues (at_axis 0 1);
         ArgValues (replicate (Z.to_nat rank) 0);
         ArgValues (replicate (Z.to_nat rank) 0)]
        [ng_input; ng_begin; ng_end];;
    squeeze_axis <-
      ConstructNgNode ext (name op) "Constant"
        [ArgEt et_i32; ArgShape []; ArgValues [tf_axis]] [];;
    squeeze <- ConstructNgNode ext (name op) "Squeeze" [] [slice; squeeze_axis];;
    SaveNgOp (name op) squeeze.

(** [TranslateUnpackOp]. *)
Definition TranslateUnpackOp (op : Node) : M unit :=
  lift (ValidateInputCount op 1);;
  ng_input <- GetInputNode op 0;;
  tf_axis <- lift (GetNodeAttr_int op "axis");;
  num_outputs <- lift (GetNodeAttr_int op "num");;
  rank <- get_rank ng_input;;
  let tf_axis := if tf_axis <? 0 then wrap_signed 32 (rank + tf_axis) else tf_axis in
  for_each (unpack_output op ng_input rank tf_axis)
    (map Z.of_nat (seq 0 (Z.to_nat num_outputs))).

End Handlers.
(** ** Notions used in the statements about the handlers *)

(** The number whose binary digits are given, the least one first. *)
Definition bits_value (vec : list Z) : Z := fold_right (fun b acc => b + 2 * acc) 0 vec.

(** Two lists merged, taking from each in turn. *)
Fixpoint interleave (a b : list Z) : list Z :=
  match a, b with
  | x :: a', y :: b' => x :: y :: interleave a' b'
  | _, _ => []
  end.

(** An axis made positive: counted from the end when it is negative. *)
Definition positive_axis (rank a : Z) : Z := if a <? 0 then a + rank else a.

(** The end of a slice along an axis of size [dim]: up to the end of the
    axis when the size is -1. *)
Definition slice_end (b sz dim : Z) : Z := if sz =? -1 then dim else b + sz.

(** The sum of a list of numbers. *)
Definition sum_list (l : list Z) : Z := fold_right Z.add 0 l.

(** A slice that [TranslateSliceOp] lets through: it begins at or after 0,
    within the axis, and does not end before it begins. *)
Definition slice_ok (b sz dim : Z) : Prop :=
  0 <= b /\ b <= slice_end b sz dim /\ b <= dim.

(** The split lengths that are given, the -1 left out. *)
Definition other_lengths (v : list Z) : list Z := List.filter (fun l => negb (l =? -1)) v.

(** The bytes of a number, the least one first. *)
Definition byte_of (z : Z) : Byte.byte := default Byte.x00 (Byte.of_N (Z.to_N z)).

Fixpoint le_bytes (n : nat) (z : Z) : list Byte.byte :=
  match n with
  | O => []
  | S n' => byte_of (z mod 256) :: le_bytes n' (z / 256)
  end.

(** The element types [TensorDataToVector] converts from. *)
Definition convertible_types : list DataType :=
  [DT_FLOAT; DT_DOUBLE; DT_INT8; DT_INT16; DT_INT32; DT_INT64; DT_UINT8; DT_UINT16;
   DT_UINT32; DT_UINT64; DT_BOOL].

(** The outputs that the op map holds for a node. *)
Definition outputs_of (s : State) (nm : string) : list Output :=
  default [] (ng_op_map s !! nm).

(** A node built for a source node: of the given class, and tagged with
    the name of the source node alone. *)
Definition built_for (tag ty : string) (node : NgNode) : Prop :=
  ng_type node = ty /\ provenance_tags node = {[tag]}.

(** ** Example inputs of the handlers *)

(** A float constant of shape [2, 3] without any value, and an int8
    constant one of whose dimensions is unknown. *)
Definition empty_float_proto : TensorProto :=
  {| tp_dtype := DT_FLOAT; has_tensor_shape := true; tensor_shape := [2; 3];
     tensor_content := []; float_val := []; double_val := []; int_val := [];
     int64_val := []; bool_val := [] |}.

Definition empty_float_const : Node :=
  mk_node "c" "Const"
    [("dtype", AttrType DT_FLOAT); ("value", AttrTensor empty_float_proto)] [].

Definition unknown_dim_proto : TensorProto :=
  {| tp_dtype := DT_INT8; has_tensor_shape := true; tensor_shape := [2; -1];
     tensor_content := []; float_val := []; double_val := []; int_val := [7];
     int64_val := []; bool_val := [] |}.

Definition unknown_dim_const : Node :=
  mk_node "c" "Const"
    [("dtype", AttrType DT_INT8); ("value", AttrTensor unknown_dim_proto)] [].

(** An int16 constant of shape [2] that carries 258 and -2 as raw bytes. *)
Definition raw_int16_proto : TensorProto :=
  {| tp_dtype := DT_INT16; has_tensor_shape := true; tensor_shape := [2];
     tensor_content := concat (map (le_bytes 2) [258; -2]);
     float_val := []; double_val := []; int_val := [];
     int64_val := []; bool_val := [] |}.

Definition raw_int16_const : Node :=
  mk_node "c" "Const"
    [("dtype", AttrType DT_INT16); ("value", AttrTensor raw_int16_proto)] [].

(** A graph with a control-flow operator that feeds nothing: x -> i -> r,
    and a Merge on the side. *)
Definition merge_graph : list Node :=
  [mk_node "r" "_Retval" [("index", AttrInt 0)] [("i", 0%nat)];
   mk_node "i" "Identity" [] [("x", 0%nat)];
   mk_node "m" "Merge" [] [("x", 0%nat)];
   mk_node "x" "_Arg" [("T", AttrType DT_FLOAT); ("index", AttrInt 0)] []].

(** An inference for the operators of the handlers above. For the classes
    it lists it knows nothing of the shape: the output has the element
    type of the first input and a dynamic rank; a VariadicSplit has one
    such output for each length of its constant of lengths. Any other
    class is left to [ref_infer]. *)
Definition shape_agnostic : list string :=
  ["Concat"; "Gather"; "Pad"; "StridedSlice"; "Squeeze"; "Softmax"; "ReduceSum"].

Definition open_infer (h : list NgNode) (ty : string) (args : list NgArg)
    (ins : list Output) : option (list (ElementType * PartialShape)) :=
  if member ty shape_agnostic then
    x ← head ins; i ← output_info h x; Some [(i.1, None)]
  else if ty ==s "VariadicSplit" then
    match ins with
    | [x; _; lengths] =>
        i ← output_info h x; vs ← constant_values h lengths;
        Some (map (fun _ => (i.1, None)) vs)
    | _ => None
    end
  else ref_infer h ty args ins.

Definition open_ext : Externals :=
  {| platform := platform ref_ext;
     convert := convert ref_ext;
     TFDataTypeToNGraphElementType := TFDataTypeToNGraphElementType ref_ext;
     TFTensorShapeToNGraphShape := TFTensorShapeToNGraphShape ref_ext;
     GetEnv := GetEnv ref_ext;
     DebugString := DebugString ref_ext;
     validate_and_infer_types := open_infer;
     Function_validate := Function_validate ref_ext;
     run_passes := run_passes ref_ext;
     NHWCtoHW := NHWCtoHW ref_ext;
     NHWCtoNCHW := NHWCtoNCHW ref_ext;
     NCHWtoNHWC := NCHWtoNHWC ref_ext;
     Transpose_3_2_0_1 := Transpose_3_2_0_1 ref_ext;
     MakePadding := MakePadding ref_ext;
     other_handlers := other_handlers ref_ext |}.

(** The nodes that give the static inputs of the examples: the formal
    inputs 0 and 1; and a rank-1 int32 tensor of given values. *)
Definition static_nodes : gmap string Node :=
  {[ "c" := float_arg "c" 0; "d" := float_arg "d" 1 ]}.

Definition int32_tensor (vs : list Z) : Tensor :=
  {| t_dtype := DT_INT32; t_shape := [Z.of_nat (length vs)]; t_data := vs |}.

Definition int64_tensor (vs : list Z) : Tensor :=
  {| t_dtype := DT_INT64; t_shape := [Z.of_nat (length vs)]; t_data := vs |}.

(** Example nodes, all reading the input a, of shape [2, 3], of
    [matmul_state]; c and d are static inputs. *)
Definition reduce_node : Node := mk_node "red" "Sum" [] [("a", 0%nat); ("c", 0%nat)].

Definition pad_node : Node := mk_node "pad" "Pad" [] [("a", 0%nat); ("c", 0%nat)].

Definition gather_node : Node :=
  mk_node "ga" "GatherV2" [] [("a", 0%nat); ("b", 0%nat); ("c", 0%nat)].

Definition concat_node : Node :=
  mk_node "cat" "ConcatV2" [] [("a", 0%nat); ("a", 0%nat); ("c", 0%nat)].

Definition unpack_node : Node :=
  mk_node "un" "Unpack" [("axis", AttrInt (-1)); ("num", AttrInt 3)] [("a", 0%nat)].

Definition batch_norm_node : Node :=
  mk_node "bn" "FusedBatchNormV3" [("data_format", AttrString "NCHW")]
    [("a", 0%nat); ("c", 0%nat); ("c", 0%nat); ("c", 0%nat); ("c", 0%nat)].

Definition add_n_node : Node :=
  mk_node "sum3" "AddN" [] [("a", 0%nat); ("a", 0%nat); ("a", 0%nat)].

Definition split_node : Node :=
  mk_node "sp" "SplitV" [] [("a", 0%nat); ("d", 0%nat); ("c", 0%nat)].

Definition retval_node : Node :=
  mk_node "r" "_Retval" [("index", AttrInt 0)] [("a", 0%nat)].

(** A sum of two inputs whose shapes, [2, 3] and [4], do not agree. *)
Definition bad_add_node : Node := mk_node "s" "Add" [] [("a", 0%nat); ("c", 0%nat)].

(** The state in which the handler of the fused convolution [fused_conv]
    runs: the six parameters are nodes 0 to 5 of the heap. *)
Definition conv_state (kernel : list Z) (channels : Z) : State :=
  {| heap := [parameter_node 0 [1; 4; 4; 2]; parameter_node 1 kernel;
              parameter_node 2 [channels]; parameter_node 3 [channels];
              parameter_node 4 [channels]; parameter_node 5 [channels]];
     ng_op_map := {[ "p0" := [(0%nat, 0%nat)]; "p1" := [(1%nat, 0%nat)];
                     "p2" := [(2%nat, 0%nat)]; "p3" := [(3%nat, 0%nat)];
                     "p4" := [(4%nat, 0%nat)]; "p5" := [(5%nat, 0%nat)] ]} |}.

(** The proto of a tensor of element type [T] and of a given shape that
    lists the values [vs] in the repeated field of that type, and the
    constant node that carries it; [proto_of_values] is the case of the
    shape of a vector of as many elements. *)
Definition proto_with_shape (T : CType) (shape vs : list Z) : TensorProto :=
  {| tp_dtype := DataTypeToEnum T;
     has_tensor_shape := true;
     tensor_shape := shape;
     tensor_content := [];
     float_val := float_val (proto_of_values T vs);
     double_val := double_val (proto_of_values T vs);
     int_val := int_val (proto_of_values T vs);
     int64_val := int64_val (proto_of_values T vs);
     bool_val := bool_val (proto_of_values T vs) |}.

Definition const_node_with_shape (nm : string) (T : CType) (shape vs : list Z) : Node :=
  {| name := nm; type_string := "Const";
     attrs := {[ "dtype" := AttrType (DataTypeToEnum T);
                 "value" := AttrTensor (proto_with_shape T shape vs) ]};
     in_edges := [] |}.

(** A scalar int8 constant and an int8 constant of shape [2, 2], each
    with all its values listed, and a consumer of the constant. *)
Definition scalar_int8 : Node := const_node_with_shape "k" c_int8 [] [7].

Definition square_int8 : Node := const_node_with_shape "k" c_int8 [2; 2] [1; -2; 3; 4].

(** ** What a handler builds *)

(** A target node of a given class, with given arguments, inputs and
    provenance tags. *)
Definition node_is (n : NgNode) (ty : string) (args : list NgArg) (ins : list Output)
    (tags : gset string) : Prop :=
  ng_type n = ty /\ ng_args n = args /\ ng_inputs n = ins /\ provenance_tags n = tags.

(** The heap [h'] is the heap [h] and one such node more, whose output is
    [o]. *)
Definition adds (h : list NgNode) (ty : string) (args : list NgArg) (ins : list Output)
    (tags : gset string) (o : Output) (h' : list NgNode) : Prop :=
  exists n, h' = h ++ [n] /\ o = (length h, 0%nat) /\ node_is n ty args ins tags.

(** The shape of an output, when it is static. *)
Definition static_shape (h : list NgNode) (o : Output) : option (list Z) :=
  i ← output_info h o; to_shape i.2.

(** The activations that end a fused operator. *)
Inductive Activation : Type :=
| NoActivation | Relu | Relu6 | LeakyRelu | Elu.

(** What follows the bias or the batch normalization in a _FusedConv2D:
    an activation; a further input added, then an activation; or a
    further input added after the return to the layout of the node. The
    string is the suffix of the tag of the last node. *)
Inductive Ending : Type :=
| then_activation (a : Activation) (suffix : string)
| second_input_then (a : Activation) (suffix : string)
| second_input_last.

(** Modelled from the spec: section 4.3 reads a sequence of [fused_ops] as
    a fixed primitive sequence, "convolution + bias-add", "convolution +
    bias-add + activation", "convolution + batch-norm [+ activation]",
    "depthwise-convolution + bias-add [+ clamp]", "matmul + bias-add
    [+ activation]". For every sequence of the allow-list of _FusedConv2D:
    whether the convolution is followed by the bias ([true]) or by the
    batch normalization, and what ends it. *)
Definition FusedConv2D_plans : list (list string * (bool * Ending)) :=
  [(["BiasAdd"], (true, then_activation NoActivation ""));
   (["BiasAdd"; "Relu"], (true, then_activation Relu "_FusedConv2D_Relu"));
   (["BiasAdd"; "Relu6"], (true, then_activation Relu6 "_FusedConv2D_Relu6"));
   (["BiasAdd"; "LeakyRelu"],
    (true, then_activation LeakyRelu "_FusedConv2D_LeakyRelu"));
   (["BiasAdd"; "Elu"], (true, then_activation Elu "_FusedConv2D_Elu"));
   (["BiasAdd"; "Add"; "Relu"], (true, second_input_then Relu "_FusedConv2D_Relu"));
   (["BiasAdd"; "Add"], (true, second_input_last));
   (["BiasAdd"; "Add"; "LeakyRelu"],
    (true, second_input_then LeakyRelu "_FusedConv2D_Add_LeakyRelu"));
   (["FusedBatchNorm"], (false, then_activation NoActivation ""));
   (["FusedBatchNorm"; "Relu"],
    (false, then_activation Relu "_FusedConv2D_BatchNormRelu"));
   (["FusedBatchNorm"; "Relu6"],
    (false, then_activation Relu6 "_FusedConv2D_BatchNormRelu"));
   (["FusedBatchNorm"; "LeakyRelu"],
    (false, then_activation LeakyRelu "_FusedConv2D_BatchNormLeakyRelu"))].

(** The same for _FusedDepthwiseConv2dNative, whose bias is followed by a
    clamp or by nothing. *)
Definition FusedDepthwise_plans : list (list string * Activation) :=
  [(["BiasAdd"], NoActivation); (["BiasAdd"; "Relu6"], Relu6)].

(** _FusedMatMul reads the length of the sequence and its second name. *)
Definition FusedMatMul_plan (fused_ops : list string) : option Activation :=
  match fused_ops with
  | [_] => Some NoActivation
  | [_; second] =>
      if second ==s "Relu" then Some Relu
      else if second ==s "Relu6" then Some Relu6
      else None
  | _ => None
  end.

Section Lowering.

Variable ext : Externals.
Variable op : Node.

(** The activation [a] of [x], its last node tagged [tag]: the value [y]
    and the heap [h'] it leaves. The leaky ReLU is the maximum of [x] and
    of [x] times the attribute [leakyrelu_alpha], from which Elu takes its
    alpha too. *)
Definition activated (a : Activation) (tag : string) (h : list NgNode) (x y : Output)
    (h' : list NgNode) : Prop :=
  match a with
  | NoActivation => y = x /\ h' = h
  | Relu => adds h "Relu" [] [x] {[tag]} y h'
  | Relu6 => adds h "Clamp" [ArgZ 0; ArgZ 6] [x] {[tag]} y h'
  | Elu =>
      exists alpha,
        GetNodeAttr_float op "leakyrelu_alpha" = Ok alpha /\
        adds h "Elu" [ArgFloat alpha] [x] {[tag]} y h'
  | LeakyRelu =>
      exists alpha ng_alpha h1 ng_alphax h2,
        GetNodeAttr_float op "leakyrelu_alpha" = Ok alpha /\
        adds h "Constant" [ArgEt et_f32; ArgShape []; ArgValues [alpha]] []
          {[name op]} ng_alpha h1 /\
        adds h1 "Multiply" [] [ng_alpha; x] {[name op]} ng_alphax h2 /\
        adds h2 "Maximum" [] [ng_alphax; x] {[tag]} y h'
  end.

(** The bias, a vector, reshaped to broadcast against axis 1 of [x], and
    added to it; the constant that holds the pattern of the reshape carries
    no tag. *)
Definition bias_added (add_tag : string) (h : list NgNode) (x bias y : Output)
    (h' : list NgNode) : Prop :=
  exists x_shape channels pattern h1 reshaped h2,
    static_shape h x = Some x_shape /\ static_shape h bias = Some [channels] /\
    (1 < length x_shape)%nat /\
    adds h "Constant"
      [ArgEt et_u64; ArgShape [Z.of_nat (length x_shape)];
       ArgValues (<[1%nat := channels]> (replicate (length x_shape) 1))] [] ∅
      pattern h1 /\
    adds h1 "Reshape" [ArgBool false] [bias; pattern] {[name op]} reshaped h2 /\
    adds h2 "Add" [] [x; reshaped] {[add_tag]} y h'.

(** The convolution of a _FusedConv2D: the input taken to the
    channels-first layout, the filter transposed and tagged, the strides,
    the dilations and the padding worked out by the layout helpers, then
    the Convolution node. *)
Definition convolved (fmt : string) (h : list NgNode) (input filter y : Output)
    (h' : list NgNode) : Prop :=
  let is_nhwc := fmt ==s "NHWC" in
  exists tf_strides tf_dilations tf_padding_type ng_strides input_shape image_shape
         ng_dilations input' h1 filter_shape k0 k1 filter' h2 filter_node padding,
    GetNodeAttr_ints op "strides" = Ok tf_strides /\
    GetNodeAttr_ints op "dilations" = Ok tf_dilations /\
    GetNodeAttr_string op "padding" = Ok tf_padding_type /\
    (fmt = "NHWC" \/ fmt = "NCHW") /\
    tf_strides !! 0%nat = Some 1 /\
    tf_strides !! (if is_nhwc then 3%nat else 1%nat) = Some 1 /\
    NHWCtoHW ext is_nhwc tf_strides = Some ng_strides /\
    static_shape h input = Some input_shape /\
    NHWCtoHW ext is_nhwc input_shape = Some image_shape /\
    NHWCtoHW ext is_nhwc tf_dilations = Some ng_dilations /\
    NHWCtoNCHW ext (name op) is_nhwc input h = Some (input', h1) /\
    static_shape h1 filter = Some filter_shape /\
    filter_shape !! 0%nat = Some k0 /\ filter_shape !! 1%nat = Some k1 /\
    Transpose_3_2_0_1 ext filter h1 = Some (filter', h2) /\
    h2 !! filter'.1 = Some filter_node /\
    MakePadding ext tf_padding_type image_shape [k0; k1] ng_strides ng_dilations =
      Some padding /\
    adds (<[filter'.1 := with_tracing_info (name op) filter'.1 filter_node]> h2)
      "Convolution"
      [ArgShape ng_strides; ArgShape padding.1; ArgShape padding.2;
       ArgShape ng_dilations]
      [input'; filter'] {[name op +:+ "_FusedConv2D_Conv"]} y h'.

(** The value [y] taken back to the layout of the node and saved for
    it. *)
Definition returned_and_saved (is_nhwc : bool) (y : Output) (h : list NgNode)
    (s s' : State) : Prop :=
  exists y', NCHWtoNHWC ext (name op) is_nhwc y h = Some (y', heap s') /\ saved op y' s s'.

(** What [TranslateFusedConv2DOp] has built when it succeeds on a listed
    sequence. *)
Definition FusedConv2D_lowered (fused_ops : list string) (s s' : State) : Prop :=
  exists with_bias ending fmt input filter conv h1 x h2,
    (fused_ops, (with_bias, ending)) ∈ FusedConv2D_plans /\
    GetNodeAttr_string op "data_format" = Ok fmt /\
    GetInputNode op 0 s = Ok (input, s) /\ GetInputNode op 1 s = Ok (filter, s) /\
    convolved fmt (heap s) input filter conv h1 /\
    (if with_bias : bool then
       exists bias,
         GetInputNode op 2 s = Ok (bias, s) /\
         bias_added (name op +:+ "_FusedConv2D_BiasAdd") h1 conv bias x h2
     else
       exists scale offset mean variance epsilon,
         GetInputNode op 2 s = Ok (scale, s) /\ GetInputNode op 3 s = Ok (offset, s) /\
         GetInputNode op 4 s = Ok (mean, s) /\ GetInputNode op 5 s = Ok (variance, s) /\
         GetNodeAttr_float op "epsilon" = Ok epsilon /\
         adds h1 "BatchNormInference" [ArgFloat epsilon]
           [conv; scale; offset; mean; variance]
           {[name op +:+ "_FusedConv2D_BatchNorm"]} x h2) /\
    match ending with
    | then_activation a suffix =>
        exists y h3,
          activated a (name op +:+ suffix) h2 x y h3 /\
          returned_and_saved (fmt ==s "NHWC") y h3 s s'
    | second_input_then a suffix =>
        exists input2 input2' h3 sum h4 y h5,
          GetInputNode op 3 s = Ok (input2, s) /\
          NHWCtoNCHW ext (name op) (fmt ==s "NHWC") input2 h2 = Some (input2', h3) /\
          adds h3 "Add" [] [x; input2'] {[name op +:+ "_FusedConv2D_Add"]} sum h4 /\
          activated a (name op +:+ suffix) h4 sum y h5 /\
          returned_and_saved (fmt ==s "NHWC") y h5 s s'
    | second_input_last =>
        exists input2 x' h3 y,
          GetInputNode op 3 s = Ok (input2, s) /\
          NCHWtoNHWC ext (name op) (fmt ==s "NHWC") x h2 = Some (x', h3) /\
          adds h3 "Add" [] [x'; input2] {[name op +:+ "_FusedConv2D_BiasAdd_Add"]} y
            (heap s') /\
          saved op y s s'
    end.

(** The convolution of a _FusedDepthwiseConv2dNative: the input taken to
    the channels-first layout, the filter reshaped to five dimensions and
    transposed, then the GroupConvolution node. All five nodes carry the
    name of the source node. *)
Definition depthwise_convolved (h : list NgNode) (input filter y : Output)
    (h' : list NgNode) : Prop :=
  exists tf_strides tf_dilations tf_padding_type fmt input_shape image_shape ng_strides
         ng_dilations input' h1 f0 f1 f2 f3 rest padding filter_shape h2 reshaped h3
         order h4 transposed h5,
    GetNodeAttr_ints op "strides" = Ok tf_strides /\
    GetNodeAttr_ints op "dilations" = Ok tf_dilations /\
    GetNodeAttr_string op "padding" = Ok tf_padding_type /\
    GetNodeAttr_string op "data_format" = Ok fmt /\
    (fmt = "NHWC" \/ fmt = "NCHW") /\
    static_shape h input = Some input_shape /\
    NHWCtoHW ext (fmt ==s "NHWC") input_shape = Some image_shape /\
    NHWCtoHW ext (fmt ==s "NHWC") tf_strides = Some ng_strides /\
    NHWCtoHW ext (fmt ==s "NHWC") tf_dilations = Some ng_dilations /\
    NHWCtoNCHW ext (name op) (fmt ==s "NHWC") input h = Some (input', h1) /\
    static_shape h1 filter = Some (f0 :: f1 :: f2 :: f3 :: rest) /\
    MakePadding ext tf_padding_type image_shape [f0; f1] ng_strides ng_dilations =
      Some padding /\
    adds h1 "Constant" [ArgEt et_u64; ArgShape [5]; ArgValues [f0; f1; f2; 1; f3]] []
      {[name op]} filter_shape h2 /\
    adds h2 "Reshape" [ArgBool false] [filter; filter_shape] {[name op]} reshaped h3 /\
    adds h3 "Constant" [ArgEt et_i64; ArgShape [5]; ArgValues [2; 4; 3; 0; 1]] []
      {[name op]} order h4 /\
    adds h4 "Transpose" [] [reshaped; order] {[name op]} transposed h5 /\
    adds h5 "GroupConvolution"
      [ArgShape ng_strides; ArgShape padding.1; ArgShape padding.2;
       ArgShape ng_dilations]
      [input'; transposed] {[name op]} y h'.

(** What [TranslateFusedDepthwiseConv2dNativeOp] has built when it
    succeeds on a listed sequence. *)
Definition FusedDepthwise_lowered (fused_ops : list string) (s s' : State) : Prop :=
  exists a fmt input filter bias conv h1 x h2 y h3,
    (fused_ops, a) ∈ FusedDepthwise_plans /\
    GetNodeAttr_string op "data_format" = Ok fmt /\
    GetInputNode op 0 s = Ok (input, s) /\ GetInputNode op 1 s = Ok (filter, s) /\
    GetInputNode op 2 s = Ok (bias, s) /\
    depthwise_convolved (heap s) input filter conv h1 /\
    bias_added (name op +:+ "_FusedDepthwiseConv2dNative_BiasAdd") h1 conv bias x h2 /\
    activated a (name op +:+ "_FusedDepthwiseConv2dNative_Relu6") h2 x y h3 /\
    returned_and_saved (fmt ==s "NHWC") y h3 s s'.

(** What [TranslateFusedMatMulOp] has built when it succeeds: the product,
    the bias added to it, and the activation, all tagged with the name of
    the source node. *)
Definition FusedMatMul_lowered (fused_ops : list string) (s s' : State) : Prop :=
  exists a transpose_a transpose_b lhs rhs bias product h1 channels sum h2 y,
    FusedMatMul_plan fused_ops = Some a /\
    GetNodeAttr_bool op "transpose_a" = Ok transpose_a /\
    GetNodeAttr_bool op "transpose_b" = Ok transpose_b /\
    GetInputNode op 0 s = Ok (lhs, s) /\ GetInputNode op 1 s = Ok (rhs, s) /\
    GetInputNode op 2 s = Ok (bias, s) /\
    adds (heap s) "MatMul" [ArgBool transpose_a; ArgBool transpose_b] [lhs; rhs]
      {[name op]} product h1 /\
    static_shape h1 bias = Some [channels] /\
    adds h1 "Add" [] [product; bias] {[name op]} sum h2 /\
    activated a (name op) h2 sum y (heap s') /\
    saved op y s s'.

(** What the handlers of the unary and of the binary operators of class
    [T] build: one node of that class on the inputs of the source node. *)
Definition unary_built (T : string) (s s' : State) : Prop :=
  exists x y,
    GetInputNode op 0 s = Ok (x, s) /\
    adds (heap s) T [] [x] {[name op]} y (heap s') /\ saved op y s s'.

Definition binary_built (T : string) (s s' : State) : Prop :=
  exists lhs rhs y,
    GetInputNode op 0 s = Ok (lhs, s) /\ GetInputNode op 1 s = Ok (rhs, s) /\
    adds (heap s) T [] [lhs; rhs] {[name op]} y (heap s') /\ saved op y s s'.

(** What [TranslateConstOp] builds: one Constant that holds the decoded
    values. *)
Definition Const_built (s s' : State) : Prop :=
  exists dtype T et shape_proto values ng_shape y,
    GetNodeAttr_type op "dtype" = Ok dtype /\
    TF_NGRAPH_CONST_MAP dtype = Some (T, et) /\
    ValuesFromConstNode (platform ext) T op = Ok (shape_proto, values) /\
    TFTensorShapeToNGraphShape ext shape_proto = Ok ng_shape /\
    adds (heap s) "Constant" [ArgEt et; ArgShape ng_shape; ArgValues values] []
      {[name op]} y (heap s') /\
    saved op y s s'.

(** What [TranslateBiasAddOp] builds: the sum of the input and the bias,
    the bias being first reshaped when the data format is NCHW; the
    constant that holds the target shape of the reshape carries no tag. *)
Definition BiasAdd_built (s s' : State) : Prop :=
  let tf_data_format :=
    match GetNodeAttr_string op "data_format" with
    | Ok f => f
    | _ => "NHWC"
    end in
  exists input bias input_shape channels y,
    GetInputNode op 0 s = Ok (input, s) /\ GetInputNode op 1 s = Ok (bias, s) /\
    static_shape (heap s) input = Some input_shape /\
    static_shape (heap s) bias = Some [channels] /\
    saved op y s s' /\
    if tf_data_format ==s "NCHW" then
      exists channel_dim target h1 reshaped h2,
        input_shape !! 1%nat = Some channel_dim /\
        adds (heap s) "Constant"
          [ArgEt et_i64; ArgShape [Z.of_nat (length input_shape)];
           ArgValues
             (imap (fun i _ => if (i =? 1)%nat then channel_dim else 1) input_shape)]
          [] ∅ target h1 /\
        adds h1 "Reshape" [ArgBool false] [bias; target] {[name op]} reshaped h2 /\
        adds h2 "Add" [] [input; reshaped] {[name op]} y (heap s')
    else
      tf_data_format = "NHWC" /\
      adds (heap s) "Add" [] [input; bias] {[name op]} y (heap s').

(** What [TranslateWhereOp] builds: the indices of the non-zero elements,
    transposed. *)
Definition Where_built (s s' : State) : Prop :=
  exists cond non_zero h1 order h2 y,
    GetInputNode op 0 s = Ok (cond, s) /\
    adds (heap s) "NonZero" [] [cond] {[name op]} non_zero h1 /\
    adds h1 "Constant" [ArgEt et_i64; ArgShape [2]; ArgValues [1; 0]] [] {[name op]}
      order h2 /\
    adds h2 "Transpose" [] [non_zero; order] {[name op]} y (heap s') /\
    saved op y s s'.

(** What [TranslateZerosLikeOp] builds: a Constant of the type and shape
    of the input, filled with "0". *)
Definition ZerosLike_built (s s' : State) : Prop :=
  exists x et ps shape y,
    GetInputNode op 0 s = Ok (x, s) /\
    output_info (heap s) x = Some (et, ps) /\ to_shape ps = Some shape /\
    adds (heap s) "Constant"
      [ArgEt et; ArgShape shape;
       ArgStrings (replicate (Z.to_nat (shape_size shape)) "0")] [] {[name op]} y
      (heap s') /\
    saved op y s s'.

End Lowering.

(** ** What a step keeps *)

(** The state [s'] keeps what [s] holds: every node of the heap is still
    there, with its class, arguments, inputs and outputs (its tags and its
    names may have grown), and every entry of the op map still begins with
    the outputs it had. *)
Definition same_node (n n' : NgNode) : Prop :=
  ng_type n' = ng_type n /\ ng_args n' = ng_args n /\ ng_inputs n' = ng_inputs n /\
  ng_outputs n' = ng_outputs n.

Definition keeps_heap (h h' : list NgNode) : Prop :=
  forall i n, h !! i = Some n -> exists n', h' !! i = Some n' /\ same_node n n'.

Definition keeps_state (s s' : State) : Prop :=
  keeps_heap (heap s) (heap s') /\
  forall nm outs, ng_op_map s !! nm = Some outs ->
    exists more, ng_op_map s' !! nm = Some (outs ++ more).

(** A computation that keeps what the state holds, whenever it returns. *)
Definition keeps {A} (m : M A) : Prop :=
  forall s a s', m s = Ok (a, s') -> keeps_state s s'.

(** What is asked of the code outside this file for a translation to keep
    what it has built: of the layout helpers, and of the handlers that are
    not embedded here. *)
Definition helper_keeps (f : list NgNode -> option (Output * list NgNode)) : Prop :=
  forall h o h', f h = Some (o, h') -> keeps_heap h h'.

Record keeps_built (ext : Externals) : Prop := {
  NHWCtoNCHW_keeps : forall nm b o, helper_keeps (NHWCtoNCHW ext nm b o);
  NCHWtoNHWC_keeps : forall nm b o, helper_keeps (NCHWtoNHWC ext nm b o);
  Transpose_keeps : forall o, helper_keeps (Transpose_3_2_0_1 ext o);
  other_handlers_keep : forall kind g op sim, keeps (other_handlers ext kind g op sim)
}.
(** * Properties *)

(** ** What the steps of a handler do to the state *)

Lemma obind_ok {A B} (x : Outcome A) (f : A -> Outcome B) (b : B) :
  obind x f = Ok b -> exists a, x = Ok a /\ f a = Ok b.
Proof. destruct x; simpl; intros H; try discriminate. eauto. Qed.

Lemma bind_ok {A B} (m : M A) (f : A -> M B) (s s' : State) (b : B) :
  bind m f s = Ok (b, s') -> exists a s1, m s = Ok (a, s1) /\ f a s1 = Ok (b, s').
Proof.
  unfold bind. destruct (m s) as [[a s1]| | |]; intros H; try discriminate. eauto.
Qed.

Lemma ConstructNgNode_ok (ext : Externals) (op_name ty : string) (args : list NgArg)
    (ins : list Output) (outs : list (ElementType * PartialShape)) (s : State) :
  validate_and_infer_types ext (heap s) ty args ins = Some outs ->
  ConstructNgNode ext op_name ty args ins s =
    Ok ((length (heap s), 0%nat),
        {| heap := heap s ++
             [with_tracing_info op_name (length (heap s)) (new_node ty args ins outs)];
           ng_op_map := ng_op_map s |}).
Proof.
  intros Hinf. unfold ConstructNgNode, bind, make_shared, SetTracingInfo, ret.
  rewrite Hinf. cbn [heap fst ng_op_map].
  rewrite lookup_app_r by lia. rewrite Nat.sub_diag. cbn [lookup list_lookup].
  rewrite insert_app_r_alt by lia. rewrite Nat.sub_diag. reflexivity.
Qed.

Lemma ConstructNgNode_inv (ext : Externals) (op_name ty : string) (args : list NgArg)
    (ins : list Output) (s s' : State) (o : Output) :
  ConstructNgNode ext op_name ty args ins s = Ok (o, s') ->
  exists outs,
    validate_and_infer_types ext (heap s) ty args ins = Some outs /\
    o = (length (heap s), 0%nat) /\
    s' = {| heap := heap s ++
              [with_tracing_info op_name (length (heap s)) (new_node ty args ins outs)];
            ng_op_map := ng_op_map s |}.
Proof.
  intros H.
  destruct (validate_and_infer_types ext (heap s) ty args ins) as [outs|] eqn:Hinf.
  - rewrite (ConstructNgNode_ok ext op_name ty args ins outs s Hinf) in H.
    injection H as <- <-. eauto.
  - unfold ConstructNgNode, bind, make_shared in H. rewrite Hinf in H. discriminate.
Qed.

Lemma make_shared_inv (ext : Externals) (ty : string) (args : list NgArg)
    (ins : list Output) (s s' : State) (o : Output) :
  make_shared ext ty args ins s = Ok (o, s') ->
  exists outs,
    o = (length (heap s), 0%nat) /\
    s' = {| heap := heap s ++ [new_node ty args ins outs];
            ng_op_map := ng_op_map s |}.
Proof.
  unfold make_shared.
  destruct (validate_and_infer_types ext (heap s) ty args ins) as [outs|];
    [|discriminate].
  intros [= <- <-]. eauto.
Qed.

Lemma SetTracingInfo_inv (op_name : string) (o : Output) (s s' : State) :
  SetTracingInfo op_name o s = Ok (tt, s') ->
  exists node,
    heap s !! o.1 = Some node /\
    s' = {| heap := <[o.1 := with_tracing_info op_name o.1 node]> (heap s);
            ng_op_map := ng_op_map s |}.
Proof.
  unfold SetTracingInfo. destruct (heap s !! o.1) as [node|]; [|discriminate].
  intros [= <-]. eauto.
Qed.

Lemma GetInputNode_state (op : Node) (i : nat) (s s' : State) (o : Output) :
  GetInputNode op i s = Ok (o, s') -> s' = s.
Proof.
  unfold GetInputNode. destruct (in_edges op !! i) as [[src k]|]; [|discriminate].
  destruct (ng_op_map s !! src) as [outs|]; [|discriminate].
  destruct (outs !! k); [|discriminate]. intros [= _ <-]. reflexivity.
Qed.

Lemma GetInputNodes1_state (op : Node) (s s' : State) (o : Output) :
  GetInputNodes1 op s = Ok (o, s') -> s' = s.
Proof.
  unfold GetInputNodes1, bind, lift.
  destruct (ValidateInputCount op 1); try discriminate.
  apply GetInputNode_state.
Qed.

Lemma GetInputNodes2_state (op : Node) (s s' : State) (o : Output * Output) :
  GetInputNodes2 op s = Ok (o, s') -> s' = s.
Proof.
  unfold GetInputNodes2, bind, lift, ret.
  destruct (ValidateInputCount op 2); try discriminate.
  destruct (GetInputNode op 0 s) as [[o1 s1]| | |] eqn:Ha; try discriminate.
  apply GetInputNode_state in Ha as ->.
  destruct (GetInputNode op 1 s) as [[o2 s2]| | |] eqn:Hb; try discriminate.
  apply GetInputNode_state in Hb as ->. intros [= _ <-]. reflexivity.
Qed.

Lemma Output_eqb_eq (a b : Output) : Output_eqb a b = true <-> a = b.
Proof.
  destruct a as [a1 a2], b as [b1 b2]. unfold Output_eqb. simpl.
  rewrite andb_true_iff, !Nat.eqb_eq. split; [intros [-> ->]; reflexivity|].
  intros [= -> ->]. auto.
Qed.

Lemma lift_ok {A} (x : Outcome A) (s s' : State) (a : A) :
  lift x s = Ok (a, s') -> x = Ok a /\ s' = s.
Proof. unfold lift. destruct x; intros [= <- <-]. auto. Qed.

Lemma ret_ok {A} (a b : A) (s s' : State) : ret a s = Ok (b, s') -> b = a /\ s' = s.
Proof. intros [= <- <-]. auto. Qed.

Lemma SaveNgOp_ok (nm : string) (o : Output) (s s' : State) (u : unit) :
  SaveNgOp nm o s = Ok (u, s') ->
  heap s' = heap s /\ outputs_of s' nm = outputs_of s nm ++ [o] /\
  forall other, other <> nm -> outputs_of s' other = outputs_of s other.
Proof.
  destruct u. intros [= <-]. unfold outputs_of. cbn [heap ng_op_map].
  split; [reflexivity|].
  split.
  - rewrite lookup_insert, decide_True by reflexivity. reflexivity.
  - intros other Hne. rewrite lookup_insert_ne by congruence. reflexivity.
Qed.

Lemma ConstructNgNode_grows (ext : Externals) (tag ty : string) (args : list NgArg)
    (ins : list Output) (s s' : State) (o : Output) :
  ConstructNgNode ext tag ty args ins s = Ok (o, s') ->
  exists node,
    heap s' = heap s ++ [node] /\ ng_op_map s' = ng_op_map s /\
    o = (length (heap s), 0%nat) /\ built_for tag ty node /\
    ng_args node = args /\ ng_inputs node = ins.
Proof.
  intros H. destruct (ConstructNgNode_inv _ _ _ _ _ _ _ _ H) as (outs & _ & Ho & Hs).
  subst o s'. eexists. cbn [heap ng_op_map]. repeat split.
  cbn [provenance_tags with_tracing_info new_node]. apply union_empty_r_L.
Qed.

Lemma get_rank_ok (o : Output) (s s' : State) (r : Z) :
  get_rank o s = Ok (r, s') ->
  s' = s /\ exists et ds, output_info (heap s) o = Some (et, Some ds) /\
                          r = Z.of_nat (length ds).
Proof.
  unfold get_rank. destruct (output_info (heap s) o) as [[et [ds|]]|]; try discriminate.
  intros [= <- <-]. eauto.
Qed.

Lemma get_shape_state (o : Output) (s s' : State) (sh : list Z) :
  get_shape o s = Ok (sh, s') -> s' = s.
Proof.
  unfold get_shape. destruct (output_info (heap s) o) as [[et ps]|]; [|discriminate].
  destruct (to_shape ps); [|discriminate]. intros H. injection H as _ <-. reflexivity.
Qed.

Lemma get_element_type_state (o : Output) (s s' : State) (et : ElementType) :
  get_element_type o s = Ok (et, s') -> s' = s.
Proof.
  unfold get_element_type. destruct (output_info (heap s) o) as [[e ps]|]; [|discriminate].
  intros H. injection H as _ <-. reflexivity.
Qed.

Lemma on_heap_ok {A} (f : list NgNode -> option (A * list NgNode)) (s s' : State)
    (a : A) :
  on_heap f s = Ok (a, s') -> ng_op_map s' = ng_op_map s.
Proof.
  unfold on_heap. destruct (f (heap s)) as [[a' h]|]; [|discriminate].
  intros H. injection H as _ <-. reflexivity.
Qed.

Lemma GetInputNodes3_state (op : Node) (s s' : State) (r : Output * Output * Output) :
  GetInputNodes3 op s = Ok (r, s') -> s' = s.
Proof.
  unfold GetInputNodes3. intros H.
  apply bind_ok in H as ([] & s0 & H0 & H). apply lift_ok in H0 as [_ ->].
  apply bind_ok in H as (a & s1 & H1 & H). apply GetInputNode_state in H1 as ->.
  apply bind_ok in H as (b & s1 & H2 & H). apply GetInputNode_state in H2 as ->.
  apply bind_ok in H as (c & s1 & H3 & H). apply GetInputNode_state in H3 as ->.
  apply ret_ok in H as [_ ->]. reflexivity.
Qed.

Lemma get_shape_inv (o : Output) (s s' : State) (sh : list Z) :
  get_shape o s = Ok (sh, s') -> s' = s /\ static_shape (heap s) o = Some sh.
Proof.
  unfold get_shape, static_shape.
  destruct (output_info (heap s) o) as [[et ps]|]; [|discriminate]. cbn.
  destruct (to_shape ps); [|discriminate]. intros [= <- <-]. auto.
Qed.

Lemma get_element_type_inv (o : Output) (s s' : State) (et : ElementType) :
  get_element_type o s = Ok (et, s') ->
  s' = s /\ exists ps, output_info (heap s) o = Some (et, ps).
Proof.
  unfold get_element_type. destruct (output_info (heap s) o) as [[e ps]|]; [|discriminate].
  intros [= <- <-]. eauto.
Qed.

Lemma on_heap_inv {A} (f : list NgNode -> option (A * list NgNode)) (s s' : State)
    (a : A) :
  on_heap f s = Ok (a, s') -> f (heap s) = Some (a, heap s') /\ ng_op_map s' = ng_op_map s.
Proof.
  unfold on_heap. destruct (f (heap s)) as [[a' h]|]; [|discriminate].
  intros [= <- <-]. auto.
Qed.

Lemma pure_helper_ok {A} (x : option A) (s s' : State) (a : A) :
  pure_helper x s = Ok (a, s') -> x = Some a /\ s' = s.
Proof. unfold pure_helper. destruct x; [|discriminate]. intros [= <- <-]. auto. Qed.

Lemma ConstructNgNode_adds (ext : Externals) (tag ty : string) (args : list NgArg)
    (ins : list Output) (s s' : State) (o : Output) :
  ConstructNgNode ext tag ty args ins s = Ok (o, s') ->
  adds (heap s) ty args ins {[tag]} o (heap s') /\ ng_op_map s' = ng_op_map s.
Proof.
  intros H. apply ConstructNgNode_inv in H as (outs & _ & -> & ->).
  split; [|reflexivity]. eexists. split; [reflexivity|]. split; [reflexivity|].
  repeat split. cbn [provenance_tags with_tracing_info new_node].
  apply (right_id_L ∅ (∪)).
Qed.

Lemma make_shared_adds (ext : Externals) (ty : string) (args : list NgArg)
    (ins : list Output) (s s' : State) (o : Output) :
  make_shared ext ty args ins s = Ok (o, s') ->
  adds (heap s) ty args ins ∅ o (heap s') /\ ng_op_map s' = ng_op_map s.
Proof.
  intros H. apply make_shared_inv in H as (outs & -> & ->).
  split; [|reflexivity]. eexists. repeat split.
Qed.

Lemma SaveNgOp_saved (op : Node) (o : Output) (s0 s s' : State) (u : unit) :
  SaveNgOp (name op) o s = Ok (u, s') -> ng_op_map s = ng_op_map s0 ->
  heap s' = heap s /\ saved op o s0 s'.
Proof.
  destruct u. intros [= <-] Hmap. split; [reflexivity|].
  unfold saved. cbn [ng_op_map]. rewrite Hmap. reflexivity.
Qed.

Lemma GetInputNodes1_ok (op : Node) (s s' : State) (a : Output) :
  GetInputNodes1 op s = Ok (a, s') -> s' = s /\ GetInputNode op 0 s = Ok (a, s).
Proof.
  unfold GetInputNodes1. intros H.
  apply bind_ok in H as ([] & s0 & H0 & H). apply lift_ok in H0 as [_ ->].
  pose proof (GetInputNode_state _ _ _ _ _ H) as ->. auto.
Qed.

Lemma GetInputNodes2_ok (op : Node) (s s' : State) (a b : Output) :
  GetInputNodes2 op s = Ok ((a, b), s') ->
  s' = s /\ GetInputNode op 0 s = Ok (a, s) /\ GetInputNode op 1 s = Ok (b, s).
Proof.
  unfold GetInputNodes2. intros H.
  apply bind_ok in H as ([] & s0 & H0 & H). apply lift_ok in H0 as [_ ->].
  apply bind_ok in H as (a' & s1 & Ha & H).
  pose proof (GetInputNode_state _ _ _ _ _ Ha) as ->.
  apply bind_ok in H as (b' & s1 & Hb & H).
  pose proof (GetInputNode_state _ _ _ _ _ Hb) as ->.
  apply ret_ok in H as [[= -> ->] ->]. auto.
Qed.

Lemma GetInputNodes3_ok (op : Node) (s s' : State) (a b c : Output) :
  GetInputNodes3 op s = Ok ((a, b, c), s') ->
  s' = s /\ GetInputNode op 0 s = Ok (a, s) /\ GetInputNode op 1 s = Ok (b, s) /\
  GetInputNode op 2 s = Ok (c, s).
Proof.
  unfold GetInputNodes3. intros H.
  apply bind_ok in H as ([] & s0 & H0 & H). apply lift_ok in H0 as [_ ->].
  apply bind_ok in H as (a' & s1 & Ha & H).
  pose proof (GetInputNode_state _ _ _ _ _ Ha) as ->.
  apply bind_ok in H as (b' & s1 & Hb & H).
  pose proof (GetInputNode_state _ _ _ _ _ Hb) as ->.
  apply bind_ok in H as (c' & s1 & Hc & H).
  pose proof (GetInputNode_state _ _ _ _ _ Hc) as ->.
  apply ret_ok in H as [[= -> -> ->] ->]. auto.
Qed.

Lemma GetInputNodes4_ok (op : Node) (s s' : State) (a b c d : Output) :
  GetInputNodes4 op s = Ok ((a, b, c, d), s') ->
  s' = s /\ GetInputNode op 0 s = Ok (a, s) /\ GetInputNode op 1 s = Ok (b, s) /\
  GetInputNode op 2 s = Ok (c, s) /\ GetInputNode op 3 s = Ok (d, s).
Proof.
  unfold GetInputNodes4. intros H.
  apply bind_ok in H as ([] & s0 & H0 & H). apply lift_ok in H0 as [_ ->].
  apply bind_ok in H as (a' & s1 & Ha & H).
  pose proof (GetInputNode_state _ _ _ _ _ Ha) as ->.
  apply bind_ok in H as (b' & s1 & Hb & H).
  pose proof (GetInputNode_state _ _ _ _ _ Hb) as ->.
  apply bind_ok in H as (c' & s1 & Hc & H).
  pose proof (GetInputNode_state _ _ _ _ _ Hc) as ->.
  apply bind_ok in H as (d' & s1 & Hd & H).
  pose proof (GetInputNode_state _ _ _ _ _ Hd) as ->.
  apply ret_ok in H as [[= -> -> -> ->] ->]. auto 6.
Qed.

Lemma GetInputNodes6_ok (op : Node) (s s' : State) (a b c d e f : Output) :
  GetInputNodes6 op s = Ok ((a, b, c, d, e, f), s') ->
  s' = s /\ GetInputNode op 0 s = Ok (a, s) /\ GetInputNode op 1 s = Ok (b, s) /\
  GetInputNode op 2 s = Ok (c, s) /\ GetInputNode op 3 s = Ok (d, s) /\
  GetInputNode op 4 s = Ok (e, s) /\ GetInputNode op 5 s = Ok (f, s).
Proof.
  unfold GetInputNodes6. intros H.
  apply bind_ok in H as ([] & s0 & H0 & H). apply lift_ok in H0 as [_ ->].
  apply bind_ok in H as (a' & s1 & Ha & H).
  pose proof (GetInputNode_state _ _ _ _ _ Ha) as ->.
  apply bind_ok in H as (b' & s1 & Hb & H).
  pose proof (GetInputNode_state _ _ _ _ _ Hb) as ->.
  apply bind_ok in H as (c' & s1 & Hc & H).
  pose proof (GetInputNode_state _ _ _ _ _ Hc) as ->.
  apply bind_ok in H as (d' & s1 & Hd & H).
  pose proof (GetInputNode_state _ _ _ _ _ Hd) as ->.
  apply bind_ok in H as (e' & s1 & He & H).
  pose proof (GetInputNode_state _ _ _ _ _ He) as ->.
  apply bind_ok in H as (f' & s1 & Hf & H).
  pose proof (GetInputNode_state _ _ _ _ _ Hf) as ->.
  apply ret_ok in H as [[= -> -> -> -> -> ->] ->]. auto 8.
Qed.

(** ** What the handlers have built when they succeed *)

(** The chains of [VecStrCmp] of a handler, at a given list of names. *)
Ltac compare_names :=
  repeat match goal with
    | |- context [VecStrCmp ?a ?b] =>
        let v := eval vm_compute in (VecStrCmp a b) in
        change (VecStrCmp a b) with v
    end;
  cbn [orb andb negb].

Ltac compare_names_in H :=
  repeat match type of H with
    | context [VecStrCmp ?a ?b] =>
        let v := eval vm_compute in (VecStrCmp a b) in
        change (VecStrCmp a b) with v in H
    end;
  cbn [orb andb negb] in H.

Ltac listed :=
  unfold FusedConv2D_allow_list, FusedDepthwiseConv2dNative_allow_list,
    FusedConv2D_plans, FusedDepthwise_plans;
  repeat first [apply list_elem_of_here | apply list_elem_of_further].

(** One step of a handler that returned, taken off the hypothesis [H]:
    an attribute read, a node built, a shape asked for, a layout helper. *)
Tactic Notation "read_in" hyp(H) ident(x) ident(Hx) :=
  let s1 := fresh "s" in
  apply bind_ok in H as (x & s1 & Hx & H); apply lift_ok in Hx as [Hx ->].

Tactic Notation "build_in" hyp(H) ident(x) ident(s1) ident(Hx) ident(Hmap) :=
  apply bind_ok in H as (x & s1 & Hx & H);
  apply ConstructNgNode_adds in Hx as [Hx Hmap].

Tactic Notation "shape_in" hyp(H) ident(x) ident(Hx) :=
  let s1 := fresh "s" in
  apply bind_ok in H as (x & s1 & Hx & H); apply get_shape_inv in Hx as [-> Hx].

Tactic Notation "helper_in" hyp(H) ident(x) ident(Hx) :=
  let s1 := fresh "s" in
  apply bind_ok in H as (x & s1 & Hx & H); apply pure_helper_ok in Hx as [Hx ->].

Tactic Notation "layout_in" hyp(H) ident(x) ident(s1) ident(Hx) ident(Hmap) :=
  apply bind_ok in H as (x & s1 & Hx & H); apply on_heap_inv in Hx as [Hx Hmap].

Section Built.

Variable ext : Externals.
Variable op : Node.

Lemma saved_from (o : Output) (s0 s s' : State) :
  ng_op_map s = ng_op_map s0 -> saved op o s s' -> saved op o s0 s'.
Proof. unfold saved. intros ->. auto. Qed.

Lemma leaky_relu_inv (tag : string) (x y : Output) (s s' : State) :
  leaky_relu ext op tag x s = Ok (y, s') ->
  activated op LeakyRelu tag (heap s) x y (heap s') /\ ng_op_map s' = ng_op_map s.
Proof.
  unfold leaky_relu. intros H.
  read_in H alpha Halpha.
  build_in H a s1 Ha Hm1. build_in H ax s2 Hax Hm2.
  apply ConstructNgNode_adds in H as [Hy Hm3].
  split; [|congruence].
  exists alpha, a, (heap s1), ax, (heap s2). auto.
Qed.

Lemma reshape_bias_and_add_inv (add_tag : string) (x bias y : Output) (s s' : State) :
  reshape_bias_and_add ext op add_tag x bias s = Ok (y, s') ->
  bias_added op add_tag (heap s) x bias y (heap s') /\ ng_op_map s' = ng_op_map s.
Proof.
  unfold reshape_bias_and_add. intros H.
  shape_in H x_shape Hx. shape_in H bias_shape Hb.
  destruct (negb (length bias_shape =? 1)%nat) eqn:E1; [discriminate|].
  apply negb_false_iff, Nat.eqb_eq in E1.
  destruct bias_shape as [|channels [|? ?]]; try discriminate.
  destruct (length x_shape <=? 1)%nat eqn:E2; [discriminate|].
  apply Nat.leb_gt in E2.
  apply bind_ok in H as (pattern & s1 & Hp & H).
  apply make_shared_adds in Hp as [Hp Hm1].
  build_in H reshaped s2 Hr Hm2.
  apply ConstructNgNode_adds in H as [Hy Hm3].
  split; [|congruence].
  exists x_shape, channels, pattern, (heap s1), reshaped, (heap s2).
  rewrite length_insert, length_replicate in Hp. cbn [hd] in Hp. auto 8.
Qed.

Lemma CreateNgConv_inv (fmt : string) (input filter y : Output) (s s' : State) :
  CreateNgConv ext op fmt (fmt ==s "NHWC") input filter s = Ok (y, s') ->
  convolved ext op fmt (heap s) input filter y (heap s') /\
  ng_op_map s' = ng_op_map s.
Proof.
  unfold CreateNgConv. intros H.
  read_in H tf_strides Hstrides. read_in H tf_dilations Hdilations.
  read_in H tf_padding_type Hpadding.
  destruct (negb (fmt ==s "NHWC") && negb (fmt ==s "NCHW")) eqn:Efmt; [discriminate|].
  assert (Hfmt : fmt = "NHWC" \/ fmt = "NCHW").
  { destruct (String.eqb_spec fmt "NHWC"); [auto|].
    destruct (String.eqb_spec fmt "NCHW"); [auto|discriminate]. }
  apply bind_ok in H as (bad & s1 & Hbad & H).
  destruct (tf_strides !! 0%nat) as [s0|] eqn:E0; [|discriminate].
  assert (Hs : s1 = s /\ bad = false /\ s0 = 1 /\
               tf_strides !! (if fmt ==s "NHWC" then 3%nat else 1%nat) = Some 1).
  { destruct (Z.eqb_spec s0 1) as [->|]; cbn [negb] in Hbad.
    - destruct (tf_strides !! (if fmt ==s "NHWC" then 3%nat else 1%nat)) as [s1'|];
        [|discriminate].
      apply ret_ok in Hbad as [-> ->].
      destruct (Z.eqb_spec s1' 1) as [Heq|Hne]; [subst s1'; auto|discriminate H].
    - apply ret_ok in Hbad as [-> ->]. discriminate H. }
  destruct Hs as (-> & -> & -> & E1).
  helper_in H ng_strides Hng_strides.
  shape_in H input_shape Hinput_shape.
  helper_in H image_shape Himage.
  helper_in H ng_dilations Hng_dilations.
  layout_in H input' s2 Hinput' Hm2.
  shape_in H filter_shape Hfilter_shape.
  destruct (filter_shape !! 0%nat) as [k0|] eqn:Ek0; [|discriminate].
  destruct (filter_shape !! 1%nat) as [k1|] eqn:Ek1; [|discriminate].
  layout_in H filter' s3 Hfilter' Hm3.
  apply bind_ok in H as ([] & s4 & Htrace & H).
  apply SetTracingInfo_inv in Htrace as (filter_node & Hnode & ->).
  helper_in H padding Hpad.
  apply ConstructNgNode_adds in H as [Hy Hm5]. cbn [heap ng_op_map] in Hy, Hm5.
  split; [|congruence].
  exists tf_strides, tf_dilations, tf_padding_type, ng_strides, input_shape, image_shape,
    ng_dilations, input', (heap s2), filter_shape, k0, k1, filter', (heap s3), filter_node,
    padding.
  repeat (split; [assumption|]). exact Hy.
Qed.

Lemma CreateNgDepthwiseConv_inv (input filter y : Output) (s s' : State) :
  CreateNgDepthwiseConv ext op input filter s = Ok (y, s') ->
  depthwise_convolved ext op (heap s) input filter y (heap s') /\
  ng_op_map s' = ng_op_map s.
Proof.
  unfold CreateNgDepthwiseConv. intros H.
  read_in H tf_strides Hstrides. read_in H tf_dilations Hdilations.
  read_in H tf_padding_type Hpadding. read_in H fmt Hformat.
  destruct (negb (fmt ==s "NHWC") && negb (fmt ==s "NCHW")) eqn:Efmt; [discriminate|].
  assert (Hfmt : fmt = "NHWC" \/ fmt = "NCHW").
  { destruct (String.eqb_spec fmt "NHWC"); [auto|].
    destruct (String.eqb_spec fmt "NCHW"); [auto|discriminate]. }
  cbv zeta in H.
  shape_in H input_shape Hinput_shape.
  helper_in H image_shape Himage.
  helper_in H ng_strides Hng_strides.
  helper_in H ng_dilations Hng_dilations.
  layout_in H input' s2 Hinput' Hm2.
  shape_in H filter_shape Hfilter_shape.
  destruct filter_shape as [|f0 [|f1 [|f2 [|f3 rest]]]]; try discriminate.
  helper_in H padding Hpad.
  build_in H shape5 s3 Hshape5 Hm3. build_in H reshaped s4 Hreshaped Hm4.
  build_in H order s5 Horder Hm5. build_in H transposed s6 Htransposed Hm6.
  apply ConstructNgNode_adds in H as [Hy Hm7].
  split; [|congruence].
  exists tf_strides, tf_dilations, tf_padding_type, fmt, input_shape, image_shape,
    ng_strides, ng_dilations, input', (heap s2), f0, f1, f2, f3, rest, padding, shape5,
    (heap s3), reshaped, (heap s4), order, (heap s5), transposed, (heap s6).
  repeat (split; [assumption|]). exact Hy.
Qed.

Lemma returned_and_saved_inv (is_nhwc : bool) (y : Output) (s0 s s' : State) :
  bind (on_heap (NCHWtoNHWC ext (name op) is_nhwc y)) (fun o' => SaveNgOp (name op) o') s =
    Ok (tt, s') ->
  ng_op_map s = ng_op_map s0 ->
  returned_and_saved ext op is_nhwc y (heap s) s0 s'.
Proof.
  intros H Hmap. layout_in H y' s1 Hy' Hm1.
  apply (SaveNgOp_saved op y' s0) in H as [Hh Hsaved]; [|congruence].
  exists y'. rewrite Hh. auto.
Qed.

(** The four ways in which a fused operator ends. *)
Lemma relu_activated (tag : string) (x y : Output) (s s' : State) :
  ConstructNgNode ext tag "Relu" [] [x] s = Ok (y, s') ->
  activated op Relu tag (heap s) x y (heap s') /\ ng_op_map s' = ng_op_map s.
Proof. apply ConstructNgNode_adds. Qed.

Lemma relu6_activated (tag : string) (x y : Output) (s s' : State) :
  ConstructNgNode ext tag "Clamp" [ArgZ 0; ArgZ 6] [x] s = Ok (y, s') ->
  activated op Relu6 tag (heap s) x y (heap s') /\ ng_op_map s' = ng_op_map s.
Proof. apply ConstructNgNode_adds. Qed.

Lemma then_activation_inv (a : Activation) (tag : string) (is_nhwc : bool)
    (x : Output) (s0 s s' : State) (m : M Output) :
  (forall y s1, m s = Ok (y, s1) ->
     activated op a tag (heap s) x y (heap s1) /\ ng_op_map s1 = ng_op_map s) ->
  bind m (fun y =>
    bind (on_heap (NCHWtoNHWC ext (name op) is_nhwc y))
      (fun o' => SaveNgOp (name op) o')) s = Ok (tt, s') ->
  ng_op_map s = ng_op_map s0 ->
  exists y h3,
    activated op a tag (heap s) x y h3 /\ returned_and_saved ext op is_nhwc y h3 s0 s'.
Proof.
  intros Hm H Hmap. apply bind_ok in H as (y & s1 & Hy & H).
  apply Hm in Hy as [Hact Hm1].
  exists y, (heap s1). split; [exact Hact|].
  apply returned_and_saved_inv; [exact H|congruence].
Qed.

Lemma elu_activated (tag : string) (is_nhwc : bool) (x : Output) (s0 s s' : State) :
  bind (lift (GetNodeAttr_float op "leakyrelu_alpha")) (fun alpha =>
    bind (ConstructNgNode ext tag "Elu" [ArgFloat alpha] [x]) (fun y =>
      bind (on_heap (NCHWtoNHWC ext (name op) is_nhwc y))
        (fun o' => SaveNgOp (name op) o'))) s = Ok (tt, s') ->
  ng_op_map s = ng_op_map s0 ->
  exists y h3,
    activated op Elu tag (heap s) x y h3 /\ returned_and_saved ext op is_nhwc y h3 s0 s'.
Proof.
  intros H Hmap. read_in H alpha Halpha. build_in H y s1 Hy Hm1.
  exists y, (heap s1). split; [exists alpha; auto|].
  apply returned_and_saved_inv; [exact H|congruence].
Qed.

Lemma no_activation_inv (is_nhwc : bool) (x : Output) (s0 s s' : State) :
  bind (on_heap (NCHWtoNHWC ext (name op) is_nhwc x))
    (fun o' => SaveNgOp (name op) o') s = Ok (tt, s') ->
  ng_op_map s = ng_op_map s0 ->
  exists y h3,
    activated op NoActivation "" (heap s) x y h3 /\
    returned_and_saved ext op is_nhwc y h3 s0 s'.
Proof.
  intros H Hmap. exists x, (heap s). split; [split; reflexivity|].
  apply returned_and_saved_inv; assumption.
Qed.

Lemma second_input_then_inv (a : Activation) (tag : string) (is_nhwc : bool)
    (x input2 : Output) (s0 s s' : State) (m : Output -> M Output) :
  (forall sum y s1 s2, m sum s1 = Ok (y, s2) ->
     activated op a tag (heap s1) sum y (heap s2) /\ ng_op_map s2 = ng_op_map s1) ->
  bind (on_heap (NHWCtoNCHW ext (name op) is_nhwc input2)) (fun input2' =>
    bind (ConstructNgNode ext (name op +:+ "_FusedConv2D_Add") "Add" [] [x; input2'])
      (fun sum =>
         bind (m sum) (fun y =>
           bind (on_heap (NCHWtoNHWC ext (name op) is_nhwc y))
             (fun o' => SaveNgOp (name op) o')))) s = Ok (tt, s') ->
  ng_op_map s = ng_op_map s0 ->
  exists input2' h3 sum h4 y h5,
    NHWCtoNCHW ext (name op) is_nhwc input2 (heap s) = Some (input2', h3) /\
    adds h3 "Add" [] [x; input2'] {[name op +:+ "_FusedConv2D_Add"]} sum h4 /\
    activated op a tag h4 sum y h5 /\
    returned_and_saved ext op is_nhwc y h5 s0 s'.
Proof.
  intros Hm H Hmap.
  layout_in H input2' s1 Hinput2' Hm1. build_in H sum s2 Hsum Hm2.
  apply bind_ok in H as (y & s3 & Hy & H). apply Hm in Hy as [Hact Hm3].
  exists input2', (heap s1), sum, (heap s2), y, (heap s3).
  repeat (split; [assumption|]).
  apply returned_and_saved_inv; [exact H|congruence].
Qed.

Lemma FusedConv2D_lowering (fused_ops : list string) (s s' : State) :
  GetNodeAttr_strings op "fused_ops" = Ok fused_ops ->
  fused_ops ∈ FusedConv2D_allow_list ->
  TranslateFusedConv2DOp ext op s = Ok (tt, s') ->
  FusedConv2D_lowered ext op fused_ops s s'.
Proof.
  intros Hf Hin H. unfold TranslateFusedConv2DOp in H.
  read_in H num_args Hnum_args. read_in H fo Hfo.
  rewrite Hf in Hfo. injection Hfo as <-.
  read_in H fmt Hfmt. cbv zeta in H.
  unfold FusedConv2D_allow_list in Hin.
  repeat (apply elem_of_cons in Hin as [->|Hin]);
    [..|apply elem_of_nil in Hin; contradiction];
    compare_names_in H.
  (* the eight sequences that begin with the bias *)
  1-5: destruct (negb (num_args =? 1)); [discriminate|].
  1-5: apply bind_ok in H as ([[[input filter] bias] further] & s1 & Hinputs & H).
  1-5: apply bind_ok in Hinputs as ([[i f] b] & s0 & Hi & Hret).
  1-5: apply GetInputNodes3_ok in Hi as (-> & Hi0 & Hi1 & Hi2).
  1-5: apply ret_ok in Hret as [[= <- <- <- ->] ->].
  6-8: destruct (negb (num_args =? 2)); [discriminate|].
  6-8: apply bind_ok in H as ([[[input filter] bias] further] & s1 & Hinputs & H).
  6-8: apply bind_ok in Hinputs as ([[[i f] b] input2] & s0 & Hi & Hret).
  6-8: apply GetInputNodes4_ok in Hi as (-> & Hi0 & Hi1 & Hi2 & Hi3).
  6-8: apply ret_ok in Hret as [[= <- <- <- ->] ->].
  1-8: cbv beta iota in H.
  1-8: apply bind_ok in H as (conv & s1 & Hconv & H).
  1-8: apply CreateNgConv_inv in Hconv as [Hconv Hm1].
  1-8: apply bind_ok in H as (x & s2 & Hx & H).
  1-8: apply reshape_bias_and_add_inv in Hx as [Hx Hm2].
  1-8: assert (Hmap : ng_op_map s2 = ng_op_map s) by congruence.
  - (* BiasAdd *)
    destruct (no_activation_inv (fmt ==s "NHWC") x s s2 s' H Hmap) as (y & h3 & Ha & Hr).
    exists true, (then_activation NoActivation ""), fmt, input, filter, conv, (heap s1), x,
      (heap s2).
    split; [listed|]. repeat (split; [assumption|]).
    split; [exists bias; auto|]. exists y, h3. auto.
  - (* BiasAdd, Relu *)
    destruct (then_activation_inv Relu (name op +:+ "_FusedConv2D_Relu")
                (fmt ==s "NHWC") x s s2 s' _ (fun y s3 => relu_activated _ x y s2 s3) H Hmap)
      as (y & h3 & Ha & Hr).
    exists true, (then_activation Relu "_FusedConv2D_Relu"), fmt, input, filter, conv,
      (heap s1), x, (heap s2).
    split; [listed|]. repeat (split; [assumption|]).
    split; [exists bias; auto|]. exists y, h3. auto.
  - (* BiasAdd, Relu6 *)
    destruct (then_activation_inv Relu6 (name op +:+ "_FusedConv2D_Relu6")
                (fmt ==s "NHWC") x s s2 s' _ (fun y s3 => relu6_activated _ x y s2 s3) H Hmap)
      as (y & h3 & Ha & Hr).
    exists true, (then_activation Relu6 "_FusedConv2D_Relu6"), fmt, input, filter, conv,
      (heap s1), x, (heap s2).
    split; [listed|]. repeat (split; [assumption|]).
    split; [exists bias; auto|]. exists y, h3. auto.
  - (* BiasAdd, LeakyRelu *)
    destruct (then_activation_inv LeakyRelu (name op +:+ "_FusedConv2D_LeakyRelu")
                (fmt ==s "NHWC") x s s2 s' _ (fun y s3 => leaky_relu_inv _ x y s2 s3) H Hmap)
      as (y & h3 & Ha & Hr).
    exists true, (then_activation LeakyRelu "_FusedConv2D_LeakyRelu"), fmt, input, filter,
      conv, (heap s1), x, (heap s2).
    split; [listed|]. repeat (split; [assumption|]).
    split; [exists bias; auto|]. exists y, h3. auto.
  - (* BiasAdd, Elu *)
    destruct (elu_activated (name op +:+ "_FusedConv2D_Elu") (fmt ==s "NHWC") x s s2 s'
                H Hmap) as (y & h3 & Ha & Hr).
    exists true, (then_activation Elu "_FusedConv2D_Elu"), fmt, input, filter, conv,
      (heap s1), x, (heap s2).
    split; [listed|]. repeat (split; [assumption|]).
    split; [exists bias; auto|]. exists y, h3. auto.
  - (* BiasAdd, Add, Relu *)
    unfold with_input2 in H.
    destruct (second_input_then_inv Relu (name op +:+ "_FusedConv2D_Relu")
                (fmt ==s "NHWC") x input2 s s2 s'
                (fun sum => ConstructNgNode ext (name op +:+ "_FusedConv2D_Relu")
                              "Relu" [] [sum])
                (fun sum y s3 s4 => relu_activated _ sum y s3 s4) H Hmap)
      as (input2' & h3 & sum & h4 & y & h5 & H1 & H2 & H3 & H4).
    exists true, (second_input_then Relu "_FusedConv2D_Relu"), fmt, input, filter, conv,
      (heap s1), x, (heap s2).
    split; [listed|]. repeat (split; [assumption|]).
    split; [exists bias; auto|].
    exists input2, input2', h3, sum, h4, y, h5. auto 6.
  - (* BiasAdd, Add *)
    unfold with_input2 in H.
    layout_in H x' s3 Hx' Hm3. build_in H y s4 Hy Hm4.
    apply (SaveNgOp_saved op y s) in H as [Hh Hsaved]; [|congruence].
    exists true, second_input_last, fmt, input, filter, conv, (heap s1), x, (heap s2).
    split; [listed|]. repeat (split; [assumption|]).
    split; [exists bias; auto|].
    exists input2, x', (heap s3), y. rewrite Hh. auto.
  - (* BiasAdd, Add, LeakyRelu *)
    unfold with_input2 in H.
    destruct (second_input_then_inv LeakyRelu (name op +:+ "_FusedConv2D_Add_LeakyRelu")
                (fmt ==s "NHWC") x input2 s s2 s'
                (leaky_relu ext op (name op +:+ "_FusedConv2D_Add_LeakyRelu"))
                (fun sum y s3 s4 => leaky_relu_inv _ sum y s3 s4) H Hmap)
      as (input2' & h3 & sum & h4 & y & h5 & H1 & H2 & H3 & H4).
    exists true, (second_input_then LeakyRelu "_FusedConv2D_Add_LeakyRelu"), fmt, input,
      filter, conv, (heap s1), x, (heap s2).
    split; [listed|]. repeat (split; [assumption|]).
    split; [exists bias; auto|].
    exists input2, input2', h3, sum, h4, y, h5. auto 6.
  - (* FusedBatchNorm *)
    destruct (negb (num_args =? 4)); [discriminate|].
    apply bind_ok in H as ([[[[[input filter] scale] offset] mean] variance] & s0 & Hi & H).
    apply GetInputNodes6_ok in Hi as (-> & Hi0 & Hi1 & Hi2 & Hi3 & Hi4 & Hi5).
    apply bind_ok in H as (conv & s1 & Hconv & H).
    apply CreateNgConv_inv in Hconv as [Hconv Hm1].
    read_in H epsilon Hepsilon. build_in H x s2 Hx Hm2.
    assert (Hmap : ng_op_map s2 = ng_op_map s) by congruence.
    destruct (no_activation_inv (fmt ==s "NHWC") x s s2 s' H Hmap) as (y & h3 & Ha & Hr).
    exists false, (then_activation NoActivation ""), fmt, input, filter, conv, (heap s1), x,
      (heap s2).
    split; [listed|]. repeat (split; [assumption|]).
    split; [exists scale, offset, mean, variance, epsilon; auto 8|]. exists y, h3. auto.
  - (* FusedBatchNorm, Relu *)
    destruct (negb (num_args =? 4)); [discriminate|].
    apply bind_ok in H as ([[[[[input filter] scale] offset] mean] variance] & s0 & Hi & H).
    apply GetInputNodes6_ok in Hi as (-> & Hi0 & Hi1 & Hi2 & Hi3 & Hi4 & Hi5).
    apply bind_ok in H as (conv & s1 & Hconv & H).
    apply CreateNgConv_inv in Hconv as [Hconv Hm1].
    read_in H epsilon Hepsilon. build_in H x s2 Hx Hm2.
    assert (Hmap : ng_op_map s2 = ng_op_map s) by congruence.
    destruct (then_activation_inv Relu (name op +:+ "_FusedConv2D_BatchNormRelu")
                (fmt ==s "NHWC") x s s2 s' _ (fun y s3 => relu_activated _ x y s2 s3) H Hmap)
      as (y & h3 & Ha & Hr).
    exists false, (then_activation Relu "_FusedConv2D_BatchNormRelu"), fmt, input, filter,
      conv, (heap s1), x, (heap s2).
    split; [listed|]. repeat (split; [assumption|]).
    split; [exists scale, offset, mean, variance, epsilon; auto 8|]. exists y, h3. auto.
  - (* FusedBatchNorm, Relu6 *)
    destruct (negb (num_args =? 4)); [discriminate|].
    apply bind_ok in H as ([[[[[input filter] scale] offset] mean] variance] & s0 & Hi & H).
    apply GetInputNodes6_ok in Hi as (-> & Hi0 & Hi1 & Hi2 & Hi3 & Hi4 & Hi5).
    apply bind_ok in H as (conv & s1 & Hconv & H).
    apply CreateNgConv_inv in Hconv as [Hconv Hm1].
    read_in H epsilon Hepsilon. build_in H x s2 Hx Hm2.
    assert (Hmap : ng_op_map s2 = ng_op_map s) by congruence.
    destruct (then_activation_inv Relu6 (name op +:+ "_FusedConv2D_BatchNormRelu")
                (fmt ==s "NHWC") x s s2 s' _ (fun y s3 => relu6_activated _ x y s2 s3) H Hmap)
      as (y & h3 & Ha & Hr).
    exists false, (then_activation Relu6 "_FusedConv2D_BatchNormRelu"), fmt, input, filter,
      conv, (heap s1), x, (heap s2).
    split; [listed|]. repeat (split; [assumption|]).
    split; [exists scale, offset, mean, variance, epsilon; auto 8|]. exists y, h3. auto.
  - (* FusedBatchNorm, LeakyRelu *)
    destruct (negb (num_args =? 4)); [discriminate|].
    apply bind_ok in H as ([[[[[input filter] scale] offset] mean] variance] & s0 & Hi & H).
    apply GetInputNodes6_ok in Hi as (-> & Hi0 & Hi1 & Hi2 & Hi3 & Hi4 & Hi5).
    apply bind_ok in H as (conv & s1 & Hconv & H).
    apply CreateNgConv_inv in Hconv as [Hconv Hm1].
    read_in H epsilon Hepsilon. build_in H x s2 Hx Hm2.
    assert (Hmap : ng_op_map s2 = ng_op_map s) by congruence.
    destruct (then_activation_inv LeakyRelu
                (name op +:+ "_FusedConv2D_BatchNormLeakyRelu")
                (fmt ==s "NHWC") x s s2 s' _ (fun y s3 => leaky_relu_inv _ x y s2 s3) H Hmap)
      as (y & h3 & Ha & Hr).
    exists false, (then_activation LeakyRelu "_FusedConv2D_BatchNormLeakyRelu"), fmt, input,
      filter, conv, (heap s1), x, (heap s2).
    split; [listed|]. repeat (split; [assumption|]).
    split; [exists scale, offset, mean, variance, epsilon; auto 8|]. exists y, h3. auto.
Qed.

Lemma FusedDepthwise_lowering (fused_ops : list string) (s s' : State) :
  GetNodeAttr_strings op "fused_ops" = Ok fused_ops ->
  fused_ops ∈ FusedDepthwiseConv2dNative_allow_list ->
  TranslateFusedDepthwiseConv2dNativeOp ext op s = Ok (tt, s') ->
  FusedDepthwise_lowered ext op fused_ops s s'.
Proof.
  intros Hf Hin H. unfold TranslateFusedDepthwiseConv2dNativeOp in H.
  read_in H num_args Hnum_args. read_in H fo Hfo.
  rewrite Hf in Hfo. injection Hfo as <-.
  read_in H fmt Hfmt. cbv zeta in H.
  unfold FusedDepthwiseConv2dNative_allow_list in Hin.
  repeat (apply elem_of_cons in Hin as [->|Hin]);
    [..|apply elem_of_nil in Hin; contradiction];
    compare_names_in H;
    (destruct (negb (num_args =? 1)); [discriminate|]);
    apply bind_ok in H as ([[input filter] bias] & s0 & Hi & H);
    apply GetInputNodes3_ok in Hi as (-> & Hi0 & Hi1 & Hi2);
    apply bind_ok in H as (conv & s1 & Hconv & H);
    apply CreateNgDepthwiseConv_inv in Hconv as [Hconv Hm1];
    apply bind_ok in H as (x & s2 & Hx & H);
    apply reshape_bias_and_add_inv in Hx as [Hx Hm2];
    assert (Hmap : ng_op_map s2 = ng_op_map s) by congruence.
  - destruct (no_activation_inv (fmt ==s "NHWC") x s s2 s' H Hmap) as (y & h3 & Ha & Hr).
    exists NoActivation, fmt, input, filter, bias, conv, (heap s1), x, (heap s2), y, h3.
    split; [listed|]. repeat (split; [assumption|]). exact Hr.
  - destruct (then_activation_inv Relu6
                (name op +:+ "_FusedDepthwiseConv2dNative_Relu6")
                (fmt ==s "NHWC") x s s2 s' _ (fun y s3 => relu6_activated _ x y s2 s3) H Hmap)
      as (y & h3 & Ha & Hr).
    exists Relu6, fmt, input, filter, bias, conv, (heap s1), x, (heap s2), y, h3.
    split; [listed|]. repeat (split; [assumption|]). exact Hr.
Qed.

Lemma FusedMatMul_lowering (fused_ops : list string) (s s' : State) :
  GetNodeAttr_strings op "fused_ops" = Ok fused_ops ->
  TranslateFusedMatMulOp ext op s = Ok (tt, s') ->
  FusedMatMul_lowered op fused_ops s s'.
Proof.
  intros Hf H. unfold TranslateFusedMatMulOp in H.
  read_in H num_args Hnum_args. read_in H fo Hfo.
  rewrite Hf in Hfo. injection Hfo as <-.
  read_in H ta Hta. read_in H tb Htb.
  apply bind_ok in H as ([[lhs rhs] bias] & s0 & Hi & H).
  apply GetInputNodes3_ok in Hi as (-> & Hi0 & Hi1 & Hi2).
  build_in H product s1 Hproduct Hm1.
  shape_in H product_shape Hproduct_shape. shape_in H bias_shape Hbias_shape.
  destruct (negb (length bias_shape =? 1)%nat) eqn:E1; [discriminate|].
  apply negb_false_iff, Nat.eqb_eq in E1.
  destruct bias_shape as [|channels [|? ?]]; try discriminate.
  build_in H sum s2 Hsum Hm2.
  assert (Hmap : ng_op_map s2 = ng_op_map s) by congruence.
  assert (Hgoal : forall a y,
            FusedMatMul_plan fused_ops = Some a ->
            activated op a (name op) (heap s2) sum y (heap s') -> saved op y s s' ->
            FusedMatMul_lowered op fused_ops s s').
  { intros a y Hplan Hact Hsaved.
    exists a, ta, tb, lhs, rhs, bias, product, (heap s1), channels, sum, (heap s2), y.
    auto 12. }
  destruct fused_ops as [|first [|second [|third rest]]]; cbn [length Nat.eqb] in H;
    try discriminate.
  - apply (SaveNgOp_saved op sum s) in H as [Hh Hsaved]; [|exact Hmap].
    apply (Hgoal NoActivation sum); [reflexivity| |exact Hsaved].
    split; [reflexivity|exact Hh].
  - cbn [nth] in H. cbn [FusedMatMul_plan] in Hgoal.
    destruct (second ==s "Relu").
    + build_in H y s3 Hy Hm3.
      apply (SaveNgOp_saved op y s) in H as [Hh Hsaved]; [|congruence].
      apply (Hgoal Relu y); [reflexivity| |exact Hsaved]. rewrite Hh. exact Hy.
    + destruct (second ==s "Relu6"); [|discriminate].
      build_in H y s3 Hy Hm3.
      apply (SaveNgOp_saved op y s) in H as [Hh Hsaved]; [|congruence].
      apply (Hgoal Relu6 y); [reflexivity| |exact Hsaved]. rewrite Hh. exact Hy.
Qed.

Lemma union_same (tag : string) : ({[tag]} ∪ {[tag]} : gset string) = {[tag]}.
Proof. apply (idemp_L (∪)). Qed.

(** A node that was built with a tag and is tagged with it once more is
    as it was. *)
Lemma SetTracingInfo_again (tag ty : string) (args : list NgArg) (ins : list Output)
    (h : list NgNode) (y : Output) (s1 s' : State) :
  adds h ty args ins {[tag]} y (heap s1) ->
  SetTracingInfo tag y s1 = Ok (tt, s') ->
  adds h ty args ins {[tag]} y (heap s') /\ ng_op_map s' = ng_op_map s1.
Proof.
  intros (n & Hh & -> & Hty & Hargs & Hins & Htags) H.
  apply SetTracingInfo_inv in H as (node & Hnode & ->). cbn [fst heap ng_op_map] in *.
  split; [|reflexivity].
  rewrite Hh in Hnode. rewrite lookup_app_r in Hnode by lia.
  rewrite Nat.sub_diag in Hnode. injection Hnode as <-.
  exists (with_tracing_info tag (length h) n). split.
  - rewrite Hh. rewrite insert_app_r_alt by lia. rewrite Nat.sub_diag. reflexivity.
  - split; [reflexivity|]. repeat split; try assumption.
    cbn [provenance_tags with_tracing_info]. rewrite Htags. apply union_same.
Qed.

Lemma unary_building (T : string) (s s' : State) :
  TranslateUnaryOpT ext T op s = Ok (tt, s') -> unary_built op T s s'.
Proof.
  unfold TranslateUnaryOpT, TranslateUnaryOp. intros H.
  apply bind_ok in H as (x & s0 & Hx & H). apply GetInputNodes1_ok in Hx as [-> Hx].
  build_in H y s1 Hy Hm1.
  apply bind_ok in H as ([] & s2 & Htrace & H).
  assert (Hs2 : adds (heap s) T [] [x] {[name op]} y (heap s2) /\
                ng_op_map s2 = ng_op_map s).
  { destruct (negb (Output_eqb y x)).
    - destruct (SetTracingInfo_again _ _ _ _ _ _ _ _ Hy Htrace) as [? ?].
      split; [assumption|congruence].
    - apply ret_ok in Htrace as [_ ->]. auto. }
  destruct Hs2 as [Hy2 Hm2].
  apply (SaveNgOp_saved op y s) in H as [Hh Hsaved]; [|exact Hm2].
  exists x, y. rewrite Hh. auto.
Qed.

Lemma binary_building (T : string) (s s' : State) :
  TranslateBinaryOpT ext T op s = Ok (tt, s') -> binary_built op T s s'.
Proof.
  unfold TranslateBinaryOpT, TranslateBinaryOp. intros H.
  apply bind_ok in H as ([lhs rhs] & s0 & Hx & H).
  apply GetInputNodes2_ok in Hx as (-> & Hl & Hr).
  build_in H y s1 Hy Hm1.
  apply bind_ok in H as ([] & s2 & Htrace & H).
  assert (Hs2 : adds (heap s) T [] [lhs; rhs] {[name op]} y (heap s2) /\
                ng_op_map s2 = ng_op_map s).
  { destruct (negb (Output_eqb y lhs) && negb (Output_eqb y rhs)).
    - destruct (SetTracingInfo_again _ _ _ _ _ _ _ _ Hy Htrace) as [? ?].
      split; [assumption|congruence].
    - apply ret_ok in Htrace as [_ ->]. auto. }
  destruct Hs2 as [Hy2 Hm2].
  apply (SaveNgOp_saved op y s) in H as [Hh Hsaved]; [|exact Hm2].
  exists lhs, rhs, y. rewrite Hh. auto.
Qed.

Lemma Const_building (s s' : State) :
  TranslateConstOp ext op s = Ok (tt, s') -> Const_built ext op s s'.
Proof.
  unfold TranslateConstOp. intros H.
  read_in H dtype Hdtype.
  destruct (TF_NGRAPH_CONST_MAP dtype) as [[T et]|] eqn:Emap; [|discriminate].
  apply bind_ok in H as (y & s1 & Hmake & H).
  unfold MakeConstOp in Hmake.
  read_in Hmake decoded Hdecoded. destruct decoded as [shape_proto values].
  destruct (existsb (fun d => d <? 0) shape_proto); [discriminate|].
  read_in Hmake ng_shape Hshape.
  apply ConstructNgNode_adds in Hmake as [Hy Hm1].
  apply (SaveNgOp_saved op y s) in H as [Hh Hsaved]; [|exact Hm1].
  exists dtype, T, et, shape_proto, values, ng_shape, y. rewrite Hh. auto 8.
Qed.

Lemma BiasAdd_building (s s' : State) :
  TranslateBiasAddOp ext op s = Ok (tt, s') -> BiasAdd_built op s s'.
Proof.
  unfold TranslateBiasAddOp, BiasAdd_built. intros H.
  apply bind_ok in H as ([input bias] & s0 & Hx & H).
  apply GetInputNodes2_ok in Hx as (-> & Hi0 & Hi1).
  cbv zeta in H |- *.
  set (fmt := match GetNodeAttr_string op "data_format" with
              | Ok f => f
              | _ => "NHWC"
              end) in *.
  destruct (negb (fmt ==s "NHWC") && negb (fmt ==s "NCHW")) eqn:Efmt; [discriminate|].
  shape_in H input_shape Hinput_shape. shape_in H bias_shape Hbias_shape.
  destruct (negb (length bias_shape =? 1)%nat) eqn:E1; [discriminate|].
  apply negb_false_iff, Nat.eqb_eq in E1.
  destruct bias_shape as [|channels [|? ?]]; try discriminate.
  apply bind_ok in H as (reshaped & s1 & Hreshaped & H).
  build_in H y s2 Hy Hm2.
  destruct (fmt ==s "NCHW") eqn:Enchw.
  - destruct (input_shape !! 1%nat) as [channel_dim|] eqn:Edim; [|discriminate].
    apply bind_ok in Hreshaped as (target & s3 & Htarget & Hreshaped).
    apply make_shared_adds in Htarget as [Htarget Hm3].
    apply ConstructNgNode_adds in Hreshaped as [Hreshaped Hm1].
    apply (SaveNgOp_saved op y s) in H as [Hh Hsaved]; [|congruence].
    exists input, bias, input_shape, channels, y.
    repeat (split; [assumption|]).
    exists channel_dim, target, (heap s3), reshaped, (heap s1).
    rewrite Hh. auto.
  - apply ret_ok in Hreshaped as [-> ->].
    apply (SaveNgOp_saved op y s) in H as [Hh Hsaved]; [|congruence].
    exists input, bias, input_shape, channels, y.
    repeat (split; [assumption|]). split.
    + cbn [negb andb] in Efmt.
      rewrite andb_true_r in Efmt. apply negb_false_iff, String.eqb_eq in Efmt.
      exact Efmt.
    + rewrite Hh. exact Hy.
Qed.

Lemma Where_building (s s' : State) :
  TranslateWhereOp ext op s = Ok (tt, s') -> Where_built op s s'.
Proof.
  unfold TranslateWhereOp. intros H.
  apply bind_ok in H as (cond & s0 & Hx & H). apply GetInputNodes1_ok in Hx as [-> Hx].
  build_in H non_zero s1 Hnz Hm1. build_in H order s2 Horder Hm2.
  build_in H y s3 Hy Hm3.
  apply (SaveNgOp_saved op y s) in H as [Hh Hsaved]; [|congruence].
  exists cond, non_zero, (heap s1), order, (heap s2), y. rewrite Hh. auto 8.
Qed.

Lemma ZerosLike_building (s s' : State) :
  TranslateZerosLikeOp ext op s = Ok (tt, s') -> ZerosLike_built op s s'.
Proof.
  unfold TranslateZerosLikeOp. intros H.
  apply bind_ok in H as (x & s0 & Hx & H). apply GetInputNodes1_ok in Hx as [-> Hx].
  apply bind_ok in H as (shape & s1 & Hshape & H).
  apply get_shape_inv in Hshape as [-> Hshape].
  apply bind_ok in H as (et & s1 & Het & H).
  apply get_element_type_inv in Het as [-> [ps Hps]].
  build_in H y s1 Hy Hm1.
  apply (SaveNgOp_saved op y s) in H as [Hh Hsaved]; [|congruence].
  exists x, et, ps, shape, y. rewrite Hh.
  unfold static_shape in Hshape. rewrite Hps in Hshape. cbn in Hshape. auto 8.
Qed.

End Built.

(** ** What the handlers keep of the state *)

Lemma same_node_refl (n : NgNode) : same_node n n.
Proof. repeat split. Qed.

Lemma same_node_trans (a b c : NgNode) : same_node a b -> same_node b c -> same_node a c.
Proof. unfold same_node. intros (? & ? & ? & ?) (? & ? & ? & ?). repeat split; congruence. Qed.

Lemma same_node_tagged (tag : string) (id : nat) (n : NgNode) :
  same_node n (with_tracing_info tag id n).
Proof. repeat split. Qed.

Lemma keeps_heap_refl (h : list NgNode) : keeps_heap h h.
Proof. intros i n Hn. exists n. split; [exact Hn|apply same_node_refl]. Qed.

Lemma keeps_heap_trans (a b c : list NgNode) :
  keeps_heap a b -> keeps_heap b c -> keeps_heap a c.
Proof.
  intros Hab Hbc i n Hn. destruct (Hab i n Hn) as (n1 & Hn1 & Hs1).
  destruct (Hbc i n1 Hn1) as (n2 & Hn2 & Hs2). exists n2. split; [exact Hn2|].
  eapply same_node_trans; eassumption.
Qed.

Lemma keeps_heap_app (h extra : list NgNode) : keeps_heap h (h ++ extra).
Proof.
  intros i n Hn. exists n. split; [|apply same_node_refl].
  apply lookup_app_l_Some. exact Hn.
Qed.

Lemma keeps_heap_insert (h : list NgNode) (i : nat) (n n' : NgNode) :
  h !! i = Some n -> same_node n n' -> keeps_heap h (<[i := n']> h).
Proof.
  intros Hi Hs j m Hj. destruct (decide (j = i)) as [->|Hne].
  - exists n'. split.
    + apply list_lookup_insert_eq. apply lookup_lt_Some in Hi. exact Hi.
    + congruence.
  - exists m. split; [|apply same_node_refl].
    rewrite list_lookup_insert_ne by congruence. exact Hj.
Qed.

Lemma keeps_state_refl (s : State) : keeps_state s s.
Proof.
  split; [apply keeps_heap_refl|]. intros nm outs H. exists []. rewrite app_nil_r. exact H.
Qed.

Lemma keeps_state_trans (a b c : State) :
  keeps_state a b -> keeps_state b c -> keeps_state a c.
Proof.
  intros [Hh1 Hm1] [Hh2 Hm2]. split; [eapply keeps_heap_trans; eassumption|].
  intros nm outs H. destruct (Hm1 nm outs H) as (more1 & H1).
  destruct (Hm2 nm _ H1) as (more2 & H2). exists (more1 ++ more2).
  rewrite app_assoc. exact H2.
Qed.

(** A step that changes the heap alone. *)
Lemma keeps_state_heap (s s' : State) :
  keeps_heap (heap s) (heap s') -> ng_op_map s' = ng_op_map s -> keeps_state s s'.
Proof.
  intros Hh Hm. split; [exact Hh|]. intros nm outs H. exists [].
  rewrite app_nil_r, Hm. exact H.
Qed.

Lemma keeps_bind {A B} (m : M A) (f : A -> M B) :
  keeps m -> (forall a, keeps (f a)) -> keeps (bind m f).
Proof.
  intros Hm Hf s b s' H. apply bind_ok in H as (a & s1 & H1 & H2).
  eapply keeps_state_trans; [eapply Hm|eapply Hf]; eassumption.
Qed.

Lemma keeps_ret {A} (a : A) : keeps (ret a).
Proof. intros s b s' H. apply ret_ok in H as [_ ->]. apply keeps_state_refl. Qed.

Lemma keeps_lift {A} (x : Outcome A) : keeps (lift x).
Proof. intros s b s' H. apply lift_ok in H as [_ ->]. apply keeps_state_refl. Qed.

Lemma keeps_fail {A} (c : Code) (msg : string) : keeps (@fail A c msg).
Proof. intros s b s' H. discriminate. Qed.

Lemma keeps_crash {A} (why : string) : keeps (@crash A why).
Proof. intros s b s' H. discriminate. Qed.

Lemma keeps_GetInputNode (op : Node) (i : nat) : keeps (GetInputNode op i).
Proof.
  intros s b s' H. apply GetInputNode_state in H as ->. apply keeps_state_refl.
Qed.

Lemma keeps_get_shape (o : Output) : keeps (get_shape o).
Proof. intros s b s' H. apply get_shape_state in H as ->. apply keeps_state_refl. Qed.

Lemma keeps_get_element_type (o : Output) : keeps (get_element_type o).
Proof.
  intros s b s' H. apply get_element_type_state in H as ->. apply keeps_state_refl.
Qed.

Lemma keeps_pure_helper {A} (x : option A) : keeps (pure_helper x).
Proof. intros s b s' H. apply pure_helper_ok in H as [_ ->]. apply keeps_state_refl. Qed.

Lemma keeps_on_heap (f : list NgNode -> option (Output * list NgNode)) :
  helper_keeps f -> keeps (on_heap f).
Proof.
  intros Hf s b s' H. apply on_heap_inv in H as [H Hm].
  apply keeps_state_heap; [eapply Hf; exact H|exact Hm].
Qed.

Lemma keeps_make_shared (ext : Externals) (ty : string) (args : list NgArg)
    (ins : list Output) :
  keeps (make_shared ext ty args ins).
Proof.
  intros s b s' H. apply make_shared_inv in H as (outs & _ & ->).
  apply keeps_state_heap; [apply keeps_heap_app|reflexivity].
Qed.

Lemma keeps_SetTracingInfo (tag : string) (o : Output) : keeps (SetTracingInfo tag o).
Proof.
  intros s [] s' H. apply SetTracingInfo_inv in H as (node & Hnode & ->).
  apply keeps_state_heap; [|reflexivity]. cbn [heap].
  eapply keeps_heap_insert; [exact Hnode|apply same_node_tagged].
Qed.

Lemma keeps_SaveNgOp (nm : string) (o : Output) : keeps (SaveNgOp nm o).
Proof.
  intros s [] s' [= <-]. split; [apply keeps_heap_refl|]. cbn [ng_op_map].
  intros k outs H. destruct (decide (k = nm)) as [->|Hne].
  - exists [o]. rewrite lookup_insert, decide_True by reflexivity. rewrite H. reflexivity.
  - exists []. rewrite lookup_insert_ne by congruence. rewrite app_nil_r. exact H.
Qed.

Lemma keeps_ConstructNgNode (ext : Externals) (tag ty : string) (args : list NgArg)
    (ins : list Output) :
  keeps (ConstructNgNode ext tag ty args ins).
Proof.
  unfold ConstructNgNode.
  apply keeps_bind; [apply keeps_make_shared|]. intros o.
  apply keeps_bind; [apply keeps_SetTracingInfo|]. intros _. apply keeps_ret.
Qed.

Lemma keeps_with_input2 {A} (x : option Output) (k : Output -> M A) :
  (forall o, keeps (k o)) -> keeps (with_input2 x k).
Proof. intros Hk. unfold with_input2. destruct x; [apply Hk|apply keeps_crash]. Qed.

(** The steps of a computation, one after the other. *)
Ltac kept_step := fail.

Ltac kept :=
  repeat first
    [ progress intros
    | kept_step
    | progress cbv beta zeta
    | apply keeps_ret
    | apply keeps_crash
    | apply keeps_fail
    | apply keeps_lift
    | apply keeps_SaveNgOp
    | apply keeps_get_shape
    | apply keeps_get_element_type
    | apply keeps_pure_helper
    | apply keeps_GetInputNode
    | apply keeps_SetTracingInfo
    | apply keeps_make_shared
    | apply keeps_ConstructNgNode
    | apply keeps_with_input2
    | solve [apply keeps_on_heap;
             first [apply NHWCtoNCHW_keeps | apply NCHWtoNHWC_keeps | apply Transpose_keeps];
             assumption]
    | match goal with
      | |- keeps (if ?b then _ else _) => destruct b
      | |- keeps (match ?x with _ => _ end) => destruct x
      | |- keeps (bind _ _) => apply keeps_bind
      end ].

Section HandlersKeep.

Variable ext : Externals.
Hypothesis ext_keeps : keeps_built ext.

Lemma keeps_GetInputNodes1 (op : Node) : keeps (GetInputNodes1 op).
Proof. unfold GetInputNodes1. kept. Qed.

Lemma keeps_GetInputNodes2 (op : Node) : keeps (GetInputNodes2 op).
Proof. unfold GetInputNodes2. kept. Qed.

Lemma keeps_GetInputNodes3 (op : Node) : keeps (GetInputNodes3 op).
Proof. unfold GetInputNodes3. kept. Qed.

Lemma keeps_GetInputNodes4 (op : Node) : keeps (GetInputNodes4 op).
Proof. unfold GetInputNodes4. kept. Qed.

Lemma keeps_GetInputNodes6 (op : Node) : keeps (GetInputNodes6 op).
Proof. unfold GetInputNodes6. kept. Qed.

Ltac kept_step ::=
  first [ apply keeps_GetInputNodes1 | apply keeps_GetInputNodes2
        | apply keeps_GetInputNodes3 | apply keeps_GetInputNodes4
        | apply keeps_GetInputNodes6 ].

Lemma keeps_unary (T : string) (op : Node) : keeps (TranslateUnaryOpT ext T op).
Proof. unfold TranslateUnaryOpT, TranslateUnaryOp. kept. Qed.

Lemma keeps_binary (T : string) (op : Node) : keeps (TranslateBinaryOpT ext T op).
Proof. unfold TranslateBinaryOpT, TranslateBinaryOp. kept. Qed.

Lemma keeps_Identity (op : Node) : keeps (TranslateIdentityOp op).
Proof. unfold TranslateIdentityOp. kept. Qed.

Lemma keeps_Const (op : Node) : keeps (TranslateConstOp ext op).
Proof. unfold TranslateConstOp, MakeConstOp. kept. Qed.

Lemma keeps_BiasAdd (op : Node) : keeps (TranslateBiasAddOp ext op).
Proof. unfold TranslateBiasAddOp. kept. Qed.

Lemma keeps_Where (op : Node) : keeps (TranslateWhereOp ext op).
Proof. unfold TranslateWhereOp. kept. Qed.

Lemma keeps_ZerosLike (op : Node) : keeps (TranslateZerosLikeOp ext op).
Proof. unfold TranslateZerosLikeOp. kept. Qed.

Lemma keeps_FusedMatMul (op : Node) : keeps (TranslateFusedMatMulOp ext op).
Proof. unfold TranslateFusedMatMulOp. kept. Qed.

Lemma keeps_CreateNgConv (op : Node) (fmt : string) (is_nhwc : bool)
    (input filter : Output) :
  keeps (CreateNgConv ext op fmt is_nhwc input filter).
Proof. unfold CreateNgConv. kept. Qed.

Lemma keeps_CreateNgDepthwiseConv (op : Node) (input filter : Output) :
  keeps (CreateNgDepthwiseConv ext op input filter).
Proof. unfold CreateNgDepthwiseConv. kept. Qed.

Lemma keeps_reshape_bias_and_add (op : Node) (tag : string) (x bias : Output) :
  keeps (reshape_bias_and_add ext op tag x bias).
Proof. unfold reshape_bias_and_add. kept. Qed.

Lemma keeps_leaky_relu (op : Node) (tag : string) (x : Output) :
  keeps (leaky_relu ext op tag x).
Proof. unfold leaky_relu. kept. Qed.

Ltac kept_step ::=
  first [ apply keeps_GetInputNodes1 | apply keeps_GetInputNodes2
        | apply keeps_GetInputNodes3 | apply keeps_GetInputNodes4
        | apply keeps_GetInputNodes6 | apply keeps_CreateNgConv
        | apply keeps_CreateNgDepthwiseConv | apply keeps_reshape_bias_and_add
        | apply keeps_leaky_relu ].

Lemma keeps_FusedConv2D (op : Node) : keeps (TranslateFusedConv2DOp ext op).
Proof. unfold TranslateFusedConv2DOp. kept. Qed.

Lemma keeps_FusedDepthwise (op : Node) :
  keeps (TranslateFusedDepthwiseConv2dNativeOp ext op).
Proof. unfold TranslateFusedDepthwiseConv2dNativeOp. kept. Qed.

(** Every handler of the registry keeps what the state holds. *)
Lemma handlers_keep (kind : string) (handler : Handler) (g : gmap string Node) (op : Node)
    (sim : list (option Tensor)) :
  TRANSLATE_OP_MAP ext !! kind = Some handler -> keeps (handler g op sim).
Proof.
  intros H. unfold TRANSLATE_OP_MAP in H. apply elem_of_list_to_map_2 in H.
  repeat (apply elem_of_cons in H as [[= -> ->]|H];
          [unfold unary, binary, other, on_node;
           first [ apply keeps_unary | apply keeps_binary | apply keeps_Identity
                 | apply keeps_Const | apply keeps_BiasAdd | apply keeps_Where
                 | apply keeps_ZerosLike | apply keeps_FusedMatMul
                 | apply keeps_FusedConv2D | apply keeps_FusedDepthwise
                 | apply (other_handlers_keep ext ext_keeps) | apply keeps_ret ]|]).
  apply elem_of_nil in H. contradiction.
Qed.

Lemma keeps_catch_exception (op : Node) (call : M unit) :
  keeps call -> keeps (catch_exception ext op call).
Proof.
  intros Hc s a s' H. unfold catch_exception in H.
  destruct (call s) as [[a' s1]| | |] eqn:E; try discriminate.
  injection H as <- <-. eapply Hc. exact E.
Qed.

Lemma keeps_translate_op (g : gmap string Node) (sim : list (option Tensor)) (op : Node) :
  keeps (translate_op ext g sim op).
Proof.
  unfold translate_op.
  destruct (TRANSLATE_OP_MAP ext !! type_string op) as [handler|] eqn:E;
    [|apply keeps_fail].
  apply keeps_catch_exception. eapply handlers_keep. exact E.
Qed.

Lemma keeps_store_at (v : list (option nat)) (index : Z) (x : nat) :
  keeps (store_at v index x).
Proof. unfold store_at. kept. Qed.

Lemma keeps_translate_retval (n : Node) (rl : list (option nat)) :
  keeps (translate_retval ext n rl).
Proof. unfold translate_retval. kept. apply keeps_store_at. Qed.

End HandlersKeep.

Lemma keeps_for_each {A} (f : A -> M unit) (l : list A) :
  (forall x, keeps (f x)) -> keeps (for_each f l).
Proof.
  intros Hf. induction l as [|x l IH]; simpl; [apply keeps_ret|].
  apply keeps_bind; [apply Hf|]. intros _. exact IH.
Qed.

Lemma keeps_fold_each {A B} (f : A -> B -> M B) (l : list A) (b : B) :
  (forall x b, keeps (f x b)) -> keeps (fold_each f l b).
Proof.
  intros Hf. revert b. induction l as [|x l IH]; intros b; simpl; [apply keeps_ret|].
  apply keeps_bind; [apply Hf|]. intros b'. apply IH.
Qed.

(** What keeping the state means for an output that was saved first under
    a name: an edge to it still resolves to it. *)
Lemma kept_entry_resolves (consumer : Node) (idx : nat) (nm : string) (o : Output)
    (rest : list Output) (s s' : State) :
  ng_op_map s !! nm = Some (o :: rest) -> keeps_state s s' ->
  in_edges consumer !! idx = Some (nm, 0%nat) ->
  GetInputNode consumer idx s' = Ok (o, s').
Proof.
  intros Hmap [_ Hkeeps] Hedge. destruct (Hkeeps nm _ Hmap) as (more & Hmore).
  unfold GetInputNode. rewrite Hedge. cbv beta iota. rewrite Hmore. reflexivity.
Qed.
(** ** The static value resolver *)

Lemma GetStaticNodeTensor_other (node : Node) (sim : list (option Tensor)) :
  IsArg node = false -> type_string node <> "Const" ->
  GetStaticNodeTensor node sim =
    Err INTERNAL
      ("GetStaticNodeTensor called on node with type " +:+ type_string node +:+
       "; _Arg or Const expected").
Proof.
  intros Harg Hconst. unfold GetStaticNodeTensor. rewrite Harg.
  destruct (String.eqb_spec (type_string node) "Const") as [E|_]; [contradiction|].
  reflexivity.
Qed.

Lemma GetStaticNodeTensor_arg (node : Node) (sim : list (option Tensor)) (i : Z)
    (slot : option Tensor) :
  IsArg node = true -> GetNodeAttr_int node "index" = Ok i -> 0 <= i ->
  sim !! Z.to_nat i = Some slot ->
  GetStaticNodeTensor node sim =
    match slot with
    | Some t => Ok t
    | None =>
        Err INTERNAL
          "GetStaticNodeTensor called on _Arg but input tensor is missing from static input map"
    end.
Proof.
  intros Harg Hidx Hpos Hslot. unfold GetStaticNodeTensor.
  rewrite Harg, Hidx. simpl.
  destruct (Z.ltb_spec i 0) as [?|_]; [lia|].
  rewrite Hslot. destruct slot; reflexivity.
Qed.

(** C7. The static value resolver succeeds only on a producer that is a
    formal-input marker or a constant node. For a formal-input marker it
    reads the slot of the static input map at the declared index, and an
    empty slot is an (Internal) error. For a producer of any other kind it
    returns an Internal error. *)
Theorem static_resolution_producers (convert : CType -> CType -> Z -> Z)
    (g : gmap string Node) (T : CType) (op : Node) (input_index : Z)
    (sim : list (option Tensor)) (producer : Node) :
  input_node g op input_index = Ok producer ->
  (is_ok (GetStaticInputVector convert g T op input_index sim) = true ->
   IsArg producer = true \/ type_string producer = "Const") /\
  (IsArg producer = true ->
   forall i slot, GetNodeAttr_int producer "index" = Ok i -> 0 <= i ->
     sim !! Z.to_nat i = Some slot ->
     match slot with
     | Some t =>
         GetStaticNodeTensor producer sim = Ok t /\
         GetStaticInputVector convert g T op input_index sim =
           TensorDataToVector convert T t
     | None =>
         exists msg,
           GetStaticNodeTensor producer sim = Err INTERNAL msg /\
           GetStaticInputVector convert g T op input_index sim = Err INTERNAL msg
     end) /\
  (IsArg producer = false -> type_string producer <> "Const" ->
   exists msg,
     GetStaticNodeTensor producer sim = Err INTERNAL msg /\
     GetStaticInputVector convert g T op input_index sim = Err INTERNAL msg).
Proof.
  intros Hin. unfold GetStaticInputVector. rewrite Hin. simpl.
  split; [|split].
  - intros Hok.
    destruct (IsArg producer) eqn:Harg; [left; reflexivity|right].
    destruct (String.eqb_spec (type_string producer) "Const") as [E|NE]; [exact E|].
    rewrite (GetStaticNodeTensor_other producer sim Harg NE) in Hok. discriminate.
  - intros Harg i slot Hidx Hpos Hslot.
    rewrite (GetStaticNodeTensor_arg producer sim i slot Harg Hidx Hpos Hslot).
    destruct slot; simpl; eauto.
  - intros Harg NE. rewrite (GetStaticNodeTensor_other producer sim Harg NE).
    simpl. eauto.
Qed.

(** ** The fill-forward rule of the constant decoder *)

Lemma wrap_signed_small (bits z : Z) :
  0 < bits -> - 2 ^ (bits - 1) <= z < 2 ^ (bits - 1) -> wrap_signed bits z = z.
Proof.
  intros Hb Hz. unfold wrap_signed.
  replace (2 ^ bits) with (2 * 2 ^ (bits - 1)).
  - rewrite Z.mod_small; lia.
  - rewrite <- (Z.pow_succ_r 2 (bits - 1)) by lia. f_equal. lia.
Qed.

Lemma shape_size_pos (dims : list Z) :
  Forall (fun d => 1 <= d) dims -> 1 <= shape_size dims.
Proof. induction 1; simpl; [lia | nia]. Qed.

Lemma dims_positive (dims : list Z) :
  Forall (fun d => 0 <= d) dims -> 0 < shape_size dims ->
  Forall (fun d => 1 <= d) dims.
Proof.
  induction 1 as [|d dims Hd Hds IH]; simpl; intros Hpos; constructor.
  - destruct (Z.eq_dec d 0) as [->|]; lia.
  - apply IH. destruct (Z.eq_dec d 0) as [->|]; [lia|].
    destruct (Z.lt_trichotomy (shape_size dims) 0) as [?|[E|?]]; [nia| |lia].
    rewrite E in Hpos. lia.
Qed.

Lemma count_elements_exact (dims : list Z) :
  Forall (fun d => 1 <= d) dims ->
  forall acc, 1 <= acc -> acc * shape_size dims < 2 ^ 63 ->
    count_elements dims acc = Ok (acc * shape_size dims).
Proof.
  induction 1 as [|d dims Hd Hds IH]; simpl; intros acc Hacc Hlt.
  - f_equal. lia.
  - destruct (Z.ltb_spec d 0) as [?|_]; [lia|].
    pose proof (shape_size_pos dims Hds) as Hp.
    rewrite wrap_signed_small by (simpl; nia).
    rewrite IH by nia. f_equal. ring.
Qed.

Lemma fill_loop_spec (pf : Platform) (T : CType) (dt : DataType)
    (tensor : TensorProto) (field : list Z) :
  typed_val dt tensor = Some field -> (0 < length field)%nat ->
  forall (fuel i : nat) (values : list Z) (val_lastsaved : Z),
    Z.of_nat (i + fuel) <= INT_MAX ->
    (i + fuel <= length values)%nat ->
    ((0 < i)%nat -> val_lastsaved = filled T field (i - 1)) ->
    exists values',
      fill_loop pf T dt tensor fuel (Z.of_nat i) values val_lastsaved = Ok values' /\
      length values' = length values /\
      (forall j, (j < i)%nat -> values' !! j = values !! j) /\
      (forall j, (i <= j < i + fuel)%nat -> values' !! j = Some (filled T field j)).
Proof.
  intros Htyped Hk. induction fuel as [|fuel IH]; intros i values lastv Hmax Hlen Hlast.
  - exists values. simpl. repeat split; auto. intros j Hj. lia.
  - simpl. rewrite Htyped.
    destruct (Z.ltb_spec 0 (Z.of_nat (length field))) as [_|?]; [|lia].
    destruct (Z.eqb_spec (Z.of_nat (length field)) 0) as [?|_]; [lia|].
    destruct (Z.eqb_spec (Z.of_nat i) INT_MAX) as [?|_]; [lia|].
    replace (Z.of_nat i + 1) with (Z.of_nat (S i)) by lia.
    rewrite Nat2Z.id.
    assert (Hstep : forall v, v = filled T field i ->
      exists values',
        fill_loop pf T dt tensor fuel (Z.of_nat (S i)) (<[i:=v]> values) v = Ok values' /\
        length values' = length values /\
        (forall j, (j < i)%nat -> values' !! j = values !! j) /\
        (forall j, (i <= j < i + S fuel)%nat -> values' !! j = Some (filled T field j))).
    { intros v Hv.
      destruct (IH (S i) (<[i:=v]> values) v) as (values' & Hrun & Hlen' & Hold & Hnew).
      - lia.
      - rewrite length_insert. lia.
      - intros _. rewrite Hv. f_equal. lia.
      - exists values'. split; [exact Hrun|]. split.
        + rewrite Hlen'. apply length_insert.
        + split.
          * intros j Hj. rewrite Hold by lia. apply list_lookup_insert_ne. lia.
          * intros j Hj. destruct (decide (j = i)) as [->|Hne].
            -- rewrite Hold by lia. rewrite list_lookup_insert_eq by lia.
               f_equal. exact Hv.
            -- apply Hnew. lia. }
    destruct (Z.ltb_spec (Z.of_nat i) (Z.of_nat (length field))) as [Hlt|Hge].
    + apply Hstep. unfold filled, RepeatedField_get. rewrite Nat2Z.id.
      replace (Nat.min i (length field - 1)) with i by lia.
      destruct (field !! i) eqn:E; [reflexivity|].
      apply lookup_ge_None in E. lia.
    + apply Hstep. rewrite Hlast by lia. unfold filled. f_equal. f_equal. f_equal. lia.
Qed.

Lemma typed_val_of_field (T : CType) (tensor : TensorProto) :
  T ∈ [c_int32; c_int64; c_float; c_bool; c_double] ->
  typed_val (DataTypeToEnum T) tensor = Some (MutableTensorProtoData T tensor).
Proof.
  intros HT. repeat (apply elem_of_cons in HT as [->|HT]; [reflexivity|]).
  apply elem_of_nil in HT. contradiction.
Qed.

Lemma filled_value (T : CType) (vs : list Z) (i : nat) :
  Forall (representable T) vs -> (0 < length vs)%nat ->
  Some (filled T vs i) = if (i <? length vs)%nat then vs !! i else last vs.
Proof.
  intros Hrep Hk. unfold filled.
  assert (Hget : forall j, (j < length vs)%nat ->
            Some (cast_to T (default 0 (vs !! j))) = vs !! j).
  { intros j Hj. destruct (vs !! j) as [v|] eqn:E.
    - simpl. f_equal. eapply Forall_lookup_1 in Hrep; [exact Hrep|exact E].
    - apply lookup_ge_None in E. lia. }
  destruct (Nat.ltb_spec i (length vs)) as [Hlt|Hge].
  - replace (Nat.min i (length vs - 1)) with i by lia. apply Hget. exact Hlt.
  - replace (Nat.min i (length vs - 1)) with (Nat.pred (length vs)) by lia.
    rewrite last_lookup. apply Hget. lia.
Qed.

(** C6 (as amended). A constant node whose payload has no raw byte buffer
    and whose repeated value list holds k values, 0 < k < n, n being the
    element count of the declared shape. When its element type is int32,
    int64, float, double or bool, it decodes to n values: the listed value
    at every index below k and the last listed value at every index from
    k on; nothing is zero-filled. When its element type is int8, int16,
    uint8, uint16, qint8, quint8 or quint16, the decoder fails with
    Unimplemented, and so does the handler of Const. *)
Theorem fill_forward_of_short_value_list (pf : Platform) (T : CType) (node : Node)
    (tensor : TensorProto) (vs : list Z) (n : Z) :
  type_string node = "Const" ->
  attrs node !! "dtype" = Some (AttrType (DataTypeToEnum T)) ->
  attrs node !! "value" = Some (AttrTensor tensor) ->
  tensor_content tensor = [] ->
  MutableTensorProtoData T tensor = vs ->
  Forall (fun d => 0 <= d) (tensor_shape tensor) ->
  shape_size (tensor_shape tensor) = n ->
  0 < Z.of_nat (length vs) < n -> n <= INT_MAX ->
  (T ∈ [c_int32; c_int64; c_float; c_bool; c_double] ->
   Forall (representable T) vs ->
   exists values,
     ValuesFromConstNode pf T node = Ok (tensor_shape tensor, values) /\
     Z.of_nat (length values) = n /\
     forall i : nat, Z.of_nat i < n ->
       values !! i = if (i <? length vs)%nat then vs !! i else last vs) /\
  (T ∈ [c_int8; c_int16; c_uint8; c_uint16; c_qint8; c_quint8; c_quint16] ->
   let msg :=
     "Encountered unknown element type " +:+ DataType_Name (DataTypeToEnum T) +:+
     " on an empty tensor" in
   ValuesFromConstNode pf T node = Err UNIMPLEMENTED msg /\
   forall ext s, platform ext = pf ->
     TranslateConstOp ext node s = Err UNIMPLEMENTED msg).
Proof.
  intros Hop Hdt Hval Hcontent Hfield Hdims Hn Hk Hmax.
  assert (Hrun :
    ValuesFromConstNode pf T node =
      obind (fill_loop pf T (DataTypeToEnum T) tensor (Z.to_nat n) 0
               (replicate (Z.to_nat n) 0) 0)
            (fun values => Ok (tensor_shape tensor, values))).
  { unfold ValuesFromConstNode, attr_at. rewrite Hop, Hdt, Hval. simpl.
    rewrite bool_decide_true by reflexivity. simpl.
    rewrite Hfield, Hcontent. simpl.
    assert (Hgate :
      negb (bool_decide (vs = [])) && has_tensor_shape tensor &&
      bool_decide (length (tensor_shape tensor) = 1%nat) &&
      (hd 0 (tensor_shape tensor) =? Z.of_nat (length vs)) = false).
    { destruct (tensor_shape tensor) as [|d [|d' ds]] eqn:Hsh.
      - rewrite (bool_decide_false (length [] = 1%nat)) by (simpl; lia).
        rewrite andb_false_r. reflexivity.
      - simpl in Hn. cbn [hd].
        destruct (Z.eqb_spec d (Z.of_nat (length vs))); [lia|].
        apply andb_false_r.
      - rewrite (bool_decide_false (length (d :: d' :: ds) = 1%nat)) by (simpl; lia).
        rewrite andb_false_r. reflexivity. }
    rewrite Hgate.
    pose proof (dims_positive _ Hdims ltac:(lia)) as Hpos.
    rewrite (count_elements_exact _ Hpos 1) by (unfold INT_MAX in Hmax; lia).
    simpl. rewrite Z.mul_1_l. rewrite Hn.
    destruct (Z.ltb_spec n 0) as [?|_]; [lia|]. reflexivity. }
  split.
  - intros HT Hrep. rewrite Hrun.
    assert (Htyped := typed_val_of_field T tensor HT). rewrite Hfield in Htyped.
    destruct (fill_loop_spec pf T (DataTypeToEnum T) tensor vs Htyped ltac:(lia)
                (Z.to_nat n) 0%nat (replicate (Z.to_nat n) 0) 0)
      as (values & Hloop & Hlen & _ & Hnew).
    + simpl. lia.
    + rewrite length_replicate. simpl. lia.
    + intros ?. lia.
    + change (Z.of_nat 0) with 0 in Hloop. rewrite Hloop. simpl. exists values.
      split; [reflexivity|]. split.
      * rewrite Hlen, length_replicate. lia.
      * intros i Hi. rewrite Hnew by (simpl; lia).
        apply filled_value; [exact Hrep | lia].
  - intros HT msg.
    assert (Hnone : typed_val (DataTypeToEnum T) tensor = None).
    { repeat (apply elem_of_cons in HT as [->|HT]; [reflexivity|]).
      apply elem_of_nil in HT. contradiction. }
    assert (Hdecode : ValuesFromConstNode pf T node = Err UNIMPLEMENTED msg).
    { rewrite Hrun. destruct (Z.to_nat n) as [|fuel] eqn:En; [lia|].
      cbn [fill_loop]. rewrite Hnone. reflexivity. }
    split; [exact Hdecode|]. intros ext s <-.
    unfold TranslateConstOp, GetNodeAttr_type. rewrite Hdt.
    unfold bind at 1. unfold lift at 1. cbv beta iota.
    assert (Hmap : exists et, TF_NGRAPH_CONST_MAP (DataTypeToEnum T) = Some (T, et)).
    { repeat (apply elem_of_cons in HT as [->|HT]; [eexists; reflexivity|]).
      apply elem_of_nil in HT. contradiction. }
    destruct Hmap as [et ->]. unfold MakeConstOp, bind, lift. rewrite Hdecode.
    reflexivity.
Qed.

(** The decoder refuses an int8 constant with a short value list: the
    switch of the fill loop has no case for it. *)
Lemma short_int8_const_not_decoded :
  type_string short_int8_const = "Const" /\
  attrs short_int8_const !! "dtype" = Some (AttrType (DataTypeToEnum c_int8)) /\
  TF_NGRAPH_CONST_MAP DT_INT8 = Some (c_int8, et_i8) /\
  ValuesFromConstNode ref_platform c_int8 short_int8_const =
    Err UNIMPLEMENTED "Encountered unknown element type DT_INT8 on an empty tensor" /\
  TranslateConstOp ref_ext short_int8_const empty_state =
    Err UNIMPLEMENTED "Encountered unknown element type DT_INT8 on an empty tensor".
Proof. repeat split; vm_compute; reflexivity. Qed.

Lemma fill_forward_of_short_value_list_witness :
  (exists values,
     ValuesFromConstNode ref_platform c_int32 short_int32_const = Ok ([2; 2], values) /\
     Z.of_nat (length values) = 4 /\
     forall i : nat, Z.of_nat i < 4 ->
       values !! i = if (i <? 2)%nat then [5; 9] !! i else Some 9) /\
  ValuesFromConstNode ref_platform c_int8 short_int8_const =
    Err UNIMPLEMENTED "Encountered unknown element type DT_INT8 on an empty tensor".
Proof.
  split.
  - apply (fill_forward_of_short_value_list ref_platform c_int32 short_int32_const
             short_int32_proto [5; 9] 4).
    + reflexivity.
    + reflexivity.
    + reflexivity.
    + reflexivity.
    + reflexivity.
    + repeat constructor; simpl; lia.
    + reflexivity.
    + simpl; lia.
    + unfold INT_MAX; lia.
    + apply list_elem_of_here.
    + repeat constructor.
  - apply (fill_forward_of_short_value_list ref_platform c_int8 short_int8_const
             {| tp_dtype := DT_INT8; has_tensor_shape := true; tensor_shape := [3];
                tensor_content := []; float_val := []; double_val := [];
                int_val := [7]; int64_val := []; bool_val := [] |} [7] 3).
    + reflexivity.
    + reflexivity.
    + reflexivity.
    + reflexivity.
    + reflexivity.
    + repeat constructor; simpl; lia.
    + reflexivity.
    + simpl; lia.
    + unfold INT_MAX; lia.
    + apply list_elem_of_here.
Defined.

Lemma static_resolution_producers_witness :
  GetStaticInputVector (convert ref_ext) {[ "axis" := axis_arg ]} c_int32 sum_node 1
    [Some axis_tensor] = Ok [3].
Proof.
  assert (Hin : input_node ({[ "axis" := axis_arg ]} : gmap string Node) sum_node 1
                = Ok axis_arg) by (vm_compute; reflexivity).
  assert (Hidx : GetNodeAttr_int axis_arg "index" = Ok 0) by (vm_compute; reflexivity).
  destruct (static_resolution_producers (convert ref_ext) _ c_int32 sum_node 1
              [Some axis_tensor] axis_arg Hin) as (_ & Harg & _).
  specialize (Harg eq_refl 0 (Some axis_tensor) Hidx (Z.le_refl 0) eq_refl).
  destruct Harg as [_ ->]. reflexivity.
Defined.

(** ** The round trip of a constant through the resolver *)

Lemma holds_representable (T : CType) (z : Z) : holds T z -> representable T z.
Proof. destruct T; simpl; auto. intros [->| ->]; reflexivity. Qed.

Lemma map_cast_id (T : CType) (vs : list Z) :
  Forall (holds T) vs -> map (cast_to T) vs = vs.
Proof.
  induction 1 as [|v vs Hv _ IH]; simpl; [reflexivity|].
  rewrite IH. f_equal. apply holds_representable. exact Hv.
Qed.

Lemma bool_field_id (vs : list Z) :
  Forall (holds c_bool) vs -> map Z.b2z (map (fun z => negb (z =? 0)) vs) = vs.
Proof.
  induction 1 as [|v vs Hv _ IH]; simpl; [reflexivity|].
  rewrite IH. f_equal. destruct Hv as [-> | ->]; reflexivity.
Qed.

Lemma field_of_values (T : CType) (et : ElementType) (shape vs : list Z) :
  TF_NGRAPH_CONST_MAP (DataTypeToEnum T) = Some (T, et) -> Forall (holds T) vs ->
  MutableTensorProtoData T (proto_with_shape T shape vs) = vs /\
  proto_field (proto_with_shape T shape vs) = vs /\
  elem_size (DataTypeToEnum T) <> None.
Proof.
  intros Hmap Hvs.
  destruct T; simpl in Hmap; try discriminate; simpl;
    repeat split; try discriminate; try reflexivity; apply bool_field_id; exact Hvs.
Qed.

Lemma const_node_attrs (nm : string) (T : CType) (shape vs : list Z) :
  attrs (const_node_with_shape nm T shape vs) !! "dtype" =
    Some (AttrType (DataTypeToEnum T)) /\
  attrs (const_node_with_shape nm T shape vs) !! "value" =
    Some (AttrTensor (proto_with_shape T shape vs)).
Proof.
  unfold const_node_with_shape. cbn [attrs]. split.
  - apply lookup_insert_eq.
  - rewrite lookup_insert_ne by discriminate. apply lookup_singleton_eq.
Qed.

(** A vector that lists all its values is decoded as it is, whatever its
    element type. *)
Lemma decode_listed_values (pf : Platform) (nm : string) (T : CType)
    (et : ElementType) (vs : list Z) :
  TF_NGRAPH_CONST_MAP (DataTypeToEnum T) = Some (T, et) -> Forall (holds T) vs ->
  ValuesFromConstNode pf T (const_node_with_shape nm T [Z.of_nat (length vs)] vs) =
    Ok ([Z.of_nat (length vs)], vs).
Proof.
  intros Hmap Hvs.
  destruct (field_of_values T et [Z.of_nat (length vs)] vs Hmap Hvs) as (Hfield & _ & _).
  destruct (const_node_attrs nm T [Z.of_nat (length vs)] vs) as [Hdt Hval].
  unfold ValuesFromConstNode, attr_at. rewrite Hdt, Hval.
  cbn [type_string const_node_with_shape obind attr_type attr_tensor].
  rewrite String.eqb_refl. cbn [negb].
  rewrite bool_decide_true by reflexivity. cbn [negb].
  rewrite Hfield.
  cbn [proto_with_shape has_tensor_shape tensor_shape tensor_content hd length].
  rewrite (bool_decide_true (1%nat = 1%nat)) by reflexivity.
  rewrite Z.eqb_refl.
  destruct vs as [|v vs'].
  - rewrite bool_decide_true by reflexivity. reflexivity.
  - rewrite bool_decide_false by discriminate. cbn [negb andb].
    rewrite (map_cast_id T _ Hvs). reflexivity.
Qed.

(** A constant without a byte buffer whose shape is not that of a vector
    of as many elements as it lists values goes through the fill loop. *)
Lemma decode_by_fill_loop (pf : Platform) (T : CType) (node : Node)
    (tensor : TensorProto) (n : Z) :
  type_string node = "Const" ->
  attrs node !! "dtype" = Some (AttrType (DataTypeToEnum T)) ->
  attrs node !! "value" = Some (AttrTensor tensor) ->
  tensor_content tensor = [] ->
  tensor_shape tensor <> [Z.of_nat (length (MutableTensorProtoData T tensor))] ->
  Forall (fun d => 0 <= d) (tensor_shape tensor) ->
  shape_size (tensor_shape tensor) = n -> 0 < n <= INT_MAX ->
  ValuesFromConstNode pf T node =
    obind (fill_loop pf T (DataTypeToEnum T) tensor (Z.to_nat n) 0
             (replicate (Z.to_nat n) 0) 0)
          (fun values => Ok (tensor_shape tensor, values)).
Proof.
  intros Hop Hdt Hval Hcontent Hshape Hdims Hn Hmax.
  unfold ValuesFromConstNode, attr_at. rewrite Hop, Hdt, Hval. simpl.
  rewrite bool_decide_true by reflexivity. simpl.
  rewrite Hcontent. simpl.
  set (vs := MutableTensorProtoData T tensor) in *.
  assert (Hgate :
    negb (bool_decide (vs = [])) && has_tensor_shape tensor &&
    bool_decide (length (tensor_shape tensor) = 1%nat) &&
    (hd 0 (tensor_shape tensor) =? Z.of_nat (length vs)) = false).
  { destruct (tensor_shape tensor) as [|d [|d' ds]] eqn:Hsh.
    - rewrite (bool_decide_false (length [] = 1%nat)) by (simpl; lia).
      rewrite andb_false_r. reflexivity.
    - cbn [hd]. destruct (Z.eqb_spec d (Z.of_nat (length vs))); [congruence|].
      apply andb_false_r.
    - rewrite (bool_decide_false (length (d :: d' :: ds) = 1%nat)) by (simpl; lia).
      rewrite andb_false_r. reflexivity. }
  rewrite Hgate.
  pose proof (dims_positive _ Hdims ltac:(lia)) as Hpos.
  rewrite (count_elements_exact _ Hpos 1) by (unfold INT_MAX in Hmax; lia).
  simpl. rewrite Z.mul_1_l. rewrite Hn.
  destruct (Z.ltb_spec n 0) as [?|_]; [lia|]. reflexivity.
Qed.

Lemma no_negative_dimension (shape : list Z) :
  Forall (fun d => 0 <= d) shape -> existsb (fun d => d <? 0) shape = false.
Proof.
  induction 1 as [|d ds Hd _ IH]; simpl; [reflexivity|].
  destruct (Z.ltb_spec d 0); [lia|exact IH].
Qed.

Lemma FromProto_listed_values (T : CType) (et : ElementType) (shape vs : list Z) :
  TF_NGRAPH_CONST_MAP (DataTypeToEnum T) = Some (T, et) -> Forall (holds T) vs ->
  Forall (fun d => 0 <= d) shape -> shape_size shape = Z.of_nat (length vs) ->
  FromProto (proto_with_shape T shape vs) =
    Some {| t_dtype := DataTypeToEnum T; t_shape := shape; t_data := vs |}.
Proof.
  intros Hmap Hvs Hdims Hsize.
  destruct (field_of_values T et shape vs Hmap Hvs) as (_ & Hfield & Hes).
  unfold FromProto. rewrite Hfield.
  cbn [proto_with_shape tp_dtype tensor_shape tensor_content].
  destruct (elem_size (DataTypeToEnum T)); [|contradiction].
  rewrite (no_negative_dimension shape Hdims). f_equal. f_equal. unfold fill_forward.
  change (fold_right Z.mul 1 shape) with (shape_size shape).
  rewrite Hsize, Nat2Z.id, firstn_all, Nat.sub_diag. simpl.
  apply app_nil_r.
Qed.

Lemma unimplemented_on_small_types (T : CType) (tensor : TensorProto) :
  T ∈ [c_int8; c_int16; c_uint8; c_uint16; c_qint8; c_quint8; c_quint16] ->
  typed_val (DataTypeToEnum T) tensor = None /\
  exists et, TF_NGRAPH_CONST_MAP (DataTypeToEnum T) = Some (T, et).
Proof.
  intros HT. repeat (apply elem_of_cons in HT as [->|HT]; [split; eauto|]).
  apply elem_of_nil in HT. contradiction.
Qed.


(** A scalar int8 constant, and an int8 constant of shape [2, 2], that
    list all their values: the resolver reads the values, and the handler
    of Const does not build the constant. *)
Lemma small_type_constant_not_decoded :
  TF_NGRAPH_CONST_MAP DT_INT8 = Some (c_int8, et_i8) /\
  GetStaticInputVector (convert ref_ext) {[ "k" := scalar_int8 ]} c_int8 fill_node 0 [] =
    Ok [7] /\
  ValuesFromConstNode (platform ref_ext) c_int8 scalar_int8 =
    Err UNIMPLEMENTED "Encountered unknown element type DT_INT8 on an empty tensor" /\
  TranslateConstOp ref_ext scalar_int8 empty_state =
    Err UNIMPLEMENTED "Encountered unknown element type DT_INT8 on an empty tensor" /\
  GetStaticInputVector (convert ref_ext) {[ "k" := square_int8 ]} c_int8 fill_node 0 [] =
    Ok [1; -2; 3; 4] /\
  ValuesFromConstNode (platform ref_ext) c_int8 square_int8 =
    Err UNIMPLEMENTED "Encountered unknown element type DT_INT8 on an empty tensor".
Proof. repeat split; vm_compute; reflexivity. Qed.


(** ** The driver: loops and stages *)

#[global] Arguments TRANSLATE_OP_MAP : simpl never.
#[global] Arguments translate_op : simpl never.
#[global] Arguments translate_param : simpl never.
#[global] Arguments translate_retval : simpl never.

Lemma for_each_app {A} (f : A -> M unit) (pre post : list A) (s : State) :
  for_each f (pre ++ post) s =
    match for_each f pre s with
    | Ok (_, s') => for_each f post s'
    | Err c msg => Err c msg
    | Throws w => Throws w
    | Crash w => Crash w
    end.
Proof.
  revert s. induction pre as [|x pre IH]; intros s; simpl; [reflexivity|].
  unfold bind. destruct (f x s) as [[[] s1]| | |]; auto.
Qed.

Lemma for_each_stops {A} (f : A -> M unit) (pre post : list A) (x : A) (s : State) :
  (forall s1, is_ok (f x s1) = false) ->
  is_ok (for_each f (pre ++ x :: post) s) = false.
Proof.
  intros Hx. rewrite for_each_app.
  destruct (for_each f pre s) as [[[] s1]| | |]; try reflexivity.
  simpl. unfold bind. specialize (Hx s1). destruct (f x s1); try reflexivity.
  discriminate.
Qed.

Lemma translate_op_unregistered (ext : Externals) (g : gmap string Node)
    (sim : list (option Tensor)) (op : Node) (s : State) :
  TRANSLATE_OP_MAP ext !! type_string op = None ->
  translate_op ext g sim op s = Err INVALID_ARGUMENT (no_handler_message ext op).
Proof. intros H. unfold translate_op. rewrite H. reflexivity. Qed.

(** ** The five-argument overload *)

(** C10. The overload of [TranslateGraph] without the result list and the
    input tensors runs the full translation and drops its status: it never
    returns a non-OK status, and when the inner call fails with any error
    it reports success all the same (leaving the function unset). *)
Theorem TranslateGraph5_reports_success (ext : Externals) (inputs : list (list Z))
    (sim : list (option Tensor)) (g : list Node) (nm : string) :
  (forall c msg, TranslateGraph5 ext inputs sim g nm <> Err c msg) /\
  (forall c msg, TranslateGraph ext inputs sim g nm [] = Err c msg ->
     TranslateGraph5 ext inputs sim g nm = Ok None) /\
  (forall t, TranslateGraph ext inputs sim g nm [] = Ok t ->
     TranslateGraph5 ext inputs sim g nm = Ok (Some t)).
Proof.
  unfold TranslateGraph5.
  destruct (TranslateGraph ext inputs sim g nm []) as [t|c msg|w|w];
    repeat split; intros; congruence.
Qed.

Lemma TranslateGraph5_reports_success_witness :
  TranslateGraph ref_ext [[2; 3]] [None] foo_graph "f" [] =
    Err INVALID_ARGUMENT (no_handler_message ref_ext (mk_node "foo" "Foo" [] [("x", 0%nat)]))
  /\ TranslateGraph5 ref_ext [[2; 3]] [None] foo_graph "f" = Ok None.
Proof.
  assert (H : TranslateGraph ref_ext [[2; 3]] [None] foo_graph "f" [] =
    Err INVALID_ARGUMENT
      (no_handler_message ref_ext (mk_node "foo" "Foo" [] [("x", 0%nat)])))
    by (vm_compute; reflexivity).
  split; [exact H|].
  exact (proj1 (proj2 (TranslateGraph5_reports_success ref_ext [[2; 3]] [None]
                         foo_graph "f")) _ _ H).
Defined.

(** ** An operator without a handler *)

Lemma split_ops_ok (ext : Externals) (ordered : list Node) :
  forall P R O P' R' O',
    split_ops ext ordered P R O = Ok (P', R', O') ->
    P' = P ++ List.filter is_param ordered /\
    R' = R ++ List.filter is_retval ordered /\
    O' = O ++ List.filter is_interior ordered.
Proof.
  induction ordered as [|n rest IH]; intros P R O P' R' O'; simpl.
  - intros [= <- <- <-]. rewrite !app_nil_r. auto.
  - unfold is_param, is_retval, is_interior.
    destruct (IsSink n || IsSource n); simpl; [apply IH|].
    destruct (IsControlFlow n); [discriminate|].
    destruct (IsArg n); simpl.
    { intros H. apply IH in H as (-> & -> & ->). rewrite <- app_assoc. auto. }
    destruct (IsRetval n); simpl.
    { intros H. apply IH in H as (-> & -> & ->). rewrite <- app_assoc. auto. }
    intros H. apply IH in H as (-> & -> & ->). rewrite <- app_assoc. auto.
Qed.

Lemma build_nodes_stops (ext : Externals) (inputs : list (list Z))
    (sim : list (option Tensor)) (g : gmap string Node) (tensors : list Tensor)
    (tf_params tf_ret_vals pre post : list Node) (op : Node) (s : State) :
  TRANSLATE_OP_MAP ext !! type_string op = None ->
  is_ok (build_nodes ext inputs sim g tensors tf_params tf_ret_vals
           (pre ++ op :: post) s) = false.
Proof.
  intros Hnone. unfold build_nodes.
  unfold bind at 1.
  destruct (fold_each _ tf_params _ s) as [[pl s1]| | |]; try reflexivity.
  unfold bind at 1.
  pose proof (for_each_stops (translate_op ext g sim) pre post op s1) as Hstop.
  destruct (for_each _ (pre ++ op :: post) s1) as [[[] s2]| | |]; try reflexivity.
  discriminate Hstop. intros s'.
  rewrite (translate_op_unregistered ext g sim op s' Hnone). reflexivity.
Qed.

(** C1 (as amended). An interior node that is visited and whose operator
    kind has no entry in the registry makes [TranslateGraph] fail: no
    translation is returned. When the translation reaches the node (the
    parameters and the operators before it were translated), the error is
    InvalidArgument, and its message gives the name and the kind of the
    node. *)
Theorem unregistered_operator_aborts (ext : Externals) (inputs : list (list Z))
    (sim : list (option Tensor)) (g : list Node) (nm : string)
    (tensors : list Tensor) (op : Node) :
  In op (GetReversePostOrder g) -> is_interior op = true ->
  TRANSLATE_OP_MAP ext !! type_string op = None ->
  (forall t, TranslateGraph ext inputs sim g nm tensors <> Ok t) /\
  (forall tf_params tf_ret_vals pre post plist s s',
     split_ops ext (GetReversePostOrder g) [] [] [] =
       Ok (tf_params, tf_ret_vals, pre ++ op :: post) ->
     fold_each (translate_param ext inputs tensors) tf_params
       (replicate (length tf_params) None) empty_state = Ok (plist, s) ->
     for_each (translate_op ext (index_of_graph g) sim) pre s = Ok (tt, s') ->
     TranslateGraph ext inputs sim g nm tensors =
       Err INVALID_ARGUMENT
         ("No translation handler registered for op: " +:+ name op +:+ " (" +:+
          type_string op +:+ ")" +:+ newline +:+ DebugString ext op)).
Proof.
  intros Hin Hint Hnone. split.
  - intros t. unfold TranslateGraph.
    destruct (split_ops ext (GetReversePostOrder g) [] [] [])
      as [[[P R] O]| | |] eqn:Hsplit; try discriminate.
    apply split_ops_ok in Hsplit as (_ & _ & ->). simpl.
    assert (Hop : In op (List.filter is_interior (GetReversePostOrder g))).
    { apply filter_In. auto. }
    apply in_split in Hop as (pre & post & ->).
    pose proof (build_nodes_stops ext inputs sim (index_of_graph g) tensors P R
                  pre post op empty_state Hnone) as Hstop.
    destruct (build_nodes _ _ _ _ _ _ _ _ _) as [[[pl rl] s]| | |];
      try discriminate.
  - intros P R pre post plist s s' Hsplit Hparams Hpre.
    unfold TranslateGraph. rewrite Hsplit. simpl.
    unfold build_nodes. unfold bind at 1. rewrite Hparams.
    unfold bind at 1. rewrite for_each_app, Hpre. cbn [for_each].
    unfold bind at 1.
    rewrite (translate_op_unregistered ext _ sim op s' Hnone). reflexivity.
Qed.

(** The registry has no entry for "Foo", and the translation of a graph
    with such an operator fails with InvalidArgument, not Unimplemented. *)
Lemma unregistered_operator_is_invalid_argument :
  is_interior (mk_node "foo" "Foo" [] [("x", 0%nat)]) = true /\
  In (mk_node "foo" "Foo" [] [("x", 0%nat)]) foo_graph /\
  TRANSLATE_OP_MAP ref_ext !! "Foo" = None /\
  TranslateGraph ref_ext [[2; 3]] [None] foo_graph "f" [] =
    Err INVALID_ARGUMENT
      ("No translation handler registered for op: foo (Foo)" +:+ newline +:+
       "{{node foo}} = Foo").
Proof.
  split; [reflexivity|]. split; [right; left; reflexivity|].
  split; vm_compute; reflexivity.
Qed.

Lemma unregistered_operator_aborts_witness :
  TranslateGraph ref_ext [[2; 3]] [None] foo_graph "f" [] =
    Err INVALID_ARGUMENT
      ("No translation handler registered for op: " +:+ "foo" +:+ " (" +:+
       "Foo" +:+ ")" +:+ newline +:+
       DebugString ref_ext (mk_node "foo" "Foo" [] [("x", 0%nat)])).
Proof.
  assert (Hin : In (mk_node "foo" "Foo" [] [("x", 0%nat)])
                  (GetReversePostOrder foo_graph)).
  { vm_compute. right. left. reflexivity. }
  assert (Hnone : TRANSLATE_OP_MAP ref_ext !!
                    type_string (mk_node "foo" "Foo" [] [("x", 0%nat)]) = None)
    by (vm_compute; reflexivity).
  destruct (unregistered_operator_aborts ref_ext [[2; 3]] [None] foo_graph "f" []
              _ Hin eq_refl Hnone) as [_ Hreached].
  eapply (Hreached _ _ [] []).
  - vm_compute. reflexivity.
  - vm_compute. reflexivity.
  - reflexivity.
Defined.

(** ** The formal result list *)

Lemma keeps_result_ok (h : list NgNode) (r : nat) (keep : bool) :
  keeps_result h r = Ok keep ->
  exists ps, shape_of h r = Some ps /\ keep = negb (zero_dimensional ps).
Proof.
  unfold keeps_result, node_is_dynamic, node_get_shape, shape_of, zero_dimensional.
  destruct (output_info h (r, 0%nat)) as [[et ps]|]; cbn [obind fmap option_fmap option_map snd];
    [|discriminate].
  intros H. exists ps. split; [reflexivity|].
  destruct (to_shape ps) as [sh|] eqn:E.
  - rewrite bool_decide_true in H by eauto. cbn [negb obind] in H.
    injection H as <-. reflexivity.
  - rewrite bool_decide_false in H by (intros [? ?]; discriminate).
    cbn [negb obind] in H. injection H as <-. reflexivity.
Qed.

Lemma filter_results_ok (h : list NgNode) (rl : list (option nat)) (kept : list nat) :
  filter_results h rl = Ok kept ->
  (forall slot, In slot rl -> exists r ps, slot = Some r /\ shape_of h r = Some ps) /\
  (forall r, In r kept <->
     In (Some r) rl /\ exists ps, shape_of h r = Some ps /\ zero_dimensional ps = false).
Proof.
  revert kept. induction rl as [|[r|] rl IH]; intros kept; simpl.
  - intros [= <-]. split; [intros ? []|]. intros r. simpl. tauto.
  - intros H. apply obind_ok in H as (keep & Hkeep & H).
    apply obind_ok in H as (kept' & Hrest & H). injection H as <-.
    apply keeps_result_ok in Hkeep as (ps & Hps & ->).
    destruct (IH kept' Hrest) as [Hslots Hkept]. split.
    + intros slot [<-|Hin]; [eauto|auto].
    + intros r'. destruct (zero_dimensional ps) eqn:Hz; simpl; rewrite Hkept.
      * split; [intros [? ?]; auto|].
        intros [[[= ->]|Hin] (ps' & Hps' & Hz')]; [|eauto].
        rewrite Hps in Hps'. congruence.
      * split.
        -- intros [<-|[Hin Hex]]; eauto.
        -- intros [[[= ->]|Hin] Hex]; auto.
  - discriminate.
Qed.

(** C3 (as amended). When [TranslateGraph] succeeds, every slot of the
    result list holds a result node. The function is assembled from the
    results whose shape is not zero-dimensional: a result whose shape is
    static, of rank at least one, with a dimension of size zero is left
    out of the formal result list (it stays in the result list of the
    caller), and every other result, a dynamically shaped one included,
    is in it. *)
Theorem formal_results_of_translation (ext : Externals) (inputs : list (list Z))
    (sim : list (option Tensor)) (g : list Node) (nm : string)
    (tensors : list Tensor) (t : Translation) :
  TranslateGraph ext inputs sim g nm tensors = Ok t ->
  exists (h : list NgNode) (formal_results formal_parameters : list nat),
    filter_results h (ng_result_list t) = Ok formal_results /\
    finish_function ext nm h formal_results formal_parameters =
      Ok (ng_function t, ng_nodes t) /\
    (forall slot, In slot (ng_result_list t) ->
       exists r ps, slot = Some r /\ shape_of h r = Some ps) /\
    (forall r ps, In (Some r) (ng_result_list t) -> shape_of h r = Some ps ->
       (zero_dimensional ps = true -> ~ In r formal_results) /\
       (zero_dimensional ps = false -> In r formal_results) /\
       (dynamically_shaped ps = true -> In r formal_results)).
Proof.
  unfold TranslateGraph. intros H.
  apply obind_ok in H as ([[P R] O] & _ & H).
  apply obind_ok in H as ([[pl rl] s] & _ & H).
  apply obind_ok in H as (params & _ & H).
  apply obind_ok in H as (results & Hres & H).
  apply obind_ok in H as ([f nodes] & Hfin & H). injection H as <-.
  exists (heap s), results, params. cbn [ng_result_list ng_function ng_nodes fst snd].
  destruct (filter_results_ok _ _ _ Hres) as [Hslots Hkept].
  repeat split; auto.
  - intros Hz Hin. apply Hkept in Hin as (_ & ps' & Hps' & Hz'). congruence.
  - intros Hz. apply Hkept. eauto.
  - intros Hdyn. apply Hkept. split; [assumption|]. exists ps. split; [assumption|].
    unfold dynamically_shaped in Hdyn. unfold zero_dimensional.
    destruct (to_shape ps); [|reflexivity].
    rewrite bool_decide_true in Hdyn by eauto. discriminate.
Qed.

(** The result of [where_graph] is dynamically shaped and it is a formal
    result of the function. *)
Lemma dynamic_result_is_formal :
  exists t,
    TranslateGraph ref_ext [[2; 3]] [None] where_graph "f" [] = Ok t /\
    ng_result_list t = [Some 4%nat] /\
    shape_of (ng_nodes t) 4 = Some (Some [DimDynamic; DimStatic 2]) /\
    dynamically_shaped (Some [DimDynamic; DimStatic 2]) = true /\
    f_results (ng_function t) = [4%nat].
Proof.
  eexists. split; [vm_compute; reflexivity|].
  repeat split.
Qed.

Lemma formal_results_of_translation_witness :
  exists t,
    TranslateGraph ref_ext [[0; 3]] [None] zero_dim_graph "f" [] = Ok t /\
    exists (h : list NgNode) (formal_results formal_parameters : list nat),
      filter_results h (ng_result_list t) = Ok formal_results /\
      finish_function ref_ext "f" h formal_results formal_parameters =
        Ok (ng_function t, ng_nodes t) /\
      (forall slot, In slot (ng_result_list t) ->
         exists r ps, slot = Some r /\ shape_of h r = Some ps) /\
      (forall r ps, In (Some r) (ng_result_list t) -> shape_of h r = Some ps ->
         (zero_dimensional ps = true -> ~ In r formal_results) /\
         (zero_dimensional ps = false -> In r formal_results) /\
         (dynamically_shaped ps = true -> In r formal_results)).
Proof.
  eexists. split.
  - vm_compute. reflexivity.
  - apply (formal_results_of_translation ref_ext [[0; 3]] [None] zero_dim_graph "f" []).
    vm_compute. reflexivity.
Defined.

(** ** The formal parameter list *)

Lemma to_shape_of_shape (sh : list Z) : to_shape (of_shape sh) = Some sh.
Proof.
  unfold to_shape, of_shape. induction sh as [|d sh IH]; [reflexivity|].
  simpl in *. rewrite IH. reflexivity.
Qed.

Lemma zero_dimensional_of_shape (sh : list Z) :
  zero_dimensional (of_shape sh) = ng_shape_check sh.
Proof. unfold zero_dimensional. rewrite to_shape_of_shape. reflexivity. Qed.

Lemma shape_size_zero (sh : list Z) :
  existsb (fun d => d =? 0) sh = true -> shape_size sh = 0.
Proof.
  induction sh as [|d sh IH]; simpl; [discriminate|].
  destruct (Z.eqb_spec d 0) as [->|_]; simpl; [reflexivity|].
  intros H. rewrite (IH H). lia.
Qed.

Lemma filter_parameters_ok (h : list NgNode) (pl : list (option nat))
    (kept : list nat) :
  filter_parameters h pl = Ok kept ->
  forall p, In p kept <->
    In (Some p) pl /\ exists ps, shape_of h p = Some ps /\ zero_dimensional ps = false.
Proof.
  revert kept. induction pl as [|[q|] pl IH]; intros kept; simpl.
  - intros [= <-] p. simpl. tauto.
  - intros H. apply obind_ok in H as (sh & Hsh & H).
    apply obind_ok in H as (kept' & Hrest & H). injection H as <-.
    assert (Hq : exists ps, shape_of h q = Some ps /\ to_shape ps = Some sh).
    { unfold node_get_shape in Hsh. unfold shape_of.
      destruct (output_info h (q, 0%nat)) as [[et ps]|]; [|discriminate].
      exists ps. split; [reflexivity|].
      destruct (to_shape ps); [congruence|discriminate]. }
    destruct Hq as (ps & Hps & Hto).
    assert (Hz : zero_dimensional ps = (0 <? length sh)%nat && dim_check sh).
    { unfold zero_dimensional. rewrite Hto. reflexivity. }
    rewrite <- Hz. intros p. specialize (IH kept' Hrest p).
    destruct (zero_dimensional ps) eqn:Hzd; simpl; rewrite IH.
    + split; [intros [? ?]; auto|].
      intros [[[= ->]|Hin] (ps' & Hps' & Hz')]; [|eauto].
      rewrite Hps in Hps'. congruence.
    + split.
      * intros [<-|[Hin Hex]]; eauto.
      * intros [[[= ->]|Hin] Hex]; auto.
  - discriminate.
Qed.

(** ** Provenance tags *)




(** ** The order of visit does not depend on the order of the node list *)

Lemma leb_le (a b : string) :
  String.leb a b = true <-> a = b \/ String_as_OT.lt a b.
Proof.
  unfold String.leb. destruct (String.compare a b) eqn:E.
  - apply String_as_OT.cmp_eq in E. tauto.
  - apply String_as_OT.cmp_lt in E. tauto.
  - split; [discriminate|]. intros [->|Hlt].
    + assert (String.compare b b = Eq) by (apply String_as_OT.cmp_eq; reflexivity).
      congruence.
    + apply String_as_OT.cmp_lt in Hlt. unfold String_as_OT.cmp in Hlt. congruence.
Qed.

Lemma leb_trans (a b c : string) :
  String.leb a b = true -> String.leb b c = true -> String.leb a c = true.
Proof.
  rewrite !leb_le. intros [->|Hab] [->|Hbc]; auto.
  right. eapply String_as_OT.lt_trans; eassumption.
Qed.

Lemma insert_by_name_perm (n : Node) (l : list Node) :
  Permutation (insert_by_name n l) (n :: l).
Proof.
  induction l as [|m l IH]; simpl; [reflexivity|].
  destruct (String.leb (name n) (name m)); [reflexivity|].
  rewrite IH. apply perm_swap.
Qed.

Lemma sort_by_name_perm (l : list Node) : Permutation (sort_by_name l) l.
Proof.
  induction l as [|n l IH]; simpl; [reflexivity|].
  rewrite insert_by_name_perm. apply perm_skip. exact IH.
Qed.

Lemma insert_by_name_sorted (n : Node) (l : list Node) :
  StronglySorted name_le l -> StronglySorted name_le (insert_by_name n l).
Proof.
  induction 1 as [|m l Hl IH Hm]; simpl.
  - repeat constructor.
  - destruct (String.leb (name n) (name m)) eqn:E.
    + constructor; [constructor; assumption|].
      constructor; [exact E|].
      eapply Forall_impl; [exact Hm|].
      intros k Hk. eapply leb_trans; [exact E|exact Hk].
    + constructor; [exact IH|].
      apply Forall_forall. intros k Hk.
      rewrite insert_by_name_perm in Hk. apply elem_of_cons in Hk as [->|Hk].
      * destruct (String.leb_total (name n) (name m)) as [H|H]; [congruence|exact H].
      * rewrite Forall_forall in Hm. apply Hm. exact Hk.
Qed.

Lemma sort_by_name_sorted (l : list Node) : StronglySorted name_le (sort_by_name l).
Proof.
  induction l as [|n l IH]; simpl; [constructor|].
  apply insert_by_name_sorted. exact IH.
Qed.

Lemma same_name_same_node (l : list Node) (a b : Node) :
  NoDup (map name l) -> In a l -> In b l -> name a = name b -> a = b.
Proof.
  induction l as [|m l IH]; simpl; [intros _ []|].
  intros Hnd [->|Ha] [->|Hb] Hname; auto.
  - apply NoDup_cons in Hnd as [Hm _]. exfalso. apply Hm.
    rewrite Hname. apply list_elem_of_In. apply in_map. exact Hb.
  - apply NoDup_cons in Hnd as [Hm _]. exfalso. apply Hm.
    rewrite <- Hname. apply list_elem_of_In. apply in_map. exact Ha.
  - apply NoDup_cons in Hnd as [_ Hnd]. auto.
Qed.

Lemma sort_by_name_canonical (g1 g2 : list Node) :
  NoDup (map name g1) -> Permutation g1 g2 -> sort_by_name g1 = sort_by_name g2.
Proof.
  intros Hnd Hperm.
  apply (StronglySorted_unique_strong name_le).
  - intros a b Ha Hb Hab Hba.
    apply (same_name_same_node g1); auto.
    + apply list_elem_of_In in Ha.
      eapply Permutation_in; [apply sort_by_name_perm|exact Ha].
    + apply list_elem_of_In in Hb.
      eapply Permutation_in; [symmetry; exact Hperm|].
      eapply Permutation_in; [apply sort_by_name_perm|exact Hb].
    + apply String.leb_antisym; assumption.
  - apply sort_by_name_sorted.
  - apply sort_by_name_sorted.
  - rewrite !sort_by_name_perm. exact Hperm.
Qed.

Lemma GetReversePostOrder_canonical (g1 g2 : list Node) :
  NoDup (map name g1) -> Permutation g1 g2 ->
  GetReversePostOrder g1 = GetReversePostOrder g2.
Proof.
  intros Hnd Hperm. unfold GetReversePostOrder.
  rewrite (sort_by_name_canonical g1 g2 Hnd Hperm).
  rewrite (Permutation_length Hperm). reflexivity.
Qed.

Lemma index_of_graph_canonical (g1 g2 : list Node) :
  NoDup (map name g1) -> Permutation g1 g2 -> index_of_graph g1 = index_of_graph g2.
Proof.
  intros Hnd Hperm. unfold index_of_graph. apply list_to_map_proper.
  - rewrite <- list_fmap_compose. exact Hnd.
  - apply Permutation_map. exact Hperm.
Qed.

(** Every node of the order has its producers before it. *)
Lemma take_ready_spec (emitted : list string) (pending rest : list Node) (n : Node) :
  take_ready emitted pending = Some (n, rest) ->
  ready emitted n = true /\ Permutation pending (n :: rest) /\
  exists before,
    pending = before ++ n :: drop (S (length before)) pending /\
    rest = before ++ drop (S (length before)) pending /\
    Forall (fun m => ready emitted m = false) before.
Proof.
  revert rest. induction pending as [|m pending IH]; intros rest; simpl; [discriminate|].
  destruct (ready emitted m) eqn:E.
  - intros [= -> <-]. split; [exact E|]. split; [reflexivity|].
    exists []. simpl. rewrite drop_0. auto.
  - destruct (take_ready emitted pending) as [[k rest']|]; [|discriminate].
    intros [= -> <-]. destruct (IH rest' eq_refl) as (Hr & Hp & before & H1 & H2 & H3).
    split; [exact Hr|]. split.
    + rewrite Hp. apply perm_swap.
    + exists (m :: before). simpl. rewrite <- H1, <- H2. auto.
Qed.

Lemma topological_order (fuel : nat) (emitted : list string) (pending : list Node) :
  forall i n, topological fuel emitted pending !! i = Some n ->
    forall src k, In (src, k) (in_edges n) ->
      In src emitted \/
      exists j m, (j < i)%nat /\ topological fuel emitted pending !! j = Some m /\
                  name m = src.
Proof.
  revert emitted pending. induction fuel as [|fuel IH]; intros emitted pending i n;
    simpl; [intros H; discriminate|].
  destruct (take_ready emitted pending) as [[m rest]|] eqn:E; [|intros H; discriminate].
  apply take_ready_spec in E as (Hready & _).
  destruct i as [|i]; simpl.
  - intros [= <-] src k Hin. left.
    unfold ready in Hready. rewrite forallb_forall in Hready.
    specialize (Hready _ Hin). apply existsb_exists in Hready as (x & Hx & Heq).
    apply String.eqb_eq in Heq. simpl in Heq. subst. exact Hx.
  - intros Hn src k Hin.
    destruct (IH _ _ _ _ Hn src k Hin) as [[<-|Hem]|(j & m' & Hj & Hm' & Hname)].
    + right. exists 0%nat, m. repeat split. lia.
    + left. exact Hem.
    + right. exists (S j), m'. repeat split; [lia|exact Hm'|exact Hname].
Qed.

(** Among the pending nodes, taken in the order of their names, the node
    visited next is the first that is ready: every node before it is not
    ready, so ties between ready nodes go to the least name. *)
Lemma ties_broken_by_name (emitted : list string) (g rest : list Node) (n : Node) :
  take_ready emitted (sort_by_name g) = Some (n, rest) ->
  forall m, In m rest -> ready emitted m = true -> name_le n m.
Proof.
  intros Htake m Hm Hready.
  pose proof (sort_by_name_sorted g) as Hsorted.
  apply take_ready_spec in Htake as (_ & _ & before & Hpend & Hrest & Hbefore).
  rewrite Hpend in Hsorted. apply StronglySorted_app_1_r in Hsorted.
  apply StronglySorted_inv in Hsorted as [_ Hall].
  rewrite Hrest in Hm. apply in_app_or in Hm as [Hm|Hm].
  - rewrite Forall_forall in Hbefore. apply list_elem_of_In in Hm.
    rewrite (Hbefore _ Hm) in Hready. discriminate.
  - rewrite Forall_forall in Hall. apply Hall. apply list_elem_of_In. exact Hm.
Qed.

(** C5. [TranslateGraph] does not depend on the order in which the node
    list holds the nodes: two graphs with the same uniquely named nodes,
    listed in different orders, are translated to the same outcome, with
    the same function and the same target nodes. The nodes are visited in
    an order that depends on the set of nodes alone; in that order every
    node comes after its producers. *)
Theorem TranslateGraph_order_independent (ext : Externals) (inputs : list (list Z))
    (sim : list (option Tensor)) (g1 g2 : list Node) (nm : string)
    (tensors : list Tensor) :
  NoDup (map name g1) -> Permutation g1 g2 ->
  GetReversePostOrder g1 = GetReversePostOrder g2 /\
  (forall i n, GetReversePostOrder g1 !! i = Some n ->
     forall src k, In (src, k) (in_edges n) ->
       exists j m, (j < i)%nat /\ GetReversePostOrder g1 !! j = Some m /\ name m = src) /\
  TranslateGraph ext inputs sim g1 nm tensors =
    TranslateGraph ext inputs sim g2 nm tensors.
Proof.
  intros Hnd Hperm.
  pose proof (GetReversePostOrder_canonical g1 g2 Hnd Hperm) as Horder.
  split; [exact Horder|]. split.
  - intros i n Hn src k Hin. unfold GetReversePostOrder in *.
    destruct (topological_order _ _ _ i n Hn src k Hin) as [[]|H]. exact H.
  - unfold TranslateGraph. rewrite Horder.
    rewrite (index_of_graph_canonical g1 g2 Hnd Hperm). reflexivity.
Qed.

Lemma TranslateGraph_order_independent_witness :
  TranslateGraph ref_ext [[2; 3]] [None] siblings_graph "f" [] =
    TranslateGraph ref_ext [[2; 3]] [None] siblings_graph_swapped "f" [] /\
  map name (GetReversePostOrder siblings_graph_swapped) = ["x"; "a"; "b"; "s"; "r"].
Proof.
  assert (Hnd : NoDup (map name siblings_graph)).
  { apply NoDup_ListNoDup. repeat constructor; simpl; intuition discriminate. }
  assert (Hperm : Permutation siblings_graph siblings_graph_swapped).
  { apply perm_skip. apply perm_swap. }
  destruct (TranslateGraph_order_independent ref_ext [[2; 3]] [None] siblings_graph
              siblings_graph_swapped "f" [] Hnd Hperm) as (_ & _ & Heq).
  split; [exact Heq|]. vm_compute. reflexivity.
Defined.

(** ** The error statuses of the fused handlers *)

Section ErrorKinds.

Variable codes : list Code.
Hypothesis has_invalid_argument : INVALID_ARGUMENT ∈ codes.
Hypothesis has_not_found : NOT_FOUND ∈ codes.

Lemma errors_within_bind {A B} (m : M A) (f : A -> M B) :
  errors_within codes m -> (forall a, errors_within codes (f a)) ->
  errors_within codes (bind m f).
Proof.
  intros Hm Hf s c msg. unfold bind.
  destruct (m s) as [[a s1]|c' msg'| |] eqn:E; intros H; try discriminate.
  - eapply Hf; eauto.
  - injection H as <- <-. eapply Hm; eauto.
Qed.

Lemma errors_within_ret {A} (a : A) : errors_within codes (ret a).
Proof. intros s c msg H. discriminate. Qed.

Lemma errors_within_crash {A} (why : string) : errors_within codes (@crash A why).
Proof. intros s c msg H. discriminate. Qed.

Lemma errors_within_fail {A} (c : Code) (msg : string) :
  c ∈ codes -> errors_within codes (@fail A c msg).
Proof. intros Hc s c' msg' [= <- <-]. exact Hc. Qed.

Lemma errors_within_lift {A} (x : Outcome A) :
  status_within codes x -> errors_within codes (lift x).
Proof.
  intros Hx s c msg. unfold lift. destruct x; intros H; try discriminate.
  injection H as <- <-. eapply Hx. reflexivity.
Qed.

Ltac attr_status :=
  intros c msg;
  unfold GetNodeAttr_int, GetNodeAttr_strings, GetNodeAttr_string,
    GetNodeAttr_bool, GetNodeAttr_float, GetNodeAttr_ints, GetNodeAttr_type,
    attr_missing, attr_mismatch;
  match goal with |- context [attrs ?op !! ?key] =>
    destruct (attrs op !! key) as [[]|] end;
  repeat match goal with |- context [if ?b then _ else _] => destruct b end;
  intros [= <- <-]; assumption.

Lemma status_within_attr_int (op : Node) (key : string) :
  status_within codes (GetNodeAttr_int op key).
Proof. attr_status. Qed.

Lemma status_within_attr_strings (op : Node) (key : string) :
  status_within codes (GetNodeAttr_strings op key).
Proof. attr_status. Qed.

Lemma status_within_attr_string (op : Node) (key : string) :
  status_within codes (GetNodeAttr_string op key).
Proof. attr_status. Qed.

Lemma status_within_attr_bool (op : Node) (key : string) :
  status_within codes (GetNodeAttr_bool op key).
Proof. attr_status. Qed.

Lemma status_within_attr_float (op : Node) (key : string) :
  status_within codes (GetNodeAttr_float op key).
Proof. attr_status. Qed.

Lemma status_within_attr_ints (op : Node) (key : string) :
  status_within codes (GetNodeAttr_ints op key).
Proof. attr_status. Qed.

Lemma errors_within_ValidateInputCount (op : Node) (count : Z) :
  errors_within codes (lift (ValidateInputCount op count)).
Proof.
  apply errors_within_lift. intros c msg. unfold ValidateInputCount.
  destruct (negb _); intros [= <- <-]. assumption.
Qed.

Lemma errors_within_GetInputNode (op : Node) (i : nat) :
  errors_within codes (GetInputNode op i).
Proof.
  intros s c msg. unfold GetInputNode.
  destruct (in_edges op !! i) as [[src k]|]; [|intros [= <- <-]; assumption].
  destruct (ng_op_map s !! src) as [outs|]; [|intros [= <- <-]; assumption].
  destruct (outs !! k); [discriminate|intros [= <- <-]; assumption].
Qed.

Lemma errors_within_make_shared (ext : Externals) (ty : string) (args : list NgArg)
    (ins : list Output) :
  errors_within codes (make_shared ext ty args ins).
Proof.
  intros s c msg. unfold make_shared.
  destruct (validate_and_infer_types ext (heap s) ty args ins); discriminate.
Qed.

Lemma errors_within_SetTracingInfo (tag : string) (o : Output) :
  errors_within codes (SetTracingInfo tag o).
Proof.
  intros s c msg. unfold SetTracingInfo. destruct (heap s !! o.1); discriminate.
Qed.

Lemma errors_within_SaveNgOp (nm : string) (o : Output) :
  errors_within codes (SaveNgOp nm o).
Proof. intros s c msg. discriminate. Qed.

Lemma errors_within_get_shape (o : Output) : errors_within codes (get_shape o).
Proof.
  intros s c msg. unfold get_shape.
  destruct (output_info (heap s) o) as [[et ps]|]; [|discriminate].
  destruct (to_shape ps); discriminate.
Qed.

Lemma errors_within_on_heap {A} (f : list NgNode -> option (A * list NgNode)) :
  errors_within codes (on_heap f).
Proof.
  intros s c msg. unfold on_heap. destruct (f (heap s)) as [[a h]|]; discriminate.
Qed.

Lemma errors_within_pure_helper {A} (x : option A) :
  errors_within codes (pure_helper x).
Proof. intros s c msg. unfold pure_helper. destruct x; discriminate. Qed.

End ErrorKinds.

(** The steps of a computation, one after the other: binds, branches and
    the primitives above. What is left is what the codes do not cover. *)
Ltac known_step := fail.

Ltac error_kinds :=
  repeat first
    [ progress intros
    | known_step
    | progress cbv beta zeta
    | apply errors_within_bind
    | apply errors_within_ret
    | apply errors_within_crash
    | apply errors_within_SaveNgOp
    | apply errors_within_get_shape
    | apply errors_within_on_heap
    | apply errors_within_pure_helper
    | apply errors_within_SetTracingInfo
    | apply errors_within_make_shared
    | solve [apply errors_within_GetInputNode; assumption]
    | solve [apply errors_within_ValidateInputCount; assumption]
    | solve [apply errors_within_fail; assumption]
    | solve [apply errors_within_lift;
             first [apply status_within_attr_int | apply status_within_attr_strings
                   | apply status_within_attr_string | apply status_within_attr_bool
                   | apply status_within_attr_float | apply status_within_attr_ints];
             assumption]
    | match goal with
      | |- errors_within _ (if ?b then _ else _) => destruct b
      | |- errors_within _ (match ?x with _ => _ end) => destruct x
      end ].

Lemma errors_within_ConstructNgNode (codes : list Code) (ext : Externals)
    (tag ty : string) (args : list NgArg) (ins : list Output) :
  errors_within codes (ConstructNgNode ext tag ty args ins).
Proof. unfold ConstructNgNode. error_kinds. Qed.

Ltac known_step ::= apply errors_within_ConstructNgNode.

Section FusedErrorKinds.

Variable codes : list Code.
Hypothesis has_invalid_argument : INVALID_ARGUMENT ∈ codes.
Hypothesis has_not_found : NOT_FOUND ∈ codes.
Variable ext : Externals.

Lemma errors_within_GetInputNodes3 (op : Node) :
  errors_within codes (GetInputNodes3 op).
Proof. unfold GetInputNodes3. error_kinds. Qed.

Lemma errors_within_GetInputNodes4 (op : Node) :
  errors_within codes (GetInputNodes4 op).
Proof. unfold GetInputNodes4. error_kinds. Qed.

Lemma errors_within_GetInputNodes6 (op : Node) :
  errors_within codes (GetInputNodes6 op).
Proof. unfold GetInputNodes6. error_kinds. Qed.

Lemma errors_within_CreateNgConv (op : Node) (fmt : string) (is_nhwc : bool)
    (ng_input ng_filter : Output) :
  errors_within codes (CreateNgConv ext op fmt is_nhwc ng_input ng_filter).
Proof. unfold CreateNgConv. error_kinds. Qed.

Lemma errors_within_CreateNgDepthwiseConv (op : Node) (ng_input ng_filter : Output) :
  errors_within codes (CreateNgDepthwiseConv ext op ng_input ng_filter).
Proof. unfold CreateNgDepthwiseConv. error_kinds. Qed.

Lemma errors_within_reshape_bias_and_add (op : Node) (add_name : string)
    (ng_conv ng_bias : Output) :
  errors_within codes (reshape_bias_and_add ext op add_name ng_conv ng_bias).
Proof. unfold reshape_bias_and_add. error_kinds. Qed.

Lemma errors_within_leaky_relu (op : Node) (max_name : string) (x : Output) :
  errors_within codes (leaky_relu ext op max_name x).
Proof. unfold leaky_relu. error_kinds. Qed.

End FusedErrorKinds.

Ltac known_step ::=
  first [ apply errors_within_ConstructNgNode
        | solve [apply errors_within_GetInputNodes3; assumption]
        | solve [apply errors_within_GetInputNodes4; assumption]
        | solve [apply errors_within_GetInputNodes6; assumption]
        | solve [apply errors_within_CreateNgConv; assumption]
        | solve [apply errors_within_CreateNgDepthwiseConv; assumption]
        | solve [apply errors_within_reshape_bias_and_add; assumption]
        | solve [apply errors_within_leaky_relu; assumption] ].

Lemma not_allow_listed (allowed : list (list string)) (fused_ops x : list string) :
  fused_ops ∉ allowed -> x ∈ allowed -> VecStrCmp fused_ops x = false.
Proof.
  intros Hnot Hx. unfold VecStrCmp. apply bool_decide_false. intros ->. auto.
Qed.

Lemma FusedConv2D_unlisted (ext : Externals) (op : Node) (s : State) (num_args : Z)
    (fused_ops : list string) (fmt : string) :
  GetNodeAttr_int op "num_args" = Ok num_args ->
  GetNodeAttr_strings op "fused_ops" = Ok fused_ops ->
  GetNodeAttr_string op "data_format" = Ok fmt ->
  fused_ops ∉ FusedConv2D_allow_list ->
  TranslateFusedConv2DOp ext op s =
    Err UNIMPLEMENTED ("Unsupported _FusedConv2D " +:+ StrJoin fused_ops ",").
Proof.
  intros Hn Hf Hd Hnot. unfold TranslateFusedConv2DOp.
  unfold bind at 1. unfold lift at 1. rewrite Hn.
  unfold bind at 1. unfold lift at 1. rewrite Hf.
  unfold bind at 1. unfold lift at 1. rewrite Hd.
  cbv zeta.
  rewrite !(not_allow_listed FusedConv2D_allow_list fused_ops)
    by (assumption || listed).
  reflexivity.
Qed.

Lemma FusedDepthwise_unlisted (ext : Externals) (op : Node) (s : State) (num_args : Z)
    (fused_ops : list string) (fmt : string) :
  GetNodeAttr_int op "num_args" = Ok num_args ->
  GetNodeAttr_strings op "fused_ops" = Ok fused_ops ->
  GetNodeAttr_string op "data_format" = Ok fmt ->
  fused_ops ∉ FusedDepthwiseConv2dNative_allow_list ->
  TranslateFusedDepthwiseConv2dNativeOp ext op s =
    Err UNIMPLEMENTED
      ("Unsupported _FusedDepthwiseConv2dNative " +:+ StrJoin fused_ops ",").
Proof.
  intros Hn Hf Hd Hnot. unfold TranslateFusedDepthwiseConv2dNativeOp.
  unfold bind at 1. unfold lift at 1. rewrite Hn.
  unfold bind at 1. unfold lift at 1. rewrite Hf.
  unfold bind at 1. unfold lift at 1. rewrite Hd.
  cbv zeta.
  rewrite !(not_allow_listed FusedDepthwiseConv2dNative_allow_list fused_ops)
    by (assumption || listed).
  reflexivity.
Qed.

Lemma errors_within_with_input2 {A} (codes : list Code) (x : option Output)
    (k : Output -> M A) :
  (forall o, errors_within codes (k o)) -> errors_within codes (with_input2 x k).
Proof.
  intros Hk. unfold with_input2. destruct x; [apply Hk|apply errors_within_crash].
Qed.

Lemma errors_within_bind_lift {A B} (codes : list Code) (x : Outcome A)
    (f : A -> M B) :
  status_within codes x -> (forall a, x = Ok a -> errors_within codes (f a)) ->
  errors_within codes (bind (lift x) f).
Proof.
  intros Hx Hf s c msg. unfold bind, lift.
  destruct x as [a|c' msg'| |]; intros H; try discriminate.
  - eapply Hf; eauto.
  - injection H as <- <-. eapply Hx. reflexivity.
Qed.

Ltac known_step ::=
  first [ apply errors_within_ConstructNgNode
        | apply errors_within_with_input2
        | solve [apply errors_within_GetInputNodes3; assumption]
        | solve [apply errors_within_GetInputNodes4; assumption]
        | solve [apply errors_within_GetInputNodes6; assumption]
        | solve [apply errors_within_CreateNgConv; assumption]
        | solve [apply errors_within_CreateNgDepthwiseConv; assumption]
        | solve [apply errors_within_reshape_bias_and_add; assumption]
        | solve [apply errors_within_leaky_relu; assumption] ].

Lemma FusedConv2D_listed_errors (ext : Externals) (op : Node) :
  (forall fused_ops, GetNodeAttr_strings op "fused_ops" = Ok fused_ops ->
     fused_ops ∈ FusedConv2D_allow_list) ->
  errors_within [INVALID_ARGUMENT; NOT_FOUND] (TranslateFusedConv2DOp ext op).
Proof.
  intros Hlisted.
  assert (Hia : INVALID_ARGUMENT ∈ [INVALID_ARGUMENT; NOT_FOUND]) by listed.
  assert (Hnf : NOT_FOUND ∈ [INVALID_ARGUMENT; NOT_FOUND]) by listed.
  unfold TranslateFusedConv2DOp.
  apply errors_within_bind; [error_kinds|]. intros num_args.
  apply errors_within_bind_lift; [apply status_within_attr_strings; assumption|].
  intros fused_ops Hfused. apply Hlisted in Hfused.
  unfold FusedConv2D_allow_list in Hfused.
  repeat (apply elem_of_cons in Hfused as [->|Hfused]);
    [..|apply elem_of_nil in Hfused; contradiction];
    apply errors_within_bind; try solve [error_kinds]; intros fmt; cbv zeta;
    compare_names; error_kinds.
Qed.

Lemma FusedDepthwise_listed_errors (ext : Externals) (op : Node) :
  (forall fused_ops, GetNodeAttr_strings op "fused_ops" = Ok fused_ops ->
     fused_ops ∈ FusedDepthwiseConv2dNative_allow_list) ->
  errors_within [INVALID_ARGUMENT; NOT_FOUND]
    (TranslateFusedDepthwiseConv2dNativeOp ext op).
Proof.
  intros Hlisted.
  assert (Hia : INVALID_ARGUMENT ∈ [INVALID_ARGUMENT; NOT_FOUND]) by listed.
  assert (Hnf : NOT_FOUND ∈ [INVALID_ARGUMENT; NOT_FOUND]) by listed.
  unfold TranslateFusedDepthwiseConv2dNativeOp.
  apply errors_within_bind; [error_kinds|]. intros num_args.
  apply errors_within_bind_lift; [apply status_within_attr_strings; assumption|].
  intros fused_ops Hfused. apply Hlisted in Hfused.
  unfold FusedDepthwiseConv2dNative_allow_list in Hfused.
  repeat (apply elem_of_cons in Hfused as [->|Hfused]);
    [..|apply elem_of_nil in Hfused; contradiction];
    apply errors_within_bind; try solve [error_kinds]; intros fmt; cbv zeta;
    compare_names; error_kinds.
Qed.

Lemma FusedMatMul_errors (ext : Externals) (op : Node) :
  errors_within [INVALID_ARGUMENT; NOT_FOUND; INTERNAL] (TranslateFusedMatMulOp ext op).
Proof.
  assert (Hia : INVALID_ARGUMENT ∈ [INVALID_ARGUMENT; NOT_FOUND; INTERNAL]) by listed.
  assert (Hnf : NOT_FOUND ∈ [INVALID_ARGUMENT; NOT_FOUND; INTERNAL]) by listed.
  assert (Hin : INTERNAL ∈ [INVALID_ARGUMENT; NOT_FOUND; INTERNAL]) by listed.
  unfold TranslateFusedMatMulOp. error_kinds.
Qed.

(** ** The fused matrix product after its bias is added *)

Lemma output_info_app (h extra : list NgNode) (o : Output)
    (i : ElementType * PartialShape) :
  output_info h o = Some i -> output_info (h ++ extra) o = Some i.
Proof.
  unfold output_info. destruct (h !! o.1) as [node|] eqn:E; [|discriminate].
  rewrite (lookup_app_l_Some _ _ _ _ E). auto.
Qed.

Lemma output_info_new (h : list NgNode) (node : NgNode)
    (i : ElementType * PartialShape) :
  ng_outputs node !! 0%nat = Some i ->
  output_info (h ++ [node]) (length h, 0%nat) = Some i.
Proof.
  intros H. unfold output_info. cbn [fst snd].
  rewrite lookup_app_r by lia. rewrite Nat.sub_diag. exact H.
Qed.

Lemma get_shape_ok (o : Output) (s : State) (et : ElementType) (sh : list Z) :
  output_info (heap s) o = Some (et, of_shape sh) -> get_shape o s = Ok (sh, s).
Proof.
  intros H. unfold get_shape. rewrite H, to_shape_of_shape. reflexivity.
Qed.

Section FusedMatMul.

Variables (ext : Externals) (op : Node) (s : State) (num_args : Z).
Variables (fused_ops : list string) (ta tb : bool) (lhs rhs bias : Output).
Variables (et etb : ElementType) (msh : list Z) (n : Z).
Variable outs_add : list (ElementType * PartialShape).

Let matmul : NgNode :=
  with_tracing_info (name op) (length (heap s))
    (new_node "MatMul" [ArgBool ta; ArgBool tb] [lhs; rhs] [(et, of_shape msh)]).
Let ng_matmul : Output := (length (heap s), 0%nat).
Let add : NgNode :=
  with_tracing_info (name op) (S (length (heap s)))
    (new_node "Add" [] [ng_matmul; bias] outs_add).
Let ng_add : Output := (S (length (heap s)), 0%nat).
Let s2 : State := {| heap := heap s ++ [matmul; add]; ng_op_map := ng_op_map s |}.

Hypothesis Hnum_args : GetNodeAttr_int op "num_args" = Ok num_args.
Hypothesis Hfused_ops : GetNodeAttr_strings op "fused_ops" = Ok fused_ops.
Hypothesis Htranspose_a : GetNodeAttr_bool op "transpose_a" = Ok ta.
Hypothesis Htranspose_b : GetNodeAttr_bool op "transpose_b" = Ok tb.
Hypothesis Hinputs : GetInputNodes3 op s = Ok ((lhs, rhs, bias), s).
Hypothesis Hmatmul :
  validate_and_infer_types ext (heap s) "MatMul" [ArgBool ta; ArgBool tb] [lhs; rhs] =
    Some [(et, of_shape msh)].
Hypothesis Hbias : output_info (heap s) bias = Some (etb, of_shape [n]).
Hypothesis Hadd :
  validate_and_infer_types ext (heap s ++ [matmul]) "Add" [] [ng_matmul; bias] =
    Some outs_add.

(** Once the attributes are read, the inputs found and the product and
    the sum built, the handler looks at the length of [fused_ops] and at
    its second name, and at nothing else of it. *)
Lemma FusedMatMul_after_bias_add :
  TranslateFusedMatMulOp ext op s =
    (if (length fused_ops =? 1)%nat then SaveNgOp (name op) ng_add
     else if (length fused_ops =? 2)%nat then
       if nth 1 fused_ops "" ==s "Relu" then
         bind (ConstructNgNode ext (name op) "Relu" [] [ng_add])
           (fun ng_relu => SaveNgOp (name op) ng_relu)
       else if nth 1 fused_ops "" ==s "Relu6" then
         bind (ConstructNgNode ext (name op) "Clamp" [ArgZ 0; ArgZ 6] [ng_add])
           (fun ng_clamp => SaveNgOp (name op) ng_clamp)
       else
         fail INTERNAL
           ("Expected activation to be Relu or Relu6 but got " +:+ nth 1 fused_ops "")
     else fail INTERNAL "Unsupported combination") s2.
Proof.
  unfold TranslateFusedMatMulOp.
  unfold bind at 1. unfold lift at 1. rewrite Hnum_args.
  unfold bind at 1. unfold lift at 1. rewrite Hfused_ops.
  unfold bind at 1. unfold lift at 1. rewrite Htranspose_a.
  unfold bind at 1. unfold lift at 1. rewrite Htranspose_b.
  unfold bind at 1. rewrite Hinputs.
  unfold bind at 1.
  rewrite (ConstructNgNode_ok ext (name op) "MatMul" _ _ _ s Hmatmul).
  fold matmul. fold ng_matmul.
  set (s1 := {| heap := heap s ++ [matmul]; ng_op_map := ng_op_map s |}).
  unfold bind at 1.
  rewrite (get_shape_ok ng_matmul s1 et msh)
    by (apply output_info_new; reflexivity).
  unfold bind at 1.
  rewrite (get_shape_ok bias s1 etb [n])
    by (apply output_info_app; exact Hbias).
  cbn [length Nat.eqb negb].
  unfold bind at 1.
  rewrite (ConstructNgNode_ok ext (name op) "Add" _ _ _ s1 Hadd).
  replace (length (heap s1)) with (S (length (heap s)))
    by (unfold s1; cbn [heap]; rewrite length_app; simpl; lia).
  fold add. fold ng_add.
  replace {| heap := heap s1 ++ [add]; ng_op_map := ng_op_map s1 |} with s2
    by (unfold s2, s1; cbn [heap ng_op_map]; rewrite <- app_assoc; reflexivity).
  reflexivity.
Qed.

Lemma FusedMatMul_one_name :
  length fused_ops = 1%nat ->
  exists s', TranslateFusedMatMulOp ext op s = Ok (tt, s') /\ saved op ng_add s2 s'.
Proof.
  intros Hlen. rewrite FusedMatMul_after_bias_add, Hlen. cbn [Nat.eqb].
  eexists. split; reflexivity.
Qed.

Lemma FusedMatMul_other_activation :
  length fused_ops = 2%nat ->
  nth 1 fused_ops "" <> "Relu" -> nth 1 fused_ops "" <> "Relu6" ->
  TranslateFusedMatMulOp ext op s =
    Err INTERNAL
      ("Expected activation to be Relu or Relu6 but got " +:+ nth 1 fused_ops "").
Proof.
  intros Hlen Hrelu Hrelu6. rewrite FusedMatMul_after_bias_add, Hlen. cbn [Nat.eqb].
  destruct (String.eqb_spec (nth 1 fused_ops "") "Relu"); [contradiction|].
  destruct (String.eqb_spec (nth 1 fused_ops "") "Relu6"); [contradiction|].
  reflexivity.
Qed.

Lemma FusedMatMul_other_length :
  length fused_ops <> 1%nat -> length fused_ops <> 2%nat ->
  TranslateFusedMatMulOp ext op s = Err INTERNAL "Unsupported combination".
Proof.
  intros H1 H2. rewrite FusedMatMul_after_bias_add.
  destruct (Nat.eqb_spec (length fused_ops) 1); [contradiction|].
  destruct (Nat.eqb_spec (length fused_ops) 2); [contradiction|].
  reflexivity.
Qed.

Lemma FusedMatMul_activation (ty : string) (args : list NgArg)
    (outs : list (ElementType * PartialShape)) :
  length fused_ops = 2%nat ->
  (nth 1 fused_ops "" = "Relu" /\ ty = "Relu" /\ args = []) \/
  (nth 1 fused_ops "" = "Relu6" /\ ty = "Clamp" /\ args = [ArgZ 0; ArgZ 6]) ->
  validate_and_infer_types ext (heap s2) ty args [ng_add] = Some outs ->
  exists s',
    TranslateFusedMatMulOp ext op s = Ok (tt, s') /\
    saved op (S (S (length (heap s))), 0%nat) s2 s'.
Proof.
  intros Hlen Hact Hinf. rewrite FusedMatMul_after_bias_add, Hlen. cbn [Nat.eqb].
  assert (Hlen2 : length (heap s2) = S (S (length (heap s)))).
  { unfold s2. cbn [heap]. rewrite length_app. simpl. lia. }
  destruct Hact as [(-> & -> & ->)|(-> & -> & ->)]; cbn [String.eqb Ascii.eqb Bool.eqb];
    unfold bind; rewrite (ConstructNgNode_ok ext _ _ _ _ _ s2 Hinf); rewrite Hlen2;
    eexists; split; reflexivity.
Qed.

End FusedMatMul.

(** ** The fused handlers and their allow-lists *)

Lemma within_two (c : Code) :
  c ∈ [INVALID_ARGUMENT; NOT_FOUND] -> c = INVALID_ARGUMENT \/ c = NOT_FOUND.
Proof.
  intros H. repeat (apply elem_of_cons in H as [->|H]); auto.
  apply elem_of_nil in H. contradiction.
Qed.

Lemma within_three (c : Code) :
  c ∈ [INVALID_ARGUMENT; NOT_FOUND; INTERNAL] ->
  c = INVALID_ARGUMENT \/ c = NOT_FOUND \/ c = INTERNAL.
Proof.
  intros H. repeat (apply elem_of_cons in H as [->|H]); auto.
  apply elem_of_nil in H. contradiction.
Qed.

(** C2 (as amended). On a node that carries [num_args] and [fused_ops]:
    the handlers of _FusedConv2D and _FusedDepthwiseConv2dNative fail with
    Unimplemented when [fused_ops] is not literally in their allow-list
    (the node carrying [data_format]). For a listed sequence the only
    error statuses they can return are InvalidArgument and NotFound, from
    the checks on the rest of the node, and when they succeed they have
    built the chain of the sequence: the convolution, then the bias added
    or the batch normalization, then the activation or the further input
    of the sequence, each node with its class, its arguments, its inputs
    and its tag, and the last value, back in the layout of the node, is
    what the op map records for the node ([FusedConv2D_lowered],
    [FusedDepthwise_lowered]). The handler of _FusedMatMul has no
    allow-list and never returns Unimplemented; when it succeeds it has
    built the product, the sum with the bias and the activation that the
    length of the sequence and its second name ask for
    ([FusedMatMul_lowered]). Once its attributes are read, its three
    inputs found and the product and the sum built, it lowers every
    sequence of length 1, and of length 2 when the second name is Relu or
    Relu6 (the activation node being valid); a sequence of length 2 with
    another second name, and a sequence of any other length, fail with an
    Internal error. *)
Theorem fused_sequences_and_allow_lists (ext : Externals) (op : Node) (s : State)
    (num_args : Z) (fused_ops : list string) :
  GetNodeAttr_int op "num_args" = Ok num_args ->
  GetNodeAttr_strings op "fused_ops" = Ok fused_ops ->
  (forall fmt, GetNodeAttr_string op "data_format" = Ok fmt ->
     (fused_ops ∉ FusedConv2D_allow_list ->
      TranslateFusedConv2DOp ext op s =
        Err UNIMPLEMENTED ("Unsupported _FusedConv2D " +:+ StrJoin fused_ops ",")) /\
     (fused_ops ∉ FusedDepthwiseConv2dNative_allow_list ->
      TranslateFusedDepthwiseConv2dNativeOp ext op s =
        Err UNIMPLEMENTED
          ("Unsupported _FusedDepthwiseConv2dNative " +:+ StrJoin fused_ops ","))) /\
  (fused_ops ∈ FusedConv2D_allow_list ->
   (forall c msg, TranslateFusedConv2DOp ext op s = Err c msg ->
      c = INVALID_ARGUMENT \/ c = NOT_FOUND) /\
   (forall s', TranslateFusedConv2DOp ext op s = Ok (tt, s') ->
      FusedConv2D_lowered ext op fused_ops s s')) /\
  (fused_ops ∈ FusedDepthwiseConv2dNative_allow_list ->
   (forall c msg, TranslateFusedDepthwiseConv2dNativeOp ext op s = Err c msg ->
      c = INVALID_ARGUMENT \/ c = NOT_FOUND) /\
   (forall s', TranslateFusedDepthwiseConv2dNativeOp ext op s = Ok (tt, s') ->
      FusedDepthwise_lowered ext op fused_ops s s')) /\
  (forall c msg, TranslateFusedMatMulOp ext op s = Err c msg ->
     c = INVALID_ARGUMENT \/ c = NOT_FOUND \/ c = INTERNAL) /\
  (forall s', TranslateFusedMatMulOp ext op s = Ok (tt, s') ->
     FusedMatMul_lowered op fused_ops s s') /\
  (forall ta tb lhs rhs bias et etb msh n outs_add,
     let ng_matmul := (length (heap s), 0%nat) in
     let ng_add := (S (length (heap s)), 0%nat) in
     let matmul :=
       with_tracing_info (name op) (length (heap s))
         (new_node "MatMul" [ArgBool ta; ArgBool tb] [lhs; rhs] [(et, of_shape msh)]) in
     let add :=
       with_tracing_info (name op) (S (length (heap s)))
         (new_node "Add" [] [ng_matmul; bias] outs_add) in
     GetNodeAttr_bool op "transpose_a" = Ok ta ->
     GetNodeAttr_bool op "transpose_b" = Ok tb ->
     GetInputNodes3 op s = Ok ((lhs, rhs, bias), s) ->
     validate_and_infer_types ext (heap s) "MatMul" [ArgBool ta; ArgBool tb]
       [lhs; rhs] = Some [(et, of_shape msh)] ->
     output_info (heap s) bias = Some (etb, of_shape [n]) ->
     validate_and_infer_types ext (heap s ++ [matmul]) "Add" [] [ng_matmul; bias] =
       Some outs_add ->
     (length fused_ops = 1%nat ->
      is_ok (TranslateFusedMatMulOp ext op s) = true) /\
     (length fused_ops = 2%nat ->
      forall ty args outs,
        (nth 1 fused_ops "" = "Relu" /\ ty = "Relu" /\ args = []) \/
        (nth 1 fused_ops "" = "Relu6" /\ ty = "Clamp" /\ args = [ArgZ 0; ArgZ 6]) ->
        validate_and_infer_types ext (heap s ++ [matmul; add]) ty args [ng_add] =
          Some outs ->
        is_ok (TranslateFusedMatMulOp ext op s) = true) /\
     (length fused_ops = 2%nat ->
      nth 1 fused_ops "" <> "Relu" -> nth 1 fused_ops "" <> "Relu6" ->
      TranslateFusedMatMulOp ext op s =
        Err INTERNAL
          ("Expected activation to be Relu or Relu6 but got " +:+ nth 1 fused_ops "")) /\
     (length fused_ops <> 1%nat -> length fused_ops <> 2%nat ->
      TranslateFusedMatMulOp ext op s = Err INTERNAL "Unsupported combination")).
Proof.
  intros Hn Hf. split; [|split; [|split; [|split; [|split]]]].
  - intros fmt Hd. split; intros Hnot.
    + eapply FusedConv2D_unlisted; eassumption.
    + eapply FusedDepthwise_unlisted; eassumption.
  - intros Hin. split.
    + intros c msg H. apply within_two.
      eapply (FusedConv2D_listed_errors ext op); [|exact H].
      intros fo Hfo. rewrite Hf in Hfo. injection Hfo as <-. exact Hin.
    + intros s'. apply FusedConv2D_lowering; assumption.
  - intros Hin. split.
    + intros c msg H. apply within_two.
      eapply (FusedDepthwise_listed_errors ext op); [|exact H].
      intros fo Hfo. rewrite Hf in Hfo. injection Hfo as <-. exact Hin.
    + intros s'. apply FusedDepthwise_lowering; assumption.
  - intros c msg H. apply within_three. eapply (FusedMatMul_errors ext op). exact H.
  - intros s'. apply FusedMatMul_lowering. exact Hf.
  - intros ta tb lhs rhs bias et etb msh n outs_add ng_matmul ng_add matmul add
      Hta Htb Hinputs Hmm Hbias Hadd.
    split; [|split; [|split]].
    + intros Hlen.
      destruct (FusedMatMul_one_name ext op s num_args fused_ops ta tb lhs rhs bias
                  et etb msh n outs_add Hn Hf Hta Htb Hinputs Hmm Hbias Hadd Hlen)
        as (s' & -> & _). reflexivity.
    + intros Hlen ty args outs Hact Hinf.
      destruct (FusedMatMul_activation ext op s num_args fused_ops ta tb lhs rhs bias
                  et etb msh n outs_add Hn Hf Hta Htb Hinputs Hmm Hbias Hadd
                  ty args outs Hlen Hact Hinf)
        as (s' & -> & _). reflexivity.
    + intros Hlen H1 H2.
      exact (FusedMatMul_other_activation ext op s num_args fused_ops ta tb lhs rhs
               bias et etb msh n outs_add Hn Hf Hta Htb Hinputs Hmm Hbias Hadd
               Hlen H1 H2).
    + intros H1 H2.
      exact (FusedMatMul_other_length ext op s num_args fused_ops ta tb lhs rhs
               bias et etb msh n outs_add Hn Hf Hta Htb Hinputs Hmm Hbias Hadd H1 H2).
Qed.

(** A _FusedMatMul whose [fused_ops] is a permutation of the supported
    sequence BiasAdd, Relu fails with an Internal error, not with
    Unimplemented; the sequence itself lowers. *)
Lemma fused_matmul_permutation_is_internal :
  Permutation ["Relu"; "BiasAdd"] ["BiasAdd"; "Relu"] /\
  is_ok (TranslateGraph ref_ext [[2; 3]; [3; 4]; [4]] []
           (fused_matmul_graph ["BiasAdd"; "Relu"]) "f" []) = true /\
  TranslateFusedMatMulOp ref_ext (fused_matmul ["Relu"; "BiasAdd"]) matmul_state =
    Err INTERNAL "Expected activation to be Relu or Relu6 but got BiasAdd" /\
  TranslateGraph ref_ext [[2; 3]; [3; 4]; [4]] []
    (fused_matmul_graph ["Relu"; "BiasAdd"]) "f" [] =
    Err INTERNAL "Expected activation to be Relu or Relu6 but got BiasAdd".
Proof.
  split; [apply perm_swap|]. repeat split; vm_compute; reflexivity.
Qed.

(** A _FusedMatMul whose [fused_ops] names Relu alone, which is no
    supported sequence, lowers all the same. *)
Lemma fused_matmul_unlisted_lowers :
  is_ok (TranslateGraph ref_ext [[2; 3]; [3; 4]; [4]] []
           (fused_matmul_graph ["Relu"]) "f" []) = true.
Proof. vm_compute. reflexivity. Qed.

(** A _FusedConv2D with a listed sequence does not lower when the rest of
    the node is not in order. *)
Lemma fused_conv_listed_fails :
  ["BiasAdd"] ∈ FusedConv2D_allow_list /\
  TranslateFusedConv2DOp ref_ext fused_conv_two_args empty_state =
    Err INVALID_ARGUMENT "FusedConv2DBiasAdd has incompatible num_args".
Proof. split; [listed|vm_compute; reflexivity]. Qed.

(** With the reference externals, every listed sequence lowers on a
    well-formed node. *)
Lemma listed_sequences_lower :
  Forall (fun fused_ops =>
            is_ok (TranslateGraph ref_ext (fused_conv_shapes [3; 3; 2; 5] 5 fused_ops) []
                     (fused_conv_graph "_FusedConv2D" fused_ops) "f" []) = true)
    FusedConv2D_allow_list /\
  Forall (fun fused_ops =>
            is_ok (TranslateGraph ref_ext (fused_conv_shapes [3; 3; 2; 3] 6 fused_ops) []
                     (fused_conv_graph "_FusedDepthwiseConv2dNative" fused_ops) "f" [])
            = true)
    FusedDepthwiseConv2dNative_allow_list.
Proof. split; repeat constructor; vm_compute; reflexivity. Qed.

Lemma fused_sequences_and_allow_lists_witness :
  TranslateFusedMatMulOp ref_ext (fused_matmul ["Relu"; "BiasAdd"]) matmul_state =
    Err INTERNAL
      ("Expected activation to be Relu or Relu6 but got " +:+
       nth 1 ["Relu"; "BiasAdd"] "") /\
  TranslateFusedConv2DOp ref_ext (fused_conv "_FusedConv2D" ["Relu"; "BiasAdd"])
    empty_state = Err UNIMPLEMENTED "Unsupported _FusedConv2D Relu,BiasAdd" /\
  (exists s',
     TranslateFusedConv2DOp ref_ext (fused_conv "_FusedConv2D" ["BiasAdd"; "Relu"])
       (conv_state [3; 3; 2; 5] 5) = Ok (tt, s') /\
     FusedConv2D_lowered ref_ext (fused_conv "_FusedConv2D" ["BiasAdd"; "Relu"])
       ["BiasAdd"; "Relu"] (conv_state [3; 3; 2; 5] 5) s') /\
  (exists s',
     TranslateFusedMatMulOp ref_ext (fused_matmul ["BiasAdd"; "Relu6"]) matmul_state =
       Ok (tt, s') /\
     FusedMatMul_lowered (fused_matmul ["BiasAdd"; "Relu6"]) ["BiasAdd"; "Relu6"]
       matmul_state s').
Proof.
  split; [|split; [|split]].
  - destruct (fused_sequences_and_allow_lists ref_ext (fused_matmul ["Relu"; "BiasAdd"])
                matmul_state 1 ["Relu"; "BiasAdd"])
      as (_ & _ & _ & _ & _ & Hmm); [vm_compute; reflexivity..|].
    destruct (Hmm false false (0%nat, 0%nat) (1%nat, 0%nat) (2%nat, 0%nat)
                et_f32 et_f32 [2; 4] 4 [(et_f32, of_shape [2; 4])])
      as (_ & _ & Hother & _); [vm_compute; reflexivity..|].
    apply Hother; [reflexivity|discriminate|discriminate].
  - destruct (fused_sequences_and_allow_lists ref_ext
                (fused_conv "_FusedConv2D" ["Relu"; "BiasAdd"]) empty_state 1
                ["Relu"; "BiasAdd"])
      as (Hconv & _); [vm_compute; reflexivity..|].
    destruct (Hconv "NHWC") as [Hunlisted _]; [vm_compute; reflexivity|].
    apply Hunlisted. unfold FusedConv2D_allow_list. intros Hin.
    repeat (apply elem_of_cons in Hin as [Hin|Hin]; [discriminate|]).
    apply elem_of_nil in Hin. exact Hin.
  - destruct (TranslateFusedConv2DOp ref_ext
                (fused_conv "_FusedConv2D" ["BiasAdd"; "Relu"]) (conv_state [3; 3; 2; 5] 5))
      as [[[] s']| | |] eqn:E; [|vm_compute in E; discriminate..].
    exists s'. split; [reflexivity|].
    destruct (fused_sequences_and_allow_lists ref_ext
                (fused_conv "_FusedConv2D" ["BiasAdd"; "Relu"]) (conv_state [3; 3; 2; 5] 5)
                1 ["BiasAdd"; "Relu"])
      as (_ & Hconv & _); [vm_compute; reflexivity..|].
    destruct Hconv as [_ Hlowered]; [listed|]. exact (Hlowered s' E).
  - destruct (TranslateFusedMatMulOp ref_ext (fused_matmul ["BiasAdd"; "Relu6"])
                matmul_state) as [[[] s']| | |] eqn:E; [|vm_compute in E; discriminate..].
    exists s'. split; [reflexivity|].
    destruct (fused_sequences_and_allow_lists ref_ext (fused_matmul ["BiasAdd"; "Relu6"])
                matmul_state 1 ["BiasAdd"; "Relu6"])
      as (_ & _ & _ & _ & Hmm & _); [vm_compute; reflexivity..|].
    exact (Hmm s' E).
Defined.

(** ** A formal parameter with a zero dimension *)

(** The nodes that are visited are nodes of the graph, each one once. *)
Lemma topological_of_pending (fuel : nat) (emitted : list string) (pending : list Node) :
  exists rest, Permutation pending (topological fuel emitted pending ++ rest).
Proof.
  revert emitted pending. induction fuel as [|fuel IH]; intros emitted pending; simpl.
  - exists pending. reflexivity.
  - destruct (take_ready emitted pending) as [[n rest]|] eqn:E.
    + apply take_ready_spec in E as (_ & Hperm & _).
      destruct (IH (name n :: emitted) rest) as [rest' Hrest].
      exists rest'. rewrite Hperm. simpl. apply perm_skip. exact Hrest.
    + exists pending. reflexivity.
Qed.

Lemma order_names_distinct (g : list Node) :
  NoDup (map name g) -> NoDup (map name (GetReversePostOrder g)).
Proof.
  intros Hnd. unfold GetReversePostOrder.
  destruct (topological_of_pending (length g) [] (sort_by_name g)) as [rest Hperm].
  rewrite <- (sort_by_name_perm g) in Hnd. rewrite Hperm in Hnd.
  rewrite map_app in Hnd. apply NoDup_app in Hnd as [Hnd _]. exact Hnd.
Qed.

Lemma filter_names_distinct (f : Node -> bool) (l : list Node) :
  NoDup (map name l) -> NoDup (map name (List.filter f l)).
Proof.
  induction l as [|n l IH]; simpl; intros Hnd; [constructor|].
  apply NoDup_cons in Hnd as [Hn Hnd]. destruct (f n); simpl; [|auto].
  apply NoDup_cons. split; [|auto].
  intros Hin. apply Hn. apply list_elem_of_In in Hin. apply list_elem_of_In.
  apply in_map_iff in Hin as (m & Hname & Hm). apply filter_In in Hm as [Hm _].
  apply in_map_iff. eauto.
Qed.

Lemma fold_each_app {A B} (f : A -> B -> M B) (pre post : list A) (b b' : B)
    (s s' : State) :
  fold_each f (pre ++ post) b s = Ok (b', s') ->
  exists b1 s1, fold_each f pre b s = Ok (b1, s1) /\ fold_each f post b1 s1 = Ok (b', s').
Proof.
  revert b s. induction pre as [|x pre IH]; intros b s; simpl.
  - intros H. exists b, s. auto.
  - intros H. apply bind_ok in H as (b0 & s0 & H0 & H).
    destruct (IH _ _ H) as (b1 & s1 & H1 & H2). exists b1, s1. split; [|exact H2].
    unfold bind. rewrite H0. exact H1.
Qed.

Lemma for_each_app_ok {A} (f : A -> M unit) (pre post : list A) (s s' : State) :
  for_each f (pre ++ post) s = Ok (tt, s') ->
  exists s1, for_each f pre s = Ok (tt, s1) /\ for_each f post s1 = Ok (tt, s').
Proof.
  rewrite for_each_app. destruct (for_each f pre s) as [[[] s1]| | |]; try discriminate.
  eauto.
Qed.

Lemma store_at_ok (v v' : list (option nat)) (index : Z) (x : nat) (s s' : State) :
  store_at v index x s = Ok (v', s') ->
  0 <= index /\ (Z.to_nat index < length v)%nat /\
  v' = <[Z.to_nat index := Some x]> v /\ s' = s.
Proof.
  unfold store_at.
  destruct (Z.ltb_spec index 0) as [Hneg|Hpos]; [discriminate|].
  destruct (Z.leb_spec (Z.of_nat (length v)) index) as [Hout|Hin]; [discriminate|].
  cbn [orb]. intros H. apply ret_ok in H as [-> ->]. repeat split; lia.
Qed.

Section Parameters.

Variable ext : Externals.
Variable inputs : list (list Z).
Variable tensors : list Tensor.

(** One turn of the loop over the parameters: it stores a node in the
    slot of the index, saves one output under the name of the parameter,
    and keeps the heap. *)
Lemma translate_param_inv (q : Node) (pl pl' : list (option nat)) (s s' : State) :
  translate_param ext inputs tensors q pl s = Ok (pl', s') ->
  exists index p o,
    GetNodeAttr_int q "index" = Ok index /\ 0 <= index /\
    pl' = <[Z.to_nat index := Some p]> pl /\
    keeps_heap (heap s) (heap s') /\
    ng_op_map s' =
      <[name q := default [] (ng_op_map s !! name q) ++ [o]]> (ng_op_map s).
Proof.
  unfold translate_param. intros H.
  destruct (GetNodeAttr_type q "T") as [dtype| | |]; try discriminate.
  destruct (GetNodeAttr_int q "index") as [index| | |]; try discriminate.
  apply bind_ok in H as (ng_et & s0 & Het & H). apply lift_ok in Het as [_ ->].
  destruct (if index <? 0 then None else inputs !! Z.to_nat index) as [tf_shape|];
    [|discriminate].
  apply bind_ok in H as (ng_shape & s0 & Hshape & H). apply lift_ok in Hshape as [_ ->].
  apply bind_ok in H as (ng_param & s1 & Hparam & H).
  apply ConstructNgNode_adds in Hparam as [(n & Hh1 & _) Hm1].
  apply bind_ok in H as ([] & s2 & Hsave & H).
  apply store_at_ok in H as (Hpos & _ & -> & ->).
  assert (Hs2 : exists o, keeps_heap (heap s1) (heap s2) /\
            ng_op_map s2 =
              <[name q := default [] (ng_op_map s1 !! name q) ++ [o]]> (ng_op_map s1)).
  { destruct (ng_shape_check ng_shape).
    - apply bind_ok in Hsave as (c & s3 & Hc & Hsave).
      apply ConstructNgNode_adds in Hc as [(m & Hh3 & _) Hm3].
      injection Hsave as <-. exists c. cbn [heap ng_op_map]. rewrite Hm3, Hh3.
      split; [apply keeps_heap_app|reflexivity].
    - destruct (_ && _); [destruct (GetNodeAttr_bool q "_is_variable") as [[]| | |]|].
      2-6: injection Hsave as <-; exists ng_param; split;
        [apply keeps_heap_refl|reflexivity].
      destruct (tensors !! Z.to_nat index) as [input_tensor|]; [|discriminate].
      destruct (convertible_from dtype) as [T|]; [|discriminate].
      apply bind_ok in Hsave as (c & s3 & Hc & Hsave). unfold MakeConstOpForParam in Hc.
      apply ConstructNgNode_adds in Hc as [(m & Hh3 & _) Hm3].
      injection Hsave as <-. exists c. cbn [heap ng_op_map]. rewrite Hm3, Hh3.
      split; [apply keeps_heap_app|reflexivity]. }
  destruct Hs2 as (o & Hh2 & Hm2).
  exists index, ng_param.1, o. split; [reflexivity|]. split; [exact Hpos|].
  split; [reflexivity|]. split.
  - eapply keeps_heap_trans; [|exact Hh2]. rewrite Hh1. apply keeps_heap_app.
  - rewrite Hm2, Hm1. reflexivity.
Qed.

(** The loop over the parameters keeps the heap, touches the op map at the
    names of the parameters alone, and a slot of the parameter list at the
    index of a parameter alone. *)
Lemma parameters_loop (l : list Node) (pl pl' : list (option nat)) (s s' : State) :
  fold_each (translate_param ext inputs tensors) l pl s = Ok (pl', s') ->
  keeps_heap (heap s) (heap s') /\
  (forall k, ~ In k (map name l) -> ng_op_map s' !! k = ng_op_map s !! k) /\
  (forall j v, pl !! j = Some v ->
     (forall q i, In q l -> GetNodeAttr_int q "index" = Ok i -> 0 <= i ->
        Z.to_nat i <> j) ->
     pl' !! j = Some v).
Proof.
  revert pl s. induction l as [|q l IH]; intros pl s; simpl.
  - intros H. apply ret_ok in H as [-> ->].
    split; [apply keeps_heap_refl|]. split; auto.
  - intros H. apply bind_ok in H as (pl1 & s1 & Hq & H).
    apply translate_param_inv in Hq as (index & p & o & Hindex & Hpos & -> & Hh & Hm).
    destruct (IH _ _ H) as (Hh' & Hm' & Hpl'). split; [|split].
    + eapply keeps_heap_trans; eassumption.
    + intros k Hk. rewrite Hm' by tauto. rewrite Hm.
      apply lookup_insert_ne. intros <-. tauto.
    + intros j v Hj Hother. apply Hpl'; [|intros q' i Hq'; apply Hother; auto].
      rewrite list_lookup_insert_ne; [exact Hj|].
      apply (Hother q index); auto.
Qed.

(** The turn of a parameter whose shape has a dimension of size zero: a
    Parameter and a Constant with no elements are built, and the Constant
    is what is saved under the name of the parameter. *)
Lemma translate_param_zero (parm : Node) (dtype : DataType) (index : Z)
    (tf_shape ng_shape : list Z) (ng_et : ElementType) (pl pl' : list (option nat))
    (s s' : State) :
  GetNodeAttr_type parm "T" = Ok dtype ->
  GetNodeAttr_int parm "index" = Ok index ->
  inputs !! Z.to_nat index = Some tf_shape ->
  TFDataTypeToNGraphElementType ext dtype = Ok ng_et ->
  TFTensorShapeToNGraphShape ext tf_shape = Ok ng_shape ->
  zero_dimensional (of_shape ng_shape) = true ->
  translate_param ext inputs tensors parm pl s = Ok (pl', s') ->
  exists tag outs_p outs_c,
    validate_and_infer_types ext (heap s) "Parameter" [ArgEt ng_et; ArgShape ng_shape] [] =
      Some outs_p /\
    heap s' = heap s ++
      [with_tracing_info tag (length (heap s))
         (new_node "Parameter" [ArgEt ng_et; ArgShape ng_shape] [] outs_p);
       with_tracing_info tag (S (length (heap s)))
         (new_node "Constant" [ArgEt ng_et; ArgShape ng_shape; ArgStrings []] [] outs_c)] /\
    ng_op_map s' =
      <[name parm :=
          default [] (ng_op_map s !! name parm) ++ [(S (length (heap s)), 0%nat)]]>
        (ng_op_map s) /\
    0 <= index /\ (Z.to_nat index < length pl)%nat /\
    pl' = <[Z.to_nat index := Some (length (heap s))]> pl.
Proof.
  intros HT Hindex Hinput Het Hshape Hzero H.
  rewrite zero_dimensional_of_shape in Hzero.
  assert (Hsize : shape_size ng_shape = 0).
  { apply shape_size_zero. unfold ng_shape_check in Hzero.
    apply andb_true_iff in Hzero as [_ Hz]. exact Hz. }
  unfold translate_param in H. rewrite HT, Hindex in H.
  apply bind_ok in H as (et & s0 & Het' & H). apply lift_ok in Het' as [Het' ->].
  rewrite Het in Het'. injection Het' as <-.
  destruct (Z.ltb_spec index 0) as [Hneg|Hpos]; [discriminate|].
  rewrite Hinput in H.
  apply bind_ok in H as (sh & s0 & Hsh & H). apply lift_ok in Hsh as [Hsh ->].
  rewrite Hshape in Hsh. injection Hsh as <-.
  apply bind_ok in H as (ng_param & s1 & Hparam & H).
  apply ConstructNgNode_inv in Hparam as (outs_p & Hinf & -> & ->).
  rewrite Hzero, Hsize in H. change (replicate (Z.to_nat 0) "0") with (@nil string) in H.
  apply bind_ok in H as ([] & s2 & Hconst & H).
  apply bind_ok in Hconst as (c & s3 & Hc & Hsave).
  apply ConstructNgNode_inv in Hc as (outs_c & _ & -> & ->).
  injection Hsave as <-.
  apply store_at_ok in H as (_ & Hbound & -> & ->).
  cbn [heap ng_op_map fst] in *.
  eexists _, outs_p, outs_c. split; [exact Hinf|].
  rewrite length_app, Nat.add_1_r, <- app_assoc. cbn [app].
  repeat split; [lia|exact Hbound].
Qed.

End Parameters.

(** C4. When [TranslateGraph] succeeds on a graph whose nodes have
    distinct names, a formal parameter whose declared shape has rank at
    least one and a dimension of size zero has a Parameter node [p] and a
    Constant [c] with no elements in the heap from which the function is
    assembled. The Constant is the one output recorded under the name of
    the parameter when the loop over the parameters ends, and it stays the
    first one; the Parameter is not among the formal parameters of the
    function (it is in the slot of its index in the parameter list, when
    no other parameter has that index); and every consumer with an input
    edge to the parameter, an operator or a return value, resolves that
    input to the Constant in the state in which its turn begins. The
    externals are asked to keep what is built, and the type inference of a
    Parameter to give it the shape it is declared with. *)
Theorem zero_dimension_parameter (ext : Externals) (inputs : list (list Z))
    (sim : list (option Tensor)) (g : list Node) (nm : string) (tensors : list Tensor)
    (t : Translation) (parm : Node) (dtype : DataType) (index : Z)
    (tf_shape ng_shape : list Z) (ng_et : ElementType) :
  keeps_built ext ->
  (forall h outs,
     validate_and_infer_types ext h "Parameter" [ArgEt ng_et; ArgShape ng_shape] [] =
       Some outs ->
     outs = [(ng_et, of_shape ng_shape)]) ->
  NoDup (map name g) ->
  TranslateGraph ext inputs sim g nm tensors = Ok t ->
  In parm (GetReversePostOrder g) -> is_param parm = true ->
  GetNodeAttr_type parm "T" = Ok dtype ->
  GetNodeAttr_int parm "index" = Ok index ->
  inputs !! Z.to_nat index = Some tf_shape ->
  TFDataTypeToNGraphElementType ext dtype = Ok ng_et ->
  TFTensorShapeToNGraphShape ext tf_shape = Ok ng_shape ->
  zero_dimensional (of_shape ng_shape) = true ->
  let tf_params := List.filter is_param (GetReversePostOrder g) in
  let tf_ops := List.filter is_interior (GetReversePostOrder g) in
  let tf_ret_vals := List.filter is_retval (GetReversePostOrder g) in
  let translate_op := translate_op ext (index_of_graph g) sim in
  exists (ng_parameter_list : list (option nat)) (s1 s2 s3 : State)
         (formal_results formal_parameters : list nat) (p c : nat)
         (parameter constant : NgNode),
    (* the three loops, and the function *)
    fold_each (translate_param ext inputs tensors) tf_params
      (replicate (length tf_params) None) empty_state = Ok (ng_parameter_list, s1) /\
    for_each translate_op tf_ops s1 = Ok (tt, s2) /\
    fold_each (translate_retval ext) tf_ret_vals (replicate (length tf_ret_vals) None) s2 =
      Ok (ng_result_list t, s3) /\
    filter_parameters (heap s3) ng_parameter_list = Ok formal_parameters /\
    finish_function ext nm (heap s3) formal_results formal_parameters =
      Ok (ng_function t, ng_nodes t) /\
    (* the parameter node and the constant *)
    heap s3 !! p = Some parameter /\ ng_type parameter = "Parameter" /\
    ng_args parameter = [ArgEt ng_et; ArgShape ng_shape] /\
    heap s3 !! c = Some constant /\ ng_type constant = "Constant" /\
    ng_args constant = [ArgEt ng_et; ArgShape ng_shape; ArgStrings []] /\
    shape_size ng_shape = 0 /\
    (* what the op map records *)
    ng_op_map s1 !! name parm = Some [(c, 0%nat)] /\
    (exists more, ng_op_map s3 !! name parm = Some ((c, 0%nat) :: more)) /\
    (* the formal parameters *)
    ~ In p formal_parameters /\
    ((forall q i, In q tf_params -> q <> parm -> GetNodeAttr_int q "index" = Ok i ->
        i <> index) ->
     ng_parameter_list !! Z.to_nat index = Some (Some p)) /\
    (* the consumers *)
    (forall pre consumer post idx,
       tf_ops = pre ++ consumer :: post ->
       in_edges consumer !! idx = Some (name parm, 0%nat) ->
       exists s, for_each translate_op pre s1 = Ok (tt, s) /\
                 GetInputNode consumer idx s = Ok ((c, 0%nat), s)) /\
    (forall pre consumer post,
       tf_ret_vals = pre ++ consumer :: post ->
       in_edges consumer !! 0%nat = Some (name parm, 0%nat) ->
       exists rl s,
         fold_each (translate_retval ext) pre (replicate (length tf_ret_vals) None) s2 =
           Ok (rl, s) /\
         GetInputNode consumer 0 s = Ok ((c, 0%nat), s)).
Proof.
  intros Hext Hparam Hnd H Hin Hisparam HT Hindex Hinput Het Hshape Hzero
    tf_params tf_ops tf_ret_vals translate_op.
  unfold TranslateGraph in H.
  apply obind_ok in H as ([[P R] O] & Hsplit & H).
  apply split_ops_ok in Hsplit as (-> & -> & ->). cbn [app] in H.
  fold tf_params tf_ops tf_ret_vals in H.
  apply obind_ok in H as ([[pl rl] s3] & Hbuild & H).
  apply obind_ok in H as (formal_parameters & Hfp & H).
  apply obind_ok in H as (formal_results & Hfr & H).
  apply obind_ok in H as ([f nodes] & Hfin & H). injection H as <-.
  cbn [ng_result_list ng_function ng_nodes fst snd].
  unfold build_nodes in Hbuild.
  apply bind_ok in Hbuild as (pl' & s1 & Hparams & Hbuild).
  apply bind_ok in Hbuild as ([] & s2 & Hops & Hbuild).
  apply bind_ok in Hbuild as (rl' & s3' & Hrets & Hbuild).
  apply ret_ok in Hbuild as [[= <- <-] <-].
  fold translate_op in Hops.
  (* the turn of the parameter *)
  assert (Hmem : In parm tf_params) by (apply filter_In; auto).
  destruct (in_split _ _ Hmem) as (before & after & Hparts).
  assert (Hnames : NoDup (map name tf_params)).
  { apply filter_names_distinct, order_names_distinct, Hnd. }
  rewrite Hparts, map_app in Hnames. cbn [map] in Hnames.
  apply NoDup_app in Hnames as (_ & Hbefore & Hafter).
  apply NoDup_cons in Hafter as [Hafter _].
  assert (Hnot_before : ~ In (name parm) (map name before)).
  { intros Hb. apply list_elem_of_In in Hb. apply (Hbefore _ Hb). left. }
  assert (Hnot_after : ~ In (name parm) (map name after)).
  { intros Ha. apply Hafter. apply list_elem_of_In. exact Ha. }
  pose proof Hparams as Hrun. rewrite Hparts in Hrun at 1.
  apply fold_each_app in Hrun as (pl0 & s0 & Hpre & Hrun). simpl in Hrun.
  apply bind_ok in Hrun as (pla & sa & Hturn & Hpost).
  destruct (parameters_loop _ _ _ _ _ _ _ _ Hpre) as (_ & Hmap0 & _).
  destruct (translate_param_zero ext inputs tensors parm dtype index tf_shape ng_shape
              ng_et pl0 pla s0 sa HT Hindex Hinput Het Hshape Hzero Hturn)
    as (tag & outs_p & outs_c & Hinf & Hheap & Hmap & Hpos & Hbound & ->).
  apply Hparam in Hinf as ->.
  rewrite (Hmap0 _ Hnot_before) in Hmap. cbn [empty_state ng_op_map] in Hmap.
  rewrite lookup_empty in Hmap. cbn [default app] in Hmap.
  destruct (parameters_loop _ _ _ _ _ _ _ _ Hpost) as (Hheap1 & Hmap1 & Hslots).
  set (p := length (heap s0)) in *. set (c := S p) in *.
  assert (Hrec : ng_op_map s1 !! name parm = Some [(c, 0%nat)]).
  { rewrite (Hmap1 _ Hnot_after), Hmap. apply lookup_insert_eq. }
  (* what the two other loops keep *)
  assert (Hkeep_ops : forall l, keeps (for_each translate_op l)).
  { intros l. apply keeps_for_each. intros x. apply keeps_translate_op. exact Hext. }
  assert (Hkeep_rets : forall l b, keeps (fold_each (translate_retval ext) l b)).
  { intros l b. apply keeps_fold_each. intros x b'. apply keeps_translate_retval. }
  pose proof (Hkeep_ops _ _ _ _ Hops) as H12.
  pose proof (Hkeep_rets _ _ _ _ _ Hrets) as H23.
  assert (Hheap3 : keeps_heap (heap sa) (heap s3)).
  { eapply keeps_heap_trans; [exact Hheap1|].
    eapply keeps_heap_trans; [apply H12|apply H23]. }
  assert (Hsize : shape_size ng_shape = 0).
  { apply shape_size_zero. rewrite zero_dimensional_of_shape in Hzero.
    unfold ng_shape_check in Hzero. apply andb_true_iff in Hzero as [_ Hz]. exact Hz. }
  assert (Hp0 : heap sa !! p =
                Some (with_tracing_info tag p
                        (new_node "Parameter" [ArgEt ng_et; ArgShape ng_shape] []
                           [(ng_et, of_shape ng_shape)]))).
  { rewrite Hheap, lookup_app_r by (unfold p; lia).
    unfold p. rewrite Nat.sub_diag. reflexivity. }
  assert (Hc0 : exists node, heap sa !! c = Some node /\ ng_type node = "Constant" /\
                  ng_args node = [ArgEt ng_et; ArgShape ng_shape; ArgStrings []]).
  { eexists. rewrite Hheap, lookup_app_r by (unfold c, p; lia).
    unfold c, p. rewrite Nat.sub_succ_l, Nat.sub_diag by lia. split; [reflexivity|].
    split; reflexivity. }
  destruct Hc0 as (node & Hc0 & Hc_type0 & Hc_args0).
  destruct (Hheap3 p _ Hp0) as (parameter & Hp & Hp_type & Hp_args & _ & Hp_outs).
  destruct (Hheap3 c _ Hc0) as (constant & Hc & Hc_type & Hc_args & _).
  cbn [ng_type ng_args ng_outputs with_tracing_info new_node] in Hp_type, Hp_args, Hp_outs.
  exists pl, s1, s2, s3, formal_results, formal_parameters, p, c, parameter, constant.
  split; [exact Hparams|]. split; [exact Hops|]. split; [exact Hrets|].
  split; [exact Hfp|]. split; [exact Hfin|].
  split; [exact Hp|]. split; [exact Hp_type|]. split; [exact Hp_args|].
  split; [exact Hc|]. split; [congruence|]. split; [congruence|].
  split; [exact Hsize|]. split; [exact Hrec|].
  assert (H13 : keeps_state s1 s3) by (eapply keeps_state_trans; eassumption).
  split; [|split; [|split; [|split]]].
  - destruct H13 as [_ Hmap3]. destruct (Hmap3 _ _ Hrec) as (more & Hmore).
    exists more. exact Hmore.
  - intros Hformal.
    apply (filter_parameters_ok _ _ _ Hfp) in Hformal as (_ & ps & Hps & Hz).
    unfold shape_of, output_info in Hps. cbn [fst snd] in Hps. rewrite Hp in Hps.
    cbn [mbind option_bind] in Hps. rewrite Hp_outs in Hps.
    injection Hps as <-. congruence.
  - intros Hother. apply (Hslots (Z.to_nat index) (Some p)).
    + apply list_lookup_insert_eq. exact Hbound.
    + intros q i Hq Hi Hipos Heq.
      apply (Hother q i); [rewrite Hparts; apply in_or_app; right; right; exact Hq| |exact Hi|lia].
      intros ->. apply Hnot_after. apply in_map. exact Hq.
  - intros pre consumer post idx Hsplit Hedge.
    rewrite Hsplit in Hops. apply for_each_app_ok in Hops as (s & Hs & _).
    exists s. split; [exact Hs|].
    eapply kept_entry_resolves; [exact Hrec|exact (Hkeep_ops _ _ _ _ Hs)|exact Hedge].
  - intros pre consumer post Hsplit Hedge.
    assert (Hrun : fold_each (translate_retval ext) (pre ++ consumer :: post)
                     (replicate (length tf_ret_vals) None) s2 = Ok (rl, s3))
      by (rewrite <- Hsplit; exact Hrets).
    apply fold_each_app in Hrun as (rl0 & s & Hs & _).
    exists rl0, s. split; [exact Hs|].
    eapply kept_entry_resolves; [exact Hrec| |exact Hedge].
    eapply keeps_state_trans; [exact H12|exact (Hkeep_rets _ _ _ _ _ Hs)].
Qed.

(** The layout helpers of the reference externals add nodes and change
    none. *)
Lemma alloc_keeps (h h' : list NgNode) (ty : string) (args : list NgArg)
    (ins : list Output) (tags : gset string) (fname : option string) (o : Output) :
  alloc h ty args ins tags fname = Some (o, h') -> keeps_heap h h'.
Proof.
  unfold alloc. destruct (ref_infer h ty args ins) as [outs|]; [|discriminate].
  intros [= _ <-]. apply keeps_heap_app.
Qed.

Lemma ref_transpose_keeps (order : list Z) (tag : option string) (node : Output) :
  helper_keeps (ref_transpose order tag node).
Proof.
  intros h o h' H. unfold ref_transpose in H.
  destruct (alloc h "Constant" _ _ _ _) as [[c h1]|] eqn:E1; [|discriminate].
  cbn [mbind option_bind] in H. apply alloc_keeps in E1. apply alloc_keeps in H.
  eapply keeps_heap_trans; eassumption.
Qed.

Lemma ref_ext_keeps : keeps_built ref_ext.
Proof.
  split; cbn [NHWCtoNCHW NCHWtoNHWC Transpose_3_2_0_1 other_handlers ref_ext].
  - intros nm [] o; [apply ref_transpose_keeps|].
    intros h o' h' [= _ <-]. apply keeps_heap_refl.
  - intros nm [] o; [apply ref_transpose_keeps|].
    intros h o' h' [= _ <-]. apply keeps_heap_refl.
  - intros o. apply ref_transpose_keeps.
  - intros kind g op sim s a s' H. discriminate.
Qed.

Lemma zero_dimension_parameter_witness :
  exists t c s1,
    TranslateGraph ref_ext [[0; 3]] [None] zero_dim_graph "f" [] = Ok t /\
    ng_op_map s1 !! "x" = Some [(c, 0%nat)] /\
    exists s, GetInputNode identity_i 0 s = Ok ((c, 0%nat), s).
Proof.
  destruct (TranslateGraph ref_ext [[0; 3]] [None] zero_dim_graph "f" []) as [t| | |] eqn:E;
    [|vm_compute in E; discriminate..].
  destruct (zero_dimension_parameter ref_ext [[0; 3]] [None] zero_dim_graph "f" [] t
              zero_dim_x DT_FLOAT 0 [0; 3] [0; 3] et_f32)
    as (pl & s1 & s2 & s3 & formal_results & formal_parameters & p & c & parameter &
        constant & _ & _ & _ & _ & _ & _ & _ & _ & _ & _ & _ & _ & Hrec & _ & _ & _ &
        Hconsumer & _).
  - exact ref_ext_keeps.
  - intros h outs H. vm_compute in H. injection H as <-. reflexivity.
  - apply NoDup_ListNoDup. repeat constructor; simpl; intuition discriminate.
  - exact E.
  - vm_compute. auto.
  - reflexivity.
  - reflexivity.
  - reflexivity.
  - reflexivity.
  - reflexivity.
  - reflexivity.
  - reflexivity.
  - destruct (Hconsumer [] identity_i [] 0%nat) as (s & _ & Hs);
      [vm_compute; reflexivity|reflexivity|].
    exists t, c, s1. split; [reflexivity|]. split; [exact Hrec|]. exists s. exact Hs.
Defined.
Lemma input_loop_ok (op : Node) (indices : list nat) :
  forall s s' outs,
    input_loop op indices s = Ok (outs, s') ->
    s' = s /\ length outs = length indices.
Proof.
  induction indices as [|i rest IH]; intros s s' outs; cbn [input_loop].
  - intros [= <- <-]. auto.
  - intros H. apply bind_ok in H as (o & s1 & H1 & H).
    apply GetInputNode_state in H1 as ->.
    apply bind_ok in H as (os & s2 & H2 & H). apply IH in H2 as [-> Hlen].
    apply ret_ok in H as [-> ->]. simpl. auto.
Qed.

(** ** AddN *)

Lemma accumulate_adds (ext : Externals) (tag : string) (rest : list Output) :
  forall init s s' r,
    accumulate (fun a b => ConstructNgNode ext tag "Add" [] [a; b]) rest init s =
      Ok (r, s') ->
    exists news,
      heap s' = heap s ++ news /\ ng_op_map s' = ng_op_map s /\
      length news = length rest /\ Forall (built_for tag "Add") news.
Proof.
  induction rest as [|x rest IH]; intros init s s' r; cbn [accumulate].
  - intros [= <- <-]. exists []. rewrite app_nil_r. auto.
  - intros H. apply bind_ok in H as (b & s1 & H1 & H).
    apply ConstructNgNode_grows in H1 as (node & Hh & Hm & _ & Hb & _).
    apply IH in H as (news & Hh' & Hm' & Hlen & Hall).
    exists (node :: news). rewrite Hh', Hh, <- app_assoc, Hm', Hm. simpl.
    repeat split; auto.
Qed.

(** X7. [TranslateAddNOp] on a node with one input does what the
    identity handler does: it builds nothing and saves the output of the
    producer. In general, when it succeeds on a node with n inputs it has
    built n - 1 nodes, all of them Add nodes tagged with the name of the
    node, and saved one output for the node. *)
Theorem AddN_nodes (ext : Externals) (op : Node) (s : State) :
  (length (in_edges op) = 1%nat ->
   TranslateAddNOp ext op s = TranslateIdentityOp op s) /\
  (forall s',
     TranslateAddNOp ext op s = Ok (tt, s') ->
     exists news ng_addn,
       heap s' = heap s ++ news /\
       length news = (length (in_edges op) - 1)%nat /\
       Forall (built_for (name op) "Add") news /\
       outputs_of s' (name op) = outputs_of s (name op) ++ [ng_addn]).
Proof.
  split.
  - intros Hone. unfold TranslateAddNOp, TranslateIdentityOp, GetInputNodes1.
    rewrite Hone. cbn [seq input_loop].
    unfold ValidateInputCount, num_inputs. rewrite Hone.
    change (Z.of_nat 1 =? 1) with true. cbn [negb].
    unfold bind, lift, ret. cbv beta iota.
    destruct (GetInputNode op 0 s) as [[o s1]| | |]; reflexivity.
  - intros s' H. unfold TranslateAddNOp in H.
    apply bind_ok in H as (vec & s1 & H1 & H).
    apply input_loop_ok in H1 as [-> Hlen]. rewrite length_seq in Hlen.
    destruct vec as [|first rest]; [discriminate|].
    apply bind_ok in H as (ng_addn & s2 & H2 & H).
    apply accumulate_adds in H2 as (news & Hh & Hm & Hn & Hall).
    apply SaveNgOp_ok in H as (Hh' & Hout & _).
    exists news, ng_addn. rewrite Hh', Hh. repeat split; auto.
    + simpl in Hlen. lia.
    + rewrite Hout. unfold outputs_of. rewrite Hm. reflexivity.
Qed.

(** ** The range check of axes *)

Lemma wrap_signed_32_rank (rank : Z) :
  0 <= rank <= INT_MAX ->
  wrap_signed 32 rank = rank /\ wrap_signed 32 (- rank) = - rank.
Proof.
  unfold INT_MAX. intros H.
  split; apply wrap_signed_small; try lia.
Qed.

(** The status of [CheckAxisDimInRange]. *)
Lemma CheckAxisDimInRange_status (axes : list Z) (rank : Z) :
  0 <= rank <= INT_MAX ->
  match CheckAxisDimInRange axes rank with
  | Ok _ => Forall (fun i => - rank <= i < rank) axes
  | Err c _ => c = INVALID_ARGUMENT
  | _ => False
  end.
Proof.
  intros Hrank. destruct (wrap_signed_32_rank rank Hrank) as [Hp Hn].
  induction axes as [|i rest IH]; simpl.
  - constructor.
  - rewrite Hp, Hn.
    destruct ((i <? - rank) || (rank <=? i)) eqn:E; [reflexivity|].
    destruct (CheckAxisDimInRange rest rank) as [[]|c msg| |]; auto.
    constructor; [lia|assumption].
Qed.

(** X1. [CheckAxisDimInRange] accepts a list of axes exactly when each of
    them lies in [-rank, rank); otherwise it returns InvalidArgument, and
    the message gives the first axis that is out of range. *)
Theorem CheckAxisDimInRange_accepts (axes : list Z) (rank : Z) :
  0 <= rank <= INT_MAX ->
  match CheckAxisDimInRange axes rank with
  | Ok _ => Forall (fun i => - rank <= i < rank) axes
  | Err c msg =>
      c = INVALID_ARGUMENT /\
      exists pre i post,
        axes = pre ++ i :: post /\ Forall (fun i => - rank <= i < rank) pre /\
        ~ (- rank <= i < rank) /\
        msg = "Axis Dimension is out of range. Got " +:+ to_string i +:+
              ", should be in range [-" +:+ to_string rank +:+ ", " +:+
              to_string rank +:+ ")"
  | _ => False
  end.
Proof.
  intros Hrank. destruct (wrap_signed_32_rank rank Hrank) as [Hp Hn].
  induction axes as [|i rest IH]; simpl.
  - constructor.
  - rewrite Hp, Hn.
    destruct ((i <? - rank) || (rank <=? i)) eqn:E.
    + split; [reflexivity|]. exists [], i, rest. repeat split; auto. lia.
    + assert (Hi : - rank <= i < rank) by lia.
      destruct (CheckAxisDimInRange rest rank) as [[]|c msg| |]; auto.
      destruct IH as [-> (pre & j & post & -> & Hpre & Hj & ->)].
      split; [reflexivity|]. exists (i :: pre), j, post. repeat split; auto.
Qed.

Lemma CheckAxisDimInRange_accepts_witness :
  CheckAxisDimInRange [-1; 0; 2] 3 = Ok tt /\
  Forall (fun i => - 3 <= i < 3) [-1; 0; 2].
Proof.
  split; [reflexivity|].
  exact (CheckAxisDimInRange_accepts [-1; 0; 2] 3 ltac:(unfold INT_MAX; lia)).
Defined.

(** ** Axes made positive *)

Lemma reduction_axis_in_range (rank a : Z) :
  0 <= rank <= INT_MAX -> - rank <= a < rank ->
  reduction_axis rank a = positive_axis rank a /\ 0 <= positive_axis rank a < rank.
Proof.
  unfold INT_MAX. intros Hr Ha. unfold reduction_axis, positive_axis.
  rewrite (wrap_signed_small 32 a) by lia.
  rewrite (wrap_signed_small 32 rank) by lia.
  destruct (a <? 0) eqn:E.
  - rewrite wrap_signed_small by lia. unfold wrap_unsigned.
    rewrite Z.mod_small by lia. lia.
  - rewrite Z.add_0_r. rewrite wrap_signed_small by lia. unfold wrap_unsigned.
    rewrite Z.mod_small by lia. lia.
Qed.

(** ** The digits of a mask *)

Lemma mask_bit (mask : Z) (i : nat) :
  (if Z.land (Z.shiftr mask (Z.of_nat i)) 1 =? 1 then 1 else 0) =
  Z.b2z (Z.testbit mask (Z.of_nat i)).
Proof.
  change 1 with (Z.ones 1) at 1. rewrite Z.land_ones by lia.
  rewrite Z.pow_1_r, <- Z.bit0_mod, Z.shiftr_spec by lia. rewrite Z.add_0_l.
  destruct (Z.testbit mask (Z.of_nat i)); reflexivity.
Qed.

Lemma bits_value_digits (mask : Z) (k i : nat) :
  bits_value (map (fun j => Z.b2z (Z.testbit mask (Z.of_nat j))) (seq i k)) =
  (mask / 2 ^ Z.of_nat i) mod 2 ^ Z.of_nat k.
Proof.
  revert i. induction k as [|k IH]; intros i.
  - simpl. rewrite Z.mod_1_r. reflexivity.
  - cbn [seq map bits_value fold_right]. fold (bits_value
      (map (fun j => Z.b2z (Z.testbit mask (Z.of_nat j))) (seq (S i) k))).
    rewrite IH. rewrite Z.testbit_spec' by lia.
    rewrite !Nat2Z.inj_succ. rewrite (Z.pow_succ_r _ (Z.of_nat k)) by lia.
    rewrite (Z.pow_succ_r _ (Z.of_nat i)) by lia.
    rewrite Z.rem_mul_r by lia.
    rewrite (Z.mul_comm 2 (2 ^ Z.of_nat i)).
    rewrite <- Z.div_div by lia. reflexivity.
Qed.

(** X3. The vector [mask_to_vec] makes of a mask has 32 entries, the
    binary digits of the mask from the least one on: entry [i] is bit [i],
    and read as a number the vector is the mask taken as unsigned. *)
Theorem mask_to_vec_digits (mask : Z) :
  length (mask_to_vec mask) = 32%nat /\
  (forall i, (i < 32)%nat ->
     mask_to_vec mask !! i = Some (Z.b2z (Z.testbit mask (Z.of_nat i)))) /\
  bits_value (mask_to_vec mask) = wrap_unsigned 32 mask.
Proof.
  assert (E : mask_to_vec mask =
              map (fun j => Z.b2z (Z.testbit mask (Z.of_nat j))) (seq 0 32)).
  { unfold mask_to_vec. destruct (mask =? 0) eqn:E0.
    - apply Z.eqb_eq in E0. subst mask.
      rewrite (map_ext _ (fun _ => 0)) by (intros; rewrite Z.testbit_0_l; reflexivity).
      reflexivity.
    - apply map_ext. intros j. apply mask_bit. }
  rewrite E. split; [|split].
  - rewrite length_map, length_seq. reflexivity.
  - intros i Hi. rewrite list_lookup_fmap, lookup_seq_lt by lia. reflexivity.
  - rewrite bits_value_digits. change (Z.of_nat 0) with 0.
    rewrite Z.pow_0_r, Z.div_1_r. reflexivity.
Qed.

(** ** The two halves of the paddings *)

Lemma half_succ_succ (n : nat) : (S (S n) / 2 = S (n / 2))%nat.
Proof.
  change (S (S n)) with (2 + n)%nat.
  replace (2 + n)%nat with (n + 1 * 2)%nat by lia.
  rewrite Nat.div_add by lia. lia.
Qed.

Lemma pad_begin_cons (x y : Z) (p : list Z) :
  pad_begin (x :: y :: p) = x :: pad_begin p.
Proof.
  unfold pad_begin. cbn [length]. rewrite half_succ_succ.
  cbn [seq map]. f_equal.
  rewrite <- seq_shift, map_map. apply map_ext. intros i.
  replace (2 * S i)%nat with (S (S (2 * i))) by lia. reflexivity.
Qed.

Lemma pad_end_cons (x y : Z) (p : list Z) :
  pad_end (x :: y :: p) = y :: pad_end p.
Proof.
  unfold pad_end. cbn [length]. rewrite half_succ_succ.
  cbn [seq map]. f_equal.
  rewrite <- seq_shift, map_map. apply map_ext. intros i.
  replace (2 * S i + 1)%nat with (S (S (2 * i + 1))) by lia. reflexivity.
Qed.

Lemma pairs_ind (P : list Z -> Prop) :
  P [] -> (forall x, P [x]) -> (forall x y l, P l -> P (x :: y :: l)) ->
  forall l, P l.
Proof.
  intros H0 H1 H2 l.
  assert (H : P l /\ forall x, P (x :: l)); [|apply H].
  induction l as [|y l [IH1 IH2]]; split; auto.
Qed.

Lemma pads_interleave (paddings : list Z) :
  Nat.even (length paddings) = true ->
  interleave (pad_begin paddings) (pad_end paddings) = paddings.
Proof.
  induction paddings as [|x|x y l IH] using pairs_ind; intros H.
  - reflexivity.
  - discriminate.
  - rewrite pad_begin_cons, pad_end_cons. cbn [interleave].
    rewrite IH; [reflexivity|exact H].
Qed.

(** ** The bounds of a slice *)

Lemma slice_ends_spec (total : nat) (sh : list Z) :
  Forall (fun d => 0 <= d < 2 ^ 63) sh ->
  forall (b sz : list Z) (i : nat),
    length b = length sz -> (i + length sz <= length sh)%nat ->
    Forall (fun z => - 2 ^ 62 <= z < 2 ^ 62) b ->
    Forall (fun z => - 2 ^ 62 <= z < 2 ^ 62) sz ->
    match slice_ends i total b sz sh with
    | Ok ends =>
        length ends = length b /\
        forall j bj szj dj,
          b !! j = Some bj -> sz !! j = Some szj -> sh !! (i + j)%nat = Some dj ->
          slice_ok bj szj dj /\ ends !! j = Some (slice_end bj szj dj)
    | Err c msg =>
        c = INVALID_ARGUMENT /\
        exists j bj szj dj,
          b !! j = Some bj /\ sz !! j = Some szj /\ sh !! (i + j)%nat = Some dj /\
          ~ slice_ok bj szj dj
    | _ => False
    end.
Proof.
  intros Hsh b. induction b as [|b0 b IH]; intros sz i Hlen Hi Hb Hsz.
  - destruct sz; [|discriminate]. simpl. split; [reflexivity|].
    intros j bj szj dj H. rewrite lookup_nil in H. discriminate.
  - destruct sz as [|sz0 sz]; [discriminate|].
    simpl in Hlen, Hi. injection Hlen as Hlen.
    apply Forall_cons in Hb as [Hb0 Hb]. apply Forall_cons in Hsz as [Hsz0 Hsz].
    cbn [slice_ends].
    destruct (sh !! i) as [dim|] eqn:Edim;
      [|apply lookup_ge_None in Edim; lia].
    assert (Hdim : 0 <= dim < 2 ^ 63).
    { rewrite Forall_forall in Hsh. apply Hsh.
      eapply list_elem_of_lookup_2; eauto. }
    assert (Hin : in_int64 (b0 + sz0) = true).
    { unfold in_int64. apply andb_true_iff. split; [apply Z.leb_le|apply Z.ltb_lt]; lia. }
    rewrite Hin, andb_false_r.
    rewrite (wrap_signed_small 64 dim) by lia.
    assert (He : (if negb (sz0 =? -1) then b0 + sz0 else dim) = slice_end b0 sz0 dim).
    { unfold slice_end. destruct (sz0 =? -1); reflexivity. }
    rewrite He. set (e := slice_end b0 sz0 dim).
    destruct (Z.gtb_spec 0 b0) as [Hneg|Hpos].
    { cbn. split; [reflexivity|]. exists 0%nat, b0, sz0, dim.
      rewrite Nat.add_0_r. repeat split; auto. unfold slice_ok. lia. }
    destruct (Z.gtb_spec b0 e) as [Hgt|Hle].
    { cbn. split; [reflexivity|]. exists 0%nat, b0, sz0, dim.
      rewrite Nat.add_0_r. repeat split; auto. unfold slice_ok. fold e. lia. }
    unfold wrap_unsigned. rewrite (Z.mod_small b0) by lia.
    destruct (Z.gtb_spec b0 dim) as [Hgd|Hld].
    { cbn. split; [reflexivity|]. exists 0%nat, b0, sz0, dim.
      rewrite Nat.add_0_r. repeat split; auto. unfold slice_ok. lia. }
    cbn [String.append String.eqb negb].
    specialize (IH sz (S i) Hlen ltac:(lia) Hb Hsz).
    destruct (slice_ends (S i) total b sz sh) as [ends|c msg| |]; cbn [obind]; auto.
    + destruct IH as [IHlen IH]. split; [simpl; lia|].
      intros [|j] bj szj dj Hbj Hszj Hdj.
      * rewrite Nat.add_0_r in Hdj. simpl in Hbj, Hszj.
        injection Hbj as <-. injection Hszj as <-.
        rewrite Edim in Hdj. injection Hdj as <-.
        split; [unfold slice_ok; fold e; lia|reflexivity].
      * simpl in Hbj, Hszj. replace (i + S j)%nat with (S i + j)%nat in Hdj by lia.
        exact (IH j bj szj dj Hbj Hszj Hdj).
    + destruct IH as [-> (j & bj & szj & dj & Hbj & Hszj & Hdj & Hnot)].
      split; [reflexivity|]. exists (S j), bj, szj, dj.
      replace (i + S j)%nat with (S i + j)%nat by lia. auto.
Qed.

(** X5. The bounds of a slice that [TranslateSliceOp] accepts: at every
    position the begin is not negative, not beyond the end, and not beyond
    the size of the axis, the end being the begin plus the size, or the
    size of the axis when the size is -1. The end itself is not compared
    with the size of the axis. Any other slice is an InvalidArgument. *)
Theorem slice_ends_accepts (begin_vec size_vec ng_input_shape : list Z) :
  length begin_vec = length size_vec ->
  (length size_vec <= length ng_input_shape)%nat ->
  Forall (fun z => - 2 ^ 62 <= z < 2 ^ 62) begin_vec ->
  Forall (fun z => - 2 ^ 62 <= z < 2 ^ 62) size_vec ->
  Forall (fun d => 0 <= d < 2 ^ 63) ng_input_shape ->
  match slice_ends 0 (length size_vec) begin_vec size_vec ng_input_shape with
  | Ok end_vec =>
      length end_vec = length begin_vec /\
      forall i b sz dim,
        begin_vec !! i = Some b -> size_vec !! i = Some sz ->
        ng_input_shape !! i = Some dim ->
        slice_ok b sz dim /\ end_vec !! i = Some (slice_end b sz dim)
  | Err c msg =>
      c = INVALID_ARGUMENT /\
      exists i b sz dim,
        begin_vec !! i = Some b /\ size_vec !! i = Some sz /\
        ng_input_shape !! i = Some dim /\ ~ slice_ok b sz dim
  | _ => False
  end.
Proof.
  intros Hlen Hsh Hb Hsz Hd.
  exact (slice_ends_spec (length size_vec) ng_input_shape Hd begin_vec size_vec 0
           Hlen Hsh Hb Hsz).
Qed.

Lemma slice_ends_accepts_witness :
  slice_ends 0 2 [1; 0] [5; -1] [4; 3] = Ok [6; 3] /\
  slice_ok 1 5 4.
Proof.
  split; [reflexivity|].
  assert (H := slice_ends_accepts [1; 0] [5; -1] [4; 3] eq_refl
                 ltac:(simpl; lia)
                 ltac:(repeat constructor; lia) ltac:(repeat constructor; lia)
                 ltac:(repeat constructor; lia)).
  destruct H as [_ H]. exact (proj1 (H 0%nat 1 5 4 eq_refl eq_refl eq_refl)).
Defined.

(** ** The lengths of a split *)

Lemma split_total_spec (rest : list Z) :
  Forall (fun l => -1 <= l) rest ->
  forall (i len idx : Z) (has : bool),
    0 <= len -> len + sum_list (other_lengths rest) <= INT_MAX ->
    match split_total rest i len idx has with
    | Ok (len', idx', has') =>
        len' = len + sum_list (other_lengths rest) /\
        ((has' = has /\ idx' = idx /\ other_lengths rest = rest) \/
         (has = false /\ has' = true /\
          exists pre post,
            rest = pre ++ -1 :: post /\ idx' = i + Z.of_nat (length pre) /\
            other_lengths pre = pre /\ other_lengths post = post))
    | Err c msg => c = INVALID_ARGUMENT
    | _ => False
    end.
Proof.
  unfold INT_MAX.
  induction rest as [|l rest IH]; intros Hall i len idx has Hlen Hsum.
  - simpl. split; [lia|]. left. auto.
  - apply Forall_cons in Hall as [Hl Hall]. cbn [split_total].
    unfold other_lengths in *. cbn [List.filter] in *.
    destruct (l =? -1) eqn:El; cbn [negb] in *.
    + apply Z.eqb_eq in El. subst l. destruct has; [reflexivity|].
      specialize (IH Hall (i + 1) len i true Hlen Hsum).
      destruct (split_total rest (i + 1) len i true) as [[[len' idx'] has']|c msg| |];
        auto.
      destruct IH as [-> [(-> & -> & Hrest)|(Hf & _)]]; [|discriminate].
      split; [reflexivity|]. right. split; [reflexivity|]. split; [reflexivity|].
      exists [], rest. simpl. repeat split; auto. lia.
    + apply Z.eqb_neq in El. cbn [sum_list fold_right] in Hsum.
      fold (sum_list (List.filter (fun l => negb (l =? -1)) rest)) in Hsum.
      assert (Hnn : 0 <= sum_list (List.filter (fun l => negb (l =? -1)) rest)).
      { clear -Hall. induction Hall as [|x r Hx Hr IHr]; simpl; [lia|].
        destruct (x =? -1) eqn:E; simpl; [exact IHr|].
        apply Z.eqb_neq in E. fold (sum_list (List.filter (fun l => negb (l =? -1)) r)).
        lia. }
      unfold INT_MIN, INT_MAX.
      replace ((-2147483648 <=? len + l) && (len + l <=? 2147483647)) with true
        by (symmetry; apply andb_true_iff; split; apply Z.leb_le; lia).
      specialize (IH Hall (i + 1) (len + l) idx has ltac:(lia) ltac:(lia)).
      destruct (split_total rest (i + 1) (len + l) idx has)
        as [[[len' idx'] has']|c msg| |]; auto.
      destruct IH as [-> Hcase]. split.
      { cbn [sum_list fold_right].
        fold (sum_list (List.filter (fun l => negb (l =? -1)) rest)). lia. }
      destruct Hcase as [(-> & -> & Hrest)|(-> & -> & pre & post & -> & -> & Hpre & Hpost)].
      * left. repeat split; auto. rewrite Hrest. reflexivity.
      * right. repeat split; auto. exists (l :: pre), post.
        cbn [List.filter length]. apply Z.eqb_neq in El. rewrite El. cbn [negb].
        rewrite Hpre. repeat split; auto. lia.
Qed.

Lemma sum_list_app (a b : list Z) : sum_list (a ++ b) = sum_list a + sum_list b.
Proof.
  induction a as [|x a IH]; simpl; [reflexivity|].
  fold (sum_list (a ++ b)). fold (sum_list a). lia.
Qed.

Lemma other_lengths_app (a b : list Z) :
  other_lengths (a ++ b) = other_lengths a ++ other_lengths b.
Proof. unfold other_lengths. apply List.filter_app. Qed.

Lemma other_lengths_nonneg (v : list Z) :
  Forall (fun l => -1 <= l) v -> other_lengths v = v -> Forall (fun l => 0 <= l) v.
Proof.
  intros Hall. induction Hall as [|x r Hx Hr IH]; intros H; [constructor|].
  unfold other_lengths in *. cbn [List.filter] in H.
  destruct (x =? -1) eqn:E; cbn [negb] in H.
  - exfalso. assert (Hlen : (length (List.filter (fun l => negb (l =? -1)%Z) r) <= length r)%nat)
      by apply List.filter_length_le.
    rewrite H in Hlen. simpl in Hlen. lia.
  - injection H as H. apply Z.eqb_neq in E. constructor; [lia|auto].
Qed.

(** X6. What [TranslateSplitVOp] makes of the split lengths, each of
    them -1 or not negative: it never accepts a -1 in the first place, nor
    two of them; when it accepts the lengths, they are those given, with
    the -1 (if any) replaced, none is negative, and they sum to the size of
    the axis. Every failure is an InvalidArgument. *)
Theorem size_splits_sum (split_lengths_vec : list Z) (dim : Z) :
  Forall (fun l => -1 <= l) split_lengths_vec ->
  sum_list (other_lengths split_lengths_vec) <= INT_MAX ->
  0 <= dim <= INT_MAX ->
  match size_splits split_lengths_vec (Some dim) with
  | Ok lengths =>
      sum_list lengths = dim /\ Forall (fun l => 0 <= l) lengths /\
      length lengths = length split_lengths_vec /\
      hd 0 split_lengths_vec <> -1 /\
      (forall i l, split_lengths_vec !! i = Some l -> l <> -1 -> lengths !! i = Some l)
  | Err c msg => c = INVALID_ARGUMENT
  | _ => False
  end.
Proof.
  unfold INT_MAX. intros Hall Hsum Hdim. unfold size_splits.
  assert (H := split_total_spec split_lengths_vec Hall 0 0 (-1) false ltac:(lia)
                 ltac:(unfold INT_MAX; lia)).
  destruct (split_total split_lengths_vec 0 0 (-1) false)
    as [[[len idx] has]|c msg| |]; cbn [obind]; auto.
  destruct H as [Hlen Hcase]. rewrite Z.add_0_l in Hlen.
  assert (Hnn : 0 <= len).
  { subst len. clear -Hall. induction Hall as [|x r Hx Hr IHr]; simpl; [lia|].
    unfold other_lengths in *. cbn [List.filter].
    destruct (x =? -1) eqn:E; simpl; [exact IHr|].
    apply Z.eqb_neq in E.
    fold (sum_list (List.filter (fun l => negb (l =? -1)) r)). lia. }
  destruct Hcase as [(-> & -> & Hsame)|(_ & -> & pre & post & Hv & -> & Hpre & Hpost)].
  - cbn [Z.ltb Z.compare negb obind].
    unfold wrap_unsigned. rewrite Z.mod_small by lia.
    destruct (len =? dim) eqn:E; cbn [negb]; [|reflexivity].
    apply Z.eqb_eq in E. rewrite Hsame in Hlen.
    assert (Hpos := other_lengths_nonneg _ Hall Hsame).
    repeat split; auto; [lia|].
    destruct split_lengths_vec as [|x r]; simpl; [lia|].
    apply Forall_cons in Hpos as [Hx _]. lia.
  - rewrite Z.add_0_l. subst split_lengths_vec.
    rewrite other_lengths_app in Hlen, Hsum. cbn [other_lengths List.filter] in Hlen, Hsum.
    change (-1 =? -1) with true in Hlen, Hsum. cbn [negb] in Hlen, Hsum.
    fold (other_lengths post) in Hlen, Hsum. rewrite Hpre, Hpost in Hlen, Hsum.
    rewrite sum_list_app in Hlen, Hsum.
    apply Forall_app in Hall as [Hallpre Hallpost].
    apply Forall_cons in Hallpost as [_ Hallpost].
    assert (Hp1 := other_lengths_nonneg _ Hallpre Hpre).
    assert (Hp2 := other_lengths_nonneg _ Hallpost Hpost).
    destruct pre as [|x pre].
    + cbn [length Z.of_nat Z.ltb Z.compare obind negb Z.to_nat nth app]. reflexivity.
    + replace (0 <? Z.of_nat (length (x :: pre))) with true
        by (symmetry; apply Z.ltb_lt; simpl; lia).
      cbn [obind negb]. rewrite Nat2Z.id.
      rewrite (wrap_signed_small 32 (dim - len)) by lia.
      set (n := length (x :: pre)).
      rewrite (insert_app_r_alt (x :: pre) (-1 :: post) n) by (unfold n; lia).
      unfold n. rewrite Nat.sub_diag. cbn [insert list_insert].
      rewrite (app_nth2 (x :: pre)) by (unfold ge; lia). rewrite Nat.sub_diag. cbn [nth].
      destruct (dim - len <? 0) eqn:E; [reflexivity|].
      apply Z.ltb_ge in E.
      split; [|split; [|split; [|split]]].
      * rewrite sum_list_app. unfold sum_list in *. cbn [fold_right] in *. lia.
      * apply Forall_app. split; [exact Hp1|]. constructor; [lia|exact Hp2].
      * rewrite !length_app. reflexivity.
      * simpl. apply Forall_cons in Hp1 as [Hx _]. lia.
      * intros i l Hi Hl.
        destruct (decide (i < length (x :: pre))%nat) as [Hlt|Hge].
        { rewrite lookup_app_l in Hi |- * by lia. exact Hi. }
        rewrite lookup_app_r in Hi |- * by lia.
        destruct (i - length (x :: pre))%nat as [|k] eqn:Ek.
        { simpl in Hi. injection Hi as <-. contradiction. }
        simpl in Hi |- *. exact Hi.
Qed.

Lemma size_splits_sum_witness :
  size_splits [2; -1; 3] (Some 10) = Ok [2; 5; 3] /\ sum_list [2; 5; 3] = 10.
Proof.
  split; [reflexivity|].
  assert (H := size_splits_sum [2; -1; 3] 10 ltac:(repeat constructor; lia)
                 ltac:(vm_compute; discriminate) ltac:(unfold INT_MAX; lia)).
  exact (proj1 H).
Defined.

(** ** The op map *)

(** X17. An output saved for a node is what a consumer gets whose edge
    names that node and the position at which the output was saved; the
    outputs that could be fetched before can still be fetched, and are the
    same. Saving builds no node. *)
Theorem SaveNgOp_then_GetInputNode (nm : string) (o : Output) (s : State) :
  exists s',
    SaveNgOp nm o s = Ok (tt, s') /\ heap s' = heap s /\
    (forall op i,
       in_edges op !! i = Some (nm, length (default [] (ng_op_map s !! nm))) ->
       GetInputNode op i s' = Ok (o, s')) /\
    (forall op i r, GetInputNode op i s = Ok (r, s) -> GetInputNode op i s' = Ok (r, s')).
Proof.
  eexists. split; [reflexivity|]. split; [reflexivity|]. split.
  - intros op i Hedge. unfold GetInputNode. rewrite Hedge. cbn [ng_op_map].
    rewrite lookup_insert. rewrite decide_True by reflexivity.
    rewrite lookup_app_r by lia. rewrite Nat.sub_diag. reflexivity.
  - intros op i r. unfold GetInputNode.
    destruct (in_edges op !! i) as [[src k]|]; [|discriminate].
    cbn [ng_op_map]. destruct (decide (src = nm)) as [->|Hne].
    + rewrite lookup_insert. rewrite decide_True by reflexivity.
      destruct (ng_op_map s !! nm) as [outs|]; [|discriminate]. cbn [default id].
      intros H.
      match type of H with match ?x with _ => _ end = _ =>
        destruct x as [r'|] eqn:E; [|discriminate] end.
      injection H as <-. rewrite lookup_app_l by (eapply lookup_lt_Some; eauto).
      rewrite E. reflexivity.
    + rewrite lookup_insert_ne by congruence.
      destruct (ng_op_map s !! src) as [outs|]; [|discriminate].
      intros H.
      match type of H with match ?x with _ => _ end = _ =>
        destruct x as [r'|] eqn:E; [|discriminate] end.
      injection H as <-. reflexivity.
Qed.

(** ** Tensors turned into vectors *)

(** X18. [TensorDataToVector<T>] succeeds exactly on a tensor whose
    element type is that of [T] or one of float, double, the signed and
    unsigned integers of 8 to 64 bits, and bool; it gives one value for
    each element of the tensor, the values themselves when the types
    agree. On any other tensor it returns an Internal error. *)
Theorem TensorDataToVector_types (convert : CType -> CType -> Z -> Z) (T : CType)
    (tensor : Tensor) :
  match TensorDataToVector convert T tensor with
  | Ok vector =>
      (t_dtype tensor = DataTypeToEnum T \/ t_dtype tensor ∈ convertible_types) /\
      length vector = length (t_data tensor) /\
      (t_dtype tensor = DataTypeToEnum T -> vector = t_data tensor)
  | Err c msg =>
      c = INTERNAL /\ t_dtype tensor <> DataTypeToEnum T /\
      t_dtype tensor ∉ convertible_types
  | _ => False
  end.
Proof.
  unfold TensorDataToVector.
  destruct (bool_decide (t_dtype tensor = DataTypeToEnum T)) eqn:E.
  - apply bool_decide_eq_true in E. auto.
  - apply bool_decide_eq_false in E.
    destruct (t_dtype tensor) eqn:Edt; cbn [convertible_from];
      first
        [ split; [reflexivity|]; split; [exact E|];
          unfold convertible_types; intros Hin;
          repeat (apply elem_of_cons in Hin as [Hin|Hin]; [discriminate|]);
          apply elem_of_nil in Hin; exact Hin
        | split; [right; unfold convertible_types;
                  repeat first [apply list_elem_of_here | apply list_elem_of_further]|];
          split; [unfold ConvertTensorDataToVector; apply length_map|];
          intros; contradiction ].
Qed.

(** ** The payload of a constant *)

Lemma byte_of_value (z : Z) : 0 <= z < 256 -> Z.of_N (Byte.to_N (byte_of z)) = z.
Proof.
  intros Hz. unfold byte_of.
  destruct (Byte.of_N (Z.to_N z)) as [b|] eqn:E.
  - unfold default. cbn [from_option id]. rewrite (Byte.to_of_N _ E). rewrite Z2N.id by lia. reflexivity.
  - apply Byte.of_N_None_iff in E. lia.
Qed.

Lemma le_value_le_bytes (n : nat) (z : Z) :
  le_value (le_bytes n z) = z mod 256 ^ Z.of_nat n.
Proof.
  revert z. induction n as [|n IH]; intros z.
  - simpl. rewrite Z.mod_1_r. reflexivity.
  - cbn [le_bytes le_value fold_right]. fold (le_value (le_bytes n (z / 256))).
    rewrite IH, byte_of_value by (apply Z.mod_pos_bound; lia).
    rewrite Nat2Z.inj_succ, Z.pow_succ_r by lia.
    rewrite Z.rem_mul_r by lia. reflexivity.
Qed.

Lemma length_le_bytes (n : nat) (z : Z) : length (le_bytes n z) = n.
Proof. revert z. induction n as [|n IH]; intros z; simpl; [|rewrite IH]; reflexivity. Qed.

Lemma chunks_concat {A} (size : nat) (blocks : list (list A)) :
  (0 < size)%nat -> Forall (fun b => length b = size) blocks ->
  forall fuel, (length blocks <= fuel)%nat ->
    chunks fuel size (concat blocks) = blocks.
Proof.
  intros Hsize Hall. induction Hall as [|b bs Hb Hbs IH]; intros fuel Hfuel.
  - destruct fuel; reflexivity.
  - destruct fuel as [|fuel]; [simpl in Hfuel; lia|].
    cbn [concat]. destruct b as [|x b]; [simpl in Hb; lia|].
    cbn [chunks app]. change (x :: b ++ concat bs) with ((x :: b) ++ concat bs).
    rewrite take_app_length' by (symmetry; exact Hb).
    rewrite drop_app_length' by (symmetry; exact Hb).
    rewrite IH by (simpl in Hfuel; lia). reflexivity.
Qed.

Lemma cast_to_bytes (T : CType) (z : Z) :
  representable T z -> cast_to T (z mod 256 ^ Z.of_nat (Z.to_nat (sizeof T))) = z.
Proof.
  unfold representable. intros H. rewrite <- H at 2.
  destruct T; cbn [sizeof cast_to]; unfold wrap_unsigned, wrap_signed;
    change (256 ^ Z.of_nat (Z.to_nat 1)) with (2 ^ 8);
    change (256 ^ Z.of_nat (Z.to_nat 2)) with (2 ^ 16);
    change (256 ^ Z.of_nat (Z.to_nat 4)) with (2 ^ 32);
    change (256 ^ Z.of_nat (Z.to_nat 8)) with (2 ^ 64);
    first [ apply Z.mod_mod; lia
          | rewrite Zplus_mod_idemp_l; reflexivity ].
Qed.

Lemma CopyToArray_le_bytes (T : CType) (vs : list Z) :
  Forall (representable T) vs ->
  CopyToArray T (concat (map (le_bytes (Z.to_nat (sizeof T))) vs)) = vs.
Proof.
  intros Hall. unfold CopyToArray.
  assert (Hsize : (0 < Z.to_nat (sizeof T))%nat) by (destruct T; simpl; lia).
  rewrite chunks_concat.
  - rewrite map_map. rewrite <- (map_id vs) at 2. apply map_ext_Forall.
    eapply Forall_impl; [exact Hall|]. intros z Hz. cbn beta.
    rewrite le_value_le_bytes. apply cast_to_bytes. exact Hz.
  - exact Hsize.
  - apply Forall_map, Forall_forall. intros z _. apply length_le_bytes.
  - rewrite length_map.
    assert (Hlen : forall l : list Z,
              length (concat (map (le_bytes (Z.to_nat (sizeof T))) l)) =
              (Z.to_nat (sizeof T) * length l)%nat).
    { induction l as [|x l IH]; simpl; [lia|].
      rewrite length_app, length_le_bytes, IH. lia. }
    rewrite Hlen. nia.
Qed.

(** X19. A constant that carries its values as raw bytes, and none in
    the repeated field of its type, is decoded to the numbers whose
    little-endian bytes the buffer holds, [sizeof(T)] bytes for each. The
    declared shape is handed back as it is, whatever the number of values
    it announces. *)
Theorem raw_content_round_trip (pf : Platform) (T : CType) (node : Node)
    (tensor : TensorProto) (vs : list Z) :
  type_string node = "Const" ->
  attrs node !! "dtype" = Some (AttrType (DataTypeToEnum T)) ->
  attrs node !! "value" = Some (AttrTensor tensor) ->
  MutableTensorProtoData T tensor = [] ->
  vs <> [] -> Forall (representable T) vs ->
  tensor_content tensor = concat (map (le_bytes (Z.to_nat (sizeof T))) vs) ->
  ValuesFromConstNode pf T node = Ok (tensor_shape tensor, vs).
Proof.
  intros Hty Hdt Hval Hfield Hne Hrep Hcontent.
  assert (Hlen : Z.of_nat (length (tensor_content tensor)) =
                 sizeof T * Z.of_nat (length vs)).
  { rewrite Hcontent. clear. induction vs as [|x l IH]; cbn [map concat length].
    - lia.
    - rewrite length_app, length_le_bytes, Nat2Z.inj_add, IH.
      rewrite Z2Nat.id by (destruct T; simpl; lia). simpl length. lia. }
  assert (Hsz : 0 < sizeof T) by (destruct T; simpl; lia).
  unfold ValuesFromConstNode. rewrite Hty. cbn [String.eqb negb].
  replace ("Const" ==s "Const") with true by reflexivity. cbn [negb].
  unfold attr_at. rewrite Hdt, Hval. cbn [obind attr_type attr_tensor].
  rewrite bool_decide_eq_true_2 by reflexivity. cbn [negb].
  rewrite Hfield. rewrite (bool_decide_eq_true_2 _ eq_refl). cbn [negb andb].
  rewrite Hlen. rewrite Z.mul_comm, Z.mod_mul by lia. cbn [Z.eqb negb].
  replace (Z.of_nat (length vs) * sizeof T =? 0) with false.
  - rewrite Hcontent. rewrite CopyToArray_le_bytes by exact Hrep. reflexivity.
  - symmetry. apply Z.eqb_neq. destruct vs; [contradiction|]. simpl length. nia.
Qed.

Lemma fill_loop_no_values (pf : Platform) (T : CType) (dt : DataType)
    (tensor : TensorProto) :
  typed_val dt tensor = Some [] ->
  forall (fuel : nat) (i : Z) (values : list Z) (val_lastsaved : Z),
    i + Z.of_nat fuel <= INT_MAX ->
    fill_loop pf T dt tensor fuel i values val_lastsaved =
      match fuel with
      | O => Ok values
      | S _ =>
          if (1 <? TF_MAJOR_VERSION pf) && (7 <=? TF_MINOR_VERSION pf) then Ok values
          else Err INVALID_ARGUMENT "Empty values vector"
      end.
Proof.
  intros Hfield. induction fuel as [|fuel IH]; intros i values last Hi; [reflexivity|].
  cbn [fill_loop]. rewrite Hfield. cbv beta zeta.
  change (Z.of_nat (length (@nil Z))) with 0. change (0 =? 0) with true. cbv iota.
  destruct ((1 <? TF_MAJOR_VERSION pf) && (7 <=? TF_MINOR_VERSION pf)) eqn:E;
    [|reflexivity].
  replace (i =? INT_MAX) with false by (symmetry; apply Z.eqb_neq; lia).
  rewrite IH by lia. destruct fuel; reflexivity.
Qed.

(** X20. A constant of element type int32, int64, float, double or bool
    that carries no value at all, neither raw bytes nor a value list, and
    whose shape announces n > 0 elements: with TensorFlow's major version
    above 1 and minor version at least 7 it is decoded to n zeros; with
    any other version it is an InvalidArgument. *)
Theorem constant_without_values (pf : Platform) (T : CType) (node : Node)
    (tensor : TensorProto) (n : Z) :
  type_string node = "Const" ->
  attrs node !! "dtype" = Some (AttrType (DataTypeToEnum T)) ->
  attrs node !! "value" = Some (AttrTensor tensor) ->
  T ∈ [c_int32; c_int64; c_float; c_bool; c_double] ->
  tensor_content tensor = [] ->
  MutableTensorProtoData T tensor = [] ->
  Forall (fun d => 0 <= d) (tensor_shape tensor) ->
  shape_size (tensor_shape tensor) = n -> 0 < n <= INT_MAX ->
  ValuesFromConstNode pf T node =
    if (1 <? TF_MAJOR_VERSION pf) && (7 <=? TF_MINOR_VERSION pf)
    then Ok (tensor_shape tensor, replicate (Z.to_nat n) 0)
    else Err INVALID_ARGUMENT "Empty values vector".
Proof.
  unfold INT_MAX. intros Hty Hdt Hval HT Hcontent Hfield Hdims Hn Hrange.
  assert (Hpos : Forall (fun d => 1 <= d) (tensor_shape tensor))
    by (apply dims_positive; [exact Hdims|lia]).
  unfold ValuesFromConstNode. rewrite Hty.
  replace ("Const" ==s "Const") with true by reflexivity. cbn [negb].
  unfold attr_at. rewrite Hdt, Hval. cbn [obind attr_type attr_tensor].
  rewrite bool_decide_eq_true_2 by reflexivity. cbn [negb].
  rewrite Hfield. rewrite (bool_decide_eq_true_2 _ eq_refl). cbn [negb andb].
  rewrite Hcontent. cbn [length Z.of_nat]. rewrite Z.mod_0_l by (destruct T; simpl; lia).
  cbn [Z.eqb negb].
  rewrite (count_elements_exact _ Hpos 1) by lia. rewrite Z.mul_1_l, Hn.
  cbn [obind]. replace (n <? 0) with false by (symmetry; apply Z.ltb_ge; lia).
  assert (Htv : typed_val (DataTypeToEnum T) tensor = Some [])
    by (rewrite typed_val_of_field, Hfield by exact HT; reflexivity).
  rewrite (fill_loop_no_values pf T (DataTypeToEnum T) tensor Htv)
    by (unfold INT_MAX; rewrite Z2Nat.id by lia; lia).
  destruct (Z.to_nat n) eqn:En; [lia|].
  destruct ((1 <? TF_MAJOR_VERSION pf) && (7 <=? TF_MINOR_VERSION pf)); reflexivity.
Qed.

Lemma constant_without_values_witness :
  ValuesFromConstNode ref_platform c_float empty_float_const =
    Err INVALID_ARGUMENT "Empty values vector".
Proof.
  apply (constant_without_values ref_platform c_float empty_float_const
           empty_float_proto 6).
  - reflexivity.
  - vm_compute. reflexivity.
  - vm_compute. reflexivity.
  - repeat first [apply list_elem_of_here | apply list_elem_of_further].
  - reflexivity.
  - reflexivity.
  - repeat constructor; simpl; lia.
  - reflexivity.
  - unfold INT_MAX. lia.
Defined.

Lemma count_elements_unknown (dims : list Z) :
  Exists (fun d => d < 0) dims ->
  forall acc,
    count_elements dims acc =
      Err INVALID_ARGUMENT "Const node has empty tensor and an unknown dimension size".
Proof.
  induction 1 as [d rest Hd|d rest _ IH]; intros acc; cbn [count_elements].
  - replace (d <? 0) with true by (symmetry; apply Z.ltb_lt; lia). reflexivity.
  - destruct (d <? 0); [reflexivity|apply IH].
Qed.

(** X21. A constant that carries no raw bytes and whose shape has a
    dimension of negative (unknown) size is an InvalidArgument, for every
    element type and whatever its value lists hold. *)
Theorem unknown_dimension_rejected (pf : Platform) (T : CType) (node : Node)
    (tensor : TensorProto) :
  type_string node = "Const" ->
  attrs node !! "dtype" = Some (AttrType (DataTypeToEnum T)) ->
  attrs node !! "value" = Some (AttrTensor tensor) ->
  tensor_content tensor = [] ->
  Exists (fun d => d < 0) (tensor_shape tensor) ->
  ValuesFromConstNode pf T node =
    Err INVALID_ARGUMENT "Const node has empty tensor and an unknown dimension size".
Proof.
  intros Hty Hdt Hval Hcontent Hneg.
  unfold ValuesFromConstNode. rewrite Hty.
  replace ("Const" ==s "Const") with true by reflexivity. cbn [negb].
  unfold attr_at. rewrite Hdt, Hval. cbn [obind attr_type attr_tensor].
  rewrite bool_decide_eq_true_2 by reflexivity. cbn [negb].
  replace (negb (bool_decide (MutableTensorProtoData T tensor = [])) &&
           has_tensor_shape tensor &&
           bool_decide (length (tensor_shape tensor) = 1%nat) &&
           (hd 0 (tensor_shape tensor) =? Z.of_nat (length (MutableTensorProtoData T tensor))))
    with false.
  - rewrite Hcontent. cbn [length Z.of_nat].
    rewrite Z.mod_0_l by (destruct T; simpl; lia). cbn [Z.eqb negb].
    rewrite count_elements_unknown by exact Hneg. reflexivity.
  - symmetry. apply andb_false_iff.
    destruct (bool_decide (length (tensor_shape tensor) = 1%nat)) eqn:E1;
      [|left; apply andb_false_r].
    right. apply bool_decide_eq_true in E1.
    destruct (tensor_shape tensor) as [|d [|]]; try discriminate.
    apply Exists_cons in Hneg as [Hd|Hnil]; [|apply Exists_nil in Hnil; contradiction].
    cbn [hd]. apply Z.eqb_neq. lia.
Qed.

Lemma unknown_dimension_rejected_witness :
  ValuesFromConstNode ref_platform c_int8 unknown_dim_const =
    Err INVALID_ARGUMENT "Const node has empty tensor and an unknown dimension size".
Proof.
  apply (unknown_dimension_rejected ref_platform c_int8 unknown_dim_const
           unknown_dim_proto).
  - reflexivity.
  - vm_compute. reflexivity.
  - vm_compute. reflexivity.
  - reflexivity.
  - apply Exists_cons_tl, Exists_cons_hd. lia.
Defined.

(** ** The driver *)

Lemma split_ops_control_flow (ext : Externals) (ordered : list Node) :
  forall P R O,
    match split_ops ext ordered P R O with
    | Ok _ =>
        Forall (fun n => IsSink n || IsSource n = true \/ IsControlFlow n = false)
          ordered
    | Err c msg =>
        c = UNIMPLEMENTED /\
        exists m,
          In m ordered /\ IsSink m || IsSource m = false /\ IsControlFlow m = true /\
          msg = "Encountered a control flow op in the openvino_tensorflow: " +:+
                DebugString ext m
    | _ => False
    end.
Proof.
  induction ordered as [|n rest IH]; intros P R O; cbn [split_ops].
  - constructor.
  - destruct (IsSink n || IsSource n) eqn:Es.
    { specialize (IH P R O). destruct (split_ops ext rest P R O) as [x|c msg| |]; auto.
      destruct IH as [-> (m & Hm & H)]. split; [reflexivity|].
      exists m. split; [right; exact Hm|exact H]. }
    destruct (IsControlFlow n) eqn:Ec.
    { split; [reflexivity|]. exists n. repeat split; auto. left. reflexivity. }
    assert (Hstep : forall P R O,
              match split_ops ext rest P R O with
              | Ok _ =>
                  Forall
                    (fun n => IsSink n || IsSource n = true \/ IsControlFlow n = false)
                    (n :: rest)
              | Err c msg =>
                  c = UNIMPLEMENTED /\
                  exists m,
                    In m (n :: rest) /\ IsSink m || IsSource m = false /\
                    IsControlFlow m = true /\
                    msg = "Encountered a control flow op in the openvino_tensorflow: " +:+
                          DebugString ext m
              | _ => False
              end).
    { intros P' R' O'. specialize (IH P' R' O').
      destruct (split_ops ext rest P' R' O') as [x|c msg| |]; auto.
      destruct IH as [-> (m & Hm & H)]. split; [reflexivity|].
      exists m. split; [right; exact Hm|exact H]. }
    destruct (IsArg n); [apply Hstep|]. destruct (IsRetval n); apply Hstep.
Qed.

(** X13. A control-flow operator anywhere among the visited nodes makes
    [TranslateGraph] fail with Unimplemented before any node is built,
    whether or not the operator feeds a result; the message carries the
    debug string of a control-flow node of the graph. *)
Theorem control_flow_aborts (ext : Externals) (inputs : list (list Z))
    (sim : list (option Tensor)) (g : list Node) (nm : string)
    (tensors : list Tensor) (n : Node) :
  In n (GetReversePostOrder g) -> IsSink n || IsSource n = false ->
  IsControlFlow n = true ->
  exists m,
    In m (GetReversePostOrder g) /\ IsControlFlow m = true /\
    TranslateGraph ext inputs sim g nm tensors =
      Err UNIMPLEMENTED
        ("Encountered a control flow op in the openvino_tensorflow: " +:+
         DebugString ext m).
Proof.
  intros Hin Hs Hc. unfold TranslateGraph.
  pose proof (split_ops_control_flow ext (GetReversePostOrder g) [] [] []) as H.
  destruct (split_ops ext (GetReversePostOrder g) [] [] []) as [x|c msg| |].
  - rewrite Forall_forall in H. apply list_elem_of_In in Hin.
    destruct (H n Hin) as [H1|H1]; congruence.
  - destruct H as [-> (m & Hm & _ & Hcm & ->)]. exists m. auto.
  - contradiction.
  - contradiction.
Qed.

Lemma control_flow_aborts_witness :
  exists m,
    In m (GetReversePostOrder merge_graph) /\ IsControlFlow m = true /\
    TranslateGraph ref_ext [[2; 3]] [None] merge_graph "f" [] =
      Err UNIMPLEMENTED
        ("Encountered a control flow op in the openvino_tensorflow: " +:+
         DebugString ref_ext m).
Proof.
  apply (control_flow_aborts ref_ext [[2; 3]] [None] merge_graph "f" []
           (mk_node "m" "Merge" [] [("x", 0%nat)])).
  - vm_compute. auto.
  - reflexivity.
  - reflexivity.
Defined.

(** X14. The loop over the operators never leaves by an exception: an
    exception that leaves a handler is reported as an Internal error,
    whose message gives the name and the kind of the node, its debug
    string, and what the exception says. *)
Theorem op_loop_catches_exceptions (ext : Externals) (g : gmap string Node)
    (sim : list (option Tensor)) :
  (forall ops s what, for_each (translate_op ext g sim) ops s <> Throws what) /\
  (forall op (handler : Handler) what s,
     TRANSLATE_OP_MAP ext !! type_string op = Some handler ->
     handler g op sim s = Throws what ->
     translate_op ext g sim op s =
       Err INTERNAL
         ("Unhandled exception in op handler: " +:+ name op +:+ " (" +:+
          type_string op +:+ ")" +:+ newline +:+ DebugString ext op +:+ newline +:+
          "what(): " +:+ what)).
Proof.
  assert (Hop : forall op s what, translate_op ext g sim op s <> Throws what).
  { intros op s what. unfold translate_op.
    match goal with |- context [match ?x with Some _ => _ | None => _ end] =>
      destruct x as [handler|] end; [|discriminate].
    unfold catch_exception. destruct (handler g op sim s); discriminate. }
  split.
  - induction ops as [|op ops IH]; intros s what; cbn [for_each]; [discriminate|].
    unfold bind. specialize (Hop op s).
    destruct (translate_op ext g sim op s) as [[[] s1]| |w|]; try discriminate.
    + apply IH.
    + exfalso. exact (Hop w eq_refl).
  - intros op handler what s Hreg Hthrows. unfold translate_op.
    rewrite Hreg. unfold catch_exception. rewrite Hthrows. reflexivity.
Qed.

Lemma set_needs_default_layout_length (h : list NgNode) (id : nat) :
  length (set_needs_default_layout h id) = length h.
Proof.
  unfold set_needs_default_layout. destruct (h !! id); [|reflexivity].
  apply length_insert.
Qed.

Lemma set_needs_default_layout_keeps (h : list NgNode) (id r : nat) :
  (forall node, h !! r = Some node -> needs_default_layout node = true) ->
  forall node, set_needs_default_layout h id !! r = Some node ->
    needs_default_layout node = true.
Proof.
  intros Hr node. unfold set_needs_default_layout.
  destruct (h !! id) as [n|] eqn:E; [|apply Hr].
  destruct (decide (id = r)) as [->|Hne].
  - rewrite list_lookup_insert_eq by (eapply lookup_lt_Some; eauto).
    intros [= <-]. reflexivity.
  - rewrite list_lookup_insert_ne by exact Hne. apply Hr.
Qed.

Lemma set_needs_default_layout_sets (h : list NgNode) (id : nat) :
  forall node, set_needs_default_layout h id !! id = Some node ->
    needs_default_layout node = true.
Proof.
  intros node. unfold set_needs_default_layout.
  destruct (h !! id) as [n|] eqn:E.
  - rewrite list_lookup_insert_eq by (eapply lookup_lt_Some; eauto).
    intros [= <-]. reflexivity.
  - rewrite E. discriminate.
Qed.

Lemma fold_left_needs_default_layout (l : list nat) :
  forall h r,
    (In r l \/ forall node, h !! r = Some node -> needs_default_layout node = true) ->
    forall node, fold_left set_needs_default_layout l h !! r = Some node ->
      needs_default_layout node = true.
Proof.
  induction l as [|x l IH]; intros h r H; cbn [fold_left].
  - destruct H as [[]|H]. exact H.
  - apply IH. destruct H as [[->|Hin]|H].
    + right. apply set_needs_default_layout_sets.
    + left. exact Hin.
    + right. apply set_needs_default_layout_keeps. exact H.
Qed.

(** X15. When [TranslateGraph] succeeds, every result of the function it
    returns asks for the default (row-major) layout. *)
Theorem results_need_default_layout (ext : Externals) (inputs : list (list Z))
    (sim : list (option Tensor)) (g : list Node) (nm : string)
    (tensors : list Tensor) (t : Translation) :
  TranslateGraph ext inputs sim g nm tensors = Ok t ->
  forall r node,
    In r (f_results (ng_function t)) -> ng_nodes t !! r = Some node ->
    needs_default_layout node = true.
Proof.
  unfold TranslateGraph. intros H.
  apply obind_ok in H as ([[P R] O] & _ & H).
  apply obind_ok in H as ([[pl rl] s] & _ & H).
  apply obind_ok in H as (fp & _ & H).
  apply obind_ok in H as (fr & _ & H).
  apply obind_ok in H as ([f h] & Hfin & H).
  injection H as <-. cbn [ng_function ng_nodes fst snd].
  unfold finish_function in Hfin.
  destruct (Function_validate ext (heap s) _); [discriminate|].
  destruct (run_passes ext _ _ (heap s) _) as [[h' f']|]; [|discriminate].
  injection Hfin as <- <-.
  intros r node Hr. apply fold_left_needs_default_layout. left. exact Hr.
Qed.

Lemma results_need_default_layout_witness :
  exists t,
    TranslateGraph ref_ext [[2; 3]] [None] where_graph "f" [] = Ok t /\
    forall r node,
      In r (f_results (ng_function t)) -> ng_nodes t !! r = Some node ->
      needs_default_layout node = true.
Proof.
  destruct (TranslateGraph ref_ext [[2; 3]] [None] where_graph "f" []) as [t| | |] eqn:E;
    [|vm_compute in E; discriminate..].
  exists t. split; [reflexivity|].
  exact (results_need_default_layout ref_ext [[2; 3]] [None] where_graph "f" [] t E).
Defined.

(** ** FusedBatchNorm *)

Lemma GetInputNodes5_ok (op : Node) (s s' : State)
    (r : Output * Output * Output * Output * Output) :
  GetInputNodes5 op s = Ok (r, s') ->
  s' = s /\ length (in_edges op) = 5%nat /\
  GetInputNode op 3 s = Ok (r.1.2, s) /\ GetInputNode op 4 s = Ok (r.2, s).
Proof.
  unfold GetInputNodes5. intros H.
  apply bind_ok in H as ([] & s0 & H0 & H). apply lift_ok in H0 as [H0 ->].
  apply bind_ok in H as (a & s1 & H1 & H). apply GetInputNode_state in H1 as ->.
  apply bind_ok in H as (b & s1 & H2 & H). apply GetInputNode_state in H2 as ->.
  apply bind_ok in H as (c & s1 & H3 & H). apply GetInputNode_state in H3 as ->.
  apply bind_ok in H as (d & s1 & H4 & H).
  pose proof (GetInputNode_state _ _ _ _ _ H4) as ->.
  apply bind_ok in H as (e & s1 & H5 & H).
  pose proof (GetInputNode_state _ _ _ _ _ H5) as ->.
  apply ret_ok in H as [-> ->]. cbn [fst snd]. repeat split; auto.
  unfold ValidateInputCount, num_inputs in H0.
  destruct (Z.of_nat (length (in_edges op)) =? 5) eqn:E; [|discriminate].
  apply Z.eqb_eq in E. lia.
Qed.

Lemma GetInputNodes5_inputs (op : Node) (s s' : State) (a b c d e : Output) :
  GetInputNodes5 op s = Ok ((a, b, c, d, e), s') ->
  s' = s /\ GetInputNode op 0 s = Ok (a, s) /\ GetInputNode op 1 s = Ok (b, s) /\
  GetInputNode op 2 s = Ok (c, s) /\ GetInputNode op 3 s = Ok (d, s) /\
  GetInputNode op 4 s = Ok (e, s).
Proof.
  unfold GetInputNodes5. intros H.
  apply bind_ok in H as ([] & s0 & H0 & H). apply lift_ok in H0 as [_ ->].
  apply bind_ok in H as (a' & s1 & Ha & H).
  pose proof (GetInputNode_state _ _ _ _ _ Ha) as ->.
  apply bind_ok in H as (b' & s1 & Hb & H).
  pose proof (GetInputNode_state _ _ _ _ _ Hb) as ->.
  apply bind_ok in H as (c' & s1 & Hc & H).
  pose proof (GetInputNode_state _ _ _ _ _ Hc) as ->.
  apply bind_ok in H as (d' & s1 & Hd & H).
  pose proof (GetInputNode_state _ _ _ _ _ Hd) as ->.
  apply bind_ok in H as (e' & s1 & He & H).
  pose proof (GetInputNode_state _ _ _ _ _ He) as ->.
  apply ret_ok in H as [[= -> -> -> -> ->] ->]. auto 8.
Qed.

(** X8. When [TranslateFusedBatchNormOp] succeeds it has taken the input
    to the channels-first layout, built a BatchNormInference node on it
    and on the scale, the offset, the mean and the variance (inputs 1 to
    4), with the epsilon of the node, or 0.0001 when it has none, and
    taken the result back to the layout of the node. For
    _FusedBatchNormEx, whose activation must be Relu, it has built a Relu
    node on that result and saved it, alone. Otherwise it has saved five
    outputs, or six for FusedBatchNormV3: that result, then the mean and
    the variance it was given, then the same two again, and for V3 the
    mean once more. *)
Theorem FusedBatchNorm_outputs (ext : Externals) (op : Node) (s s' : State) :
  TranslateFusedBatchNormOp ext op s = Ok (tt, s') ->
  let epsilon :=
    match GetNodeAttr_float op "epsilon" with
    | Ok e => e
    | _ => 953267991
    end in
  exists ng_input ng_scale ng_offset ng_mean ng_variance fmt input' h1 batch_norm h2
         returned h3 ng_out,
    GetInputNode op 0 s = Ok (ng_input, s) /\ GetInputNode op 1 s = Ok (ng_scale, s) /\
    GetInputNode op 2 s = Ok (ng_offset, s) /\ GetInputNode op 3 s = Ok (ng_mean, s) /\
    GetInputNode op 4 s = Ok (ng_variance, s) /\
    GetNodeAttr_string op "data_format" = Ok fmt /\ (fmt = "NHWC" \/ fmt = "NCHW") /\
    NHWCtoNCHW ext (name op) (fmt ==s "NHWC") ng_input (heap s) = Some (input', h1) /\
    adds h1 "BatchNormInference" [ArgFloat epsilon]
      [input'; ng_scale; ng_offset; ng_mean; ng_variance] {[name op]} batch_norm h2 /\
    NCHWtoNHWC ext (name op) (fmt ==s "NHWC") batch_norm h2 = Some (returned, h3) /\
    (if type_string op ==s "_FusedBatchNormEx" then
       GetNodeAttr_string op "activation_mode" = Ok "Relu" /\
       adds h3 "Relu" [] [returned] {[name op]} ng_out (heap s')
     else ng_out = returned /\ heap s' = h3) /\
    outputs_of s' (name op) =
      outputs_of s (name op) ++
        (if type_string op ==s "_FusedBatchNormEx" then [ng_out]
         else
           [ng_out; ng_mean; ng_variance; ng_mean; ng_variance] ++
           (if type_string op ==s "FusedBatchNormV3" then [ng_mean] else [])).
Proof.
  intros H epsilon. unfold TranslateFusedBatchNormOp in H.
  apply bind_ok in H as ([[[[x sc] off] mean] var] & s0 & H0 & H).
  apply GetInputNodes5_inputs in H0 as (-> & Hi0 & Hi1 & Hi2 & Hi3 & Hi4).
  read_in H fmt Hfmt.
  destruct (negb (fmt ==s "NHWC") && negb (fmt ==s "NCHW")) eqn:Efmt; [discriminate|].
  assert (Hformat : fmt = "NHWC" \/ fmt = "NCHW").
  { destruct (String.eqb_spec fmt "NHWC"); [auto|].
    destruct (String.eqb_spec fmt "NCHW"); [auto|discriminate]. }
  cbv zeta in H. fold epsilon in H.
  layout_in H x' s1 Hx' Hm1. build_in H bn s2 Hbn Hm2. layout_in H bn' s3 Hbn' Hm3.
  assert (Hmap : outputs_of s3 (name op) = outputs_of s (name op)).
  { unfold outputs_of. rewrite Hm3, Hm2, Hm1. reflexivity. }
  destruct (type_string op ==s "_FusedBatchNormEx") eqn:Eex.
  - read_in H mode Hmode.
    destruct (mode ==s "Relu") eqn:Emode; [|discriminate].
    apply String.eqb_eq in Emode. subst mode.
    build_in H relu s4 Hrelu Hm4.
    apply SaveNgOp_ok in H as (Hh & Hout & _).
    exists x, sc, off, mean, var, fmt, x', (heap s1), bn, (heap s2), bn', (heap s3), relu.
    rewrite Hh. repeat (split; [assumption|]). split; [auto|].
    rewrite Hout. unfold outputs_of in *. rewrite Hm4, Hmap. reflexivity.
  - apply bind_ok in H as ([] & s4 & H4 & H). apply SaveNgOp_ok in H4 as (Hh4 & Ho4 & _).
    apply bind_ok in H as ([] & s5 & H5 & H). apply SaveNgOp_ok in H5 as (Hh5 & Ho5 & _).
    apply bind_ok in H as ([] & s6 & H6 & H). apply SaveNgOp_ok in H6 as (Hh6 & Ho6 & _).
    apply bind_ok in H as ([] & s7 & H7 & H). apply SaveNgOp_ok in H7 as (Hh7 & Ho7 & _).
    apply bind_ok in H as ([] & s8 & H8 & H). apply SaveNgOp_ok in H8 as (Hh8 & Ho8 & _).
    exists x, sc, off, mean, var, fmt, x', (heap s1), bn, (heap s2), bn', (heap s3), bn'.
    repeat (split; [assumption|]).
    destruct (type_string op ==s "FusedBatchNormV3").
    + apply SaveNgOp_ok in H as (Hh9 & Ho9 & _). split.
      * split; [reflexivity|congruence].
      * rewrite Ho9, Ho8, Ho7, Ho6, Ho5, Ho4, Hmap. rewrite <- !app_assoc. reflexivity.
    + apply ret_ok in H as [_ ->]. split.
      * split; [reflexivity|congruence].
      * rewrite Ho8, Ho7, Ho6, Ho5, Ho4, Hmap. rewrite <- !app_assoc. reflexivity.
Qed.

(** ** Unpack *)

Lemma unpack_output_ok (ext : Externals) (op : Node) (x : Output) (rank axis i : Z)
    (s s' : State) :
  unpack_output ext op x rank axis i s = Ok (tt, s') ->
  0 <= axis < rank /\
  exists news o,
    heap s' = heap s ++ news /\ length news = 5%nat /\
    outputs_of s' (name op) = outputs_of s (name op) ++ [o].
Proof.
  unfold unpack_output. intros H.
  destruct ((axis <? 0) || (rank <=? axis)) eqn:E; [discriminate|].
  split; [lia|].
  apply bind_ok in H as (b & s1 & H1 & H).
  apply ConstructNgNode_grows in H1 as (n1 & Hh1 & Hm1 & _).
  apply bind_ok in H as (e & s2 & H2 & H).
  apply ConstructNgNode_grows in H2 as (n2 & Hh2 & Hm2 & _).
  apply bind_ok in H as (sl & s3 & H3 & H).
  apply ConstructNgNode_grows in H3 as (n3 & Hh3 & Hm3 & _).
  apply bind_ok in H as (ax & s4 & H4 & H).
  apply ConstructNgNode_grows in H4 as (n4 & Hh4 & Hm4 & _).
  apply bind_ok in H as (sq & s5 & H5 & H).
  apply ConstructNgNode_grows in H5 as (n5 & Hh5 & Hm5 & _).
  apply SaveNgOp_ok in H as (Hh & Hout & _).
  exists [n1; n2; n3; n4; n5], sq. split; [|split; [reflexivity|]].
  - rewrite Hh, Hh5, Hh4, Hh3, Hh2, Hh1. rewrite <- !app_assoc. reflexivity.
  - rewrite Hout. unfold outputs_of. rewrite Hm5, Hm4, Hm3, Hm2, Hm1. reflexivity.
Qed.

Lemma unpack_loop_ok (ext : Externals) (op : Node) (x : Output) (rank axis : Z)
    (turns : list Z) :
  forall s s',
    for_each (unpack_output ext op x rank axis) turns s = Ok (tt, s') ->
    (turns <> [] -> 0 <= axis < rank) /\
    exists news outs,
      heap s' = heap s ++ news /\ length news = (5 * length turns)%nat /\
      outputs_of s' (name op) = outputs_of s (name op) ++ outs /\
      length outs = length turns.
Proof.
  induction turns as [|i turns IH]; intros s s'; cbn [for_each].
  - intros [= <-]. split; [congruence|]. exists [], []. rewrite !app_nil_r. auto.
  - intros H. apply bind_ok in H as ([] & s1 & H1 & H).
    apply unpack_output_ok in H1 as (Hax & n1 & o & Hh1 & Hl1 & Ho1).
    apply IH in H as (_ & news & outs & Hh & Hl & Ho & Hlo).
    split; [auto|]. exists (n1 ++ news), (o :: outs).
    rewrite Hh, Hh1, Ho, Ho1, <- !app_assoc, length_app. simpl. repeat split; auto; lia.
Qed.

(** X9. When [TranslateUnpackOp] succeeds on a node whose attribute
    [num] is n, it has saved n outputs for the node (none at all when n is
    not positive) and built five nodes for each of them; the axis, counted
    from the end when it is negative, then lies within the rank of the
    input. *)
Theorem Unpack_outputs (ext : Externals) (op : Node) (s s' : State) :
  TranslateUnpackOp ext op s = Ok (tt, s') ->
  exists ng_input rank tf_axis num_outputs news outs,
    GetInputNode op 0 s = Ok (ng_input, s) /\
    get_rank ng_input s = Ok (rank, s) /\
    GetNodeAttr_int op "axis" = Ok tf_axis /\
    GetNodeAttr_int op "num" = Ok num_outputs /\
    heap s' = heap s ++ news /\ length news = (5 * Z.to_nat num_outputs)%nat /\
    outputs_of s' (name op) = outputs_of s (name op) ++ outs /\
    length outs = Z.to_nat num_outputs /\
    (0 < num_outputs -> rank <= INT_MAX -> - rank <= tf_axis < rank).
Proof.
  unfold TranslateUnpackOp. intros H.
  apply bind_ok in H as ([] & s0 & H0 & H). apply lift_ok in H0 as [_ ->].
  apply bind_ok in H as (x & s0 & Hx & H).
  pose proof (GetInputNode_state _ _ _ _ _ Hx) as ->.
  apply bind_ok in H as (axis & s0 & H0 & H). apply lift_ok in H0 as [Haxis ->].
  apply bind_ok in H as (num & s0 & H0 & H). apply lift_ok in H0 as [Hnum ->].
  apply bind_ok in H as (rank & s0 & Hr & H).
  pose proof (get_rank_ok _ _ _ _ Hr) as (-> & et & ds & _ & Hrank).
  apply unpack_loop_ok in H as (Hax & news & outs & Hh & Hl & Ho & Hlo).
  rewrite length_map, length_seq in Hl, Hlo.
  exists x, rank, axis, num, news, outs. repeat split; auto.
  - assert (Hne : map Z.of_nat (seq 0 (Z.to_nat num)) <> []).
    { destruct (Z.to_nat num) eqn:E; [lia|]. discriminate. }
    apply Hax in Hne. revert Hne. intros Hne.
    assert (Hi : INT_MIN <= axis <= INT_MAX).
    { unfold GetNodeAttr_int in Haxis.
      destruct (attrs op !! "axis") as [[]|]; try discriminate.
      destruct ((INT_MIN <=? i) && (i <=? INT_MAX)) eqn:E; [|discriminate].
      injection Haxis as <-. lia. }
    unfold INT_MIN, INT_MAX in *.
    destruct (axis <? 0) eqn:E; [|lia].
    destruct (Z_lt_le_dec (rank + axis) (- 2 ^ 31)) as [Hlow|Hhigh].
    + exfalso. lia.
    + rewrite wrap_signed_small in Hne by lia. lia.
  - assert (Hne : map Z.of_nat (seq 0 (Z.to_nat num)) <> []).
    { destruct (Z.to_nat num) eqn:E; [lia|]. discriminate. }
    apply Hax in Hne.
    assert (Hi : INT_MIN <= axis <= INT_MAX).
    { unfold GetNodeAttr_int in Haxis.
      destruct (attrs op !! "axis") as [[]|]; try discriminate.
      destruct ((INT_MIN <=? i) && (i <=? INT_MAX)) eqn:E; [|discriminate].
      injection Haxis as <-. lia. }
    unfold INT_MIN, INT_MAX in *.
    destruct (axis <? 0) eqn:E; [|lia].
    rewrite wrap_signed_small in Hne by lia. lia.
Qed.

(** ** GatherV2 *)


(** ** ConcatV2 *)


(** ** Scalars from static inputs *)

(** X12. [GetStaticInputNode] makes a scalar constant of the first
    element of a static input, for the element types float, double, int32
    and int64 alone: for any other type that the bridge can name it
    returns an Internal error, and when it succeeds the node it built is a
    Constant of shape [] holding that one element. *)
Theorem GetStaticInputNode_types (ext : Externals) (g : gmap string Node) (op : Node)
    (input_index : Z) (sim : list (option Tensor)) (dt : DataType) (type : ElementType)
    (s : State) :
  TFDataTypeToNGraphElementType ext dt = Ok type ->
  (dt ∉ [DT_FLOAT; DT_DOUBLE; DT_INT32; DT_INT64] ->
   GetStaticInputNode ext g op input_index sim dt s =
     Err INTERNAL
       ("GetStaticInputNode: TF data type " +:+ DataType_Name dt +:+ " not supported.")) /\
  (forall o s',
     GetStaticInputNode ext g op input_index sim dt s = Ok (o, s') ->
     dt ∈ [DT_FLOAT; DT_DOUBLE; DT_INT32; DT_INT64] /\
     exists T v rest node,
       DataTypeToEnum T = dt /\
       GetStaticInputVector (convert ext) g T op input_index sim = Ok (v :: rest) /\
       heap s' = heap s ++ [node] /\ built_for (name op) "Constant" node /\
       ng_args node = [ArgEt type; ArgShape []; ArgValues [v]] /\
       o = (length (heap s), 0%nat)).
Proof.
  intros Htype. unfold GetStaticInputNode.
  unfold bind at 1. unfold lift at 1. rewrite Htype.
  assert (Hscalar : forall T o s',
            DataTypeToEnum T = dt ->
            bind (lift (GetStaticInputVector (convert ext) g T op input_index sim))
              (fun vec =>
                 match vec with
                 | [] => crash "vec[0] out of range"
                 | v :: _ =>
                     ConstructNgNode ext (name op) "Constant"
                       [ArgEt type; ArgShape []; ArgValues [v]] []
                 end) s = Ok (o, s') ->
            exists T v rest node,
              DataTypeToEnum T = dt /\
              GetStaticInputVector (convert ext) g T op input_index sim = Ok (v :: rest) /\
              heap s' = heap s ++ [node] /\ built_for (name op) "Constant" node /\
              ng_args node = [ArgEt type; ArgShape []; ArgValues [v]] /\
              o = (length (heap s), 0%nat)).
  { intros T o s' HT H. apply bind_ok in H as (vec & s0 & H0 & H).
    apply lift_ok in H0 as [Hvec ->]. destruct vec as [|v rest]; [discriminate|].
    apply ConstructNgNode_grows in H as (node & Hh & _ & Ho & Hb & Hargs & _).
    exists T, v, rest, node. repeat split; try assumption; apply Hb. }
  split.
  - intros Hnot. destruct dt; try reflexivity; exfalso; apply Hnot;
      repeat first [apply list_elem_of_here | apply list_elem_of_further].
  - intros o s' H.
    destruct dt; try (unfold fail in H; discriminate H);
      (split; [repeat first [apply list_elem_of_here | apply list_elem_of_further]|]).
    + apply (Hscalar c_float); [reflexivity|exact H].
    + apply (Hscalar c_double); [reflexivity|exact H].
    + apply (Hscalar c_int32); [reflexivity|exact H].
    + apply (Hscalar c_int64); [reflexivity|exact H].
Qed.

(** ** Reductions *)

(** X2. A reduction handler checks the axes it is given against the rank
    of its input: when it succeeds, every axis lies in [-rank, rank), and
    the Constant it hands to the reduction holds the axes counted from the
    front, each in [0, rank); when some axis is out of range it returns
    InvalidArgument. It builds that Constant and the reduction, both tagged
    with the name of the node. *)
Theorem reduction_axes (ext : Externals) (T : string) (g : gmap string Node)
    (op : Node) (sim : list (option Tensor)) (s : State) :
  (forall s',
     TranslateDirectReduceOp ext T g op sim s = Ok (tt, s') ->
     exists x axes rank c r,
       GetInputNode op 0 s = Ok (x, s) /\
       GetStaticInputVector (convert ext) g c_int64 op 1 sim = Ok axes /\
       get_rank x s = Ok (rank, s) /\
       heap s' = heap s ++ [c; r] /\
       built_for (name op) "Constant" c /\ built_for (name op) T r /\
       ng_inputs r = [x; (length (heap s), 0%nat)] /\
       (rank <= INT_MAX ->
        Forall (fun a => - rank <= a < rank) axes /\
        ng_args c = [ArgEt et_i64; ArgShape [Z.of_nat (length axes)];
                     ArgValues (map (positive_axis rank) axes)] /\
        Forall (fun a => 0 <= a < rank) (map (positive_axis rank) axes))) /\
  (forall x axes rank,
     is_arithmetic_reduction T || is_logical_reduction T = true ->
     GetInputNode op 0 s = Ok (x, s) ->
     GetStaticInputVector (convert ext) g c_int64 op 1 sim = Ok axes ->
     get_rank x s = Ok (rank, s) -> rank <= INT_MAX ->
     ~ Forall (fun a => - rank <= a < rank) axes ->
     exists msg, TranslateDirectReduceOp ext T g op sim s = Err INVALID_ARGUMENT msg).
Proof.
  split.
  - intros s' H. unfold TranslateDirectReduceOp in H.
    destruct (negb (is_arithmetic_reduction T || is_logical_reduction T));
      [discriminate|].
    unfold TranslateReduceOp in H.
    apply bind_ok in H as (x & s0 & Hx & H).
    pose proof (GetInputNode_state _ _ _ _ _ Hx) as ->.
    apply bind_ok in H as (axes & s0 & H0 & H). apply lift_ok in H0 as [Haxes ->].
    apply bind_ok in H as (rank & s0 & Hr & H).
    pose proof (get_rank_ok _ _ _ _ Hr) as (-> & et & ds & _ & Hrank).
    apply bind_ok in H as ([] & s0 & H0 & H). apply lift_ok in H0 as [Hcheck ->].
    apply bind_ok in H as (c & s1 & H1 & H).
    apply ConstructNgNode_grows in H1 as (nc & Hh1 & Hm1 & Hc & Hb1 & Hargs1 & _).
    apply bind_ok in H as (r & s2 & H2 & H).
    apply ConstructNgNode_grows in H2 as (nr & Hh2 & Hm2 & _ & Hb2 & _ & Hins2).
    apply SaveNgOp_ok in H as (Hh & _).
    exists x, axes, rank, nc, nr.
    split; [exact Hx|]. split; [exact Haxes|]. split; [exact Hr|].
    split; [rewrite Hh, Hh2, Hh1, <- app_assoc; reflexivity|].
    split; [exact Hb1|]. split; [exact Hb2|].
    split; [rewrite Hins2, Hc; reflexivity|].
    intros Hmax.
    assert (Hr0 : 0 <= rank <= INT_MAX) by lia.
    pose proof (CheckAxisDimInRange_status axes rank Hr0) as Hacc.
    rewrite Hcheck in Hacc.
    assert (Hpos : map (reduction_axis rank) axes = map (positive_axis rank) axes).
    { apply map_ext_Forall. eapply Forall_impl; [exact Hacc|].
      intros a Ha. apply reduction_axis_in_range; assumption. }
    split; [exact Hacc|]. split.
    + rewrite Hargs1, length_map, Hpos. reflexivity.
    + apply Forall_map. eapply Forall_impl; [exact Hacc|].
      intros a Ha. apply reduction_axis_in_range; assumption.
  - intros x axes rank HT Hx Haxes Hr Hmax Hnot.
    pose proof (get_rank_ok _ _ _ _ Hr) as (_ & et & ds & _ & Hrank).
    assert (Hr0 : 0 <= rank <= INT_MAX) by lia.
    pose proof (CheckAxisDimInRange_status axes rank Hr0) as Hacc.
    unfold TranslateDirectReduceOp. rewrite HT. cbn [negb].
    unfold TranslateReduceOp.
    unfold bind at 1. rewrite Hx.
    unfold bind at 1. unfold lift at 1. rewrite Haxes.
    unfold bind at 1. rewrite Hr.
    unfold bind at 1. unfold lift at 1.
    destruct (CheckAxisDimInRange axes rank) as [[]|code msg| |].
    + contradiction.
    + rewrite Hacc. eauto.
    + contradiction.
    + contradiction.
Qed.

(** ** Pad *)

(** X4. When [TranslatePadOp] succeeds, the paddings it read have an even
    number of elements, and it has built, in this order and each tagged
    with the name of the node: the Constant of the padding value, a zero
    of the element type of the input (a PadV2 brings its own as input 2,
    and nothing is built for it); the two Constants of the elements of
    even and of odd position of the paddings, which taken in turn give
    the paddings back; and the Pad node, on the input, the two Constants
    and the padding value, with the mode CONSTANT, or for a MirrorPad the
    mode of the node, which is REFLECT or SYMMETRIC. The Pad node is what
    is saved for the node. *)
Theorem Pad_paddings (ext : Externals) (g : gmap string Node) (op : Node)
    (sim : list (option Tensor)) (s s' : State) :
  TranslatePadOp ext g op sim s = Ok (tt, s') ->
  exists paddings x pad_val h1 mode pads_begin h2 pads_end h3 y,
    GetStaticInputVector (convert ext) g c_int64 op 1 sim = Ok paddings /\
    Nat.even (length paddings) = true /\
    interleave (pad_begin paddings) (pad_end paddings) = paddings /\
    GetInputNode op 0 s = Ok (x, s) /\
    (if type_string op ==s "PadV2" then
       GetInputNode op 2 s = Ok (pad_val, s) /\ h1 = heap s
     else
       exists et ps,
         output_info (heap s) x = Some (et, ps) /\
         adds (heap s) "Constant" [ArgEt et; ArgShape []; ArgValues [0]] []
           {[name op]} pad_val h1) /\
    (if type_string op ==s "MirrorPad" then
       GetNodeAttr_string op "mode" = Ok mode /\
       (mode = "REFLECT" \/ mode = "SYMMETRIC")
     else mode = "CONSTANT") /\
    adds h1 "Constant"
      [ArgEt et_i64; ArgShape [Z.of_nat (length paddings / 2)];
       ArgValues (pad_begin paddings)] [] {[name op]} pads_begin h2 /\
    adds h2 "Constant"
      [ArgEt et_i64; ArgShape [Z.of_nat (length paddings / 2)];
       ArgValues (pad_end paddings)] [] {[name op]} pads_end h3 /\
    adds h3 "Pad" [ArgString mode] [x; pads_begin; pads_end; pad_val] {[name op]} y
      (heap s') /\
    saved op y s s'.
Proof.
  unfold TranslatePadOp. intros H.
  apply bind_ok in H as ([[x p] v] & s1 & Hin & H).
  assert (Hpre : GetInputNode op 0 s = Ok (x, s) /\ ng_op_map s1 = ng_op_map s /\
             if type_string op ==s "PadV2" then
               GetInputNode op 2 s = Ok (v, s) /\ heap s1 = heap s
             else
               exists et ps,
                 output_info (heap s) x = Some (et, ps) /\
                 adds (heap s) "Constant" [ArgEt et; ArgShape []; ArgValues [0]] []
                   {[name op]} v (heap s1)).
  { destruct ((type_string op ==s "Pad") || (type_string op ==s "MirrorPad")) eqn:E1.
    - apply bind_ok in Hin as ([x0 p0] & s2 & H2 & Hin).
      apply GetInputNodes2_ok in H2 as (-> & Hx & _).
      apply bind_ok in Hin as (et & s2 & H2 & Hin).
      apply get_element_type_inv in H2 as [-> [ps Hps]].
      apply bind_ok in Hin as (c & s2 & H2 & Hin).
      apply ConstructNgNode_adds in H2 as [Hc Hm2].
      apply ret_ok in Hin as [[= <- <- <-] ->].
      split; [exact Hx|]. split; [exact Hm2|].
      destruct (type_string op ==s "PadV2") eqn:E2; [|eauto].
      apply String.eqb_eq in E2. rewrite E2 in E1. discriminate.
    - destruct (type_string op ==s "PadV2") eqn:E2; [|discriminate].
      apply GetInputNodes3_ok in Hin as (-> & Hx & _ & Hv). auto. }
  destruct Hpre as (Hx & Hm1 & Hval).
  apply bind_ok in H as (mode & s2 & Hmode & H).
  assert (Hm : s2 = s1 /\
               if type_string op ==s "MirrorPad" then
                 GetNodeAttr_string op "mode" = Ok mode /\
                 (mode = "REFLECT" \/ mode = "SYMMETRIC")
               else mode = "CONSTANT").
  { destruct (type_string op ==s "MirrorPad") eqn:E.
    - apply bind_ok in Hmode as (str & s3 & H3 & Hmode).
      apply lift_ok in H3 as [Hstr ->].
      destruct (str ==s "REFLECT") eqn:Er.
      { apply ret_ok in Hmode as [-> ->]. apply String.eqb_eq in Er. subst str. auto. }
      destruct (str ==s "SYMMETRIC") eqn:Es; [|discriminate].
      apply ret_ok in Hmode as [-> ->]. apply String.eqb_eq in Es. subst str. auto.
    - apply ret_ok in Hmode as [-> ->]. auto. }
  destruct Hm as [-> Hmirror].
  apply bind_ok in H as (paddings & s3 & H3 & H). apply lift_ok in H3 as [Hpad ->].
  destruct (negb (length paddings mod 2 =? 0)%nat) eqn:Eeven; [discriminate|].
  assert (Heven : Nat.even (length paddings) = true).
  { apply negb_false_iff, Nat.eqb_eq in Eeven.
    apply Nat.even_spec. exists (length paddings / 2)%nat.
    pose proof (Nat.div_mod_eq (length paddings) 2). lia. }
  build_in H b s3 Hb Hm3. build_in H e s4 He Hm4. build_in H y s5 Hy Hm5.
  apply (SaveNgOp_saved op y s) in H as [Hh Hsaved]; [|congruence].
  unfold pad_begin in Hb at 1. unfold pad_end in He at 1.
  rewrite length_map, length_seq in Hb, He.
  exists paddings, x, v, (heap s1), mode, b, (heap s3), e, (heap s4), y.
  split; [exact Hpad|]. split; [exact Heven|].
  split; [apply pads_interleave; exact Heven|]. split; [exact Hx|].
  split; [destruct (type_string op ==s "PadV2"); exact Hval|].
  split; [exact Hmirror|]. split; [exact Hb|]. split; [exact He|].
  rewrite Hh. split; [exact Hy|exact Hsaved].
Qed.

(** ** Parameters without input tensors *)

(** X16. Without input tensors, as in the overload of [TranslateGraph]
    that takes none, no formal input is turned into a constant, whatever
    its [_is_variable] attribute says: a parameter whose shape has no
    dimension of size zero is saved in the op map as the Parameter node
    built for it, and that is the only node built. *)
Theorem parameters_stay_without_tensors (ext : Externals) (inputs : list (list Z))
    (parm : Node) (plist plist' : list (option nat)) (s s' : State) :
  translate_param ext inputs [] parm plist s = Ok (plist', s') ->
  exists index ng_et ng_shape node,
    heap s' !! length (heap s) = Some node /\
    ng_type node = "Parameter" /\
    ng_args node = [ArgEt ng_et; ArgShape ng_shape] /\
    plist' = <[Z.to_nat index := Some (length (heap s))]> plist /\
    GetNodeAttr_int parm "index" = Ok index /\
    (ng_shape_check ng_shape = false ->
     heap s' = heap s ++ [node] /\
     outputs_of s' (name parm) =
       outputs_of s (name parm) ++ [(length (heap s), 0%nat)]).
Proof.
  unfold translate_param. intros H.
  destruct (GetNodeAttr_type parm "T") as [dtype| | |]; try discriminate.
  destruct (GetNodeAttr_int parm "index") as [index| | |]; try discriminate.
  apply bind_ok in H as (ng_et & s0 & H0 & H). apply lift_ok in H0 as [_ ->].
  destruct (if index <? 0 then None else inputs !! Z.to_nat index) as [tf_shape|];
    [|discriminate].
  apply bind_ok in H as (ng_shape & s0 & H0 & H). apply lift_ok in H0 as [_ ->].
  apply bind_ok in H as (p & s1 & H1 & H).
  apply ConstructNgNode_grows in H1 as (node & Hh1 & Hm1 & Hp & [Hty _] & Hargs & _).
  rewrite andb_comm in H. cbn [bool_decide negb andb] in H.
  rewrite (bool_decide_eq_true_2 _ (eq_refl : @nil Tensor = [])) in H.
  cbn [negb andb] in H.
  apply bind_ok in H as ([] & s2 & H2 & H).
  assert (Hstore : plist' = <[Z.to_nat index := Some (length (heap s))]> plist /\ s' = s2).
  { unfold store_at in H. destruct ((index <? 0) || (Z.of_nat (length plist) <=? index));
      [discriminate|].
    apply ret_ok in H as [-> ->]. subst p. auto. }
  destruct Hstore as [-> ->].
  exists index, ng_et, ng_shape, node.
  destruct (ng_shape_check ng_shape) eqn:Ez.
  - apply bind_ok in H2 as (c & s3 & H3 & H2).
    apply ConstructNgNode_grows in H3 as (nc & Hh3 & _).
    apply SaveNgOp_ok in H2 as (Hh2 & _).
    repeat split; auto; try discriminate.
    rewrite Hh2, Hh3, Hh1, <- app_assoc.
    rewrite lookup_app_r by lia. rewrite Nat.sub_diag. reflexivity.
  - apply SaveNgOp_ok in H2 as (Hh2 & Hout & _).
    repeat split; auto.
    + rewrite Hh2, Hh1. rewrite lookup_app_r by lia. rewrite Nat.sub_diag. reflexivity.
    + rewrite Hh2, Hh1. reflexivity.
    + rewrite Hout. unfold outputs_of. rewrite Hm1. subst p. reflexivity.
Qed.

(** ** SplitV *)

Lemma split_loop_ok (op : Node) (ng_split : Output) (turns : list nat) :
  forall s s',
    for_each
      (fun i =>
         out <- node_output ng_split i;;
         SetTracingInfo (name op) out;;
         SaveNgOp (name op) out) turns s = Ok (tt, s') ->
    length (heap s') = length (heap s) /\
    outputs_of s' (name op) =
      outputs_of s (name op) ++ map (fun i => (ng_split.1, i)) turns.
Proof.
  induction turns as [|i turns IH]; intros s s'; cbn [for_each].
  - intros [= <-]. rewrite app_nil_r. auto.
  - intros H. apply bind_ok in H as ([] & s1 & H1 & H).
    apply bind_ok in H1 as (out & s2 & H2 & H1).
    assert (Hout : out = (ng_split.1, i) /\ s2 = s).
    { unfold node_output in H2. destruct (heap s !! ng_split.1); [|discriminate].
      destruct (i <? length (ng_outputs n))%nat; [|discriminate].
      injection H2 as <- <-. auto. }
    destruct Hout as [-> ->].
    apply bind_ok in H1 as ([] & s3 & H3 & H1).
    apply SetTracingInfo_inv in H3 as (node & Hnode & ->).
    apply SaveNgOp_ok in H1 as (Hh1 & Ho1 & _).
    apply IH in H as (Hh & Ho).
    split.
    + rewrite Hh, Hh1. cbn [heap]. apply length_insert.
    + rewrite Ho, Ho1. unfold outputs_of at 1. cbn [ng_op_map map].
      rewrite <- app_assoc. reflexivity.
Qed.

(** What the loop over the outputs does to the heap: the node of the
    split is tagged at each turn, and nothing else changes. *)
Lemma split_loop_heap (op : Node) (ng_split : Output) (turns : list nat) :
  forall s s' n,
    for_each
      (fun i =>
         out <- node_output ng_split i;;
         SetTracingInfo (name op) out;;
         SaveNgOp (name op) out) turns s = Ok (tt, s') ->
    heap s !! ng_split.1 = Some n ->
    exists n',
      heap s' = <[ng_split.1 := n']> (heap s) /\ same_node n n' /\
      provenance_tags n' =
        (if turns is [] then ∅ else {[name op]}) ∪ provenance_tags n.
Proof.
  induction turns as [|i turns IH]; intros s s' n; cbn [for_each].
  - intros [= <-] Hn. exists n. split; [symmetry; apply list_insert_id; exact Hn|].
    split; [apply same_node_refl|]. symmetry. apply (left_id_L ∅ (∪)).
  - intros H Hn. apply bind_ok in H as ([] & s1 & H1 & H).
    apply bind_ok in H1 as (out & s2 & H2 & H1).
    assert (Hout : out = (ng_split.1, i) /\ s2 = s).
    { unfold node_output in H2. rewrite Hn in H2.
      destruct (i <? length (ng_outputs n))%nat; [|discriminate].
      injection H2 as <- <-. auto. }
    destruct Hout as [-> ->].
    apply bind_ok in H1 as ([] & s3 & H3 & H1).
    apply SetTracingInfo_inv in H3 as (node & Hnode & ->). cbn [fst] in Hnode.
    rewrite Hn in Hnode. injection Hnode as <-.
    apply SaveNgOp_ok in H1 as (Hh1 & _). cbn [heap fst] in Hh1.
    destruct (IH s1 s' (with_tracing_info (name op) ng_split.1 n) H)
      as (n' & Hh & Hsame & Htags).
    { rewrite Hh1. apply list_lookup_insert_eq. apply lookup_lt_Some in Hn. exact Hn. }
    exists n'. split; [rewrite Hh, Hh1; apply list_insert_insert_eq|]. split.
    + eapply same_node_trans; [apply same_node_tagged|exact Hsame].
    + rewrite Htags. cbn [provenance_tags with_tracing_info].
      destruct turns; [apply (left_id_L ∅ (∪))|].
      rewrite (assoc_L (∪)), union_same. reflexivity.
Qed.

(** X23. When [TranslateSplitVOp] succeeds it has read one axis from the
    static input 2 and built, each tagged with the name of the node, the
    Constant of the axis, made positive and kept in an [int], and the
    Constant of the lengths that [size_splits] computes from the static
    input 1 and the dimension of the input along the axis. For one length
    nothing more is built, and the input itself is saved as the output of
    the node. For any other number n of lengths one VariadicSplit node is
    built on the input and the two Constants, whose outputs 0 to n-1 are
    saved in this order; it is tagged with the name of the node at each
    turn of the loop that saves them, and so not at all when n is 0. *)
Theorem SplitV_outputs (ext : Externals) (g : gmap string Node) (op : Node)
    (sim : list (option Tensor)) (s s' : State) :
  TranslateSplitVOp ext g op sim s = Ok (tt, s') ->
  exists ng_input shape axis given lengths ng_split_dim h1 ng_split_length h2,
    let rank := wrap_signed 32 (Z.of_nat (length shape)) in
    let split_dim := wrap_signed 32 (axis + (if axis <? 0 then rank else 0)) in
    GetInputNode op 0 s = Ok (ng_input, s) /\
    static_shape (heap s) ng_input = Some shape /\
    GetStaticInputVector (convert ext) g c_int64 op 2 sim = Ok [axis] /\
    GetStaticInputVector (convert ext) g c_int32 op 1 sim = Ok given /\
    size_splits given (if split_dim <? 0 then None else shape !! Z.to_nat split_dim) =
      Ok lengths /\
    adds (heap s) "Constant" [ArgEt et_i32; ArgShape []; ArgValues [split_dim]] []
      {[name op]} ng_split_dim h1 /\
    adds h1 "Constant"
      [ArgEt et_i32; ArgShape [Z.of_nat (length lengths)]; ArgValues lengths] []
      {[name op]} ng_split_length h2 /\
    (if (length lengths =? 1)%nat then heap s' = h2
     else
       adds h2 "VariadicSplit" [] [ng_input; ng_split_dim; ng_split_length]
         (if lengths is [] then ∅ else {[name op]}) (length h2, 0%nat) (heap s')) /\
    outputs_of s' (name op) =
      outputs_of s (name op) ++
        (if (length lengths =? 1)%nat then [ng_input]
         else map (fun i => (length h2, i)) (seq 0 (length lengths))).
Proof.
  unfold TranslateSplitVOp. intros H.
  apply bind_ok in H as (x & s0 & Hx & H).
  pose proof (GetInputNode_state _ _ _ _ _ Hx) as ->.
  shape_in H shape Hshape.
  read_in H axes Haxes.
  destruct (negb (length axes =? 1)%nat) eqn:Eone; [discriminate|].
  apply negb_false_iff, Nat.eqb_eq in Eone.
  destruct axes as [|axis [|? ?]]; try discriminate.
  apply bind_ok in H as ([] & s0 & H0 & H). apply lift_ok in H0 as [_ ->].
  cbv zeta in H. cbn [hd] in H.
  build_in H c1 s1 Hc1 Hm1.
  read_in H given Hgiven. read_in H lengths Hlengths.
  build_in H c2 s2 Hc2 Hm2.
  exists x, shape, axis, given, lengths, c1, (heap s1), c2, (heap s2).
  cbv zeta. repeat (split; [assumption|]).
  destruct (length lengths =? 1)%nat eqn:Elen; cbn [negb] in H.
  - apply SaveNgOp_ok in H as (Hh & Ho & _). split; [exact Hh|].
    rewrite Ho. unfold outputs_of. rewrite Hm2, Hm1. reflexivity.
  - apply bind_ok in H as (sp & s3 & H3 & H).
    apply make_shared_inv in H3 as (outs & -> & ->).
    pose proof (split_loop_ok _ _ _ _ _ H) as (_ & Ho). cbn [heap fst] in Ho.
    destruct (split_loop_heap _ _ _ _ _
                (new_node "VariadicSplit" [] [x; c1; c2] outs) H)
      as (n' & Hh & (Hty & Hargs & Hins & _) & Htags).
    { cbn [heap fst]. rewrite lookup_app_r by lia. rewrite Nat.sub_diag. reflexivity. }
    cbn [heap fst] in Hh. rewrite insert_app_r_alt, Nat.sub_diag in Hh by lia.
    cbn [insert list_insert] in Hh. split.
    + exists n'. split; [exact Hh|]. split; [reflexivity|].
      repeat split; try assumption. rewrite Htags.
      cbn [provenance_tags new_node].
      destruct lengths; cbn [length seq]; apply (right_id_L ∅ (∪)).
    + rewrite Ho. unfold outputs_of at 1. cbn [ng_op_map].
      fold (outputs_of s2 (name op)). unfold outputs_of at 1. rewrite Hm2, Hm1.
      reflexivity.
Qed.

(** ** Return values *)

(** X24. One turn of the loop over the return values, when it succeeds:
    the node has exactly one input, and the slot of the result list that
    its [index] names, which lies within the list, now holds a Result node
    built on the output of the producer and tagged with the name of the
    return value; nothing is saved in the op map. *)
Theorem translate_retval_slot (ext : Externals) (n : Node)
    (rl rl' : list (option nat)) (s s' : State) :
  translate_retval ext n rl s = Ok (rl', s') ->
  exists index result node,
    length (in_edges n) = 1%nat /\
    GetNodeAttr_int n "index" = Ok index /\
    GetInputNode n 0 s = Ok (result, s) /\
    0 <= index < Z.of_nat (length rl) /\
    rl' = <[Z.to_nat index := Some (length (heap s))]> rl /\
    heap s' = heap s ++ [node] /\ built_for (name n) "Result" node /\
    ng_inputs node = [result] /\ ng_op_map s' = ng_op_map s.
Proof.
  unfold translate_retval. intros H.
  destruct (negb (num_inputs n =? 1)) eqn:E1; [discriminate|].
  destruct (GetNodeAttr_int n "index") as [index| | |]; try discriminate.
  apply bind_ok in H as (result & s0 & Hr & H).
  pose proof (GetInputNode_state _ _ _ _ _ Hr) as ->.
  apply bind_ok in H as (r & s1 & H1 & H).
  apply ConstructNgNode_grows in H1 as (node & Hh & Hm & Ho & Hb & _ & Hins).
  unfold store_at in H.
  destruct ((index <? 0) || (Z.of_nat (length rl) <=? index)) eqn:E2; [discriminate|].
  apply ret_ok in H as [-> ->]. subst r.
  exists index, result, node. repeat split; auto; try lia; try apply Hb.
  unfold num_inputs in E1. apply negb_false_iff, Z.eqb_eq in E1. lia.
Qed.

(** ** The statuses of the handlers *)

Section MoreErrorKinds.

Variable codes : list Code.
Hypothesis has_invalid_argument : INVALID_ARGUMENT ∈ codes.
Hypothesis has_not_found : NOT_FOUND ∈ codes.
Hypothesis has_internal : INTERNAL ∈ codes.
Variable ext : Externals.

Lemma status_within_obind {A B} (x : Outcome A) (f : A -> Outcome B) :
  status_within codes x -> (forall a, status_within codes (f a)) ->
  status_within codes (obind x f).
Proof.
  intros Hx Hf c msg. destruct x as [a|c' msg'| |]; cbn [obind]; try discriminate.
  - apply Hf.
  - intros [= <- <-]. eapply Hx. reflexivity.
Qed.

Lemma status_within_GetStaticInputVector (g : gmap string Node) (T : CType) (op : Node)
    (i : Z) (sim : list (option Tensor)) :
  status_within codes (GetStaticInputVector (convert ext) g T op i sim).
Proof.
  unfold GetStaticInputVector. apply status_within_obind.
  { intros c msg. unfold input_node.
    destruct ((i <? 0) || (num_inputs op <=? i)); [intros [= <- <-]; assumption|].
    destruct (in_edges op !! Z.to_nat i) as [[src k]|]; [|intros [= <- <-]; assumption].
    destruct (g !! src); [discriminate|intros [= <- <-]; assumption]. }
  intros input. apply status_within_obind.
  { unfold GetStaticNodeTensor. destruct (IsArg input).
    - apply status_within_obind; [apply status_within_attr_int; assumption|].
      intros idx c msg. destruct (idx <? 0); [discriminate|].
      destruct (sim !! Z.to_nat idx) as [[t|]|]; try discriminate.
      intros [= <- <-]. assumption.
    - destruct (type_string input ==s "Const").
      + apply status_within_obind.
        { intros c msg. unfold attr_at. destruct (attrs input !! "value"); discriminate. }
        intros v c msg. destruct (FromProto (attr_tensor v)); [discriminate|].
        intros [= <- <-]. assumption.
      + intros c msg [= <- <-]. assumption. }
  intros tensor c msg. unfold TensorDataToVector.
  destruct (bool_decide _); [discriminate|].
  destruct (convertible_from (t_dtype tensor)); [discriminate|].
  intros [= <- <-]. assumption.
Qed.

Lemma errors_within_static (g : gmap string Node) (T : CType) (op : Node) (i : Z)
    (sim : list (option Tensor)) :
  errors_within codes (lift (GetStaticInputVector (convert ext) g T op i sim)).
Proof. apply errors_within_lift, status_within_GetStaticInputVector. Qed.

Lemma errors_within_get_rank (o : Output) : errors_within codes (get_rank o).
Proof.
  intros s c msg. unfold get_rank.
  destruct (output_info (heap s) o) as [[et [ds|]]|]; discriminate.
Qed.

Lemma errors_within_get_element_type (o : Output) :
  errors_within codes (get_element_type o).
Proof.
  intros s c msg. unfold get_element_type.
  destruct (output_info (heap s) o) as [[et ps]|]; discriminate.
Qed.

Lemma errors_within_node_output (o : Output) (i : nat) :
  errors_within codes (node_output o i).
Proof.
  intros s c msg. unfold node_output. destruct (heap s !! o.1); [|discriminate].
  destruct (i <? length (ng_outputs n))%nat; discriminate.
Qed.

Lemma errors_within_for_each {A} (f : A -> M unit) (l : list A) :
  (forall x, errors_within codes (f x)) -> errors_within codes (for_each f l).
Proof.
  intros Hf. induction l as [|x l IH]; cbn [for_each].
  - apply errors_within_ret.
  - apply errors_within_bind; auto.
Qed.

Lemma errors_within_accumulate {A B} (f : B -> A -> M B) (l : list A) :
  (forall b x, errors_within codes (f b x)) ->
  forall init, errors_within codes (accumulate f l init).
Proof.
  intros Hf. induction l as [|x l IH]; intros init; cbn [accumulate].
  - apply errors_within_ret.
  - apply errors_within_bind; auto.
Qed.

Lemma errors_within_input_loop (op : Node) (indices : list nat) :
  errors_within codes (input_loop op indices).
Proof.
  induction indices as [|i rest IH]; cbn [input_loop].
  - apply errors_within_ret.
  - apply errors_within_bind; [apply errors_within_GetInputNode; assumption|].
    intros o. apply errors_within_bind; [exact IH|]. intros os. apply errors_within_ret.
Qed.

Lemma errors_within_CheckAxisDimInRange (axes : list Z) (rank : Z) :
  errors_within codes (lift (CheckAxisDimInRange axes rank)).
Proof.
  apply errors_within_lift. intros c msg.
  induction axes as [|i rest IH]; cbn [CheckAxisDimInRange]; [discriminate|].
  destruct ((i <? wrap_signed 32 (- rank)) || (wrap_signed 32 rank <=? i)); [|exact IH].
  intros [= <- <-]. assumption.
Qed.

Lemma errors_within_ValidateInputCountMin (op : Node) (count : Z) :
  errors_within codes (lift (ValidateInputCountMin op count)).
Proof.
  apply errors_within_lift. intros c msg. unfold ValidateInputCountMin.
  destruct (num_inputs op <? count); [|discriminate]. intros [= <- <-]. assumption.
Qed.

Lemma errors_within_slice_ends (total : nat) (b sz sh : list Z) :
  forall i, errors_within codes (lift (slice_ends i total b sz sh)).
Proof.
  intros i. apply errors_within_lift. revert sz i.
  induction b as [|b0 b IH]; intros sz i; cbn [slice_ends]; [discriminate|].
  destruct sz as [|sz0 sz]; [discriminate|].
  destruct (sh !! i); [|discriminate].
  destruct (negb (sz0 =? -1) && negb (in_int64 (b0 + sz0))); [discriminate|].
  cbv zeta.
  destruct (negb _); [intros c msg [= <- _]; assumption|].
  apply status_within_obind; [apply IH|]. intros ends c msg. discriminate.
Qed.

Lemma errors_within_size_splits (v : list Z) (dim : option Z) :
  errors_within codes (lift (size_splits v dim)).
Proof.
  apply errors_within_lift. unfold size_splits. apply status_within_obind.
  { assert (H : forall i len idx has,
              status_within codes (split_total v i len idx has)).
    { induction v as [|l rest IH]; intros i len idx has c msg; cbn [split_total];
        [discriminate|].
      destruct (negb (l =? -1)).
      - destruct ((INT_MIN <=? len + l) && (len + l <=? INT_MAX)); [apply IH|discriminate].
      - destruct has; [intros [= <- <-]; assumption|apply IH]. }
    apply H. }
  intros [[len idx] has]. apply status_within_obind.
  { intros c msg. destruct (0 <? idx); [|discriminate]. destruct dim; discriminate. }
  intros v'. apply status_within_obind.
  { intros c msg. destruct (negb has); [|discriminate]. destruct dim; discriminate. }
  intros [] c msg; [|discriminate]. intros [= <- <-]. assumption.
Qed.

End MoreErrorKinds.

Ltac known_step ::=
  first [ apply errors_within_ConstructNgNode
        | apply errors_within_get_rank
        | apply errors_within_get_element_type
        | apply errors_within_node_output
        | solve [apply errors_within_static; assumption]
        | solve [apply errors_within_input_loop; assumption]
        | solve [apply errors_within_CheckAxisDimInRange; assumption]
        | solve [apply errors_within_ValidateInputCountMin; assumption]
        | solve [apply errors_within_slice_ends; assumption]
        | solve [apply errors_within_size_splits; assumption]
        | apply errors_within_for_each
        | apply errors_within_accumulate
        | solve [apply errors_within_GetInputNodes3; assumption]
        | solve [apply errors_within_GetInputNodes4; assumption]
        | solve [apply errors_within_GetInputNodes6; assumption]
        | solve [apply errors_within_CreateNgConv; assumption]
        | solve [apply errors_within_CreateNgDepthwiseConv; assumption]
        | solve [apply errors_within_reshape_bias_and_add; assumption]
        | solve [apply errors_within_leaky_relu; assumption] ].

(** X22. The handlers of AddN, ConcatV2, GatherV2, the reductions, the
    paddings, Slice, Softmax, SplitV, Squeeze, StridedSlice and Unpack
    never return Unimplemented: a status they return is InvalidArgument,
    NotFound or Internal. *)
Theorem handlers_never_unimplemented (ext : Externals) (T : string)
    (g : gmap string Node) (op : Node) (sim : list (option Tensor)) :
  let codes := [INVALID_ARGUMENT; NOT_FOUND; INTERNAL] in
  errors_within codes (TranslateAddNOp ext op) /\
  errors_within codes (TranslateConcatV2Op ext g op sim) /\
  errors_within codes (TranslateGatherV2Op ext g op sim) /\
  errors_within codes (TranslateDirectReduceOp ext T g op sim) /\
  errors_within codes (TranslatePadOp ext g op sim) /\
  errors_within codes (TranslateSliceOp ext g op sim) /\
  errors_within codes (TranslateSoftmaxOp ext op) /\
  errors_within codes (TranslateSplitVOp ext g op sim) /\
  errors_within codes (TranslateSqueezeOp ext op) /\
  errors_within codes (TranslateStridedSliceOp ext g op sim) /\
  errors_within codes (TranslateUnpackOp ext op).
Proof.
  intros codes.
  assert (H1 : INVALID_ARGUMENT ∈ codes) by (unfold codes; listed).
  assert (H2 : NOT_FOUND ∈ codes) by (unfold codes; listed).
  assert (H3 : INTERNAL ∈ codes) by (unfold codes; listed).
  repeat split.
  - unfold TranslateAddNOp. error_kinds. intros s c msg H. discriminate.
  - unfold TranslateConcatV2Op. error_kinds.
  - unfold TranslateGatherV2Op. error_kinds.
  - unfold TranslateDirectReduceOp, TranslateReduceOp. error_kinds.
  - unfold TranslatePadOp. error_kinds.
  - unfold TranslateSliceOp. error_kinds.
  - unfold TranslateSoftmaxOp, GetInputNodes1. error_kinds.
  - unfold TranslateSplitVOp. error_kinds.
  - unfold TranslateSqueezeOp, GetInputNodes1. error_kinds.
  - unfold TranslateStridedSliceOp. error_kinds.
  - unfold TranslateUnpackOp. error_kinds. unfold unpack_output. error_kinds.
Qed.
(** ** The statements at example inputs *)

Lemma raw_content_round_trip_witness :
  ValuesFromConstNode ref_platform c_int16 raw_int16_const = Ok ([2], [258; -2]).
Proof.
  apply (raw_content_round_trip ref_platform c_int16 raw_int16_const raw_int16_proto
           [258; -2]).
  - reflexivity.
  - vm_compute. reflexivity.
  - vm_compute. reflexivity.
  - reflexivity.
  - discriminate.
  - repeat constructor; vm_compute; intros H; discriminate H.
  - reflexivity.
Defined.

Lemma AddN_nodes_witness :
  exists s',
    TranslateAddNOp ref_ext add_n_node matmul_state = Ok (tt, s') /\
    length (heap s') = 5%nat.
Proof.
  destruct (TranslateAddNOp ref_ext add_n_node matmul_state) as [[[] s']| | |] eqn:E;
    [|vm_compute in E; discriminate..].
  exists s'. split; [reflexivity|].
  destruct (proj2 (AddN_nodes ref_ext add_n_node matmul_state) s' E)
    as (news & o & Hh & Hl & _).
  rewrite Hh, length_app, Hl. reflexivity.
Defined.

Lemma FusedBatchNorm_outputs_witness :
  exists s',
    TranslateFusedBatchNormOp ref_ext batch_norm_node matmul_state = Ok (tt, s') /\
    length (outputs_of s' "bn") = 6%nat /\
    (ng_type <$> heap s' !! 3%nat) = Some "BatchNormInference".
Proof.
  destruct (TranslateFusedBatchNormOp ref_ext batch_norm_node matmul_state)
    as [[[] s']| | |] eqn:E; [|vm_compute in E; discriminate..].
  exists s'. split; [reflexivity|].
  destruct (FusedBatchNorm_outputs ref_ext batch_norm_node matmul_state s' E)
    as (x & sc & off & m & v & fmt & x' & h1 & bn & h2 & bn' & h3 & o & _ & _ & _ & _ &
        _ & Hfmt & _ & Hin & Hbn & Hout & Hex & Ho).
  split.
  - change (name batch_norm_node) with "bn" in Ho. rewrite Ho. reflexivity.
  - vm_compute in Hfmt. injection Hfmt as <-.
    vm_compute in Hin. injection Hin as <- <-.
    destruct Hbn as (n & -> & -> & Hty & _).
    vm_compute in Hout. injection Hout as <- <-.
    destruct Hex as [_ ->]. cbn. f_equal. exact Hty.
Defined.

Lemma Unpack_outputs_witness :
  exists s',
    TranslateUnpackOp open_ext unpack_node matmul_state = Ok (tt, s') /\
    length (heap s') = 18%nat.
Proof.
  destruct (TranslateUnpackOp open_ext unpack_node matmul_state)
    as [[[] s']| | |] eqn:E; [|vm_compute in E; discriminate..].
  exists s'. split; [reflexivity|].
  destruct (Unpack_outputs open_ext unpack_node matmul_state s' E)
    as (x & rank & axis & num & news & outs & _ & _ & _ & Hnum & Hh & Hl & _).
  vm_compute in Hnum. injection Hnum as <-.
  rewrite Hh, length_app, Hl. reflexivity.
Defined.



Lemma GetStaticInputNode_types_witness :
  GetStaticInputNode ref_ext static_nodes reduce_node 1 [Some (int32_tensor [-1])]
    DT_BOOL matmul_state =
    Err INTERNAL
      ("GetStaticInputNode: TF data type " +:+ DataType_Name DT_BOOL +:+
       " not supported.").
Proof.
  apply (proj1 (GetStaticInputNode_types ref_ext static_nodes reduce_node 1
                  [Some (int32_tensor [-1])] DT_BOOL et_boolean matmul_state eq_refl)).
  intros H. repeat (apply elem_of_cons in H as [H|H]; [discriminate H|]).
  apply elem_of_nil in H. exact H.
Defined.

Lemma reduction_axes_witness :
  exists s',
    TranslateDirectReduceOp open_ext "ReduceSum" static_nodes reduce_node
      [Some (int32_tensor [-1])] matmul_state = Ok (tt, s') /\
    length (heap s') = 5%nat.
Proof.
  destruct (TranslateDirectReduceOp open_ext "ReduceSum" static_nodes reduce_node
              [Some (int32_tensor [-1])] matmul_state)
    as [[[] s']| | |] eqn:E; [|vm_compute in E; discriminate..].
  exists s'. split; [reflexivity|].
  destruct (proj1 (reduction_axes open_ext "ReduceSum" static_nodes reduce_node
                     [Some (int32_tensor [-1])] matmul_state) s' E)
    as (x & axes & rank & c & r & _ & _ & _ & Hh & _).
  rewrite Hh, length_app. reflexivity.
Defined.

Lemma Pad_paddings_witness :
  exists s',
    TranslatePadOp open_ext static_nodes pad_node [Some (int32_tensor [1; 1; 2; 2])]
      matmul_state = Ok (tt, s') /\
    outputs_of s' "pad" = [(6%nat, 0%nat)].
Proof.
  destruct (TranslatePadOp open_ext static_nodes pad_node
              [Some (int32_tensor [1; 1; 2; 2])] matmul_state)
    as [[[] s']| | |] eqn:E; [|vm_compute in E; discriminate..].
  exists s'. split; [reflexivity|].
  destruct (Pad_paddings open_ext static_nodes pad_node
              [Some (int32_tensor [1; 1; 2; 2])] matmul_state s' E)
    as (p & x & v & h1 & mode & b & h2 & e & h3 & y & _ & _ & _ & _ & Hv & _ & Hb & He &
        Hy & Hsaved).
  cbn in Hv. destruct Hv as (et & ps & _ & nv & -> & _).
  destruct Hb as (nb & -> & _). destruct He as (ne & -> & _).
  destruct Hy as (ny & _ & -> & _).
  unfold outputs_of. rewrite Hsaved.
  change (name pad_node) with "pad". rewrite lookup_insert_eq. reflexivity.
Defined.

Lemma parameters_stay_without_tensors_witness :
  exists plist' s',
    translate_param ref_ext [[2; 3]] [] (float_arg "x" 0) [None] empty_state =
      Ok (plist', s') /\
    plist' = [Some 0%nat].
Proof.
  destruct (translate_param ref_ext [[2; 3]] [] (float_arg "x" 0) [None] empty_state)
    as [[plist' s']| | |] eqn:E; [|vm_compute in E; discriminate..].
  exists plist', s'. split; [reflexivity|].
  destruct (parameters_stay_without_tensors ref_ext [[2; 3]] (float_arg "x" 0)
              [None] plist' empty_state s' E)
    as (index & et & sh & node & _ & _ & _ & Hp & Hidx & _).
  vm_compute in Hidx. injection Hidx as <-. exact Hp.
Defined.

Lemma op_loop_catches_exceptions_witness :
  exists msg,
    translate_op ref_ext static_nodes [] bad_add_node matmul_state = Err INTERNAL msg.
Proof.
  eexists.
  apply (proj2 (op_loop_catches_exceptions ref_ext static_nodes []) bad_add_node
           (binary ref_ext "Add")).
  - vm_compute. reflexivity.
  - vm_compute. reflexivity.
Defined.

Lemma SplitV_outputs_witness :
  exists s',
    TranslateSplitVOp open_ext static_nodes split_node
      [Some (int32_tensor [1]); Some (int32_tensor [1; -1])] matmul_state =
      Ok (tt, s') /\
    length (outputs_of s' "sp") = 2%nat.
Proof.
  destruct (TranslateSplitVOp open_ext static_nodes split_node
              [Some (int32_tensor [1]); Some (int32_tensor [1; -1])] matmul_state)
    as [[[] s']| | |] eqn:E; [|vm_compute in E; discriminate..].
  exists s'. split; [reflexivity|].
  destruct (SplitV_outputs open_ext static_nodes split_node
              [Some (int32_tensor [1]); Some (int32_tensor [1; -1])] matmul_state s' E)
    as (x & shape & axis & given & lengths & c1 & h1 & c2 & h2 & _ & _ & _ & Hg & Hl &
        _ & _ & _ & Ho).
  vm_compute in Hg. injection Hg as <-.
  assert (Hlen : length lengths = 2%nat).
  { unfold size_splits in Hl. vm_compute split_total in Hl. cbn [obind] in Hl.
    destruct (if _ <? 0 then None else _) as [d|]; [|discriminate Hl]. cbn in Hl.
    destruct (_ <? 0); [discriminate Hl|]. injection Hl as <-. reflexivity. }
  change (name split_node) with "sp" in Ho. rewrite Ho, Hlen. reflexivity.
Defined.

Lemma translate_retval_slot_witness :
  exists rl' s',
    translate_retval ref_ext retval_node [None] matmul_state = Ok (rl', s') /\
    rl' = [Some 3%nat].
Proof.
  destruct (translate_retval ref_ext retval_node [None] matmul_state)
    as [[rl' s']| | |] eqn:E; [|vm_compute in E; discriminate..].
  exists rl', s'. split; [reflexivity|].
  destruct (translate_retval_slot ref_ext retval_node [None] rl' matmul_state s' E)
    as (index & result & node & _ & Hidx & _ & _ & Hrl & _).
  vm_compute in Hidx. injection Hidx as <-. exact Hrl.
Defined.
